(* ===== verification/_CoqProject ===== *)
-Q . S2P
Prelude.v
Bytes.v
DataStructure.v
Database.v
Storage.v
Recipe.v
StorageSpec.v
StorageRefine.v
Crypto.v
Config.v
Chunking.v
FileIndex.v
Chunker.v
ChunkerSpec.v
IndexInv.v
Backup.v
Manager.v
RewriteRefine.v
UpdateRefine.v
DeltaStore.v
Compress.v
CompressRefine.v
Dector.v
DectorSpec.v
DectorWalk.v
Main.v
Session.v
MainRw.v
Versions.v
Fixtures.v
StoreTheorems.v
ChunkTheorems.v
BaseTheorems.v
ManagerTheorems.v
DeltaTheorems.v
MainTheorems.v
VersionTheorems.v
Coding.v
Comparator.v
DbFormat.v
Filename.v
VersionEdit.v
Crc32c.v
Log.v
LogSpec.v
WriteBatch.v
Iterator.v
Arena.v
SkipList.v
SkipListSpec.v
MemTable.v
MemTableSpec.v
Block.v
BlockSpec.v
BlockIter.v
Format.v
Env.v
Bloom.v
FilterBlock.v
Table.v
TableSpec.v
TableGet.v
Version.v
VersionSet.v
VersionSpec.v
VersionSetSpec.v
ManifestSpec.v
OverlapSpec.v
DbImpl.v
DbImplSpec.v
LevelTheorems.v
DbTheorems.v
TableTheorems.v
LevelVersions.v
ManifestTheorems.v
