(* ===== verification/Prelude.v ===== *)
(** * SimCompression: a verification development

    SimCompression is a backup store.  A file is cut into chunks where a
    rolling fingerprint says so, every chunk is hashed, and a chunk whose hash
    is new is stored in a container file; a recipe lists the chunks of the
    file.  LevelDB maps hashes to places.  Two versions of a file are compared
    by their indexes to find transfer regions, similar chunks are measured for
    delta compression, and containers can be collected and rewritten.

    ** How the parts interact

    - main (src/main.cc) opens four databases and makes a StorageCore; -c
      makes a Chunker, which calls the crypto primitives, the storage and, at
      the end, checkRecipeStatus, and then a Dector on the index of the version
      before; -rs reads an index and restores a recipe; -rw makes a
      DeltaCompressor.  The Manager works on the same databases and files.
    - The state they share is the record [env] of Database.v: the four
      databases and the files.  Operations take it and give it back, so that
      the order of effects is the order of the source.  An object is a record
      of its fields.  The result of a run is an [outcome] (this file): a value,
      a C++ exception, undefined behaviour, or that the fuel did not suffice.

    ** Files

    - Prelude.v, Bytes.v, Storage.v, Coding.v: outcomes, machine integers, lists
      with offsets, byte layouts and texts, buffers, bit operations.
    - DataStructure.v (include/dataStructure.hpp): the structs and their object
      representation; the class [Pod] is what storage, recipes and indexes are
      proved against.
    - Database.v (src/database.cpp): the class [LevelDB] of calls, its laws in
      [LevelDBReliable], files, [env].
    - Config.v (src/configure.cc), Crypto.v (src/cryptoPrimitive.cc): settings;
      hashes and encryption over the calls of OpenSSL.
    - Bytes.v, Storage.v, Recipe.v (src/storageCore.cpp): container names by
      next_permutation, chunks in containers, recipes, start and stop.
      StorageSpec.v has the abstract store, a map from a hash to data and a
      reference count, and the relation [Repr]; StorageRefine.v shows that the
      operations refine the map.
    - Chunking.v, FileIndex.v, Chunker.v (src/chunker.cc): the
      fingerprint, the byte loop, the three-level index, varSizeChunking and
      fixSizeChunking.  [cut] in Chunking.v is the specification of where a
      file is cut; ChunkerSpec.v shows that chunking is [put] of the pieces of
      [cut]; FileIndex.v and IndexInv.v keep the index well formed;
      Backup.v composes chunking and restoring.
    - Manager.v (src/manager.cc) with RewriteRefine.v and
      UpdateRefine.v: collection, rewriting, replacing chunks by deltas.
    - DeltaStore.v, Compress.v (src/compressor.cc) with CompressRefine.v: delta containers, the collection of MongoDB as the
      class [Mongo], and compress.
    - Dector.v (src/dector.cc) with DectorSpec.v and DectorWalk.v: the walk
      over two indexes.
    - Main.v (src/main.cc) with Session.v and MainRw.v: the commands, and processes one after the other;
      Versions.v: the archive of versions that such processes keep.
    - Coding.v, Crc32c.v, Log.v, WriteBatch.v (lib/leveldb): the encodings, the
      checksum, the write-ahead log and the batches it carries, with LogSpec.v.
    - Fixtures.v: concrete instances of every class, on
      which the instances of the theorems are evaluated.
    - StoreTheorems.v, ChunkTheorems.v, BaseTheorems.v, ManagerTheorems.v,
      DeltaTheorems.v, MainTheorems.v, VersionTheorems.v, LevelTheorems.v,
      DbTheorems.v, TableTheorems.v, LevelVersions.v: the properties, each with an instance.

    ** What the theorems show

    - The store: saving, restoring, deleting a chunk, restarting, a full
      container, garbage collection and rewriting refine operations on the map;
      nothing that is stored is overwritten.
    - Files: chunking cuts a file where [cut] says, whatever the size of the
      blocks it is read in, counts references, writes a recipe whose sizes add
      up; restoring gives the file back, also from another process.  NUL bytes
      of a chunk are replaced when it is stored: without them the file comes
      back as it was.
    - Archives: every run of -c adds a version to the archive, up to ten, and
      -rs gives any of them back.
    - Parts: the fingerprint is the polynomial of its window; hashes are usable
      as keys; encryption and index files round-trip; the configuration is
      complete or reading it throws.
    - Compression and detection: they end, what they measure and log, and that
      measuring leaves the store alone.
    - The log: what is written is read, a crash loses the last record only, a
      changed byte is noticed.
    - Where the code is not defined or fails, a theorem says so: a chunk of one
      byte, an index that is a beginning of another, deltas without a NUL byte,
      array super-features, a restore without the original.

    ** Bounds and fuel

    Loops over data the program reads are structural or take fuel.  The blocks
    of a file need one turn per block and one at the end; a chain of deltas its
    length; the walk of the detection the lengths of both indexes; the search
    for a version as many turns as there are files and one; the log reader two
    turns more than the bytes of the longest record.  The theorems have these
    as hypotheses or show that the fuel given suffices.  Integers have the
    width of the source; hypotheses such as a file below 2^31 chunks say where
    they do not wrap.

    ** Parameters

    Code outside the sources is a parameter with its documented laws: LevelDB
    as a map that can fail ([LevelDB], [LevelDBReliable]), OpenSSL
    ([EVP_Digest], [EVP_Cipher]), MongoDB ([Mongo]), boost's property tree
    ([ptree_get]), the delta codec (delta_create, delta_apply), and the contents
    of memory that is not initialised.

    ** Not modelled

    - The signal handler, clocks and text output of main; the locking callbacks
      of OpenSSL, as the program has one thread.
    - include/libsim and include/mongocxx: headers and generated code of other
      projects, of which the calls are parameters.
    - The rest of LevelDB (memory table, tables, versions, cache, iterators,
      environment): a vendored library; what the program relies on is the class
      [LevelDB].
    - Tests and benchmarks. *)

From stdpp Require Import base tactics numbers list gmap strings.
From Stdlib Require Import Ascii ZArith Lia.

Open Scope Z_scope.

(** ** Outcomes

    What running a piece of the program gives: a result, an uncaught C++
    exception, undefined behaviour (an access outside an object, a missing
    [return] that is used), or, for the definitions that take fuel, that the
    fuel did not suffice. *)

Inductive exn : Type :=
| ptree_bad_path        (* boost::property_tree, a key is missing *)
| invalid_argument      (* std::stoi, no digits *)
| out_of_range          (* std::stoi, does not fit an int *)
| assertion_failed      (* assert *)
| bson_type_error       (* bsoncxx, an element has another type *)
| process_exit.         (* exit(1) *)

Inductive outcome (A : Type) : Type :=
| Ok (a : A)
| Throw (e : exn)
| UB
| NoFuel.
Arguments Ok {A} _.
Arguments Throw {A} _.
Arguments UB {A}.
Arguments NoFuel {A}.

#[export] Instance outcome_ret : MRet outcome := fun A a => Ok a.
#[export] Instance outcome_bind : MBind outcome := fun A B f m =>
  match m with
  | Ok a => f a
  | Throw e => Throw e
  | UB => UB
  | NoFuel => NoFuel
  end.

#[export] Instance exn_eq_dec : EqDecision exn.
Proof. solve_decision. Defined.
#[export] Instance outcome_eq_dec {A} `{EqDecision A} : EqDecision (outcome A).
Proof. solve_decision. Defined.

(** A condition the C++ standard requires: outside it the behaviour is
    undefined. *)
Definition require (b : bool) : outcome unit := if b then Ok () else UB.

(** [assert]; a failure aborts the program. *)
Definition assert_ (b : bool) : outcome unit := if b then Ok () else Throw assertion_failed.

Lemma bind_require {A} b (f : unit -> outcome A) : b = true -> require b ≫= f = f ().
Proof. by intros ->. Qed.
Lemma bind_assert {A} b (f : unit -> outcome A) : b = true -> assert_ b ≫= f = f ().
Proof. by intros ->. Qed.

(** An [option] whose [None] is an access outside the object. *)
Definition in_bounds {A} (o : option A) : outcome A :=
  match o with Some a => Ok a | None => UB end.

Lemma bind_Ok {A B} (m : outcome A) (f : A -> outcome B) b :
  m ≫= f = Ok b <-> exists a, m = Ok a /\ f a = Ok b.
Proof.
  split.
  - destruct m; simpl; try discriminate. eauto.
  - intros (a & -> & H). exact H.
Qed.

Lemma require_Ok b u : require b = Ok u <-> b = true.
Proof. destruct b, u; split; intros; (done || discriminate). Qed.

Lemma in_bounds_Ok {A} (o : option A) a : in_bounds o = Ok a <-> o = Some a.
Proof. destruct o; simpl; split; congruence. Qed.

(** [runs m P]: the fuel suffices, and a result satisfies [P]. *)
Definition runs {A} (m : outcome A) (P : A -> Prop) : Prop :=
  match m with Ok a => P a | NoFuel => False | _ => True end.

Lemma runs_bind {A B} (m : outcome A) (f : A -> outcome B) P Q :
  runs m P -> (forall a, P a -> runs (f a) Q) -> runs (m ≫= f) Q.
Proof. destruct m; cbn; auto. Qed.

Lemma runs_impl {A} (m : outcome A) (P Q : A -> Prop) :
  runs m P -> (forall a, P a -> Q a) -> runs m Q.
Proof. destruct m; cbn; auto. Qed.

Lemma runs_in_bounds {A} (o : option A) : runs (in_bounds o) (fun a => o = Some a).
Proof. by destruct o. Qed.

Lemma runs_require b : runs (require b) (fun _ => b = true).
Proof. by destruct b. Qed.

Lemma runs_Ok {A} (m : outcome A) P a : runs m P -> m = Ok a -> P a.
Proof. intros Hr ->. exact Hr. Qed.

Create HintDb runs.
#[export] Hint Resolve runs_in_bounds runs_require : runs.

(** Decompose a successful run into the successful runs of its parts. *)
Ltac inv_ok :=
  repeat match goal with
  | H : _ ≫= _ = Ok _ |- _ =>
      apply bind_Ok in H; destruct H as (? & ? & H)
  | H : require _ = Ok _ |- _ => apply require_Ok in H
  | H : in_bounds _ = Ok _ |- _ => apply in_bounds_Ok in H
  | H : Ok _ = Ok _ |- _ => injection H as H
  | H : mret _ = Ok _ |- _ => injection H as H
  | H : Throw _ = Ok _ |- _ => discriminate H
  | H : UB = Ok _ |- _ => discriminate H
  | H : NoFuel = Ok _ |- _ => discriminate H
  end.

(** The same, with the tuples the parts return taken apart. *)
Ltac inv_run :=
  inv_ok; simplify_eq;
  repeat (match goal with x : prod _ _ |- _ => destruct x end; inv_ok; simplify_eq).

(** Split the Boolean tests of a hypothesis set into propositions. *)
Ltac bools :=
  repeat match goal with
  | H : (_ && _)%bool = true |- _ => apply andb_true_iff in H; destruct H
  | H : (_ || _)%bool = false |- _ => apply orb_false_iff in H; destruct H
  | H : negb _ = true |- _ => apply negb_true_iff in H
  | H : negb _ = false |- _ => apply negb_false_iff in H
  | H : (_ <=? _) = true |- _ => apply Z.leb_le in H
  | H : (_ <=? _) = false |- _ => apply Z.leb_gt in H
  | H : (_ <? _) = true |- _ => apply Z.ltb_lt in H
  | H : (_ <? _) = false |- _ => apply Z.ltb_ge in H
  | H : (_ =? _) = true |- _ => apply Z.eqb_eq in H
  | H : (_ =? _) = false |- _ => apply Z.eqb_neq in H
  | H : bool_decide _ = true |- _ => apply bool_decide_eq_true_1 in H
  | H : bool_decide _ = false |- _ => apply bool_decide_eq_false_1 in H
  end.

(** ** Machine integers

    Unsigned types reduce modulo their width; [i32] is the two's complement
    value that a conversion to [int] gives on the supported compilers. *)

Definition u16 (z : Z) : Z := z mod 2 ^ 16.
Definition u32 (z : Z) : Z := z mod 2 ^ 32.
Definition u64 (z : Z) : Z := z mod 2 ^ 64.
Definition i32 (z : Z) : Z := (z + 2 ^ 31) mod 2 ^ 32 - 2 ^ 31.
Definition i64 (z : Z) : Z := (z + 2 ^ 63) mod 2 ^ 64 - 2 ^ 63.

Lemma u32_small z : 0 <= z < 2 ^ 32 -> u32 z = z.
Proof. apply Z.mod_small. Qed.
Lemma u64_small z : 0 <= z < 2 ^ 64 -> u64 z = z.
Proof. apply Z.mod_small. Qed.
Lemma i32_small z : - 2 ^ 31 <= z < 2 ^ 31 -> i32 z = z.
Proof. intros. unfold i32. rewrite Z.mod_small; lia. Qed.
Lemma u16_range z : 0 <= u16 z < 2 ^ 16.
Proof. apply Z.mod_pos_bound. lia. Qed.
Lemma u32_range z : 0 <= u32 z < 2 ^ 32.
Proof. apply Z.mod_pos_bound. lia. Qed.
Lemma u64_range z : 0 <= u64 z < 2 ^ 64.
Proof. apply Z.mod_pos_bound. lia. Qed.
Lemma i32_range z : - 2 ^ 31 <= i32 z < 2 ^ 31.
Proof. unfold i32. pose proof (Z.mod_pos_bound (z + 2 ^ 31) (2 ^ 32)). lia. Qed.

Lemma land_ones_mod z n : 0 <= n -> Z.land z (2 ^ n - 1) = z mod 2 ^ n.
Proof. intros. rewrite <- Z.land_ones by done. by rewrite Z.ones_equiv, <- Z.sub_1_r. Qed.

(** ** Bytes

    A [char]/[u_char] is an [ascii]; its unsigned value is [u8]. *)

Abbreviation byte := Ascii.ascii.
Abbreviation bytes := (list Ascii.ascii).

Definition u8 (b : byte) : Z := Z.of_N (N_of_ascii b).
Definition chr (z : Z) : byte := ascii_of_N (Z.to_N (z mod 256)).
Definition NUL : byte := chr 0.
(** [str "literal"]: the bytes of a string literal without its terminator. *)
Definition str (s : string) : bytes := String.list_ascii_of_string s.

Lemma u8_range b : 0 <= u8 b < 256.
Proof.
  unfold u8. pose proof (N_ascii_bounded b). lia.
Qed.

Lemma chr_u8 b : chr (u8 b) = b.
Proof.
  unfold chr. rewrite Z.mod_small by apply u8_range.
  unfold u8. rewrite N2Z.id. apply ascii_N_embedding.
Qed.

Lemma u8_chr z : u8 (chr z) = z mod 256.
Proof.
  unfold u8, chr. pose proof (Z.mod_pos_bound z 256).
  rewrite N_ascii_embedding by lia. lia.
Qed.

Lemma u8_inj b1 b2 : u8 b1 = u8 b2 -> b1 = b2.
Proof. intros H. rewrite <- (chr_u8 b1), <- (chr_u8 b2). congruence. Qed.

Lemma u8_NUL : u8 NUL = 0.
Proof. reflexivity. Qed.

(** ** Slices of lists indexed by [Z] *)

Section slices.
Context {A : Type}.
Implicit Types (l : list A) (n : Z).

(** Structural in the list, so that a length such as 128 MB is never turned
    into a unary number. *)
Fixpoint takeZ n l : list A :=
  match l with
  | [] => []
  | x :: l' => if n <=? 0 then [] else x :: takeZ (n - 1) l'
  end.

Fixpoint dropZ n l : list A :=
  match l with
  | [] => []
  | x :: l' => if n <=? 0 then l else dropZ (n - 1) l'
  end.

Fixpoint lengthZ l : Z :=
  match l with
  | [] => 0
  | _ :: l' => 1 + lengthZ l'
  end.

Lemma lengthZ_length l : lengthZ l = Z.of_nat (length l).
Proof. induction l; simpl; lia. Qed.

Lemma takeZ_take n l : takeZ n l = take (Z.to_nat n) l.
Proof.
  revert n; induction l as [|x l IH]; intros n; simpl; [by rewrite take_nil|].
  destruct (Z.leb_spec n 0).
  - by replace (Z.to_nat n) with 0%nat by lia.
  - replace (Z.to_nat n) with (S (Z.to_nat (n - 1))) by lia. simpl. by rewrite IH.
Qed.

Lemma dropZ_drop n l : dropZ n l = drop (Z.to_nat n) l.
Proof.
  revert n; induction l as [|x l IH]; intros n; simpl; [by rewrite drop_nil|].
  destruct (Z.leb_spec n 0).
  - by replace (Z.to_nat n) with 0%nat by lia.
  - replace (Z.to_nat n) with (S (Z.to_nat (n - 1))) by lia. simpl. by rewrite IH.
Qed.

Lemma lengthZ_nonneg l : 0 <= lengthZ l.
Proof. rewrite lengthZ_length. lia. Qed.

Lemma lengthZ_app l1 l2 : lengthZ (l1 ++ l2) = lengthZ l1 + lengthZ l2.
Proof. rewrite !lengthZ_length, length_app. lia. Qed.

Lemma lengthZ_takeZ n l : 0 <= n -> lengthZ (takeZ n l) = Z.min n (lengthZ l).
Proof. intros. rewrite takeZ_take, !lengthZ_length, length_take. lia. Qed.

Lemma lengthZ_dropZ n l : 0 <= n -> lengthZ (dropZ n l) = Z.max 0 (lengthZ l - n).
Proof. intros. rewrite dropZ_drop, !lengthZ_length, length_drop. lia. Qed.

Lemma takeZ_dropZ n l : takeZ n l ++ dropZ n l = l.
Proof. rewrite takeZ_take, dropZ_drop. apply take_drop. Qed.

Lemma takeZ_app_exact n l1 l2 : n = lengthZ l1 -> takeZ n (l1 ++ l2) = l1.
Proof.
  intros ->. rewrite takeZ_take, lengthZ_length, Nat2Z.id. apply take_app_length.
Qed.

Lemma dropZ_app_exact n l1 l2 : n = lengthZ l1 -> dropZ n (l1 ++ l2) = l2.
Proof.
  intros ->. rewrite dropZ_drop, lengthZ_length, Nat2Z.id. apply drop_app_length.
Qed.

Lemma takeZ_cons n x l : 0 < n -> takeZ n (x :: l) = x :: takeZ (n - 1) l.
Proof. intros. cbn. by destruct (Z.leb_spec n 0); [lia|]. Qed.

Lemma dropZ_cons n x l : 0 < n -> dropZ n (x :: l) = dropZ (n - 1) l.
Proof. intros. cbn. by destruct (Z.leb_spec n 0); [lia|]. Qed.

Lemma takeZ_ge n l : lengthZ l <= n -> takeZ n l = l.
Proof. rewrite lengthZ_length. intros. rewrite takeZ_take. apply take_ge. lia. Qed.

Lemma takeZ_nonpos n l : n <= 0 -> takeZ n l = [].
Proof. intros. rewrite takeZ_take. by replace (Z.to_nat n) with 0%nat by lia. Qed.

Lemma dropZ_nonpos n l : n <= 0 -> dropZ n l = l.
Proof. intros. rewrite dropZ_drop. by replace (Z.to_nat n) with 0%nat by lia. Qed.

Lemma dropZ_ge n l : lengthZ l <= n -> dropZ n l = [].
Proof. rewrite lengthZ_length. intros. rewrite dropZ_drop. apply drop_ge. lia. Qed.

Lemma takeZ_app_le n l1 l2 : n <= lengthZ l1 -> takeZ n (l1 ++ l2) = takeZ n l1.
Proof.
  rewrite lengthZ_length. intros. rewrite !takeZ_take. apply take_app_le. lia.
Qed.

Lemma dropZ_app_le n l1 l2 : n <= lengthZ l1 -> dropZ n (l1 ++ l2) = dropZ n l1 ++ l2.
Proof.
  rewrite lengthZ_length. intros. rewrite !dropZ_drop. apply drop_app_le. lia.
Qed.

Lemma dropZ_dropZ n m l : 0 <= n -> 0 <= m -> dropZ n (dropZ m l) = dropZ (m + n) l.
Proof. intros. rewrite !dropZ_drop, drop_drop. f_equal. lia. Qed.

Lemma takeZ_takeZ n m l : n <= m -> takeZ n (takeZ m l) = takeZ n l.
Proof. intros. rewrite !takeZ_take, take_take. f_equal. lia. Qed.

Lemma takeZ_app n l1 l2 : takeZ n (l1 ++ l2) = takeZ n l1 ++ takeZ (n - lengthZ l1) l2.
Proof.
  rewrite !takeZ_take, lengthZ_length, take_app. repeat f_equal. lia.
Qed.

Lemma dropZ_takeZ n m l : 0 <= n -> dropZ n (takeZ m l) = takeZ (m - n) (dropZ n l).
Proof.
  intros. rewrite !takeZ_take, !dropZ_drop, skipn_firstn_comm. f_equal. lia.
Qed.

(** The [len] elements from [off] on. *)
Definition slice (off len : Z) l : list A := takeZ len (dropZ off l).

Lemma lengthZ_slice off len l :
  0 <= off -> 0 <= len -> off + len <= lengthZ l -> lengthZ (slice off len l) = len.
Proof.
  intros. unfold slice. rewrite lengthZ_takeZ, lengthZ_dropZ by lia. lia.
Qed.

Lemma slice_app_l off len l1 l2 :
  0 <= off -> 0 <= len -> off + len <= lengthZ l1 ->
  slice off len (l1 ++ l2) = slice off len l1.
Proof.
  intros. unfold slice. rewrite dropZ_app_le by lia.
  apply takeZ_app_le. rewrite lengthZ_dropZ; lia.
Qed.

(** Lookup by [Z]; a negative index is outside. *)
Definition nthZ l (i : Z) : option A := if i <? 0 then None else l !! Z.to_nat i.

(** Assignment through an index; outside the object it is not defined. *)
Definition setZ l (i : Z) (x : A) : option (list A) :=
  if (0 <=? i) && (i <? lengthZ l) then Some (<[Z.to_nat i := x]> l) else None.

Lemma nthZ_lookup l i : 0 <= i -> nthZ l i = l !! Z.to_nat i.
Proof. intros. unfold nthZ. by destruct (Z.ltb_spec i 0); [lia|]. Qed.

Lemma nthZ_lt l i x : nthZ l i = Some x -> 0 <= i < lengthZ l.
Proof.
  unfold nthZ. destruct (Z.ltb_spec i 0); [done|]. intros Hl.
  apply lookup_lt_Some in Hl. rewrite lengthZ_length. lia.
Qed.

Lemma nthZ_is_Some l i : 0 <= i < lengthZ l -> is_Some (nthZ l i).
Proof.
  rewrite lengthZ_length. intros. unfold nthZ.
  destruct (Z.ltb_spec i 0); [lia|]. apply lookup_lt_is_Some_2. lia.
Qed.

Lemma nthZ_dropZ l i x : nthZ l i = Some x -> exists l', dropZ i l = x :: l'.
Proof.
  unfold nthZ. destruct (Z.ltb_spec i 0); [done|]. intros Hl. rewrite dropZ_drop.
  exists (drop (S (Z.to_nat i)) l). by apply drop_S.
Qed.

Lemma nthZ_app_l l1 l2 i : i < lengthZ l1 -> nthZ (l1 ++ l2) i = nthZ l1 i.
Proof.
  rewrite lengthZ_length. intros. unfold nthZ.
  destruct (Z.ltb_spec i 0); [done|]. apply lookup_app_l. lia.
Qed.

Lemma nthZ_app_mid l1 x l2 : nthZ (l1 ++ x :: l2) (lengthZ l1) = Some x.
Proof.
  unfold nthZ. pose proof (lengthZ_nonneg l1).
  destruct (Z.ltb_spec (lengthZ l1) 0); [lia|].
  rewrite lengthZ_length, Nat2Z.id. by apply list_lookup_middle.
Qed.
End slices.

Arguments takeZ : simpl nomatch.
Arguments dropZ : simpl nomatch.
