(* ===== verification/Bytes.v ===== *)
(** * Bytes in memory: integers, C strings, hexadecimal and decimal text

    The byte-level pieces of C++ the program relies on: the little-endian
    layout a [memcpy] of an integer exposes, NUL-terminated strings, the
    ["%02X"] rendering of the recipe name, [std::to_string], [std::stoi] and
    [std::next_permutation], which picks the name of the next container. *)

From S2P Require Import Prelude.
From stdpp Require Import base tactics numbers list strings sorting.
From Stdlib Require Import Ascii ZArith Lia.
From Stdlib Require Import Ascii ZArith Lia Permutation.

Open Scope Z_scope.

(** ** Little-endian integers *)

Fixpoint le_bytes (n : nat) (z : Z) : bytes :=
  match n with
  | O => []
  | S n' => chr z :: le_bytes n' (z / 256)
  end.

Fixpoint le_value (l : bytes) : Z :=
  match l with
  | [] => 0
  | b :: l' => u8 b + 256 * le_value l'
  end.

Lemma le_bytes_length n z : length (le_bytes n z) = n.
Proof. revert z; induction n; intros; simpl; auto. Qed.

Lemma le_bytes_lengthZ n z : lengthZ (le_bytes n z) = Z.of_nat n.
Proof. by rewrite lengthZ_length, le_bytes_length. Qed.

Lemma le_value_bytes n z : le_value (le_bytes n z) = z mod 256 ^ Z.of_nat n.
Proof.
  revert z; induction n as [|n IH]; intros z.
  - simpl. by rewrite Z.mod_1_r.
  - cbn [le_bytes le_value]. rewrite IH, u8_chr.
    rewrite Nat2Z.inj_succ, Z.pow_succ_r by lia.
    by rewrite Z.rem_mul_r by lia.
Qed.

Lemma le_value_bytes_small n z : 0 <= z < 256 ^ Z.of_nat n -> le_value (le_bytes n z) = z.
Proof. intros. rewrite le_value_bytes. by apply Z.mod_small. Qed.

Lemma le_bytes_value l : le_bytes (length l) (le_value l) = l.
Proof.
  induction l as [|b l IH]; simpl; [done|]. pose proof (u8_range b).
  f_equal.
  - apply u8_inj. rewrite u8_chr, Z.mul_comm, Z.mod_add by lia.
    apply Z.mod_small. lia.
  - rewrite Z.add_comm, Z.mul_comm, Z.div_add_l by lia.
    rewrite Z.div_small by lia. by rewrite Z.add_0_r.
Qed.

Lemma le_value_range l : 0 <= le_value l < 256 ^ lengthZ l.
Proof.
  induction l as [|b l IH]; cbn [le_value lengthZ]; [lia|].
  pose proof (u8_range b). pose proof (lengthZ_nonneg l).
  rewrite Z.add_comm, Z.pow_add_r by lia. lia.
Qed.

(** ** C strings

    [cstr l] is what a [char *] pointing at [l] denotes when it is read as a
    string: the bytes before the first NUL. Without a NUL the read runs past
    the object. *)

Fixpoint cstr (l : bytes) : option bytes :=
  match l with
  | [] => None
  | b :: l' => if bool_decide (b = NUL) then Some [] else (fun s => b :: s) <$> cstr l'
  end.

Definition no_nul (l : bytes) : Prop := Forall (fun b => b <> NUL) l.

#[export] Instance no_nul_dec l : Decision (no_nul l).
Proof. unfold no_nul. apply _. Defined.

Lemma cstr_app_nul s l : no_nul s -> cstr (s ++ NUL :: l) = Some s.
Proof.
  induction 1 as [|b s Hb _ IH]; cbn [cstr app].
  - by rewrite bool_decide_eq_true_2.
  - by rewrite bool_decide_eq_false_2, IH by done.
Qed.

Lemma cstr_Some l s : cstr l = Some s -> no_nul s /\ exists l', l = s ++ NUL :: l'.
Proof.
  revert s; induction l as [|b l IH]; intros s; cbn [cstr]; [done|].
  case_bool_decide as Hb.
  - intros [= <-]. split; [constructor|]. exists l. by subst.
  - intros (s' & Hs & ->)%fmap_Some. destruct (IH s' Hs) as (? & l' & ->).
    split; [by constructor|]. by exists l'.
Qed.

Lemma cstr_is_Some l : NUL ∈ l -> is_Some (cstr l).
Proof.
  induction l as [|b l IH]; [by intros ?%elem_of_nil|]. intros [<-|Hl]%elem_of_cons; cbn [cstr].
  - by rewrite bool_decide_eq_true_2.
  - case_bool_decide; [done|]. destruct (IH Hl) as [s ->]. by eexists.
Qed.

(** ** Hexadecimal: [sprintf("%02X")] *)

Definition hex_digit (n : Z) : byte := chr (if n <? 10 then 48 + n else 55 + n).

Definition hex_byte (b : byte) : bytes := [hex_digit (u8 b / 16); hex_digit (u8 b mod 16)].

Fixpoint hex (l : bytes) : bytes :=
  match l with
  | [] => []
  | b :: l' => hex_byte b ++ hex l'
  end.

Lemma hex_length l : length (hex l) = (2 * length l)%nat.
Proof. induction l; simpl; lia. Qed.

Lemma hex_digit_inj n m : 0 <= n < 16 -> 0 <= m < 16 -> hex_digit n = hex_digit m -> n = m.
Proof.
  intros ?? H%(f_equal u8). unfold hex_digit in H. rewrite !u8_chr in H.
  destruct (Z.ltb_spec n 10), (Z.ltb_spec m 10); rewrite !Z.mod_small in H by lia; lia.
Qed.

Lemma hex_byte_inj b1 b2 : hex_byte b1 = hex_byte b2 -> b1 = b2.
Proof.
  unfold hex_byte. intros [=H1 H2]. apply u8_inj.
  pose proof (u8_range b1). pose proof (u8_range b2).
  apply hex_digit_inj in H1; [|split; [apply Z.div_pos|apply Z.div_lt_upper_bound]; lia..].
  apply hex_digit_inj in H2; [|apply Z.mod_pos_bound; lia..].
  rewrite (Z.div_mod (u8 b1) 16), (Z.div_mod (u8 b2) 16); lia.
Qed.

#[export] Instance hex_inj : Inj (=) (=) hex.
Proof.
  intros l1; induction l1 as [|b1 l1 IH]; intros [|b2 l2]; simpl; try done.
  intros [= H1 H2 H3]. f_equal; [apply hex_byte_inj; unfold hex_byte; congruence|].
  by apply IH.
Qed.

(** ** Decimal: [std::to_string], [std::stoi] *)

(** Most significant digit first; 20 digits are enough for 64 bits. *)
Fixpoint digits_acc (fuel : nat) (n : Z) (acc : bytes) : bytes :=
  match fuel with
  | O => acc
  | S f =>
      let acc' := chr (48 + n mod 10) :: acc in
      if n <? 10 then acc' else digits_acc f (n / 10) acc'
  end.

Definition to_string (n : Z) : bytes :=
  if n <? 0 then chr 45 :: digits_acc 20 (- n) [] else digits_acc 20 n [].

Definition is_digit (b : byte) : bool := (48 <=? u8 b) && (u8 b <=? 57).
(** [isspace] in the "C" locale *)
Definition is_space (b : byte) : bool := (u8 b =? 32) || ((9 <=? u8 b) && (u8 b <=? 13)).

(** The value of the digits at the front, and whether there was one. *)
Fixpoint parse_digits (acc : Z) (l : bytes) : Z :=
  match l with
  | b :: l' => if is_digit b then parse_digits (10 * acc + (u8 b - 48)) l' else acc
  | [] => acc
  end.

Fixpoint skip_space (l : bytes) : bytes :=
  match l with
  | b :: l' => if is_space b then skip_space l' else l
  | [] => []
  end.

Definition parse_unsigned (l : bytes) : option Z :=
  match l with
  | b :: _ => if is_digit b then Some (parse_digits 0 l) else None
  | [] => None
  end.

(** [std::stoi] in base 10: white space, an optional sign, digits; the rest
    of the string is ignored. *)
Definition stoi (l : bytes) : outcome Z :=
  let l1 := skip_space l in
  let '(sign, l2) :=
    match l1 with
    | b :: l' => if u8 b =? 45 then (-1, l') else if u8 b =? 43 then (1, l') else (1, l1)
    | [] => (1, [])
    end in
  match parse_unsigned l2 with
  | None => Throw invalid_argument
  | Some n =>
      let v := sign * n in
      if (- 2 ^ 31 <=? v) && (v <? 2 ^ 31) then Ok v else Throw out_of_range
  end.

Lemma u8_digit n : 0 <= n < 10 -> u8 (chr (48 + n)) = 48 + n.
Proof. intros. rewrite u8_chr. apply Z.mod_small. lia. Qed.

Lemma is_digit_chr n : 0 <= n < 10 -> is_digit (chr (48 + n)) = true.
Proof.
  intros. unfold is_digit. rewrite u8_digit by done.
  by rewrite !(proj2 (Z.leb_le _ _)) by lia.
Qed.

(** The digits put in front of [acc] have value [n] whatever was read before. *)
Lemma parse_digits_acc fuel n acc :
  0 <= n < 10 ^ Z.of_nat fuel -> (0 < fuel)%nat ->
  exists k, 0 <= k /\ forall v,
    parse_digits v (digits_acc fuel n acc) = parse_digits (v * 10 ^ k + n) acc.
Proof.
  revert n acc; induction fuel as [|f IH]; intros n acc Hn Hf; [lia|].
  cbn [digits_acc]. assert (Hm : 0 <= n mod 10 < 10) by (apply Z.mod_pos_bound; lia).
  destruct (Z.ltb_spec n 10).
  - exists 1. split; [lia|]. intros v. cbn [parse_digits].
    rewrite is_digit_chr, u8_digit by done. f_equal.
    rewrite Z.mod_small by lia. lia.
  - rewrite Nat2Z.inj_succ, Z.pow_succ_r in Hn by lia.
    assert (0 < f)%nat by (destruct f; simpl in *; lia).
    destruct (IH (n / 10) (chr (48 + n mod 10) :: acc)) as (k & Hk & Heq); [|done|].
    { split; [apply Z.div_pos; lia|apply Z.div_lt_upper_bound; lia]. }
    exists (k + 1). split; [lia|]. intros v. rewrite Heq. cbn [parse_digits].
    rewrite is_digit_chr, u8_digit by done. f_equal.
    rewrite Z.pow_add_r by lia. pose proof (Z.div_mod n 10). lia.
Qed.

Lemma digits_acc_cons fuel n acc :
  (0 < fuel)%nat -> exists d l, digits_acc fuel n acc = d :: l /\ is_digit d = true.
Proof.
  revert n acc; induction fuel as [|f IH]; intros n acc Hf; [lia|]. cbn [digits_acc].
  assert (Hm : 0 <= n mod 10 < 10) by (apply Z.mod_pos_bound; lia).
  destruct (Z.ltb_spec n 10); [by eexists _, _; split; [done|apply is_digit_chr]|].
  destruct f as [|f]; [by eexists _, _; split; [done|apply is_digit_chr]|].
  apply IH. lia.
Qed.

Lemma is_digit_not_space d : is_digit d = true -> is_space d = false.
Proof.
  unfold is_digit, is_space. intros. bools.
  destruct (Z.eqb_spec (u8 d) 32); [lia|]. simpl.
  destruct (Z.leb_spec 9 (u8 d)), (Z.leb_spec (u8 d) 13); simpl; lia.
Qed.

Lemma is_digit_not_sign d : is_digit d = true -> (u8 d =? 45) = false /\ (u8 d =? 43) = false.
Proof. unfold is_digit. intros. bools. rewrite !Z.eqb_neq. lia. Qed.

Lemma parse_unsigned_to_string n l :
  0 <= n < 2 ^ 64 -> l = [] \/ (exists b l', l = b :: l' /\ is_digit b = false) ->
  parse_unsigned (digits_acc 20 n l) = Some n.
Proof.
  intros Hn Hl. destruct (digits_acc_cons 20 n l) as (d & l0 & Heq & Hd); [lia|].
  unfold parse_unsigned. rewrite Heq, Hd. rewrite <- Heq.
  destruct (parse_digits_acc 20 n l) as (k & _ & Hp); [simpl; lia|lia|].
  rewrite Hp. f_equal.
  destruct Hl as [->|(b & l' & -> & Hb)]; simpl; rewrite ?Hb; lia.
Qed.

(** [stoi] reads back what [to_string] wrote, for every [int]. *)
Lemma stoi_to_string n : - 2 ^ 31 <= n < 2 ^ 31 -> stoi (to_string n) = Ok n.
Proof.
  intros Hn. unfold stoi, to_string. destruct (Z.ltb_spec n 0).
  - cbn [skip_space]. change (is_space (chr 45)) with false. cbn match.
    change (u8 (chr 45) =? 45) with true. cbn match.
    rewrite parse_unsigned_to_string by (auto; lia).
    replace (-1 * - n) with n by lia.
    by rewrite (proj2 (Z.leb_le _ _)), (proj2 (Z.ltb_lt _ _)) by lia.
  - destruct (digits_acc_cons 20 n []) as (d & l0 & Heq & Hd); [lia|].
    rewrite Heq. cbn [skip_space]. rewrite is_digit_not_space by done.
    destruct (is_digit_not_sign d Hd) as [-> ->]. rewrite <- Heq.
    rewrite parse_unsigned_to_string by (auto; lia). rewrite Z.mul_1_l.
    by rewrite (proj2 (Z.leb_le _ _)), (proj2 (Z.ltb_lt _ _)) by lia.
Qed.

Lemma digits_acc_app fuel n acc l : digits_acc fuel n acc ++ l = digits_acc fuel n (acc ++ l).
Proof.
  revert n acc; induction fuel as [|f IH]; intros n acc; cbn [digits_acc]; [done|].
  destruct (n <? 10); [done|]. by rewrite IH.
Qed.

(** A decimal number is read back up to the first character that is no digit. *)
Lemma parse_unsigned_decimal n b l :
  0 <= n < 2 ^ 64 -> is_digit b = false ->
  parse_unsigned (skip_space (to_string n ++ b :: l)) = Some n.
Proof.
  intros Hn Hb. unfold to_string. rewrite (proj2 (Z.ltb_ge n 0)) by lia.
  rewrite digits_acc_app. simpl app.
  destruct (digits_acc_cons 20 n (b :: l)) as (d & l0 & Heq & Hd); [lia|].
  rewrite Heq. cbn [skip_space]. rewrite is_digit_not_space by done. rewrite <- Heq.
  apply parse_unsigned_to_string; [lia|]. right. by exists b, l.
Qed.

(** * Container names: [std::next_permutation]

    A container file is named by a permutation of ["abcdefghijklmno"]; when a
    container is full its name is advanced with [std::next_permutation].  The
    function is modelled on the element order of [char] (signed), and it is
    shown to permute the name and to increase it strictly in lexicographic
    order unless it wraps around, which is what makes the name of a new
    container differ from every earlier one. *)

(** The value of a [char], signed as on the supported compilers. *)
Definition schar (b : byte) : Z := if u8 b <? 128 then u8 b else u8 b - 256.

Lemma schar_inj b1 b2 : schar b1 = schar b2 -> b1 = b2.
Proof.
  unfold schar. intros H. apply u8_inj.
  pose proof (u8_range b1). pose proof (u8_range b2).
  destruct (Z.ltb_spec (u8 b1) 128), (Z.ltb_spec (u8 b2) 128); lia.
Qed.

(** Replace the last element above [x] by [x], in a sequence that does not
    increase; gives that element. *)
Fixpoint swap_last_greater (x : byte) (l : bytes) : option (byte * bytes) :=
  match l with
  | [] => None
  | y :: t =>
      if schar x <? schar y then
        match swap_last_greater x t with
        | Some (z, t') => Some (z, y :: t')
        | None => Some (y, x :: t)
        end
      else None
  end.

(** [None]: the sequence is the last of its permutations. *)
Fixpoint next_perm (l : bytes) : option bytes :=
  match l with
  | [] => None
  | x :: l' =>
      match next_perm l' with
      | Some l'' => Some (x :: l'')
      | None =>
          match swap_last_greater x l' with
          | Some (y, l'') => Some (y :: reverse l'')
          | None => None
          end
      end
  end.

(** [std::next_permutation(first, last)]: the result and the new contents of
    the range; past the last permutation the range is sorted again. *)
Definition next_permutation (l : bytes) : bool * bytes :=
  match next_perm l with
  | Some l' => (true, l')
  | None => (false, reverse l)
  end.

(** Lexicographic comparison, as [std::string] compares by [char]. *)
Fixpoint lexlt (l1 l2 : bytes) : bool :=
  match l1, l2 with
  | _, [] => false
  | [], _ :: _ => true
  | a :: l1', b :: l2' =>
      (schar a <? schar b) || ((schar a =? schar b) && lexlt l1' l2')
  end.

Lemma lexlt_irrefl l : lexlt l l = false.
Proof.
  induction l as [|a l IH]; simpl; [done|].
  by rewrite Z.ltb_irrefl, Z.eqb_refl, IH.
Qed.

Lemma lexlt_trans l1 l2 l3 : lexlt l1 l2 = true -> lexlt l2 l3 = true -> lexlt l1 l3 = true.
Proof.
  revert l2 l3; induction l1 as [|a l1 IH]; intros [|b l2] [|c l3]; simpl; try done.
  intros [H1|H1]%orb_true_iff [H2|H2]%orb_true_iff; bools;
    apply orb_true_iff; rewrite ?andb_true_iff, ?Z.ltb_lt, ?Z.eqb_eq; try (left; lia).
  right. split; [lia|eauto].
Qed.

Lemma lexlt_ne l1 l2 : lexlt l1 l2 = true -> l1 <> l2.
Proof. intros H ->. by rewrite lexlt_irrefl in H. Qed.

Lemma swap_last_greater_spec x l y l' :
  swap_last_greater x l = Some (y, l') ->
  schar x < schar y /\ x :: l ≡ₚ y :: l'.
Proof.
  revert y l'; induction l as [|a l IH]; intros y l'; simpl; [done|].
  destruct (Z.ltb_spec (schar x) (schar a)); [|done].
  destruct (swap_last_greater x l) as [[z t']|] eqn:E; intros [= <- <-].
  - destruct (IH z t' eq_refl) as [? Hp]. split; [done|].
    rewrite Permutation_swap, Hp. apply Permutation_swap.
  - split; [lia|]. apply Permutation_swap.
Qed.

Lemma next_perm_Permutation l l' : next_perm l = Some l' -> l ≡ₚ l'.
Proof.
  revert l'; induction l as [|x l IH]; intros l'; simpl; [done|].
  destruct (next_perm l) as [l''|] eqn:E; [intros [= <-]; by constructor; apply IH|].
  destruct (swap_last_greater x l) as [[y l'']|] eqn:E2; [|done]. intros [= <-].
  apply swap_last_greater_spec in E2 as [_ ->]. by rewrite reverse_Permutation.
Qed.

Lemma next_perm_lexlt l l' : next_perm l = Some l' -> lexlt l l' = true.
Proof.
  revert l'; induction l as [|x l IH]; intros l'; simpl; [done|].
  destruct (next_perm l) as [l''|] eqn:E.
  - intros [= <-]. rewrite (IH _ eq_refl), Z.eqb_refl. by rewrite orb_true_r.
  - destruct (swap_last_greater x l) as [[y l'']|] eqn:E2; [|done]. intros [= <-].
    apply swap_last_greater_spec in E2 as [? _].
    by rewrite (proj2 (Z.ltb_lt _ _)).
Qed.

Lemma next_permutation_Permutation l : l ≡ₚ (next_permutation l).2.
Proof.
  unfold next_permutation. destruct (next_perm l) eqn:E; simpl.
  - by apply next_perm_Permutation.
  - by rewrite reverse_Permutation.
Qed.

Lemma next_permutation_length l : length (next_permutation l).2 = length l.
Proof. by rewrite <- next_permutation_Permutation. Qed.

Lemma next_permutation_lengthZ l : lengthZ (next_permutation l).2 = lengthZ l.
Proof. by rewrite !lengthZ_length, next_permutation_length. Qed.

Lemma next_permutation_lexlt l :
  (next_permutation l).1 = true -> lexlt l (next_permutation l).2 = true.
Proof.
  unfold next_permutation. destruct (next_perm l) eqn:E; simpl; [|done].
  intros _. by apply next_perm_lexlt.
Qed.

(** A permutation of characters that are neither NUL nor white space is again
    made of such characters. *)
Lemma next_permutation_Forall (P : byte -> Prop) l :
  Forall P l -> Forall P (next_permutation l).2.
Proof. by rewrite <- next_permutation_Permutation. Qed.

(** The name given to the first container. *)
Definition first_container_name : bytes := str "abcdefghijklmno".

Example next_permutation_first :
  next_permutation first_container_name = (true, str "abcdefghijklmon").
Proof. reflexivity. Qed.
