(* ===== verification/DataStructure.v ===== *)
(** * The program's data (include/dataStructure.hpp)

    The structs that are written to files and database values with [memcpy]
    or [ostream::write].  Their object representation on the supported
    platforms (little-endian, 4-byte [int], no padding in these structs) is a
    [Pod] instance, whose laws the storage, recipe and index code is proved
    against. *)

From S2P Require Import Prelude.
From S2P Require Import Bytes.
From stdpp Require Import base tactics numbers list strings.
From Stdlib Require Import Ascii ZArith Lia.

Open Scope Z_scope.

(** ** Constants (include/configure.hpp) *)

Definition CHUNK_HASH_SIZE : Z := 32.
Definition FILE_NAME_HASH_SIZE : Z := 32.
Definition MAX_CHUNK_SIZE : Z := 16384.

(** ** Structs *)

Record L6 : Type := mkL6
  { containerID : Z; startSegmentID : Z; endSegmentID : Z; L6_hash : bytes }.

Record LP : Type := mkLP
  { segmentID : Z; startChunkID : Z; endChunkID : Z; LP_hash : bytes }.

Record L0 : Type := mkL0
  { L0_chunkID : Z; L0_size : Z; unique : Z; fingerprint : bytes }.

Record Index : Type := mkIndex
  { fileNameHash : bytes;
    segmentnumber : Z; containernumber : Z; chunknumber : Z;
    idx_chunk : list L0; idx_segment : list LP; idx_container : list L6 }.

Record Pair : Type := mkPair { newID : Z; oldID : Z }.

Record Chunk_t : Type := mkChunk
  { chunk_ID : Z; logicDataSize : Z; logicData : bytes; chunkHash : bytes; encryptKey : bytes }.

Record RecipeEntry_t : Type := mkRecipeEntry
  { re_chunkID : Z; re_chunkSize : Z; re_chunkHash : bytes }.

Record FileRecipeHead_t : Type := mkFileRecipeHead
  { frh_fileSize : Z; frh_fileNameHash : bytes; totalChunkNumber : Z }.

Record KeyRecipeHead_t : Type := mkKeyRecipeHead
  { krh_fileSize : Z; krh_fileNameHash : bytes; totalChunkKeyNumber : Z }.

Record Recipe_t : Type := mkRecipe
  { fileRecipeHead : FileRecipeHead_t; keyRecipeHead : KeyRecipeHead_t }.

Record keyForChunkHashDB_t : Type := mkKey
  { containerName : bytes; key_offset : Z; key_length : Z; key_count : Z; deltaCount : Z }.

#[export] Instance Pair_eq_dec : EqDecision Pair.
Proof. solve_decision. Defined.
#[export] Instance keyForChunkHashDB_t_eq_dec : EqDecision keyForChunkHashDB_t.
Proof. solve_decision. Defined.

(** ** Object representations *)

Class Pod (A : Type) := {
  sizeof : Z;
  rep : A -> bytes;
  unrep : bytes -> A;
  pod_valid : A -> Prop;
  sizeof_pos : 0 < sizeof;
  rep_length a : pod_valid a -> lengthZ (rep a) = sizeof;
  unrep_rep a : pod_valid a -> unrep (rep a) = a;
  unrep_valid l : lengthZ l = sizeof -> pod_valid (unrep l)
}.
Arguments sizeof A {_}.

Create HintDb pod.
#[export] Hint Resolve rep_length unrep_rep unrep_valid : pod.

(** [memcpy(&a, &l[0], sizeof(A))] *)
Definition load {A} `{Pod A} (l : bytes) : outcome A :=
  if sizeof A <=? lengthZ l then Ok (unrep (takeZ (sizeof A) l)) else UB.

Lemma load_rep {A} `{Pod A} (a : A) : pod_valid a -> load (rep a) = Ok a.
Proof.
  intros Hv. unfold load. rewrite rep_length by done. rewrite Z.leb_refl.
  rewrite takeZ_ge by (rewrite rep_length; [lia|done]). by rewrite unrep_rep.
Qed.

Lemma load_app {A} `{Pod A} (a : A) l : pod_valid a -> load (rep a ++ l) = Ok a.
Proof.
  intros Hv. unfold load. rewrite lengthZ_app, rep_length by done. pose proof (lengthZ_nonneg l).
  rewrite (proj2 (Z.leb_le _ _)) by lia.
  rewrite takeZ_app_exact by (by rewrite rep_length). by rewrite unrep_rep.
Qed.

Lemma load_valid {A} `{Pod A} l (a : A) : load l = Ok a -> pod_valid a.
Proof.
  unfold load. destruct (Z.leb_spec (sizeof A) (lengthZ l)); [|done]. intros [= <-].
  apply unrep_valid. pose proof (sizeof_pos (A := A)). rewrite lengthZ_takeZ; lia.
Qed.

(** Consecutive fields of a representation. *)
Lemma slice_skip {A} off len (l1 l2 : list A) :
  lengthZ l1 <= off -> slice off len (l1 ++ l2) = slice (off - lengthZ l1) len l2.
Proof.
  intros. unfold slice. f_equal. rewrite !dropZ_drop. rewrite lengthZ_length in *.
  rewrite drop_app_ge by lia. f_equal. lia.
Qed.

Lemma slice_hit {A} len (l1 l2 : list A) : lengthZ l1 = len -> slice 0 len (l1 ++ l2) = l1.
Proof. intros. unfold slice. rewrite dropZ_nonpos by lia. by apply takeZ_app_exact. Qed.

Lemma slice_all {A} len (l : list A) : lengthZ l = len -> slice 0 len l = l.
Proof. intros. unfold slice. rewrite dropZ_nonpos by lia. apply takeZ_ge. lia. Qed.

Lemma le_value_slice_range off n (l : bytes) :
  0 <= off -> 0 <= n -> off + n <= lengthZ l -> 0 <= le_value (slice off n l) < 256 ^ n.
Proof.
  intros. pose proof (le_value_range (slice off n l)) as Hr.
  rewrite lengthZ_slice in Hr by lia. exact Hr.
Qed.

Lemma i32_u32 z : - 2 ^ 31 <= z < 2 ^ 31 -> i32 (u32 z) = z.
Proof.
  intros. unfold i32, u32. rewrite Zplus_mod_idemp_l. rewrite Z.mod_small; lia.
Qed.

(** An unsigned 32- or 64-bit field, an [int] field. *)
Definition rep_u32 (z : Z) : bytes := le_bytes 4 z.
Definition rep_u64 (z : Z) : bytes := le_bytes 8 z.
Definition rep_int (z : Z) : bytes := le_bytes 4 (u32 z).
Definition unrep_int (l : bytes) : Z := i32 (le_value l).

Arguments rep_u32 : simpl never.
Arguments rep_u64 : simpl never.
Arguments rep_int : simpl never.
Arguments unrep_int : simpl never.

Lemma unrep_rep_int z : - 2 ^ 31 <= z < 2 ^ 31 -> unrep_int (rep_int z) = z.
Proof.
  intros. unfold unrep_int, rep_int. rewrite le_value_bytes_small by apply u32_range.
  by apply i32_u32.
Qed.

Lemma rep_u32_length z : lengthZ (rep_u32 z) = 4.
Proof. apply le_bytes_lengthZ. Qed.
Lemma rep_u64_length z : lengthZ (rep_u64 z) = 8.
Proof. apply le_bytes_lengthZ. Qed.
Lemma rep_int_length z : lengthZ (rep_int z) = 4.
Proof. apply le_bytes_lengthZ. Qed.

Lemma unrep_rep_u32 z : 0 <= z < 2 ^ 32 -> le_value (rep_u32 z) = z.
Proof. intros. by apply le_value_bytes_small. Qed.
Lemma unrep_rep_u64 z : 0 <= z < 2 ^ 64 -> le_value (rep_u64 z) = z.
Proof. intros. by apply le_value_bytes_small. Qed.

Create Rewrite HintDb podlen.
#[export] Hint Rewrite rep_u32_length rep_u64_length rep_int_length @lengthZ_app : podlen.

(** Length of a concatenation of fields, then its fields read back. *)
Ltac pod_len := autorewrite with podlen; first [eassumption | reflexivity | lia].

Ltac pod_field :=
  match goal with
  | |- context [slice 0 ?n (?l1 ++ ?l2)] => rewrite (slice_hit n l1 l2) by pod_len
  | |- context [slice 0 ?n ?l] => rewrite (slice_all n l) by pod_len
  | |- context [slice ?off ?n (?l1 ++ ?l2)] =>
      let k := fresh "k" in let E := fresh "E" in
      evar (k : Z); assert (E : lengthZ l1 = k) by (subst k; pod_len); subst k;
      rewrite (slice_skip off n l1 l2) by (rewrite E; lia); rewrite E;
      match goal with
      | |- context [slice (?a - ?b) n l2] =>
          let r := eval cbv in (a - b) in change (a - b) with r
      end;
      clear E
  end.
Ltac pod_fields := repeat pod_field.

(** ** keyForChunkHashDB_t: [u_char[16]] and four [uint32_t], 32 bytes *)

Definition key_valid (k : keyForChunkHashDB_t) : Prop :=
  lengthZ (containerName k) = 16 /\ 0 <= key_offset k < 2 ^ 32 /\
  0 <= key_length k < 2 ^ 32 /\ 0 <= key_count k < 2 ^ 32 /\
  0 <= deltaCount k < 2 ^ 32.

Definition key_rep (k : keyForChunkHashDB_t) : bytes :=
  containerName k ++ rep_u32 (key_offset k) ++ rep_u32 (key_length k) ++
  rep_u32 (key_count k) ++ rep_u32 (deltaCount k).

Definition key_unrep (l : bytes) : keyForChunkHashDB_t :=
  mkKey (slice 0 16 l) (le_value (slice 16 4 l)) (le_value (slice 20 4 l))
    (le_value (slice 24 4 l)) (le_value (slice 28 4 l)).

#[export] Instance key_pod : Pod keyForChunkHashDB_t.
Proof.
  refine {| sizeof := 32; rep := key_rep; unrep := key_unrep; pod_valid := key_valid |}.
  - done.
  - intros k (? & _). unfold key_rep. pod_len.
  - intros [n o l c d] (?&?&?&?&?); simpl in *. cbv [key_unrep key_rep containerName key_offset key_length key_count deltaCount].
    pod_fields. by rewrite !unrep_rep_u32 by done.
  - intros l Hl. unfold key_valid; simpl. split; [apply lengthZ_slice; lia|].
    repeat split; apply le_value_slice_range; lia.
Defined.

Create Rewrite HintDb podfield.
#[export] Hint Rewrite unrep_rep_u32 unrep_rep_u64 unrep_rep_int using assumption : podfield.

(** ** RecipeEntry_t: [uint32_t], [int], [u_char[32]], 40 bytes *)

Definition re_valid (e : RecipeEntry_t) : Prop :=
  0 <= re_chunkID e < 2 ^ 32 /\ - 2 ^ 31 <= re_chunkSize e < 2 ^ 31 /\
  lengthZ (re_chunkHash e) = 32.

Definition re_rep (e : RecipeEntry_t) : bytes :=
  rep_u32 (re_chunkID e) ++ rep_int (re_chunkSize e) ++ re_chunkHash e.

Definition re_unrep (l : bytes) : RecipeEntry_t :=
  mkRecipeEntry (le_value (slice 0 4 l)) (unrep_int (slice 4 4 l)) (slice 8 32 l).

#[export] Instance re_pod : Pod RecipeEntry_t.
Proof.
  refine {| sizeof := 40; rep := re_rep; unrep := re_unrep; pod_valid := re_valid |}.
  - done.
  - intros e (? & ? & ?). unfold re_rep. pod_len.
  - intros [i s h] (?&?&?); simpl in *. cbv [re_unrep re_rep re_chunkID re_chunkSize re_chunkHash].
    pod_fields.
    by autorewrite with podfield.
  - intros l Hl. unfold re_valid; simpl.
    repeat split; try apply le_value_slice_range; try apply i32_range; try lia.
    apply lengthZ_slice; lia.
Defined.

(** ** Recipe_t: two heads of [uint64_t], [u_char[32]], [uint64_t], 96 bytes *)

Definition recipe_valid (r : Recipe_t) : Prop :=
  (0 <= frh_fileSize (fileRecipeHead r) < 2 ^ 64 /\
   lengthZ (frh_fileNameHash (fileRecipeHead r)) = 32 /\
   0 <= totalChunkNumber (fileRecipeHead r) < 2 ^ 64) /\
  (0 <= krh_fileSize (keyRecipeHead r) < 2 ^ 64 /\
   lengthZ (krh_fileNameHash (keyRecipeHead r)) = 32 /\
   0 <= totalChunkKeyNumber (keyRecipeHead r) < 2 ^ 64).

Definition recipe_rep (r : Recipe_t) : bytes :=
  rep_u64 (frh_fileSize (fileRecipeHead r)) ++ frh_fileNameHash (fileRecipeHead r) ++
  rep_u64 (totalChunkNumber (fileRecipeHead r)) ++
  rep_u64 (krh_fileSize (keyRecipeHead r)) ++ krh_fileNameHash (keyRecipeHead r) ++
  rep_u64 (totalChunkKeyNumber (keyRecipeHead r)).

Definition recipe_unrep (l : bytes) : Recipe_t :=
  mkRecipe
    (mkFileRecipeHead (le_value (slice 0 8 l)) (slice 8 32 l) (le_value (slice 40 8 l)))
    (mkKeyRecipeHead (le_value (slice 48 8 l)) (slice 56 32 l) (le_value (slice 88 8 l))).

#[export] Instance recipe_pod : Pod Recipe_t.
Proof.
  refine {| sizeof := 96; rep := recipe_rep; unrep := recipe_unrep;
            pod_valid := recipe_valid |}.
  - done.
  - intros r ((? & ? & ?) & (? & ? & ?)). unfold recipe_rep. pod_len.
  - intros [[a b c] [d e f]] ((?&?&?)&(?&?&?)); simpl in *.
    cbv [recipe_unrep recipe_rep fileRecipeHead keyRecipeHead frh_fileSize frh_fileNameHash
      totalChunkNumber krh_fileSize krh_fileNameHash totalChunkKeyNumber]. pod_fields. by autorewrite with podfield.
  - intros l Hl. unfold recipe_valid; simpl.
    repeat split; try apply le_value_slice_range; try apply lengthZ_slice; lia.
Defined.

(** ** Index entries: three [int] and [u_char[32]], 44 bytes *)

Definition int_valid (z : Z) : Prop := - 2 ^ 31 <= z < 2 ^ 31.

Definition index_entry_rep (a b c : Z) (h : bytes) : bytes :=
  rep_int a ++ rep_int b ++ rep_int c ++ h.

Lemma index_entry_length a b c h :
  lengthZ h = 32 -> lengthZ (index_entry_rep a b c h) = 44.
Proof. intros. unfold index_entry_rep. pod_len. Qed.

Lemma index_entry_fields a b c h :
  int_valid a -> int_valid b -> int_valid c -> lengthZ h = 32 ->
  let l := index_entry_rep a b c h in
  unrep_int (slice 0 4 l) = a /\ unrep_int (slice 4 4 l) = b /\
  unrep_int (slice 8 4 l) = c /\ slice 12 32 l = h.
Proof.
  intros ????; simpl. unfold index_entry_rep. pod_fields.
  by rewrite !unrep_rep_int by done.
Qed.

Definition L6_valid (x : L6) : Prop :=
  int_valid (containerID x) /\ int_valid (startSegmentID x) /\ int_valid (endSegmentID x) /\
  lengthZ (L6_hash x) = 32.

#[export] Instance L6_pod : Pod L6.
Proof.
  refine {| sizeof := 44; pod_valid := L6_valid;
    rep x := index_entry_rep (containerID x) (startSegmentID x) (endSegmentID x) (L6_hash x);
    unrep l := mkL6 (unrep_int (slice 0 4 l)) (unrep_int (slice 4 4 l))
                 (unrep_int (slice 8 4 l)) (slice 12 32 l) |}.
  - done.
  - intros x (_&_&_&?). by apply index_entry_length.
  - intros [a b c h] (?&?&?&?); simpl in *.
    by destruct (index_entry_fields a b c h) as (-> & -> & -> & ->).
  - intros l Hl. repeat split; try apply i32_range. apply lengthZ_slice; lia.
Defined.

Definition LP_valid (x : LP) : Prop :=
  int_valid (segmentID x) /\ int_valid (startChunkID x) /\ int_valid (endChunkID x) /\
  lengthZ (LP_hash x) = 32.

#[export] Instance LP_pod : Pod LP.
Proof.
  refine {| sizeof := 44; pod_valid := LP_valid;
    rep x := index_entry_rep (segmentID x) (startChunkID x) (endChunkID x) (LP_hash x);
    unrep l := mkLP (unrep_int (slice 0 4 l)) (unrep_int (slice 4 4 l))
                 (unrep_int (slice 8 4 l)) (slice 12 32 l) |}.
  - done.
  - intros x (_&_&_&?). by apply index_entry_length.
  - intros [a b c h] (?&?&?&?); simpl in *.
    by destruct (index_entry_fields a b c h) as (-> & -> & -> & ->).
  - intros l Hl. repeat split; try apply i32_range. apply lengthZ_slice; lia.
Defined.

Definition L0_valid (x : L0) : Prop :=
  int_valid (L0_chunkID x) /\ int_valid (L0_size x) /\ int_valid (unique x) /\
  lengthZ (fingerprint x) = 32.

#[export] Instance L0_pod : Pod L0.
Proof.
  refine {| sizeof := 44; pod_valid := L0_valid;
    rep x := index_entry_rep (L0_chunkID x) (L0_size x) (unique x) (fingerprint x);
    unrep l := mkL0 (unrep_int (slice 0 4 l)) (unrep_int (slice 4 4 l))
                 (unrep_int (slice 8 4 l)) (slice 12 32 l) |}.
  - done.
  - intros x (_&_&_&?). by apply index_entry_length.
  - intros [a b c h] (?&?&?&?); simpl in *.
    by destruct (index_entry_fields a b c h) as (-> & -> & -> & ->).
  - intros l Hl. repeat split; try apply i32_range. apply lengthZ_slice; lia.
Defined.

(** ** Arrays of structs, written one after the other *)

Definition reps {A} `{Pod A} (l : list A) : bytes := concat (rep <$> l).

Lemma reps_length {A} `{Pod A} (l : list A) :
  Forall pod_valid l -> lengthZ (reps l) = sizeof A * lengthZ l.
Proof.
  induction 1 as [|a l Ha _ IH]; [simpl; lia|].
  unfold reps in *. cbn. rewrite lengthZ_app, IH, rep_length by done. lia.
Qed.

Lemma reps_app {A} `{Pod A} (l1 l2 : list A) : reps (l1 ++ l2) = reps l1 ++ reps l2.
Proof. unfold reps. by rewrite fmap_app, concat_app. Qed.

Lemma reps_cons {A} `{Pod A} (a : A) l : reps (a :: l) = rep a ++ reps l.
Proof. done. Qed.
