(* ===== verification/Database.v ===== *)
(** * The key-value stores and the file system (src/database.cpp)

    LevelDB itself is third-party code: the class [LevelDB] lists the calls
    [Database] makes and the documented behaviour the program relies on, and
    everything above is proved against it.  [gmap] is the instance the
    witnesses run on.  The program has four global [Database] objects
    (src/main.cc) and works on files; both are in the record [env] that every
    operation is passed. *)

From S2P Require Import Prelude.
From S2P Require Import Bytes.
From stdpp Require Import base tactics numbers list gmap strings.
From Stdlib Require Import Ascii ZArith Lia.

Open Scope Z_scope.

(** ** LevelDB

    [Get] is [Some v] when the status is ok; [Put] and [Delete] give the
    status and the database after the call; the iterator reads a snapshot
    taken when it is created. *)

Class LevelDB (db : Type) := {
  Get : db -> bytes -> option bytes;
  Put : db -> bytes -> bytes -> bool * db;
  Delete : db -> bytes -> bool * db;
  NewIterator : db -> list (bytes * bytes);
  Get_Put_eq d k v d' : Put d k v = (true, d') -> Get d' k = Some v;
  Get_Put_ne d k k' v d' : k <> k' -> Put d k v = (true, d') -> Get d' k' = Get d k';
  Get_Delete_eq d k d' : Delete d k = (true, d') -> Get d' k = None;
  Get_Delete_ne d k k' d' : k <> k' -> Delete d k = (true, d') -> Get d' k' = Get d k';
  NewIterator_Get d k v : (k, v) ∈ NewIterator d <-> Get d k = Some v;
  NewIterator_NoDup d : NoDup (NewIterator d).*1
}.

(** The calls do not fail: no I/O error, disk not full. *)
Class LevelDBReliable (db : Type) `{LevelDB db} := {
  Put_ok d k v : (Put d k v).1 = true;
  Delete_ok d k : (Delete d k).1 = true
}.

#[export] Program Instance gmap_LevelDB : LevelDB (gmap bytes bytes) := {|
  Get d k := d !! k;
  Put d k v := (true, <[k := v]> d);
  Delete d k := (true, delete k d);
  NewIterator d := map_to_list d
|}.
Next Obligation. intros d k v d' [= <-]. apply lookup_insert_eq. Qed.
Next Obligation. intros d k k' v d' ? [= <-]. by apply lookup_insert_ne. Qed.
Next Obligation. intros d k d' [= <-]. apply lookup_delete_eq. Qed.
Next Obligation. intros d k k' d' ? [= <-]. by apply lookup_delete_ne. Qed.
Next Obligation. intros d k v. apply elem_of_map_to_list. Qed.
Next Obligation. intros d. apply NoDup_fst_map_to_list. Qed.

#[export] Instance gmap_LevelDBReliable : LevelDBReliable (gmap bytes bytes).
Proof. by split. Qed.

(** ** Database

    [levelDBObj_] is [None] while it is the null pointer the class
    initialises it to. *)

Record Database (db : Type) : Type := mkDatabase
  { levelDBObj_ : option db; dbName_ : bytes }.
Arguments mkDatabase {db} _ _.
Arguments levelDBObj_ {db} _.
Arguments dbName_ {db} _.

Section Database.
Context {db : Type} `{LevelDB db}.

(** [Some value]: true, with the value stored through the reference; [None]:
    false, the reference is left alone. *)
Definition db_query (d : Database db) (key : bytes) : outcome (option bytes) :=
  o ← in_bounds (levelDBObj_ d);
  Ok (Get o key).

Definition db_insert (d : Database db) (key value : bytes) : outcome (bool * Database db) :=
  o ← in_bounds (levelDBObj_ d);
  let '(ok, o') := Put o key value in
  Ok (ok, mkDatabase (Some o') (dbName_ d)).

Definition db_delete (d : Database db) (key : bytes) : outcome (bool * Database db) :=
  o ← in_bounds (levelDBObj_ d);
  let '(ok, o') := Delete o key in
  Ok (ok, mkDatabase (Some o') (dbName_ d)).

Definition db_iterator (d : Database db) : outcome (list (bytes * bytes)) :=
  o ← in_bounds (levelDBObj_ d);
  Ok (NewIterator o).

(** [openDB]: [open] is [leveldb::DB::Open] with [create_if_missing]; the
    status of a failed open is asserted on, which aborts. *)
Definition openDB (open : bytes -> option db) (files : gmap bytes bytes)
    (dbName : bytes) (d : Database db) : outcome (bool * Database db) :=
  match files !! (str "." ++ dbName ++ str ".lock") with
  | Some _ => Ok (false, d)
  | None =>
      match open dbName with
      | Some o => Ok (true, mkDatabase (Some o) dbName)
      | None => Throw assertion_failed
      end
  end.

(** The destructor removes the lock file. *)
Definition Database_destructor (d : Database db) (files : gmap bytes bytes) : gmap bytes bytes :=
  delete (str "." ++ dbName_ d ++ str ".lock") files.

(** What an open database holds. *)
Definition contents (d : Database db) (k : bytes) : option bytes := levelDBObj_ d ≫= fun o => Get o k.
Definition is_open (d : Database db) : Prop := is_Some (levelDBObj_ d).

Lemma query_open d k : is_open d -> db_query d k = Ok (contents d k).
Proof. intros [o Ho]. unfold db_query, contents. by rewrite Ho. Qed.

Lemma contents_open d k v : contents d k = Some v -> is_open d.
Proof. unfold contents, is_open. destruct (levelDBObj_ d); [eauto|done]. Qed.

Lemma insert_spec d k v d' :
  db_insert d k v = Ok (true, d') ->
  is_open d' /\ contents d' k = Some v /\ forall k', k <> k' -> contents d' k' = contents d k'.
Proof.
  unfold db_insert, contents, is_open. intros Hi. inv_ok. rewrite H0.
  destruct (Put x k v) as [ok o'] eqn:E. injection Hi as -> <-. simpl.
  split_and!; [eauto|by eapply Get_Put_eq|]. intros. by eapply Get_Put_ne.
Qed.

Lemma delete_spec d k d' :
  db_delete d k = Ok (true, d') ->
  is_open d' /\ contents d' k = None /\ forall k', k <> k' -> contents d' k' = contents d k'.
Proof.
  unfold db_delete, contents, is_open. intros Hi. inv_ok. rewrite H0.
  destruct (Delete x k) as [ok o'] eqn:E. injection Hi as -> <-. simpl.
  split_and!; [eauto|by eapply Get_Delete_eq|]. intros. by eapply Get_Delete_ne.
Qed.

(** On an open database of a reliable store the updates succeed. *)
Lemma insert_total `{!LevelDBReliable db} d k v :
  is_open d -> exists d', db_insert d k v = Ok (true, d').
Proof.
  intros [o Ho]. unfold db_insert. rewrite Ho. simpl.
  pose proof (Put_ok o k v). destruct (Put o k v) as [ok o']; simpl in *. subst. eauto.
Qed.

Lemma delete_total `{!LevelDBReliable db} d k :
  is_open d -> exists d', db_delete d k = Ok (true, d').
Proof.
  intros [o Ho]. unfold db_delete. rewrite Ho. simpl.
  pose proof (Delete_ok o k). destruct (Delete o k) as [ok o']; simpl in *. subst. eauto.
Qed.

Lemma insert_open d k v ok d' : db_insert d k v = Ok (ok, d') -> is_open d'.
Proof.
  unfold db_insert. intros Hi. inv_ok. destruct (Put x k v). injection Hi as <- <-.
  unfold is_open. simpl. eauto.
Qed.

Lemma delete_open d k ok d' : db_delete d k = Ok (ok, d') -> is_open d'.
Proof.
  unfold db_delete. intros Hi. inv_ok. destruct (Delete x k). injection Hi as <- <-.
  unfold is_open. simpl. eauto.
Qed.

Lemma insert_runs d k v : is_open d -> exists ok d', db_insert d k v = Ok (ok, d').
Proof. intros [o Ho]. unfold db_insert. rewrite Ho. simpl. destruct (Put o k v). eauto. Qed.

Lemma iterator_spec d l :
  db_iterator d = Ok l -> NoDup l.*1 /\ forall k v, (k, v) ∈ l <-> contents d k = Some v.
Proof.
  unfold db_iterator, contents. intros Hi. inv_ok. rewrite H0. subst l. simpl.
  split; [apply NewIterator_NoDup|apply NewIterator_Get].
Qed.
End Database.

#[export] Hint Resolve insert_open delete_open : core.

(** ** The environment: the global databases and the files

    A file is named by its path; [writable p] tells whether opening [p] for
    writing succeeds (the directory exists, permissions). *)

Record env (db : Type) : Type := mkEnv
  { fp2ChunkDB : Database db;
    fileName2metaDB : Database db;
    deltaChunkDB : Database db;
    containerDB : Database db;
    files : gmap bytes bytes;
    writable : bytes -> bool }.
Arguments mkEnv {db} _ _ _ _ _ _.
Arguments fp2ChunkDB {db} _.
Arguments fileName2metaDB {db} _.
Arguments deltaChunkDB {db} _.
Arguments containerDB {db} _.
Arguments files {db} _.
Arguments writable {db} _ _.

Section env.
Context {db : Type}.
Implicit Types e : env db.

Definition with_fp2ChunkDB (d : Database db) e : env db :=
  mkEnv d (fileName2metaDB e) (deltaChunkDB e) (containerDB e) (files e) (writable e).
Definition with_fileName2metaDB (d : Database db) e : env db :=
  mkEnv (fp2ChunkDB e) d (deltaChunkDB e) (containerDB e) (files e) (writable e).
Definition with_deltaChunkDB (d : Database db) e : env db :=
  mkEnv (fp2ChunkDB e) (fileName2metaDB e) d (containerDB e) (files e) (writable e).
Definition with_containerDB (d : Database db) e : env db :=
  mkEnv (fp2ChunkDB e) (fileName2metaDB e) (deltaChunkDB e) d (files e) (writable e).
Definition with_files (f : gmap bytes bytes) e : env db :=
  mkEnv (fp2ChunkDB e) (fileName2metaDB e) (deltaChunkDB e) (containerDB e) f (writable e).

(** [ofstream(path, out)], write [content], close. *)
Definition write_file (path content : bytes) e : bool * env db :=
  if writable e path then (true, with_files (<[path := content]> (files e)) e)
  else (false, e).

(** [ofstream(path, app)]: the file is created when it is missing. *)
Definition append_file (path content : bytes) e : bool * env db :=
  if writable e path
  then (true, with_files (<[path := default [] (files e !! path) ++ content]> (files e)) e)
  else (false, e).

Definition remove_file (path : bytes) e : env db := with_files (delete path (files e)) e.
End env.

#[export] Hint Unfold with_fp2ChunkDB with_fileName2metaDB with_deltaChunkDB with_containerDB
  with_files write_file append_file remove_file : core.
