(* ===== verification/Storage.v ===== *)
(** * StorageCore: buffers and containers (src/storageCore.cpp)

    The 16 MB buffers of containers, then the operations of the storage on
    containers and chunks. *)

From S2P Require Import Prelude.
From S2P Require Import Bytes.
From S2P Require Import DataStructure.
From S2P Require Import Database.
From stdpp Require Import base tactics numbers list.
From Stdlib Require Import Ascii ZArith Lia.
From stdpp Require Import base tactics numbers list gmap strings.

Open Scope Z_scope.

(** * Fixed-size buffers

    The 16 MB body of a container is a total function from offsets to bytes:
    what was never written is whatever the memory held.  [read_mem] and
    [write_mem] are [memcpy] out of and into it. *)

Definition read_mem (m : Z -> byte) (off len : Z) : bytes := m <$> seqZ off len.

Definition write_mem (m : Z -> byte) (off : Z) (l : bytes) : Z -> byte := fun i =>
  match nthZ l (i - off) with
  | Some b => b
  | None => m i
  end.

Lemma read_mem_lengthZ m off len : 0 <= len -> lengthZ (read_mem m off len) = len.
Proof. intros. unfold read_mem. rewrite lengthZ_length, length_fmap, length_seqZ. lia. Qed.

Lemma read_mem_ext m1 m2 off len :
  (forall i, off <= i < off + len -> m1 i = m2 i) -> read_mem m1 off len = read_mem m2 off len.
Proof.
  intros Heq. unfold read_mem. apply list_fmap_ext. intros i x Hx.
  apply lookup_seqZ in Hx as [-> ?]. apply Heq. lia.
Qed.

Lemma write_mem_out m off l i : i < off \/ off + lengthZ l <= i -> write_mem m off l i = m i.
Proof.
  intros Hi. unfold write_mem. destruct (nthZ l (i - off)) eqn:E; [|done].
  apply nthZ_lt in E. lia.
Qed.

Lemma read_write_disjoint m off l off' len' :
  off' + len' <= off \/ off + lengthZ l <= off' ->
  read_mem (write_mem m off l) off' len' = read_mem m off' len'.
Proof. intros. apply read_mem_ext. intros. apply write_mem_out. lia. Qed.

(** The bytes of a window of a block that was just written. *)
Lemma read_write_slice m off l d len :
  0 <= d -> 0 <= len -> d + len <= lengthZ l ->
  read_mem (write_mem m off l) (off + d) len = slice d len l.
Proof.
  rewrite lengthZ_length. intros ?? Hl. apply list_eq. intros i.
  unfold read_mem, slice. rewrite takeZ_take, dropZ_drop, list_lookup_fmap.
  destruct (decide (i < Z.to_nat len)%nat) as [Hi|Hi].
  - rewrite lookup_seqZ_lt, lookup_take_lt, lookup_drop by lia. simpl.
    unfold write_mem, nthZ. replace (off + d + Z.of_nat i - off) with (d + Z.of_nat i) by lia.
    destruct (Z.ltb_spec (d + Z.of_nat i) 0); [lia|].
    replace (Z.to_nat (d + Z.of_nat i)) with (Z.to_nat d + i)%nat by lia.
    destruct (lookup_lt_is_Some_2 l (Z.to_nat d + i)) as [b Hb]; [lia|]. by rewrite Hb.
  - rewrite lookup_seqZ_ge by lia. rewrite lookup_take_ge by lia. done.
Qed.

Lemma read_write_same m off l : read_mem (write_mem m off l) off (lengthZ l) = l.
Proof.
  rewrite <- (Z.add_0_r off) at 2. pose proof (lengthZ_nonneg l).
  rewrite read_write_slice by lia. unfold slice. rewrite dropZ_nonpos by lia.
  apply takeZ_ge. lia.
Qed.

Lemma read_mem_app m off n1 n2 :
  0 <= n1 -> 0 <= n2 -> read_mem m off (n1 + n2) = read_mem m off n1 ++ read_mem m (off + n1) n2.
Proof. intros. unfold read_mem. rewrite seqZ_app by lia. by rewrite fmap_app. Qed.

(** A window of what was read is what is read in that window. *)
Lemma slice_read_mem m off n d len :
  0 <= d -> 0 <= len -> d + len <= n ->
  slice d len (read_mem m off n) = read_mem m (off + d) len.
Proof.
  intros. replace n with (d + (len + (n - d - len))) by lia.
  rewrite !read_mem_app by lia. unfold slice.
  rewrite dropZ_app_exact by (rewrite read_mem_lengthZ; lia).
  by rewrite takeZ_app_exact by (rewrite read_mem_lengthZ; lia).
Qed.

(** * StorageCore: containers and recipes (src/storageCore.cpp)

    The operations of [StorageCore] and [Container] in the order of the
    source.  The object is the record [StorageCore]; an operation takes it and
    the environment and gives the new ones, inside [outcome].  Out-of-bounds
    accesses are [UB]; what C++ leaves uninitialised is read from [indet], an
    arbitrary function, or passed as an argument. *)

(** ** Container (include/storageCore.hpp) *)

(** [char body_[2 << 23]] *)
Definition BODY_SIZE : Z := Z.shiftl 2 23.

Record Container : Type := mkContainer { used_ : Z; body_ : Z -> byte }.

Record StorageCore : Type := mkStorageCore
  { lastContainerFileName_ : bytes;
    currentReadContainerFileName_ : bytes;
    containerNamePrefix_ : bytes;
    containerNameTail_ : bytes;
    RecipeNamePrefix_ : bytes;
    RecipeNameTail_ : bytes;
    currentContainer_ : Container;
    currentReadContainer_ : Container;
    maxContainerSize_ : Z }.

Definition with_current (name : bytes) (c : Container) (sc : StorageCore) : StorageCore :=
  mkStorageCore name (currentReadContainerFileName_ sc) (containerNamePrefix_ sc)
    (containerNameTail_ sc) (RecipeNamePrefix_ sc) (RecipeNameTail_ sc) c
    (currentReadContainer_ sc) (maxContainerSize_ sc).

Definition with_read (name : bytes) (c : Container) (sc : StorageCore) : StorageCore :=
  mkStorageCore (lastContainerFileName_ sc) name (containerNamePrefix_ sc)
    (containerNameTail_ sc) (RecipeNamePrefix_ sc) (RecipeNameTail_ sc) (currentContainer_ sc)
    c (maxContainerSize_ sc).

(** The path of the container with the given name. *)
Definition container_path (sc : StorageCore) (name : bytes) : bytes :=
  containerNamePrefix_ sc ++ name ++ containerNameTail_ sc.

Definition recipe_path (sc : StorageCore) (name : bytes) : bytes :=
  RecipeNamePrefix_ sc ++ name ++ RecipeNameTail_ sc.

Definition key_with_name (n : bytes) (k : keyForChunkHashDB_t) : keyForChunkHashDB_t :=
  mkKey n (key_offset k) (key_length k) (key_count k) (deltaCount k).
Definition key_with_offset (o : Z) (k : keyForChunkHashDB_t) : keyForChunkHashDB_t :=
  mkKey (containerName k) o (key_length k) (key_count k) (deltaCount k).
Definition key_with_count (c : Z) (k : keyForChunkHashDB_t) : keyForChunkHashDB_t :=
  mkKey (containerName k) (key_offset k) (key_length k) c (deltaCount k).

(** [string s(p, n)]: a string of [n] bytes from a buffer. *)
Definition string_of (p : bytes) (n : Z) : outcome bytes :=
  _ ← require (n <=? lengthZ p); Ok (takeZ n p).

Section StorageCore.
Context {db : Type} `{LevelDB db}.
(** The bytes [delta_apply] of libsim writes to its output buffer. *)
Context (delta_apply : bytes -> bytes -> bytes).
(** The contents of automatic storage that is not initialised. *)
Context (indet : Z -> byte).
Implicit Types (sc : StorageCore) (e : env db) (key : keyForChunkHashDB_t).

(** [Container::saveTOFile] *)
Definition saveTOFile (c : Container) (fileName : bytes) e : outcome (bool * env db) :=
  if writable e fileName then
    _ ← require (used_ c <=? BODY_SIZE);
    let '(_, e1) := write_file fileName (read_mem (body_ c) 0 (used_ c)) e in
    '(_, d) ← db_insert (containerDB e1) fileName (to_string (used_ c));
    Ok (true, with_containerDB d e1)
  else Ok (false, e).

(** The two [memcpy] of [writeContainer]: the chunk to the end of the current
    container, the container's name into the key. *)
Definition put_chunk key (data : bytes) sc : outcome (keyForChunkHashDB_t * StorageCore) :=
  let c := currentContainer_ sc in
  _ ← require (used_ c + key_length key <=? BODY_SIZE);
  d ← string_of data (key_length key);
  let c' := mkContainer (used_ c) (write_mem (body_ c) (used_ c) d) in
  let name := lastContainerFileName_ sc in
  _ ← require (lengthZ name <=? 16);
  Ok (key_with_name (name ++ dropZ (lengthZ name) (containerName key)) key,
      with_current name c' sc).

(** A full container is written out, its result ignored, and the next name
    taken. *)
Definition roll_container sc e : outcome (StorageCore * env db) :=
  '(_, e1) ← saveTOFile (currentContainer_ sc)
               (container_path sc (lastContainerFileName_ sc)) e;
  let '(_, name) := next_permutation (lastContainerFileName_ sc) in
  Ok (with_current name (mkContainer 0 (body_ (currentContainer_ sc))) sc, e1).

Definition writeContainer key (data : bytes) sc e :
    outcome (bool * keyForChunkHashDB_t * StorageCore * env db) :=
  '(sc1, e1) ←
    (if u32 (key_length key + used_ (currentContainer_ sc)) <? maxContainerSize_ sc
     then Ok (sc, e) else roll_container sc e);
  '(key1, sc2) ← put_chunk key data sc1;
  Ok (true, key_with_offset (used_ (currentContainer_ sc2)) key1, sc2, e1).

(** [None] is false; [Some d] is true with [d] copied to [data]. *)
Definition readContainer key sc e : outcome (option bytes * StorageCore) :=
  name ← string_of (containerName key) (lengthZ (lastContainerFileName_ sc));
  let copy (c : Container) :=
    _ ← require (key_offset key + key_length key <=? BODY_SIZE);
    Ok (read_mem (body_ c) (key_offset key) (key_length key)) in
  if bool_decide (name = currentReadContainerFileName_ sc) then
    d ← copy (currentReadContainer_ sc); Ok (Some d, sc)
  else if bool_decide (name = lastContainerFileName_ sc) then
    d ← copy (currentContainer_ sc); Ok (Some d, sc)
  else
    match files e !! container_path sc name with
    | None => Ok (None, sc)
    | Some content =>
        _ ← require (lengthZ content <=? BODY_SIZE);
        let c := mkContainer (lengthZ content)
                   (write_mem (body_ (currentReadContainer_ sc)) 0 content) in
        d ← copy c;
        Ok (Some d, with_read name c sc)
    end.

(** The loop of [saveChunk] over the first [key.length - 2] bytes; the bound
    is an unsigned subtraction. *)
Definition mask_nul (b : byte) : byte := if bool_decide (b = NUL) then chr 128 else b.

Definition mask_chunk (len : Z) (data : bytes) : outcome bytes :=
  let n := u32 (len - 2) in
  _ ← require (n <=? lengthZ data);
  Ok ((mask_nul <$> takeZ n data) ++ dropZ n data).

(** [saveChunk]; [key0] is the uninitialised local [key]. *)
Definition saveChunk (key0 : keyForChunkHashDB_t) (chunkhash chunkData : bytes) (chunkSize : Z)
    sc e : outcome (bool * StorageCore * env db) :=
  chunkHash ← string_of chunkhash CHUNK_HASH_SIZE;
  ans ← db_query (fp2ChunkDB e) chunkHash;
  key ← match ans with
        | Some a =>
            tempkey ← load a;
            Ok (mkKey (containerName key0) (key_offset key0) (key_length tempkey)
                  (key_count tempkey) (deltaCount tempkey))
        | None => Ok (mkKey (containerName key0) (key_offset key0) (u32 chunkSize) 1 0)
        end;
  data ← mask_chunk (key_length key) chunkData;
  '(status, key1, sc1, e1) ← writeContainer key data sc e;
  if negb status then Ok (false, sc1, e1) else
  '(status, d) ← db_insert (fp2ChunkDB e1) chunkHash (rep key1);
  let e2 := with_fp2ChunkDB d e1 in
  if negb status then Ok (false, sc1, e2) else
  let c := currentContainer_ sc1 in
  Ok (true,
      with_current (lastContainerFileName_ sc1)
        (mkContainer (u32 (used_ c + key_length key1)) (body_ c)) sc1, e2).

(** [restoreChunk]; [fuel] bounds the length of a chain of delta chunks. *)
Fixpoint restoreChunk (fuel : nat) (chunkhash : bytes) sc e :
    outcome (option bytes * StorageCore) :=
  match fuel with
  | O => NoFuel
  | S fuel' =>
      chunkHash ← string_of chunkhash CHUNK_HASH_SIZE;
      ans ← db_query (fp2ChunkDB e) chunkHash;
      match ans with
      | None => Ok (None, sc)
      | Some a =>
          key ← load a;
          '(r, sc1) ← readContainer key sc e;
          match r with
          | None => Ok (None, sc1)
          | Some chunkData =>
              if 0 <? deltaCount key then
                restoredata ← in_bounds (cstr chunkData);
                basehash ← string_of chunkData CHUNK_HASH_SIZE;
                '(base, sc2) ← restoreChunk fuel' basehash sc1 e;
                if lengthZ restoredata <? CHUNK_HASH_SIZE then Throw out_of_range else
                let out := delta_apply (default [] base) (dropZ CHUNK_HASH_SIZE restoredata) in
                _ ← require (lengthZ out <=? MAX_CHUNK_SIZE);
                nodelta ← in_bounds
                  (cstr (out ++ replicate (Z.to_nat (MAX_CHUNK_SIZE - lengthZ out)) NUL));
                Ok (Some nodelta, sc2)
              else Ok (Some chunkData, sc1)
          end
      end
  end.

Definition retriveChunk (chunkhash : bytes) sc e : outcome (option bytes * StorageCore) :=
  chunkHash ← string_of chunkhash CHUNK_HASH_SIZE;
  ans ← db_query (fp2ChunkDB e) chunkHash;
  match ans with
  | None => Ok (None, sc)
  | Some a =>
      key ← load a;
      readContainer key sc e
  end.

(** [deleteChunk]: [Some false] when the chunk is unknown.  The other path
    ends without a [return]: [None] stands for the value the caller then
    sees. *)
Definition deleteChunk (chunkhash : bytes) e : outcome (option bool * env db) :=
  chunkHash ← string_of chunkhash CHUNK_HASH_SIZE;
  ans ← db_query (fp2ChunkDB e) chunkHash;
  match ans with
  | None => Ok (Some false, e)
  | Some a =>
      key ← load a;
      '(_, d) ← db_insert (fp2ChunkDB e) chunkHash (rep (key_with_count (u32 (key_count key - 1)) key));
      Ok (None, with_fp2ChunkDB d e)
  end.

(** [saveChunks]: an [int] number of chunks, then per chunk its hash, its
    size and its data.  The read position does not move past the data of a
    chunk that is already stored. *)
Fixpoint saveChunks_loop (key0 : keyForChunkHashDB_t) (n : nat) (data : bytes) (readSize : Z)
    sc e : outcome (bool * StorageCore * env db) :=
  match n with
  | O => Ok (true, sc, e)
  | S n' =>
      originHash ← string_of (dropZ readSize data) CHUNK_HASH_SIZE;
      let readSize1 := readSize + CHUNK_HASH_SIZE in
      sizeBytes ← string_of (dropZ readSize1 data) 4;
      let currentChunkSize := unrep_int sizeBytes in
      let readSize2 := readSize1 + 4 in
      ans ← db_query (fp2ChunkDB e) originHash;
      match ans with
      | Some _ => saveChunks_loop key0 n' data readSize2 sc e
      | None =>
          '(ok, sc1, e1) ← saveChunk key0 originHash (dropZ readSize2 data) currentChunkSize sc e;
          if negb ok then Ok (false, sc1, e1)
          else saveChunks_loop key0 n' data (readSize2 + currentChunkSize) sc1 e1
      end
  end.

Definition saveChunks (key0 : keyForChunkHashDB_t) (data : bytes) sc e :
    outcome (bool * StorageCore * env db) :=
  numBytes ← string_of data 4;
  saveChunks_loop key0 (Z.to_nat (unrep_int numBytes)) data 4 sc e.
End StorageCore.
