(* ===== verification/Recipe.v ===== *)
(** * StorageCore: recipes, start-up and shut-down (src/storageCore.cpp)

    A recipe file is a [Recipe_t] head followed by one [RecipeEntry_t] per
    chunk; its name is the hexadecimal hash of the path of the stored file.
    The constructor and the destructor keep the name and the fill level of the
    current container in [.StorageConfig]. *)

From S2P Require Import Prelude.
From S2P Require Import Bytes.
From S2P Require Import DataStructure.
From S2P Require Import Database.
From S2P Require Import Storage.
From stdpp Require Import base tactics numbers list gmap strings.
From Stdlib Require Import Ascii ZArith Lia.

Open Scope Z_scope.

Section Recipe.
Context {db : Type} `{LevelDB db}.
Context (delta_apply : bytes -> bytes -> bytes).
Context (indet : Z -> byte).
Implicit Types (sc : StorageCore) (e : env db).

(** [restoreRecipeHead]: [None] is false.  A file shorter than the head
    leaves the rest of the zeroed buffer. *)
Definition restoreRecipeHead (fileNameHash : bytes) sc e : outcome (option Recipe_t) :=
  DBKey ← string_of fileNameHash FILE_NAME_HASH_SIZE;
  r ← db_query (fileName2metaDB e) DBKey;
  match r with
  | None => Ok None
  | Some recipeName =>
      match files e !! recipe_path sc recipeName with
      | None => Ok None
      | Some content =>
          let got := takeZ (sizeof Recipe_t) content in
          head ← load (got ++ replicate (Z.to_nat (sizeof Recipe_t - lengthZ got)) NUL);
          Ok (Some head)
      end
  end.

(** [saveRecipe]: appends the entries, after the head unless [status]. *)
Definition saveRecipe (recipeName : bytes) (recipeHead : Recipe_t)
    (recipeList : list RecipeEntry_t) (status : bool) sc e : bool * env db :=
  append_file (recipe_path sc recipeName)
    ((if status then [] else rep recipeHead) ++ reps recipeList) e.

Definition checkRecipeStatus (recipeHead : Recipe_t) (recipeList : list RecipeEntry_t) sc e :
    outcome (bool * env db) :=
  DBKey ← string_of (frh_fileNameHash (fileRecipeHead recipeHead)) FILE_NAME_HASH_SIZE;
  r ← db_query (fileName2metaDB e) DBKey;
  match r with
  | Some recipeName => Ok (saveRecipe recipeName recipeHead recipeList true sc e)
  | None =>
      let recipeNameNew := hex (takeZ FILE_NAME_HASH_SIZE
                                  (frh_fileNameHash (fileRecipeHead recipeHead))) in
      '(_, d) ← db_insert (fileName2metaDB e) DBKey recipeNameNew;
      Ok (saveRecipe recipeNameNew recipeHead recipeList false sc (with_fileName2metaDB d e))
  end.

(** The [n] entries from [startID] on, read into an uninitialised buffer: what
    the file does not hold stays indeterminate. *)
Definition read_entries (content : bytes) (startID n : Z) : bytes :=
  let size := sizeof RecipeEntry_t * n in
  let got := slice (sizeof Recipe_t + startID * sizeof RecipeEntry_t) size content in
  got ++ read_mem indet (lengthZ got) (size - lengthZ got).

(** The loop of [restoreRecipeAndChunk] over [n] entries of [buf]; chunks
    restored before a failure are kept. *)
Fixpoint restore_loop (fuel n : nat) (buf : bytes) sc e :
    outcome (bool * list Chunk_t * StorageCore) :=
  match n with
  | O => Ok (true, [], sc)
  | S n' =>
      newRecipeEntry ← load buf;
      '(r, sc1) ← restoreChunk delta_apply fuel (re_chunkHash newRecipeEntry) sc e;
      match r with
      | None => Ok (false, [], sc1)
      | Some chunkData =>
          if negb (lengthZ chunkData =? u64 (re_chunkSize newRecipeEntry))
          then Ok (false, [], sc1)
          else
            _ ← require (lengthZ chunkData <=? MAX_CHUNK_SIZE);
            let newChunk := mkChunk (re_chunkID newRecipeEntry) (re_chunkSize newRecipeEntry)
              (chunkData ++ replicate (Z.to_nat (MAX_CHUNK_SIZE - lengthZ chunkData)) NUL)
              (re_chunkHash newRecipeEntry) (read_mem indet 0 32) in
            '(ok, l, sc2) ← restore_loop fuel n' (dropZ (sizeof RecipeEntry_t) buf) sc1 e;
            Ok (ok, newChunk :: l, sc2)
      end
  end.

Definition restoreRecipeAndChunk (fuel : nat) (fileNameHash : bytes) (startID endID : Z) sc e :
    outcome (bool * list Chunk_t * StorageCore) :=
  DBKey ← string_of fileNameHash FILE_NAME_HASH_SIZE;
  r ← db_query (fileName2metaDB e) DBKey;
  match r with
  | None => Ok (false, [], sc)
  | Some recipeName =>
      match files e !! recipe_path sc recipeName with
      | None => Ok (false, [], sc)
      | Some content =>
          let n := u32 (endID - startID) in
          restore_loop fuel (Z.to_nat n) (read_entries content startID n) sc e
      end
  end.

(** [deleteRecipeAndChunk]; [fall_off] is what the caller reads when
    [deleteChunk] ends without a [return]. *)
Fixpoint delete_loop (fall_off : bool) (n : nat) (buf : bytes) e : outcome (bool * env db) :=
  match n with
  | O => Ok (true, e)
  | S n' =>
      newRecipeEntry ← load buf;
      '(r, e1) ← deleteChunk (re_chunkHash newRecipeEntry) e;
      if default fall_off r
      then delete_loop fall_off n' (dropZ (sizeof RecipeEntry_t) buf) e1
      else Ok (false, e1)
  end.

Definition deleteRecipeAndChunk (fall_off : bool) (fileNameHash : bytes) (startID endID : Z)
    sc e : outcome (bool * env db) :=
  DBKey ← string_of fileNameHash FILE_NAME_HASH_SIZE;
  r ← db_query (fileName2metaDB e) DBKey;
  match r with
  | None => Ok (false, e)
  | Some recipeName =>
      match files e !! recipe_path sc recipeName with
      | None => Ok (false, e)
      | Some content =>
          let n := u32 (endID - startID) in
          '(ok, e1) ← delete_loop fall_off (Z.to_nat n) (read_entries content startID n) e;
          if (ok : bool) then
            '(_, d) ← db_delete (fileName2metaDB e1) DBKey;
            Ok (true, remove_file (recipe_path sc recipeName) (with_fileName2metaDB d e1))
          else Ok (false, e1)
      end
  end.

(** ** Constructor and destructor *)

Definition newline : byte := chr 10.

(** [fin >> s] for a string: skip white space, read up to the next one. *)
Fixpoint read_token (l : bytes) : bytes * bytes :=
  match l with
  | [] => ([], [])
  | b :: l' => if is_space b then ([], l) else let '(t, r) := read_token l' in (b :: t, r)
  end.

(** [fin >> n] for a [uint32_t]: zero when there is no number, the largest
    value when it is too large. *)
Definition read_uint32 (l : bytes) : Z :=
  match parse_unsigned (skip_space l) with
  | Some n => Z.min n (2 ^ 32 - 1)
  | None => 0
  end.

Definition StorageConfig : bytes := str ".StorageConfig".

(** [StorageCore::StorageCore()]; [m], [m'] are the uninitialised bodies. *)
Definition StorageCore_new (containerRoot recipeRoot : bytes) (maxSize : Z) (m m' : Z -> byte) e :
    outcome StorageCore :=
  let mk name c :=
    mkStorageCore name [] containerRoot (str ".container") recipeRoot (str ".recipe") c
      (mkContainer 0 m') maxSize in
  match files e !! StorageConfig with
  | Some cfg =>
      let '(name, rest) := read_token (skip_space cfg) in
      let used := read_uint32 rest in
      _ ← require (used <=? BODY_SIZE);
      let content := default [] (files e !! (containerRoot ++ name ++ str ".container")) in
      Ok (mk name (mkContainer used (write_mem m 0 (takeZ used content))))
  | None => Ok (mk first_container_name (mkContainer 0 m))
  end.

(** [StorageCore::~StorageCore()] *)
Definition StorageCore_delete sc e : outcome (env db) :=
  let '(_, e1) := write_file StorageConfig
    (lastContainerFileName_ sc ++ [newline] ++
     to_string (used_ (currentContainer_ sc)) ++ [newline]) e in
  '(_, e2) ← saveTOFile (currentContainer_ sc)
               (container_path sc (lastContainerFileName_ sc)) e1;
  Ok e2.
End Recipe.
