(* ===== verification/StorageSpec.v ===== *)
(** * What StorageCore promises: a map from hashes to chunks

    The abstract state is a finite map from a chunk hash to the chunk's data
    and its reference count.  [Repr sc e m] says that the object [sc] and the
    environment [e] represent [m]: every entry of the fingerprint database
    points into a container, either the current one in memory or a file, where
    the data lies.  The operations of [Storage] are proved to refine the map
    operations. *)

From S2P Require Import Prelude.
From S2P Require Import Bytes.
From S2P Require Import DataStructure.
From S2P Require Import Database.
From S2P Require Import Storage.
From stdpp Require Import base tactics numbers list gmap strings.
From Stdlib Require Import Ascii ZArith Lia.

Open Scope Z_scope.

(** The data kept for a chunk: NULs are masked except in the last two bytes. *)
Definition masked (d : bytes) : bytes :=
  (mask_nul <$> takeZ (lengthZ d - 2) d) ++ dropZ (lengthZ d - 2) d.

Lemma lengthZ_fmap {A B} (f : A -> B) (l : list A) : lengthZ (f <$> l) = lengthZ l.
Proof. by rewrite !lengthZ_length, length_fmap. Qed.

Lemma masked_length d : lengthZ (masked d) = lengthZ d.
Proof.
  unfold masked. rewrite lengthZ_app, lengthZ_fmap, <- lengthZ_app. by rewrite takeZ_dropZ.
Qed.

Lemma mask_nul_id b : b <> NUL -> mask_nul b = b.
Proof. intros. unfold mask_nul. by rewrite bool_decide_eq_false_2. Qed.

Lemma mask_nul_neq b : mask_nul b <> NUL.
Proof. unfold mask_nul. case_bool_decide; [|done]. intros E%(f_equal u8). done. Qed.

Lemma mask_nul_no_nul l : no_nul l -> mask_nul <$> l = l.
Proof. induction 1 as [|b l Hb _ IH]; csimpl; [done|]. by rewrite IH, mask_nul_id. Qed.

(** Masking only loses NUL bytes. *)
Lemma masked_no_nul d : no_nul (takeZ (lengthZ d - 2) d) -> masked d = d.
Proof. intros Hn. unfold masked. rewrite mask_nul_no_nul by done. apply takeZ_dropZ. Qed.

Lemma mask_chunk_spec len data :
  2 <= len <= lengthZ data -> len < 2 ^ 32 ->
  exists d', mask_chunk len data = Ok d' /\ lengthZ d' = lengthZ data /\
             takeZ len d' = masked (takeZ len data).
Proof.
  intros Hlen Hb. unfold mask_chunk. rewrite (u32_small (len - 2)) by lia.
  rewrite (proj2 (Z.leb_le (len - 2) (lengthZ data))) by lia. simpl. eexists. split; [done|].
  split; [by rewrite lengthZ_app, lengthZ_fmap, <- lengthZ_app, takeZ_dropZ|].
  unfold masked. rewrite lengthZ_takeZ, Z.min_l by lia.
  rewrite takeZ_app, lengthZ_fmap, lengthZ_takeZ, Z.min_l by lia.
  rewrite takeZ_takeZ, dropZ_takeZ by lia. f_equal.
  apply takeZ_ge. rewrite lengthZ_fmap, lengthZ_takeZ; lia.
Qed.

(** ** Representation *)

(** The chunk store of the specification: data and reference count. *)
Abbreviation chunk_store := (gmap bytes (bytes * Z)).

Section Spec.
Context {db : Type} `{LevelDB db}.
Implicit Types (sc : StorageCore) (e : env db) (key : keyForChunkHashDB_t) (m : chunk_store).

(** The container a key names, as the operations compute it. *)
Definition key_container sc key : bytes :=
  takeZ (lengthZ (lastContainerFileName_ sc)) (containerName key).

(** A file holds the container named [name]. *)
Definition container_file sc e (name content : bytes) : Prop :=
  lexlt name (lastContainerFileName_ sc) = true /\
  files e !! container_path sc name = Some content /\ lengthZ content <= BODY_SIZE.

(** The data a key points at. *)
Definition located sc e key (d : bytes) : Prop :=
  lengthZ (containerName key) = 16 /\ 0 <= key_offset key /\ key_length key = lengthZ d /\
  ( (key_container sc key = lastContainerFileName_ sc /\
     key_offset key + key_length key <= used_ (currentContainer_ sc) /\
     read_mem (body_ (currentContainer_ sc)) (key_offset key) (key_length key) = d)
  \/ (exists content, container_file sc e (key_container sc key) content /\
      key_offset key + key_length key <= lengthZ content /\
      slice (key_offset key) (key_length key) content = d) ).

(** The cached container, if any, is that of an earlier file, as long as the
    file is there. *)
Definition read_cache_ok sc e : Prop :=
  currentReadContainerFileName_ sc = [] \/
  (lexlt (currentReadContainerFileName_ sc) (lastContainerFileName_ sc) = true /\
   forall content, container_file sc e (currentReadContainerFileName_ sc) content ->
     read_mem (body_ (currentReadContainer_ sc)) 0 (lengthZ content) = content).

Record sc_wf sc e : Prop := {
  wf_name : 0 < lengthZ (lastContainerFileName_ sc) <= 16;
  wf_used : 0 <= used_ (currentContainer_ sc) <= BODY_SIZE;
  wf_max : maxContainerSize_ sc <= BODY_SIZE;
  wf_tail : containerNameTail_ sc = str ".container";
  wf_rtail : RecipeNameTail_ sc = str ".recipe";
  wf_cache : read_cache_ok sc e;
  wf_fp2 : is_open (fp2ChunkDB e);
  wf_cdb : is_open (containerDB e)
}.

Definition entry_ok sc e (h : bytes) (o : option (bytes * Z)) : Prop :=
  match o with
  | None => contents (fp2ChunkDB e) h = None
  | Some (d, refs) => exists key,
      contents (fp2ChunkDB e) h = Some (rep key) /\ pod_valid key /\
      deltaCount key = 0 /\ key_count key = refs /\ located sc e key d
  end.

Definition Repr sc e m : Prop :=
  sc_wf sc e /\ forall h, lengthZ h = CHUNK_HASH_SIZE -> entry_ok sc e h (m !! h).

Lemma container_path_inj sc n1 n2 : container_path sc n1 = container_path sc n2 -> n1 = n2.
Proof. unfold container_path. intros E%app_inv_head. by apply app_inv_tail in E. Qed.

(** [e'] agrees with [e] on what [sc] refers to. *)
Record agree sc e e' : Prop := {
  agree_files n : files e' !! container_path sc n = files e !! container_path sc n;
  agree_cdb : is_open (containerDB e')
}.

Lemma container_file_agree sc e e' n c :
  agree sc e e' -> container_file sc e n c -> container_file sc e' n c.
Proof. intros [Hf _] (?&?&?). split_and!; [done|by rewrite Hf|done]. Qed.

Lemma located_agree sc e e' key d : agree sc e e' -> located sc e key d -> located sc e' key d.
Proof.
  intros Ha (?&?&?&[Hl|(c&?&?&?)]); split_and!; auto.
  right. exists c. eauto using container_file_agree.
Qed.

Lemma sc_wf_agree sc e e' :
  agree sc e e' -> is_open (fp2ChunkDB e') -> sc_wf sc e -> sc_wf sc e'.
Proof.
  intros Ha Ho [????? Hc ??]. split; auto; [|by destruct Ha].
  destruct Hc as [?|[? Hb]]; [by left|right]. split; [done|]. intros c (?&Hf&?). apply Hb.
  split_and!; [done|by rewrite <- (agree_files _ _ _ Ha)|done].
Qed.

(** Anything that leaves the fingerprint database and the container files
    alone keeps the representation. *)
Lemma Repr_agree sc e e' m :
  agree sc e e' -> fp2ChunkDB e' = fp2ChunkDB e -> Repr sc e m -> Repr sc e' m.
Proof.
  intros Ha Hfp [Hwf He]. split.
  - eapply sc_wf_agree; eauto. rewrite Hfp. by destruct Hwf.
  - intros h Hh. specialize (He h Hh). unfold entry_ok in *. rewrite Hfp.
    destruct (m !! h) as [[d r]|]; [|done].
    destruct He as (key&?&?&?&?&?). exists key. eauto 6 using located_agree.
Qed.

Lemma string_of_exact p n : lengthZ p = n -> string_of p n = Ok p.
Proof.
  intros. unfold string_of. rewrite (proj2 (Z.leb_le _ _)) by lia. simpl.
  by rewrite takeZ_ge by lia.
Qed.

Lemma string_of_le p n : n <= lengthZ p -> string_of p n = Ok (takeZ n p).
Proof. intros. unfold string_of. by rewrite (proj2 (Z.leb_le _ _)) by lia. Qed.

(** ** Reading a container *)

(** [readContainer] finds the data of a located key; it changes at most the
    read cache, which stays the contents of a file. *)
Lemma readContainer_located sc e key d :
  sc_wf sc e -> located sc e key d -> 0 <= key_length key ->
  exists sc', readContainer key sc e = Ok (Some d, sc') /\ sc_wf sc' e /\
    (exists n c, sc' = with_read n c sc).
Proof.
  intros Hwf (Hn16 & Hoff & Hlen & Hloc) Hl0.
  assert (Hself : exists n c, sc = with_read n c sc) by (destruct sc; by eexists _, _).
  unfold readContainer. pose proof Hwf as Hwf0. destruct Hwf as [Hn Hu Hm ? ? Hc ? ?].
  rewrite string_of_le by lia. cbn [mbind outcome_bind]. fold (key_container sc key).
  case_bool_decide as E1.
  - destruct Hc as [Hc|[Hlt Hb]].
    { exfalso. rewrite Hc in E1. apply (f_equal lengthZ) in E1. unfold key_container in E1.
      rewrite lengthZ_takeZ in E1 by lia. cbn [lengthZ] in E1. lia. }
    destruct Hloc as [(Hlast & _)|(c' & (Hlt' & Hf' & Hs') & Hle & Hsl)].
    { exfalso. rewrite <- E1, Hlast, lexlt_irrefl in Hlt. done. }
    rewrite E1 in Hlt', Hf'. specialize (Hb c' (conj Hlt' (conj Hf' Hs'))).
    rewrite (proj2 (Z.leb_le _ _)) by lia. simpl. exists sc. split_and!; [|done|done].
    do 3 f_equal. rewrite <- Hsl, <- Hb. symmetry. by apply slice_read_mem.
  - case_bool_decide as E2.
    + destruct Hloc as [(_ & Hle & Hr)|(c' & (Hlt' & _) & _)].
      * rewrite (proj2 (Z.leb_le _ _)) by lia. simpl. exists sc. by split_and!; [rewrite Hr| |].
      * exfalso. by rewrite E2, lexlt_irrefl in Hlt'.
    + destruct Hloc as [(Hlast & _)|(c' & (Hlt' & Hf' & Hs') & Hle & Hsl)]; [done|].
      rewrite Hf'. rewrite (proj2 (Z.leb_le (lengthZ c') BODY_SIZE)) by lia. simpl.
      rewrite (proj2 (Z.leb_le _ _)) by lia. simpl.
      eexists. split_and!; [| |by eexists _, _].
      * do 3 f_equal. replace (key_offset key) with (0 + key_offset key) at 1 by lia.
        by rewrite read_write_slice by lia.
      * split; auto. right. split; [done|]. intros c'' (_ & Hf'' & _).
        assert (Some c' = Some c'') as [= <-] by (rewrite <- Hf'; exact Hf''). apply read_write_same.
Qed.

(** ** Writing a container *)

(** What the storage operations leave alone: the configuration, the other
    databases, and every file that is not a container. *)
Record frame sc e sc' e' : Prop := {
  frame_prefix : containerNamePrefix_ sc' = containerNamePrefix_ sc;
  frame_tail : containerNameTail_ sc' = containerNameTail_ sc;
  frame_recipe n : recipe_path sc' n = recipe_path sc n;
  frame_max : maxContainerSize_ sc' = maxContainerSize_ sc;
  frame_name : lastContainerFileName_ sc' ≡ₚ lastContainerFileName_ sc;
  frame_meta : fileName2metaDB e' = fileName2metaDB e;
  frame_delta : deltaChunkDB e' = deltaChunkDB e;
  frame_writable p : writable e' p = writable e p;
  frame_files p : (forall n, p <> container_path sc n) -> files e' !! p = files e !! p
}.

Lemma frame_refl sc e : frame sc e sc e.
Proof. by split. Qed.

Lemma frame_path sc e sc' e' n : frame sc e sc' e' -> container_path sc' n = container_path sc n.
Proof. intros [E1 E2 _ _ _ _ _ _ _]. unfold container_path. by rewrite E1, E2. Qed.

Lemma frame_trans sc e sc' e' sc'' e'' :
  frame sc e sc' e' -> frame sc' e' sc'' e'' -> frame sc e sc'' e''.
Proof.
  intros F1 F2. pose proof (fun n => frame_path _ _ _ _ n F1) as Hp.
  destruct F1, F2. split; try (intros; congruence); [by etrans|].
  intros p Hn. rewrite frame_files1; [auto|]. intros n. rewrite Hp. auto.
Qed.

(** The fill level is set once the key is in the database. *)
Definition set_used (n : Z) sc : StorageCore :=
  with_current (lastContainerFileName_ sc) (mkContainer n (body_ (currentContainer_ sc))) sc.

Lemma saveTOFile_ok c name e :
  writable e name = true -> used_ c <= BODY_SIZE -> is_open (containerDB e) ->
  exists d, saveTOFile c name e =
    Ok (true, with_containerDB d
                (with_files (<[name := read_mem (body_ c) 0 (used_ c)]> (files e)) e)) /\
    is_open d.
Proof.
  intros Hw Hu Ho. unfold saveTOFile, write_file. rewrite Hw, (proj2 (Z.leb_le _ _)) by lia.
  cbn [mbind outcome_bind require].
  destruct (insert_runs (containerDB e) name (to_string (used_ c)) Ho) as (ok & d & Hi).
  cbn [containerDB with_files]. rewrite Hi. exists d. eauto using insert_open.
Qed.

(** The next container can be started: its name follows, the full one can be
    written. *)
Definition can_roll sc e : Prop :=
  (next_permutation (lastContainerFileName_ sc)).1 = true /\
  writable e (container_path sc (lastContainerFileName_ sc)) = true.

Lemma roll_container_spec sc e :
  sc_wf sc e -> can_roll sc e ->
  exists sc' e', roll_container sc e = Ok (sc', e') /\ sc_wf sc' e' /\
    used_ (currentContainer_ sc') = 0 /\ fp2ChunkDB e' = fp2ChunkDB e /\ frame sc e sc' e' /\
    forall key d, 0 <= key_length key -> located sc e key d -> located sc' e' key d.
Proof.
  intros Hwf [Hnext Hw]. destruct Hwf as [Hn Hu Hm Ht Hrt Hc Hfp Hcdb].
  unfold roll_container. destruct (saveTOFile_ok (currentContainer_ sc) _ e Hw) as (d & -> & Hd);
    [lia|done|]. cbn [mbind outcome_bind].
  pose proof (next_permutation_lengthZ (lastContainerFileName_ sc)) as Hlen.
  pose proof (next_permutation_lexlt _ Hnext) as Hlt.
  pose proof (next_permutation_Permutation (lastContainerFileName_ sc)) as Hperm.
  destruct (next_permutation (lastContainerFileName_ sc)) as [ok name]. simpl in *.
  eexists _, _. split; [done|].
  set (e' := with_containerDB _ _). set (sc' := with_current _ _ _).
  assert (Hfile : forall n c, container_file sc e n c -> container_file sc' e' n c).
  { intros n c (Hl & Hf & Hs). split_and!; [by eapply lexlt_trans| |done].
    simpl. change (container_path sc' n) with (container_path sc n).
    rewrite lookup_insert_ne; [done|].
    intros E%container_path_inj. by apply (lexlt_ne _ _ Hl). }
  split_and!; [|done|done| |].
  - split; simpl; try done; [lia|].
    destruct Hc as [?|[Hl Hb]]; [by left|right]. split; [by eapply lexlt_trans|].
    intros c (_ & Hf & Hs). apply Hb. split_and!; [done| |done]. rewrite <- Hf. symmetry.
    apply lookup_insert_ne. intros E%container_path_inj. by apply (lexlt_ne _ _ Hl).
  - split; try done. intros p Hp. simpl. by rewrite lookup_insert_ne.
  - intros key da Hk0 (?&?&?&Hloc). split_and!; try done. right.
    assert (Hkc : key_container sc' key = key_container sc key).
    { unfold key_container, sc'. simpl. by rewrite Hlen. }
    rewrite Hkc. destruct Hloc as [(Hkl & Hle & <-)|(c & Hf & ? & ?)]; [|by exists c; auto].
    exists (read_mem (body_ (currentContainer_ sc)) 0 (used_ (currentContainer_ sc))).
    rewrite read_mem_lengthZ by lia. split_and!; [|done|by apply slice_read_mem].
    rewrite Hkl. split_and!; [done| |rewrite read_mem_lengthZ; lia].
    simpl. apply lookup_insert_eq.
Qed.

(** Appending [len] bytes to the current container and moving the fill level
    past them keeps every located chunk and locates the new one. *)
Lemma put_chunk_spec sc e key data :
  sc_wf sc e -> lengthZ (containerName key) = 16 -> 0 <= key_length key <= lengthZ data ->
  used_ (currentContainer_ sc) + key_length key <= BODY_SIZE ->
  exists key1 sc1, put_chunk key data sc = Ok (key1, sc1) /\
    key1 = key_with_name (containerName key1) key /\ lengthZ (containerName key1) = 16 /\
    used_ (currentContainer_ sc1) = used_ (currentContainer_ sc) /\ frame sc e sc1 e /\
    let sc2 := set_used (used_ (currentContainer_ sc) + key_length key) sc1 in
    sc_wf sc2 e /\
    located sc2 e (key_with_offset (used_ (currentContainer_ sc)) key1)
      (takeZ (key_length key) data) /\
    forall k d, 0 <= key_length k -> located sc e k d -> located sc2 e k d.
Proof.
  intros [Hn Hu Hm Ht Hrt Hc Hfp Hcdb] Hn16 Hlen Hfit. unfold put_chunk.
  rewrite (proj2 (Z.leb_le _ BODY_SIZE)) by lia. cbn [mbind outcome_bind require].
  rewrite string_of_le by lia. cbn [mbind outcome_bind].
  rewrite (proj2 (Z.leb_le _ 16)) by lia. cbn [mbind outcome_bind require].
  assert (Hd : lengthZ (takeZ (key_length key) data) = key_length key)
    by (rewrite lengthZ_takeZ; lia).
  eexists _, _. split; [done|]. cbn [containerName key_with_name].
  split; [done|]. split; [rewrite lengthZ_app, lengthZ_dropZ; lia|]. split; [done|].
  split; [by split|].
  split_and!.
  - split; simpl; try done. lia.
  - split_and!; simpl; [rewrite lengthZ_app, lengthZ_dropZ; lia|lia|lia|]. left.
    split_and!; [unfold key_container; simpl; by apply takeZ_app_exact|lia|].
    rewrite <- Hd at 2. apply read_write_same.
  - intros k d Hk (?&?&?&[(Hkl & Hle & Hr)|Hf]); split_and!; try done; [left|by right].
    split_and!; [done|simpl; lia|]. simpl. rewrite <- Hr. apply read_write_disjoint. lia.
Qed.

(** There is room for [len] more bytes, in this container or the next. *)
Definition has_room sc e (len : Z) : Prop :=
  len + used_ (currentContainer_ sc) < maxContainerSize_ sc \/ can_roll sc e.

Lemma writeContainer_spec sc e key data :
  sc_wf sc e -> lengthZ (containerName key) = 16 -> 0 <= key_length key <= lengthZ data ->
  key_length key <= BODY_SIZE -> has_room sc e (key_length key) ->
  exists key1 sc1 e1, writeContainer key data sc e = Ok (true, key1, sc1, e1) /\
    pod_valid (mkKey (containerName key1) (key_offset key1) 0 0 0) /\
    key1 = mkKey (containerName key1) (key_offset key1) (key_length key) (key_count key)
             (deltaCount key) /\
    fp2ChunkDB e1 = fp2ChunkDB e /\ frame sc e sc1 e1 /\
    let sc2 := set_used (u32 (used_ (currentContainer_ sc1) + key_length key)) sc1 in
    sc_wf sc2 e1 /\ located sc2 e1 key1 (takeZ (key_length key) data) /\
    forall k d, 0 <= key_length k -> located sc e k d -> located sc2 e1 k d.
Proof.
  intros Hwf Hn16 Hlen Hbody Hroom. pose proof (wf_used _ _ Hwf). pose proof (wf_max _ _ Hwf).
  assert (HB : BODY_SIZE = 16777216) by reflexivity.
  unfold writeContainer. rewrite u32_small by lia.
  assert (exists sc' e',
    (if key_length key + used_ (currentContainer_ sc) <? maxContainerSize_ sc
     then Ok (sc, e) else roll_container sc e) = Ok (sc', e') /\
    sc_wf sc' e' /\ used_ (currentContainer_ sc') + key_length key <= BODY_SIZE /\
    fp2ChunkDB e' = fp2ChunkDB e /\ frame sc e sc' e' /\
    forall k d, 0 <= key_length k -> located sc e k d -> located sc' e' k d)
    as (sc' & e' & -> & Hwf' & Hfit & Hfp & Hfr & Hloc).
  { destruct (Z.ltb_spec (key_length key + used_ (currentContainer_ sc)) (maxContainerSize_ sc)).
    - exists sc, e. split_and!; try done; first [lia|apply frame_refl].
    - destruct Hroom as [?|Hroll]; [lia|].
      destruct (roll_container_spec sc e Hwf Hroll) as (sc' & e' & ? & ? & Hz & ? & ? & ?).
      exists sc', e'. split_and!; try done. lia. }
  cbn [mbind outcome_bind].
  destruct (put_chunk_spec sc' e' key data Hwf' Hn16 Hlen Hfit)
    as (key1 & sc1 & -> & Hk1 & Hk16 & Hus & Hfr1 & Hwf2 & Hl2 & Hold).
  cbn [mbind outcome_bind]. pose proof (wf_used _ _ Hwf').
  eexists _, _, _. split; [done|]. rewrite Hus. rewrite u32_small by lia.
  split_and!; simpl; try done.
  - unfold key_valid; simpl. lia.
  - rewrite Hk1. done.
  - by eapply frame_trans.
  - intros k d ? ?. auto.
Qed.
End Spec.
