(* ===== verification/StorageRefine.v ===== *)
(** * The storage operations and recipes refine the chunk store

    The operations on chunks against the map, then recipes and restarts. *)

From S2P Require Import Prelude.
From S2P Require Import Bytes.
From S2P Require Import DataStructure.
From S2P Require Import Database.
From S2P Require Import Storage.
From S2P Require Import Recipe.
From S2P Require Import StorageSpec.
From stdpp Require Import base tactics numbers list gmap strings.
From Stdlib Require Import Ascii ZArith Lia.

Open Scope Z_scope.

(** * The storage operations refine the chunk store

    [saveChunk], [restoreChunk], [retriveChunk] and [deleteChunk] against the
    map of [StorageSpec], on every branch, and where they stop being
    defined. *)

Section Refine.
Context {db : Type} `{LevelDB db}.
Implicit Types (sc : StorageCore) (e : env db) (key : keyForChunkHashDB_t) (m : chunk_store).

(** Every entry of a represented store is a loadable key. *)
Lemma Repr_lookup sc e m h d r :
  Repr sc e m -> lengthZ h = CHUNK_HASH_SIZE -> m !! h = Some (d, r) ->
  exists key, contents (fp2ChunkDB e) h = Some (rep key) /\ pod_valid key /\
    deltaCount key = 0 /\ key_count key = r /\ located sc e key d.
Proof. intros [_ He] Hh Hm. specialize (He h Hh). by rewrite Hm in He. Qed.

Lemma Repr_lookup_None sc e m h :
  Repr sc e m -> lengthZ h = CHUNK_HASH_SIZE -> m !! h = None -> contents (fp2ChunkDB e) h = None.
Proof. intros [_ He] Hh Hm. specialize (He h Hh). by rewrite Hm in He. Qed.

(** Changing only the read cache keeps the representation. *)
Lemma Repr_with_read sc e m n c :
  Repr sc e m -> sc_wf (with_read n c sc) e -> Repr (with_read n c sc) e m.
Proof. intros [_ He] Hwf. split; [done|]. intros h Hh. exact (He h Hh). Qed.

(** Storing a located key under [h]. *)
Lemma Repr_insert sc e m sc' e' h key d r :
  Repr sc e m -> sc_wf sc' e' ->
  (forall k d, 0 <= key_length k -> located sc e k d -> located sc' e' k d) ->
  contents (fp2ChunkDB e') h = Some (rep key) ->
  (forall h', h <> h' -> contents (fp2ChunkDB e') h' = contents (fp2ChunkDB e) h') ->
  pod_valid key -> deltaCount key = 0 -> key_count key = r -> located sc' e' key d ->
  Repr sc' e' (<[h := (d, r)]> m).
Proof.
  intros [_ He] Hwf Hloc Hh Hne Hv Hd Hr Hk. split; [done|]. intros h' Hh'.
  destruct (decide (h = h')) as [<-|Hneq].
  - rewrite lookup_insert_eq. exists key. auto.
  - rewrite lookup_insert_ne by done. specialize (He h' Hh'). unfold entry_ok in *.
    rewrite Hne by done. destruct (m !! h') as [[d' r']|]; [|done].
    destruct He as (k & ? & Hv' & ? & ? & ?). exists k. split_and!; try done.
    apply Hloc; [|done]. destruct Hv' as (?&?&?&?). lia.
Qed.

Lemma key_valid_with_count key c :
  pod_valid key -> 0 <= c < 2 ^ 32 -> pod_valid (key_with_count c key).
Proof. intros (?&?&?&?&?) ?. repeat split; simpl; lia. Qed.

(** Rewriting only the reference count of an entry. *)
Lemma Repr_set_count sc e m h d r c key db' :
  Repr sc e m -> lengthZ h = CHUNK_HASH_SIZE -> m !! h = Some (d, r) -> 0 <= c < 2 ^ 32 ->
  contents (fp2ChunkDB e) h = Some (rep key) -> pod_valid key -> deltaCount key = 0 ->
  located sc e key d ->
  db_insert (fp2ChunkDB e) h (rep (key_with_count c key)) = Ok (true, db') ->
  Repr sc (with_fp2ChunkDB db' e) (<[h := (d, c)]> m).
Proof.
  intros HR Hh Hm Hc Hg Hv Hd Hl Hi. apply insert_spec in Hi as (Ho & Heq & Hne).
  assert (Ha : agree sc e (with_fp2ChunkDB db' e)) by (split; [done|by destruct HR as [[]]]).
  apply (Repr_insert sc e m sc _ h (key_with_count c key)); try done.
  - apply (sc_wf_agree sc e); [done|done|apply HR].
  - by apply key_valid_with_count.
Qed.

(** ** restoreChunk, retriveChunk *)

Section with_delta.
Context (delta_apply : bytes -> bytes -> bytes).

Lemma restoreChunk_found sc e m h d r fuel :
  Repr sc e m -> lengthZ h = CHUNK_HASH_SIZE -> m !! h = Some (d, r) ->
  exists sc', restoreChunk delta_apply (S fuel) h sc e = Ok (Some d, sc') /\ Repr sc' e m /\
    exists n c, sc' = with_read n c sc.
Proof.
  intros HR Hh Hm. destruct (Repr_lookup _ _ _ _ _ _ HR Hh Hm) as (key & Hg & Hv & Hd & _ & Hl).
  cbn [restoreChunk]. rewrite string_of_exact by done. cbn [mbind outcome_bind].
  pose proof HR as [[] _]. rewrite query_open, Hg by done. cbn [mbind outcome_bind].
  rewrite load_rep by done. cbn [mbind outcome_bind].
  destruct (readContainer_located sc e key d) as (sc' & -> & Hwf' & n & c & ->);
    [by destruct HR|done|by destruct Hv as (?&?&?&?); lia|].
  cbn [mbind outcome_bind]. rewrite Hd. simpl. eexists. split; [done|].
  split; [by apply Repr_with_read|eauto].
Qed.

Lemma restoreChunk_missing sc e m h fuel :
  Repr sc e m -> lengthZ h = CHUNK_HASH_SIZE -> m !! h = None ->
  restoreChunk delta_apply (S fuel) h sc e = Ok (None, sc).
Proof.
  intros HR Hh Hm. cbn [restoreChunk]. rewrite string_of_exact by done. cbn [mbind outcome_bind].
  pose proof HR as [[] _]. rewrite query_open by done. cbn [mbind outcome_bind].
  by rewrite (Repr_lookup_None sc e m).
Qed.
End with_delta.

Lemma retriveChunk_found sc e m h d r :
  Repr sc e m -> lengthZ h = CHUNK_HASH_SIZE -> m !! h = Some (d, r) ->
  exists sc', retriveChunk h sc e = Ok (Some d, sc') /\ Repr sc' e m /\
    exists n c, sc' = with_read n c sc.
Proof.
  intros HR Hh Hm. destruct (Repr_lookup _ _ _ _ _ _ HR Hh Hm) as (key & Hg & Hv & Hd & _ & Hl).
  unfold retriveChunk. rewrite string_of_exact by done. cbn [mbind outcome_bind].
  pose proof HR as [[] _]. rewrite query_open, Hg by done. cbn [mbind outcome_bind].
  rewrite load_rep by done. cbn [mbind outcome_bind].
  destruct (readContainer_located sc e key d) as (sc' & -> & Hwf' & n & c & ->);
    [by destruct HR|done|by destruct Hv as (?&?&?&?); lia|].
  eexists. split; [done|]. split; [by apply Repr_with_read|eauto].
Qed.

(** ** saveChunk *)

(** The length and count [saveChunk] uses: those on record if the chunk is
    known, else the given size and one. *)
Definition save_length m h (chunkSize : Z) : Z :=
  match m !! h with Some (d, _) => lengthZ d | None => chunkSize end.
Definition save_count m h : Z := match m !! h with Some (_, r) => r | None => 1 end.

Lemma saveChunk_key sc e m key0 h chunkSize :
  Repr sc e m -> lengthZ h = CHUNK_HASH_SIZE -> 0 <= chunkSize < 2 ^ 32 ->
  (match contents (fp2ChunkDB e) h with
   | Some a =>
       tempkey ← load a;
       Ok (mkKey (containerName key0) (key_offset key0) (key_length tempkey)
             (key_count tempkey) (deltaCount tempkey))
   | None => Ok (mkKey (containerName key0) (key_offset key0) (u32 chunkSize) 1 0)
   end) = Ok (mkKey (containerName key0) (key_offset key0) (save_length m h chunkSize)
                (save_count m h) 0) /\
  0 <= save_count m h < 2 ^ 32 /\ 0 <= save_length m h chunkSize < 2 ^ 32.
Proof.
  intros HR Hh Hs. unfold save_length, save_count. destruct (m !! h) as [[d r]|] eqn:Hm.
  - destruct (Repr_lookup _ _ _ _ _ _ HR Hh Hm) as (key & -> & Hv & Hd & <- & (_&_&<-&_)).
    rewrite load_rep by done. cbn [mbind outcome_bind]. rewrite Hd.
    destruct Hv as (?&?&?&?&?). auto.
  - rewrite (Repr_lookup_None sc e m) by done. by rewrite u32_small.
Qed.

Lemma saveChunk_spec `{!LevelDBReliable db} sc e m key0 h data chunkSize :
  Repr sc e m -> lengthZ h = CHUNK_HASH_SIZE -> lengthZ (containerName key0) = 16 ->
  0 <= chunkSize < 2 ^ 32 ->
  2 <= save_length m h chunkSize <= lengthZ data -> save_length m h chunkSize <= BODY_SIZE ->
  has_room sc e (save_length m h chunkSize) ->
  exists sc' e', saveChunk key0 h data chunkSize sc e = Ok (true, sc', e') /\
    Repr sc' e' (<[h := (masked (takeZ (save_length m h chunkSize) data), save_count m h)]> m) /\
    frame sc e sc' e'.
Proof.
  intros HR Hh Hn16 Hs Hlen Hbody Hroom. unfold saveChunk.
  rewrite string_of_exact by done. cbn [mbind outcome_bind].
  pose proof (proj1 HR) as Hwf. rewrite query_open by apply Hwf. cbn [mbind outcome_bind].
  destruct (saveChunk_key sc e m key0 h chunkSize) as (-> & Hcnt & Hl32); [done..|].
  set (len := save_length m h chunkSize) in *. set (r := save_count m h) in *.
  cbn [mbind outcome_bind key_length].
  destruct (mask_chunk_spec len data) as (d' & -> & Hd'l & Hd'); [lia..|].
  cbn [mbind outcome_bind].
  destruct (writeContainer_spec sc e (mkKey (containerName key0) (key_offset key0) len r 0) d')
    as (key1 & sc1 & e1 & -> & Hv1 & Hk1 & Hfp & Hfr & Hwf2 & Hl2 & Hold);
    [done|done|simpl; lia|done|done|].
  cbn [mbind outcome_bind negb]. cbn [key_length key_count deltaCount] in *.
  destruct (insert_total (fp2ChunkDB e1) h (rep key1)) as (d2 & Hi); [rewrite Hfp; apply Hwf|].
  rewrite Hi. cbn [mbind outcome_bind negb]. apply insert_spec in Hi as (Ho & Heq & Hne).
  replace (key_length key1) with len by (by rewrite Hk1).
  set (sc2 := with_current _ _ sc1). set (e2 := with_fp2ChunkDB d2 e1).
  assert (Ha : agree sc2 e1 e2) by (split; [done|apply Hwf2]).
  exists sc2, e2. split; [done|]. split.
  - apply (Repr_insert sc e m sc2 e2 h key1).
    + done.
    + by apply (sc_wf_agree sc2 e1).
    + intros. apply (located_agree sc2 e1); [done|]. by apply Hold.
    + done.
    + intros h' Hne'. simpl. by rewrite Hne, Hfp.
    + rewrite Hk1. destruct Hv1 as (?&?&_). repeat split; simpl in *; lia.
    + by rewrite Hk1.
    + by rewrite Hk1.
    + rewrite <- Hd'. apply (located_agree sc2 e1); [done|]. exact Hl2.
  - eapply frame_trans; [done|]. by split.
Qed.

(** ** deleteChunk *)

Lemma deleteChunk_found `{!LevelDBReliable db} sc e m h d r :
  Repr sc e m -> lengthZ h = CHUNK_HASH_SIZE -> m !! h = Some (d, r) ->
  exists e', deleteChunk h e = Ok (None, e') /\
    Repr sc e' (<[h := (d, u32 (r - 1))]> m) /\ files e' = files e.
Proof.
  intros HR Hh Hm. destruct (Repr_lookup _ _ _ _ _ _ HR Hh Hm) as (key & Hg & Hv & Hd & Hr & Hl).
  unfold deleteChunk. rewrite string_of_exact by done. cbn [mbind outcome_bind].
  pose proof HR as [Hwf _]. rewrite query_open, Hg by apply Hwf. cbn [mbind outcome_bind].
  rewrite load_rep by done. cbn [mbind outcome_bind]. rewrite Hr.
  destruct (insert_total (fp2ChunkDB e) h (rep (key_with_count (u32 (r - 1)) key)))
    as (d' & Hi); [apply Hwf|]. rewrite Hi. cbn [mbind outcome_bind].
  eexists. split; [done|]. split; [|done].
  by eapply (Repr_set_count sc e m h d r (u32 (r - 1)) key); [..|apply u32_range| | | | |].
Qed.

Lemma deleteChunk_missing sc e m h :
  Repr sc e m -> lengthZ h = CHUNK_HASH_SIZE -> m !! h = None ->
  deleteChunk h e = Ok (Some false, e).
Proof.
  intros HR Hh Hm. unfold deleteChunk. rewrite string_of_exact by done. cbn [mbind outcome_bind].
  pose proof HR as [[] _]. rewrite query_open by done. cbn [mbind outcome_bind].
  by rewrite (Repr_lookup_None sc e m).
Qed.
End Refine.

(** * Recipes give files back; restarts keep the store

    A recipe that [checkRecipeStatus] wrote restores exactly the chunks it
    lists, for every range of entries; deleting it takes one reference from
    each; and the destructor followed by the constructor represents the same
    chunk store. *)

(** A recipe's path is no container's path: they end differently. *)
Lemma recipe_path_ne {db} `{LevelDB db} sc (e : env db) n1 n2 :
  sc_wf sc e -> recipe_path sc n1 <> container_path sc n2.
Proof.
  intros Hwf E. unfold recipe_path, container_path in E.
  rewrite (wf_tail _ _ Hwf), (wf_rtail _ _ Hwf), !app_assoc in E.
  apply (f_equal last) in E. by rewrite !last_app in E.
Qed.

Section RecipeRefine.
Context {db : Type} `{LevelDB db}.
Context (delta_apply : bytes -> bytes -> bytes) (indet : Z -> byte).
Implicit Types (sc : StorageCore) (e : env db) (m : chunk_store).

(** The chunk a recipe entry restores to, given its data. *)
Definition restored_chunk (en : RecipeEntry_t) (d : bytes) : Chunk_t :=
  mkChunk (re_chunkID en) (re_chunkSize en)
    (d ++ replicate (Z.to_nat (MAX_CHUNK_SIZE - lengthZ d)) NUL) (re_chunkHash en)
    (read_mem indet 0 32).

(** Entry and data match the chunk store. *)
Definition entry_in m (en : RecipeEntry_t) (d : bytes) : Prop :=
  pod_valid en /\ re_chunkSize en = lengthZ d /\ lengthZ d <= MAX_CHUNK_SIZE /\
  exists r, m !! re_chunkHash en = Some (d, r).

Lemma restore_loop_spec fuel sc e m l ds rest :
  Repr sc e m -> Forall2 (entry_in m) l ds ->
  exists sc', restore_loop delta_apply indet (S fuel) (length l) (reps l ++ rest) sc e =
    Ok (true, zip_with restored_chunk l ds, sc') /\ Repr sc' e m.
Proof.
  intros HR Hl. revert sc HR. induction Hl as [|en d l ds (Hv & Hsz & Hmax & r & Hm) _ IH];
    intros sc HR; [by exists sc|].
  cbn [length restore_loop]. rewrite reps_cons, <- app_assoc. rewrite load_app by done.
  cbn [mbind outcome_bind].
  destruct (restoreChunk_found delta_apply sc e m (re_chunkHash en) d r fuel HR)
    as (sc1 & -> & HR1 & _); [exact (proj2 (proj2 Hv))|done|].
  pose proof (lengthZ_nonneg d). unfold MAX_CHUNK_SIZE in *.
  cbn [mbind outcome_bind]. rewrite Hsz, u64_small, Z.eqb_refl by lia. cbn [negb].
  rewrite (proj2 (Z.leb_le _ _)) by lia. cbn [mbind outcome_bind require].
  rewrite dropZ_app_exact by (by rewrite rep_length).
  destruct (IH sc1 HR1) as (sc2 & -> & HR2). cbn [mbind outcome_bind].
  exists sc2. split; [|done]. cbn [zip_with]. unfold restored_chunk at 2, MAX_CHUNK_SIZE. by rewrite Hsz.
Qed.

(** Entries [s .. s+n-1] of a recipe file. *)
Lemma slice_entries (l : list RecipeEntry_t) s n :
  Forall pod_valid l -> (s + n <= length l)%nat ->
  slice (40 * Z.of_nat s) (40 * Z.of_nat n) (reps l) = reps (take n (drop s l)).
Proof.
  intros Hl Hn.
  assert (Hlen : forall k (l' : list RecipeEntry_t), Forall pod_valid l' -> length l' = k ->
    lengthZ (reps l') = 40 * Z.of_nat k).
  { intros k l' Hv <-. rewrite reps_length by done. by rewrite lengthZ_length. }
  rewrite <- (take_drop s l) at 1. rewrite reps_app.
  rewrite slice_skip; rewrite (Hlen s);
    try apply Forall_take; rewrite ?length_take; try done; try lia.
  rewrite Z.sub_diag. rewrite <- (take_drop n (drop s l)) at 1. rewrite reps_app.
  apply slice_hit, Hlen; [by apply Forall_take, Forall_drop|].
  rewrite length_take, length_drop. lia.
Qed.

Lemma read_entries_spec (head : Recipe_t) (l : list RecipeEntry_t) s n :
  pod_valid head -> Forall pod_valid l -> (s + n <= length l)%nat ->
  read_entries indet (rep head ++ reps l) (Z.of_nat s) (Z.of_nat n) =
  reps (take n (drop s l)).
Proof.
  intros Hh Hl Hn. unfold read_entries. change (sizeof Recipe_t) with 96.
  change (sizeof RecipeEntry_t) with 40.
  assert (Hs : slice (96 + Z.of_nat s * 40) (40 * Z.of_nat n) (rep head ++ reps l) =
               reps (take n (drop s l))).
  { rewrite slice_skip by (rewrite rep_length by done; change (sizeof Recipe_t) with 96; lia).
    rewrite rep_length by done. change (sizeof Recipe_t) with 96.
    rewrite <- slice_entries by done. f_equal. lia. }
  rewrite Hs. rewrite reps_length by (by apply Forall_take, Forall_drop).
  change (sizeof RecipeEntry_t) with 40. rewrite lengthZ_length, length_take, length_drop.
  replace (Z.of_nat (n `min` (length l - s))) with (Z.of_nat n) by lia.
  rewrite Z.sub_diag. apply app_nil_r.
Qed.

(** A stored recipe: the database names a file that holds [l]. *)
Definition recipe_stored sc e (fh : bytes) (head : Recipe_t) (l : list RecipeEntry_t) : Prop :=
  exists name, contents (fileName2metaDB e) fh = Some name /\
    files e !! recipe_path sc name = Some (rep head ++ reps l).

Lemma restoreRecipeAndChunk_spec fuel sc e m fh head l ds s t :
  Repr sc e m -> is_open (fileName2metaDB e) -> lengthZ fh = FILE_NAME_HASH_SIZE ->
  recipe_stored sc e fh head l -> pod_valid head -> Forall2 (entry_in m) l ds ->
  (s <= t <= length l)%nat -> Z.of_nat t < 2 ^ 32 ->
  exists sc', restoreRecipeAndChunk delta_apply indet (S fuel) fh (Z.of_nat s) (Z.of_nat t) sc e =
    Ok (true, zip_with restored_chunk (take (t - s) (drop s l)) (take (t - s) (drop s ds)), sc')
    /\ Repr sc' e m.
Proof.
  intros HR Ho Hfh (name & Hname & Hfile) Hhead Hl Hst Ht.
  unfold restoreRecipeAndChunk. rewrite string_of_exact by done. cbn [mbind outcome_bind].
  rewrite query_open, Hname by done. cbn [mbind outcome_bind]. rewrite Hfile.
  rewrite u32_small by lia. replace (Z.of_nat t - Z.of_nat s) with (Z.of_nat (t - s)) by lia.
  rewrite Nat2Z.id. rewrite read_entries_spec; [|done| |lia].
  - assert (Hlen : length (take (t - s) (drop s l)) = (t - s)%nat)
      by (rewrite length_take, length_drop; lia).
    destruct (restore_loop_spec fuel sc e m (take (t - s) (drop s l)) (take (t - s) (drop s ds))
      [] HR) as (sc' & Hr & HR'); [by apply Forall2_take, Forall2_drop|].
    rewrite Hlen, app_nil_r in Hr. by exists sc'.
  - eapply Forall2_Forall_l; [exact Hl|]. apply Forall_forall. by intros ? _ ? (?&_).
Qed.

(** [checkRecipeStatus] on a file name that is new stores the recipe. *)
Lemma checkRecipeStatus_new `{!LevelDBReliable db} sc e head l :
  let fh := frh_fileNameHash (fileRecipeHead head) in
  is_open (fileName2metaDB e) -> lengthZ fh = FILE_NAME_HASH_SIZE ->
  contents (fileName2metaDB e) fh = None -> files e !! recipe_path sc (hex fh) = None ->
  writable e (recipe_path sc (hex fh)) = true ->
  exists e', checkRecipeStatus head l sc e = Ok (true, e') /\
    recipe_stored sc e' fh head l /\ is_open (fileName2metaDB e') /\
    fp2ChunkDB e' = fp2ChunkDB e /\ containerDB e' = containerDB e /\
    writable e' = writable e /\
    forall p, p <> recipe_path sc (hex fh) -> files e' !! p = files e !! p.
Proof.
  intros fh Ho Hfh Hnew Hfile Hw. unfold checkRecipeStatus. fold fh.
  rewrite string_of_exact by done. cbn [mbind outcome_bind].
  rewrite query_open, Hnew by done. cbn [mbind outcome_bind].
  rewrite takeZ_ge by lia.
  destruct (insert_total (fileName2metaDB e) fh (hex fh) Ho) as (d & Hi). rewrite Hi.
  cbn [mbind outcome_bind]. apply insert_spec in Hi as (Hod & Heq & _).
  unfold saveRecipe, append_file. simpl. rewrite Hw. eexists. split; [done|].
  split_and!; try done.
  - exists (hex fh). split; [done|]. simpl. rewrite lookup_insert_eq, Hfile. done.
  - intros p Hp. simpl. by rewrite lookup_insert_ne.
Qed.

(** The name of a new recipe is the hash in hexadecimal; other files keep
    theirs. *)
Lemma checkRecipeStatus_meta `{!LevelDBReliable db} sc e head l ok e' :
  let fh := frh_fileNameHash (fileRecipeHead head) in
  is_open (fileName2metaDB e) -> lengthZ fh = FILE_NAME_HASH_SIZE ->
  contents (fileName2metaDB e) fh = None -> checkRecipeStatus head l sc e = Ok (ok, e') ->
  contents (fileName2metaDB e') fh = Some (hex fh) /\
  forall k, k <> fh -> contents (fileName2metaDB e') k = contents (fileName2metaDB e) k.
Proof.
  intros fh Ho Hfh Hnew. unfold checkRecipeStatus. fold fh.
  rewrite string_of_exact by done. cbn [mbind outcome_bind].
  rewrite query_open, Hnew by done. cbn [mbind outcome_bind]. rewrite takeZ_ge by lia.
  destruct (insert_total (fileName2metaDB e) fh (hex fh) Ho) as (d & Hi). rewrite Hi.
  cbn [mbind outcome_bind]. apply insert_spec in Hi as (_ & Heq & Hne).
  unfold saveRecipe, append_file. destruct (writable _ _); intros [= _ <-];
    (split; [done|]; intros k Hk; by apply Hne, not_eq_sym).
Qed.

(** A file already known keeps its recipe: the new entries go behind the old
    ones, without a head. *)
Lemma checkRecipeStatus_known sc e head head0 l0 l :
  let fh := frh_fileNameHash (fileRecipeHead head) in
  is_open (fileName2metaDB e) -> lengthZ fh = FILE_NAME_HASH_SIZE ->
  recipe_stored sc e fh head0 l0 -> (forall n, writable e (recipe_path sc n) = true) ->
  exists e', checkRecipeStatus head l sc e = Ok (true, e') /\
    recipe_stored sc e' fh head0 (l0 ++ l).
Proof.
  intros fh Ho Hfh (name & Hname & Hfile) Hw. unfold checkRecipeStatus. fold fh.
  rewrite string_of_exact by done. cbn [mbind outcome_bind].
  rewrite query_open, Hname by done. cbn [mbind outcome_bind].
  unfold saveRecipe, append_file. rewrite Hw. eexists. split; [done|].
  exists name. split; [done|]. simpl. rewrite lookup_insert_eq, Hfile. simpl.
  by rewrite reps_app, app_assoc.
Qed.

(** ** Shut-down and start-up *)

Lemma read_token_app n l : Forall (fun b => is_space b = false) n ->
  read_token (n ++ newline :: l) = (n, newline :: l).
Proof. induction 1 as [|b n Hb _ IH]; cbn [app read_token]; [done|]. by rewrite Hb, IH. Qed.

Lemma skip_space_token n l :
  0 < lengthZ n -> Forall (fun b => is_space b = false) n -> skip_space (n ++ l) = n ++ l.
Proof. intros Hn Hf. destruct Hf as [|b n Hb _]; simpl in *; [lia|]. by rewrite Hb. Qed.

Lemma StorageConfig_ne sc e n : sc_wf sc e -> StorageConfig <> container_path sc n.
Proof.
  intros Hwf E. unfold container_path in E. rewrite (wf_tail _ _ Hwf), app_assoc in E.
  apply (f_equal last) in E. by rewrite last_app in E.
Qed.

(** What the destructor leaves on disk. *)
Lemma StorageCore_delete_spec sc e :
  sc_wf sc e -> writable e StorageConfig = true ->
  writable e (container_path sc (lastContainerFileName_ sc)) = true ->
  exists e', StorageCore_delete sc e = Ok e' /\ is_open (containerDB e') /\
    fp2ChunkDB e' = fp2ChunkDB e /\ fileName2metaDB e' = fileName2metaDB e /\
    writable e' = writable e /\
    files e' = <[container_path sc (lastContainerFileName_ sc) :=
                 read_mem (body_ (currentContainer_ sc)) 0 (used_ (currentContainer_ sc))]>
      (<[StorageConfig := lastContainerFileName_ sc ++ newline ::
         to_string (used_ (currentContainer_ sc)) ++ [newline]]> (files e)).
Proof.
  intros Hwf Hw1 Hw2. unfold StorageCore_delete, write_file. rewrite Hw1.
  set (e1 := with_files _ e).
  destruct (saveTOFile_ok (currentContainer_ sc)
    (container_path sc (lastContainerFileName_ sc)) e1) as (d & -> & Hd);
    [done|by apply Hwf|by apply Hwf|].
  cbn [mbind outcome_bind]. by eexists.
Qed.

(** What was located stays so when the current container is read back from the
    file it was written to and the other container files are kept. *)
Lemma located_restart sc e sc' e' key d mem :
  (forall n, container_path sc' n = container_path sc n) ->
  lastContainerFileName_ sc' = lastContainerFileName_ sc ->
  currentContainer_ sc' = mkContainer (used_ (currentContainer_ sc))
    (write_mem mem 0 (read_mem (body_ (currentContainer_ sc)) 0 (used_ (currentContainer_ sc)))) ->
  (forall n, n <> lastContainerFileName_ sc ->
     files e' !! container_path sc n = files e !! container_path sc n) ->
  0 <= used_ (currentContainer_ sc) -> pod_valid key -> located sc e key d -> located sc' e' key d.
Proof.
  intros Hp Hn Hc Hf Hu (_&_&?&_) (? & ? & ? & Hl). unfold located, key_container, container_file in *.
  rewrite Hn, Hc. split_and!; try done.
  destruct Hl as [(Hk & Hle & Hr)|(c & (Hlt & Hfc & Hlc) & Hle & Hsl)]; [left|right].
  - split_and!; [done|done|]. cbn [body_]. replace (key_offset key) with (0 + key_offset key) by lia.
    rewrite read_write_slice by (rewrite ?read_mem_lengthZ; lia). by rewrite slice_read_mem by lia.
  - exists c. split_and!; try done. rewrite Hp, Hf by (by apply lexlt_ne). done.
Qed.

(** Destructor, then constructor with the same configuration: the same chunk
    store, whatever the fresh memory holds. *)
Lemma restart_Repr sc e m e' mem mem' :
  Repr sc e m -> writable e StorageConfig = true ->
  writable e (container_path sc (lastContainerFileName_ sc)) = true ->
  Forall (fun b => is_space b = false) (lastContainerFileName_ sc) ->
  StorageCore_delete sc e = Ok e' ->
  exists sc', StorageCore_new (containerNamePrefix_ sc) (RecipeNamePrefix_ sc)
      (maxContainerSize_ sc) mem mem' e' = Ok sc' /\ Repr sc' e' m /\
    lastContainerFileName_ sc' = lastContainerFileName_ sc /\
    used_ (currentContainer_ sc') = used_ (currentContainer_ sc).
Proof.
  intros HR Hw1 Hw2 Hns Hdel. pose proof (proj1 HR) as Hwf. pose proof Hwf as [[Hn _] Hu _ Ht Hrt _ _ _].
  destruct (StorageCore_delete_spec sc e Hwf Hw1 Hw2) as (e'' & E & Ho & Hfp & _ & _ & Hfiles).
  rewrite Hdel in E. injection E as <-.
  assert (HB : BODY_SIZE = 16777216) by reflexivity.
  unfold StorageCore_new. rewrite Hfiles.
  rewrite lookup_insert_ne by (apply not_eq_sym; by eapply StorageConfig_ne).
  rewrite lookup_insert_eq, skip_space_token by done.
  rewrite read_token_app by done. unfold read_uint32.
  change (skip_space (newline :: ?l)) with (skip_space l).
  rewrite parse_unsigned_decimal by (done || lia). rewrite Z.min_l by lia.
  rewrite (proj2 (Z.leb_le _ BODY_SIZE)) by lia. cbn [mbind outcome_bind require].
  rewrite <- Ht. change (containerNamePrefix_ sc ++ lastContainerFileName_ sc ++ containerNameTail_ sc)
    with (container_path sc (lastContainerFileName_ sc)). rewrite lookup_insert_eq. simpl default.
  rewrite takeZ_ge by (rewrite read_mem_lengthZ; lia).
  eexists. split; [done|]. split; [|done]. destruct HR as [_ He]. split.
  - split; try done; [by apply Hwf|by apply Hwf|by left|by rewrite Hfp; apply Hwf].
  - intros h Hh. specialize (He h Hh). unfold entry_ok in *. rewrite Hfp.
    destruct (m !! h) as [[d r]|]; [|done].
    destruct He as (key & ? & Hv & ? & ? & Hl). exists key. split_and!; try done.
    apply (located_restart sc e _ e' key d mem); try done; [|apply Hwf]. intros n Hne. rewrite Hfiles.
    rewrite lookup_insert_ne by (by intros E%container_path_inj).
    apply lookup_insert_ne. by apply (StorageConfig_ne sc e).
Qed.
End RecipeRefine.
