(* ===== verification/Crypto.v ===== *)
(** * Hashing and encryption (src/cryptoPrimitive.cc)

    OpenSSL is third-party code: its calls are the operations of the classes
    [EVP_Digest] and [EVP_Cipher], each of which can fail, with the law that
    when none does the digest is a 32-byte function of the data and decryption
    undoes encryption under the same key and initialisation vector.
    [generateHash] replaces NUL bytes of the digest, so that a hash can be
    passed around as a C string. *)

From S2P Require Import Prelude.
From S2P Require Import Bytes.
From S2P Require Import DataStructure.
From stdpp Require Import base tactics numbers list strings.
From Stdlib Require Import Ascii ZArith Lia.

Open Scope Z_scope.

(** ** generateHash *)

Class EVP_Digest := {
  MD_CTX : Type;
  EVP_MD_CTX_new : option MD_CTX;
  EVP_DigestInit_ex : MD_CTX -> option MD_CTX;
  EVP_DigestUpdate : MD_CTX -> bytes -> option MD_CTX;
  EVP_DigestFinal_ex : MD_CTX -> option bytes;
  sha256 : bytes -> bytes;
  sha256_length d : lengthZ (sha256 d) = 32;
  digest_sha256 c0 c1 c2 d h :
    EVP_MD_CTX_new = Some c0 -> EVP_DigestInit_ex c0 = Some c1 ->
    EVP_DigestUpdate c1 d = Some c2 -> EVP_DigestFinal_ex c2 = Some h -> h = sha256 d
}.

(** The calls succeed. *)
Class EVP_DigestReliable `{EVP_Digest} := {
  digest_ok d : exists c0 c1 c2,
    EVP_MD_CTX_new = Some c0 /\ EVP_DigestInit_ex c0 = Some c1 /\
    EVP_DigestUpdate c1 d = Some c2 /\ is_Some (EVP_DigestFinal_ex c2)
}.

Section Hash.
Context `{EVP_Digest}.

(** NUL bytes of a digest become [\200], and one is written behind it. *)
Definition mask_digest (h : bytes) : bytes :=
  (fun b => if bool_decide (b = NUL) then chr 128 else b) <$> h.

(** [generateHash]: [None] is false; else the 33 bytes written through
    [hash], the last of which lies behind an array of [CHUNK_HASH_SIZE]. *)
Definition generateHash (dataBuffer : bytes) (dataSize : Z) : option bytes :=
  ctx ← EVP_MD_CTX_new;
  ctx1 ← EVP_DigestInit_ex ctx;
  ctx2 ← EVP_DigestUpdate ctx1 (takeZ dataSize dataBuffer);
  hash ← EVP_DigestFinal_ex ctx2;
  Some (mask_digest hash ++ [NUL]).

(** The fingerprint of a chunk: the 32 bytes before the terminator. *)
Definition fp_of (d : bytes) : bytes := mask_digest (sha256 d).

Lemma mask_digest_no_nul h : no_nul (mask_digest h).
Proof.
  unfold mask_digest, no_nul. apply Forall_fmap, Forall_forall. intros b _. simpl.
  case_bool_decide; [|done]. intros E%(f_equal u8). done.
Qed.

Lemma fp_of_length d : lengthZ (fp_of d) = CHUNK_HASH_SIZE.
Proof.
  unfold fp_of, mask_digest. rewrite lengthZ_length, length_fmap, <- lengthZ_length.
  apply sha256_length.
Qed.

Lemma fp_of_no_nul d : no_nul (fp_of d).
Proof. apply mask_digest_no_nul. Qed.

Lemma generateHash_Some d n h : generateHash d n = Some h -> h = fp_of (takeZ n d) ++ [NUL].
Proof.
  unfold generateHash. intros Hg.
  apply bind_Some in Hg as (c0 & E0 & Hg). apply bind_Some in Hg as (c1 & E1 & Hg).
  apply bind_Some in Hg as (c2 & E2 & Hg). apply bind_Some in Hg as (h' & E3 & [= <-]).
  by rewrite (digest_sha256 _ _ _ _ _ E0 E1 E2 E3).
Qed.

Lemma generateHash_ok `{!EVP_DigestReliable} d n :
  generateHash d n = Some (fp_of (takeZ n d) ++ [NUL]).
Proof.
  destruct (digest_ok (takeZ n d)) as (c0 & c1 & c2 & E0 & E1 & E2 & h & E3).
  destruct (generateHash d n) as [h'|] eqn:E; [f_equal; by apply generateHash_Some in E|].
  unfold generateHash in E. rewrite E0 in E. cbn in E. rewrite E1 in E. cbn in E.
  rewrite E2 in E. cbn in E. by rewrite E3 in E.
Qed.

(** The hash read as a C string and the hash read as 32 bytes are the same
    database key. *)
Lemma generateHash_cstr d n h :
  generateHash d n = Some h ->
  cstr h = Some (takeZ CHUNK_HASH_SIZE h) /\ takeZ CHUNK_HASH_SIZE h = fp_of (takeZ n d).
Proof.
  intros ->%generateHash_Some. rewrite takeZ_app_exact by (by rewrite fp_of_length).
  split; [|done]. apply cstr_app_nul, fp_of_no_nul.
Qed.
End Hash.

(** ** Encryption *)

Class EVP_Cipher := {
  CIPHER_CTX : Type;
  EVP_CIPHER_CTX_new : option CIPHER_CTX;
  EVP_EncryptInit_ex : CIPHER_CTX -> bytes -> bytes -> option CIPHER_CTX;
  EVP_EncryptUpdate : CIPHER_CTX -> bytes -> option (CIPHER_CTX * bytes);
  EVP_EncryptFinal_ex : CIPHER_CTX -> option bytes;
  EVP_DecryptInit_ex : CIPHER_CTX -> bytes -> bytes -> option CIPHER_CTX;
  EVP_DecryptUpdate : CIPHER_CTX -> bytes -> option (CIPHER_CTX * bytes);
  EVP_DecryptFinal_ex : CIPHER_CTX -> option bytes;
  cipher_roundtrip c key iv d e1 e2 o1 o2 d1 d2 p1 p2 :
    EVP_EncryptInit_ex c key iv = Some e1 -> EVP_EncryptUpdate e1 d = Some (e2, o1) ->
    EVP_EncryptFinal_ex e2 = Some o2 ->
    EVP_DecryptInit_ex c key iv = Some d1 -> EVP_DecryptUpdate d1 (o1 ++ o2) = Some (d2, p1) ->
    EVP_DecryptFinal_ex d2 = Some p2 -> p1 ++ p2 = d
}.

(** The cipher calls succeed and keep the length, as a stream mode does. *)
Class EVP_CipherReliable `{EVP_Cipher} := {
  new_ok : exists c, EVP_CIPHER_CTX_new = Some c;
  encrypt_ok c key iv d : exists e1 e2 o1 o2,
    EVP_EncryptInit_ex c key iv = Some e1 /\ EVP_EncryptUpdate e1 d = Some (e2, o1) /\
    EVP_EncryptFinal_ex e2 = Some o2 /\ lengthZ (o1 ++ o2) = lengthZ d;
  decrypt_ok c key iv d : exists d1 d2 p1 p2,
    EVP_DecryptInit_ex c key iv = Some d1 /\ EVP_DecryptUpdate d1 d = Some (d2, p1) /\
    EVP_DecryptFinal_ex d2 = Some p2 /\ lengthZ (p1 ++ p2) = lengthZ d
}.

Section Cipher.
Context `{EVP_Cipher}.

Definition CHUNK_ENCRYPT_KEY_SIZE : Z := 32.
(** [iv_] and [chunkKeyEncryptionKey_] are zeroed by the constructor. *)
Definition iv_ : bytes := replicate 16 NUL.
Definition chunkKeyEncryptionKey_ : bytes := replicate 32 NUL.

(** [encryptWithKey]: [None] is false. *)
Definition encryptWithKey (dataBuffer : bytes) (dataSize : Z) (key : bytes) : option bytes :=
  ctx ← EVP_CIPHER_CTX_new;
  ctx1 ← EVP_EncryptInit_ex ctx key iv_;
  '(ctx2, out) ← EVP_EncryptUpdate ctx1 (takeZ dataSize dataBuffer);
  fin ← EVP_EncryptFinal_ex ctx2;
  if lengthZ (out ++ fin) =? dataSize then Some (out ++ fin) else None.

Definition decryptWithKey (ciphertext : bytes) (dataSize : Z) (key : bytes) : option bytes :=
  ctx ← EVP_CIPHER_CTX_new;
  ctx1 ← EVP_DecryptInit_ex ctx key iv_;
  '(ctx2, out) ← EVP_DecryptUpdate ctx1 (takeZ dataSize ciphertext);
  fin ← EVP_DecryptFinal_ex ctx2;
  if lengthZ (out ++ fin) =? dataSize then Some (out ++ fin) else None.

(** [memcpy(&buf[0], d, ..)] at the front of a buffer. *)
Definition overwrite (buf d : bytes) : bytes := d ++ dropZ (lengthZ d) buf.

(** [encryptChunk(Chunk_t &)]: the result and the chunk afterwards. *)
Definition encryptChunk (c : Chunk_t) : bool * Chunk_t :=
  match encryptWithKey (logicData c) (logicDataSize c) (encryptKey c) with
  | None => (false, c)
  | Some ciphertext =>
      let c1 := mkChunk (chunk_ID c) (logicDataSize c) (overwrite (logicData c) ciphertext)
                  (chunkHash c) (encryptKey c) in
      match encryptWithKey (encryptKey c1) CHUNK_ENCRYPT_KEY_SIZE chunkKeyEncryptionKey_ with
      | None => (false, c1)
      | Some cipherKey =>
          (true, mkChunk (chunk_ID c1) (logicDataSize c1) (logicData c1) (chunkHash c1)
                   (overwrite (encryptKey c1) cipherKey))
      end
  end.

(** [decryptChunk(Chunk_t &)]: the key in the chunk stays encrypted. *)
Definition decryptChunk (c : Chunk_t) : bool * Chunk_t :=
  match decryptWithKey (encryptKey c) CHUNK_ENCRYPT_KEY_SIZE chunkKeyEncryptionKey_ with
  | None => (false, c)
  | Some plaintKey =>
      match decryptWithKey (logicData c) (logicDataSize c) plaintKey with
      | None => (false, c)
      | Some plaintData =>
          (true, mkChunk (chunk_ID c) (logicDataSize c) (overwrite (logicData c) plaintData)
                   (chunkHash c) (encryptKey c))
      end
  end.

(** The overload of [decryptChunk] on raw buffers. *)
Definition decryptChunk_buffer (chunkData : bytes) (chunkSize : Z) (key : bytes) : option bytes :=
  plaintKey ← decryptWithKey key CHUNK_ENCRYPT_KEY_SIZE chunkKeyEncryptionKey_;
  decryptWithKey chunkData chunkSize plaintKey.

Lemma encryptWithKey_length d n key c : encryptWithKey d n key = Some c -> lengthZ c = n.
Proof.
  unfold encryptWithKey. intros Hc.
  apply bind_Some in Hc as (? & _ & Hc). apply bind_Some in Hc as (? & _ & Hc).
  apply bind_Some in Hc as ([c2 out] & _ & Hc). apply bind_Some in Hc as (fin & _ & Hc).
  destruct (Z.eqb_spec (lengthZ (out ++ fin)) n); congruence.
Qed.

(** Decryption of an encryption, whatever follows it in the buffer. *)
Lemma decrypt_encrypt `{!EVP_CipherReliable} d n key c rest :
  encryptWithKey d n key = Some c -> n <= lengthZ d ->
  decryptWithKey (c ++ rest) n key = Some (takeZ n d).
Proof.
  intros Hc Hn. pose proof (encryptWithKey_length _ _ _ _ Hc) as Hl.
  unfold decryptWithKey. rewrite takeZ_app_exact by done. unfold encryptWithKey in Hc.
  destruct new_ok as [c0 E0]. rewrite E0 in *. cbn [mbind option_bind] in Hc |- *.
  destruct (encrypt_ok c0 key iv_ (takeZ n d)) as (e1 & e2 & o1 & o2 & E1 & E2 & E3 & E4).
  rewrite E1 in Hc. cbn [mbind option_bind] in Hc. rewrite E2 in Hc. cbn [mbind option_bind] in Hc. rewrite E3 in Hc. cbn [mbind option_bind] in Hc.
  destruct (Z.eqb_spec (lengthZ (o1 ++ o2)) n); [|done]. injection Hc as <-.
  destruct (decrypt_ok c0 key iv_ (o1 ++ o2)) as (d1 & d2 & p1 & p2 & D1 & D2 & D3 & D4).
  rewrite D1. cbn [mbind option_bind]. rewrite D2. cbn [mbind option_bind]. rewrite D3. cbn [mbind option_bind].
  rewrite (proj2 (Z.eqb_eq _ _)) by lia.
  by rewrite (cipher_roundtrip _ _ _ _ _ _ _ _ _ _ _ _ E1 E2 E3 D1 D2 D3).
Qed.
End Cipher.
