(* ===== verification/Config.v ===== *)
(** * Configuration (src/configure.cc, include/configure.hpp)

    [Configure::readConf] reads the settings from a JSON file with
    boost::property_tree, which throws for a key that is absent.  The tree is
    the parameter [ptree_get]: [None] is an absent key or a value that does not
    convert. *)

From S2P Require Import Prelude.
From S2P Require Import Bytes.
From stdpp Require Import base tactics numbers list gmap strings.
From Stdlib Require Import Ascii ZArith Lia.

Open Scope Z_scope.

Definition CHUNKER_FIX_SIZE_TYPE : Z := 0.
Definition CHUNKER_VAR_SIZE_TYPE : Z := 1.

Record Configure : Type := mkConfigure {
  _runningType : Z;
  _chunkingType : Z;
  _maxChunkSize : Z;
  _minChunkSize : Z;
  _slidingWinSize : Z;
  _maxslidingWinSize : Z;
  _minslidingWinSize : Z;
  _segmentSize : Z;
  _averageChunkSize : Z;
  _ReadSize : Z;
  _Fileindex : Z;
  _SFNumber : Z;
  _maxContainerSize : Z;
  _RecipeRootPath : bytes;
  _containerRootPath : bytes;
  _fp2ChunkDBName : bytes;
  _fp2MetaDBame : bytes;
  _deltaChunkDBame : bytes;
  _containerDBame : bytes;
  _maxDeltaContainerSize : Z;
  _deltacontainerRootPath : bytes
}.

(** A parsed tree: the unsigned number and the string at a path. *)
Record ptree : Type := mkPtree
  { ptree_u64 : string -> option Z; ptree_str : string -> option bytes }.

(** [root.get<T>(path)] *)
Definition ptree_get {A} (o : option A) : outcome A :=
  match o with
  | Some a => Ok a
  | None => Throw ptree_bad_path
  end.

Definition readConf (root : ptree) : outcome Configure :=
  x_runningType ← ptree_get (ptree_u64 root "ChunkerConfig._runningType");
  x_chunkingType ← ptree_get (ptree_u64 root "ChunkerConfig._chunkingType");
  x_maxChunkSize ← ptree_get (ptree_u64 root "ChunkerConfig._maxChunkSize");
  x_minChunkSize ← ptree_get (ptree_u64 root "ChunkerConfig._minChunkSize");
  x_slidingWinSize ← ptree_get (ptree_u64 root "ChunkerConfig._slidingWinSize");
  x_maxslidingWinSize ← ptree_get (ptree_u64 root "IndexConfig._maxslidingWinSize");
  x_minslidingWinSize ← ptree_get (ptree_u64 root "IndexConfig._minslidingWinSize");
  x_segmentSize ← ptree_get (ptree_u64 root "ChunkerConfig._segmentSize");
  x_averageChunkSize ← ptree_get (ptree_u64 root "ChunkerConfig._avgChunkSize");
  x_ReadSize ← ptree_get (ptree_u64 root "ChunkerConfig._ReadSize");
  x_Fileindex ← ptree_get (ptree_u64 root "ChunkerConfig._Fileindex");
  x_SFNumber ← ptree_get (ptree_u64 root "ChunkerConfig._SFNumber");
  x_maxContainerSize ← ptree_get (ptree_u64 root "SPConfig._maxContainerSize");
  x_RecipeRootPath ← ptree_get (ptree_str root "server._RecipeRootPath");
  x_containerRootPath ← ptree_get (ptree_str root "server._containerRootPath");
  x_fp2ChunkDBName ← ptree_get (ptree_str root "server._fp2ChunkDBName");
  x_fp2MetaDBame ← ptree_get (ptree_str root "server._fp2MetaDBame");
  x_deltaChunkDBame ← ptree_get (ptree_str root "server._deltaChunkDBame");
  x_containerDBame ← ptree_get (ptree_str root "server._containerDBame");
  x_maxDeltaContainerSize ← ptree_get (ptree_u64 root "SPConfig._maxDeltaContainerSize");
  x_deltacontainerRootPath ← ptree_get (ptree_str root "server._deltacontainerRootPath");
  Ok (mkConfigure x_runningType x_chunkingType x_maxChunkSize x_minChunkSize x_slidingWinSize
    x_maxslidingWinSize x_minslidingWinSize x_segmentSize x_averageChunkSize x_ReadSize
    x_Fileindex x_SFNumber x_maxContainerSize x_RecipeRootPath x_containerRootPath
    x_fp2ChunkDBName x_fp2MetaDBame x_deltaChunkDBame x_containerDBame x_maxDeltaContainerSize
    x_deltacontainerRootPath).

(** The accessors. *)
Definition getRunningType (c : Configure) : Z := _runningType c.
Definition getChunkingType (c : Configure) : Z := _chunkingType c.
Definition getMaxChunkSize (c : Configure) : Z := _maxChunkSize c.
Definition getMinChunkSize (c : Configure) : Z := _minChunkSize c.
Definition getAverageChunkSize (c : Configure) : Z := _averageChunkSize c.
Definition getSlidingWinSize (c : Configure) : Z := _slidingWinSize c.
Definition getMaxSlidingWinSize (c : Configure) : Z := _maxslidingWinSize c.
Definition getMinSlidingWinSize (c : Configure) : Z := _minslidingWinSize c.
Definition getSegmentSize (c : Configure) : Z := _segmentSize c.
Definition getReadSize (c : Configure) : Z := _ReadSize c.
Definition getIndexflag (c : Configure) : Z := _Fileindex c.
Definition getMaxContainerSize (c : Configure) : Z := _maxContainerSize c.
Definition getMaxDeltaContainerSize (c : Configure) : Z := _maxDeltaContainerSize c.
Definition getSFNumber (c : Configure) : Z := _SFNumber c.
Definition getRecipeRootPath (c : Configure) : bytes := _RecipeRootPath c.
Definition getContainerRootPath (c : Configure) : bytes := _containerRootPath c.
Definition getFp2ChunkDBName (c : Configure) : bytes := _fp2ChunkDBName c.
Definition getFp2MetaDBame (c : Configure) : bytes := _fp2MetaDBame c.
Definition getdeltaChunkDBame (c : Configure) : bytes := _deltaChunkDBame c.
Definition getcontainerDBame (c : Configure) : bytes := _containerDBame c.
Definition getDeltaContainerRootPath (c : Configure) : bytes := _deltacontainerRootPath c.

(** The keys [readConf] asks for. *)
Definition u64_keys : list string :=
  ["ChunkerConfig._runningType"; "ChunkerConfig._chunkingType"; "ChunkerConfig._maxChunkSize";
   "ChunkerConfig._minChunkSize"; "ChunkerConfig._slidingWinSize";
   "IndexConfig._maxslidingWinSize"; "IndexConfig._minslidingWinSize";
   "ChunkerConfig._segmentSize"; "ChunkerConfig._avgChunkSize"; "ChunkerConfig._ReadSize";
   "ChunkerConfig._Fileindex"; "ChunkerConfig._SFNumber"; "SPConfig._maxContainerSize";
   "SPConfig._maxDeltaContainerSize"]%string.
Definition str_keys : list string :=
  ["server._RecipeRootPath"; "server._containerRootPath"; "server._fp2ChunkDBName";
   "server._fp2MetaDBame"; "server._deltaChunkDBame"; "server._containerDBame";
   "server._deltacontainerRootPath"]%string.

Lemma ptree_get_Ok {A} (o : option A) a : ptree_get o = Ok a <-> o = Some a.
Proof. destruct o; simpl; split; congruence. Qed.

Lemma ptree_get_outcome {A} (o : option A) :
  (exists a, o = Some a /\ ptree_get o = Ok a) \/ (o = None /\ ptree_get o = Throw ptree_bad_path).
Proof. destruct o; simpl; eauto. Qed.


(** A key is there, with a value of its type. *)
Definition has_u64 (root : ptree) (k : string) : Prop := is_Some (ptree_u64 root k).
Definition has_str (root : ptree) (k : string) : Prop := is_Some (ptree_str root k).

Ltac ptree_step :=
  match goal with
  | |- context [mbind _ (ptree_get ?o) = _] =>
      let E := fresh "E" in
      destruct (ptree_get_outcome o) as [(? & E & ->)|(E & ->)]; cbn [mbind outcome_bind]
  end.

(** All keys present: success. *)
Lemma readConf_total root :
  Forall (has_u64 root) u64_keys -> Forall (has_str root) str_keys ->
  exists c, readConf root = Ok c.
Proof.
  unfold u64_keys, str_keys, has_u64, has_str. intros Hu Hs.
  repeat match goal with
  | H : Forall _ (_ :: _) |- _ => inversion H; clear H; subst
  | H : Forall _ [] |- _ => clear H
  end.
  unfold readConf.
  repeat (ptree_step; [|exfalso;
    match goal with E : ?o = None, S : is_Some ?o |- _ => rewrite E in S; by destruct S end]).
  eauto.
Qed.

(** One key absent: the exception of [ptree::get]. *)
Lemma readConf_missing root k :
  (k ∈ u64_keys /\ ptree_u64 root k = None) \/ (k ∈ str_keys /\ ptree_str root k = None) ->
  readConf root = Throw ptree_bad_path.
Proof.
  intros Hk. unfold readConf. repeat (ptree_step; [|reflexivity]). exfalso.
  unfold u64_keys, str_keys in Hk. rewrite !elem_of_cons, !elem_of_nil in Hk.
  repeat match goal with
  | H : _ /\ _ |- _ => destruct H
  | H : _ \/ _ |- _ => destruct H
  | H : False |- _ => destruct H
  end; subst; congruence.
Qed.

(** On success every accessor gives the value of its key. *)
Lemma readConf_values root c :
  readConf root = Ok c ->
  ptree_u64 root "ChunkerConfig._chunkingType" = Some (getChunkingType c) /\
  ptree_u64 root "ChunkerConfig._maxChunkSize" = Some (getMaxChunkSize c) /\
  ptree_u64 root "ChunkerConfig._minChunkSize" = Some (getMinChunkSize c) /\
  ptree_u64 root "ChunkerConfig._avgChunkSize" = Some (getAverageChunkSize c) /\
  ptree_u64 root "ChunkerConfig._slidingWinSize" = Some (getSlidingWinSize c) /\
  ptree_u64 root "ChunkerConfig._ReadSize" = Some (getReadSize c) /\
  ptree_u64 root "ChunkerConfig._Fileindex" = Some (getIndexflag c) /\
  ptree_u64 root "SPConfig._maxContainerSize" = Some (getMaxContainerSize c) /\
  ptree_str root "server._containerRootPath" = Some (getContainerRootPath c) /\
  ptree_str root "server._RecipeRootPath" = Some (getRecipeRootPath c).
Proof.
  unfold readConf. repeat (ptree_step; [|discriminate]). intros [= <-].
  by split_and!.
Qed.

(** ** The configuration file of the repository (config.json) *)

Definition shipped_u64 : list (string * Z) :=
  [("ChunkerConfig._runningType", 0); ("ChunkerConfig._chunkingType", 1);
   ("ChunkerConfig._minChunkSize", 4096); ("ChunkerConfig._avgChunkSize", 8192);
   ("ChunkerConfig._maxChunkSize", 16384); ("ChunkerConfig._ReadSize", 128);
   ("ChunkerConfig._segmentSize", 0); ("ChunkerConfig._Fileindex", 1);
   ("ChunkerConfig._SFNumber", 4); ("IndexConfig._maxslidingWinSize", 256);
   ("IndexConfig._minslidingWinSize", 48); ("SPConfig._maxContainerSize", 8388608)]%string.

Definition shipped_str : list (string * bytes) :=
  [("server._RecipeRootPath", str "Recipes/"); ("server._containerRootPath", str "Containers/");
   ("server._fp2ChunkDBName", str "db1"); ("server._fp2MetaDBame", str "db2")]%string.

Definition shipped_config : ptree :=
  mkPtree (fun k => (list_to_map shipped_u64 : gmap string Z) !! k)
          (fun k => (list_to_map shipped_str : gmap string bytes) !! k).
