(* ===== verification/Chunking.v ===== *)
(** * The fingerprint and the cuts (src/chunker.cc)

    The rolling fingerprint of the chunking loop, and where the loop cuts. *)

From S2P Require Import Prelude.
From S2P Require Import Bytes.
From S2P Require Import Config.
From stdpp Require Import base tactics numbers list strings.
From Stdlib Require Import Ascii ZArith Lia.

Open Scope Z_scope.

(** * The rolling fingerprint (src/chunker.cc)

    [ChunkerInit] fills a table of powers and a table of removals, and the
    chunking loop maintains the fingerprint of the last [slidingWinSize]
    bytes in a 16-bit variable.  Here are the tables, the two update
    expressions with the C++ integer conversions written out, and the proof
    that they compute the polynomial of the window modulo [2^16]. *)

Definition polyBase : Z := 257.
(** [(1 << 23) - 1], used as a bit mask *)
Definition polyMOD : Z := Z.shiftl 1 23 - 1.

(** [powerLUT]: each entry from the one before, in 32-bit arithmetic. *)
Fixpoint power_from (n : nat) (p : Z) : list Z :=
  match n with
  | O => []
  | S n' => p :: power_from n' (Z.land (u32 (p * polyBase)) polyMOD)
  end.

Definition make_powerLUT (slidingWinSize : Z) : list Z := power_from (Z.to_nat slidingWinSize) 1.

(** An entry of [removeLUT], from the last power. *)
Definition remove_entry (pw i : Z) : Z :=
  let r := Z.land (u32 (i * pw)) polyMOD in
  if r =? 0 then r else Z.land (u32 (polyMOD - r + 1)) polyMOD.

(** Reads [powerLUT[slidingWinSize - 1]]. *)
Definition make_removeLUT (slidingWinSize : Z) (powerLUT : list Z) : outcome (list Z) :=
  pw ← in_bounds (nthZ powerLUT (slidingWinSize - 1));
  Ok (remove_entry pw <$> seqZ 0 256).

(** [winFp + (chunkBuffer[cnt] * powerLUT[w - cnt - 1]) & polyMOD]: the sum is
    taken first, then masked, then stored in 16 bits. *)
Definition fill_step (winFp : Z) (c : byte) (p : Z) : Z :=
  u16 (Z.land (u32 (winFp + u32 (u8 c * p))) polyMOD).

(** [((winFp + removeLUT[v]) * polyBase + chunkBuffer[cnt]) & polyMOD] after
    [winFp &= polyMOD] *)
Definition slide_step (winFp : Z) (r : Z) (c : byte) : Z :=
  let winFp1 := u16 (Z.land winFp polyMOD) in
  u16 (Z.land (u32 (u32 (u32 (winFp1 + r) * polyBase) + u8 c)) polyMOD).

(** ** The polynomial of a window *)

Definition poly (l : bytes) : Z := foldl (fun acc b => acc * polyBase + u8 b) 0 l.

Lemma poly_snoc l b : poly (l ++ [b]) = poly l * polyBase + u8 b.
Proof. unfold poly. by rewrite foldl_app. Qed.

Lemma poly_foldl l acc :
  foldl (fun acc b => acc * polyBase + u8 b) acc l = acc * polyBase ^ lengthZ l + poly l.
Proof.
  revert acc; induction l as [|b l IH]; intros acc; cbn [foldl lengthZ]; [unfold poly; simpl; lia|].
  unfold poly. cbn [foldl]. rewrite !IH. pose proof (lengthZ_nonneg l).
  rewrite Z.pow_add_r by lia. lia.
Qed.

Lemma poly_cons b l : poly (b :: l) = u8 b * polyBase ^ lengthZ l + poly l.
Proof. unfold poly at 1. cbn [foldl]. rewrite poly_foldl. lia. Qed.

(** ** Reduction: masking and 32-bit wrap-around do not disturb the low bits *)

Lemma polyMOD_ones : polyMOD = 2 ^ 23 - 1.
Proof. reflexivity. Qed.

Lemma mask_u32 z : Z.land (u32 z) polyMOD = z mod 2 ^ 23.
Proof.
  rewrite polyMOD_ones, land_ones_mod by lia. unfold u32.
  apply Z.mod_mod_divide. by exists (2 ^ 9).
Qed.

Lemma u16_mod23 z : u16 (z mod 2 ^ 23) = u16 z.
Proof. unfold u16. apply Z.mod_mod_divide. by exists (2 ^ 7). Qed.

Lemma u16_u32 z : u16 (u32 z) = u16 z.
Proof. unfold u16, u32. apply Z.mod_mod_divide. by exists (2 ^ 16). Qed.

Lemma u16_idemp z : u16 (u16 z) = u16 z.
Proof. apply Z.mod_small, u16_range. Qed.

(** Congruence modulo [2^16], for rewriting. *)
Definition eq16 (a b : Z) : Prop := u16 a = u16 b.

#[export] Instance eq16_equiv : Equivalence eq16.
Proof. unfold eq16. split; congruence. Qed.
#[export] Instance eq16_add : Proper (eq16 ==> eq16 ==> eq16) Z.add.
Proof. unfold eq16, u16. intros a a' Ha b b' Hb. by rewrite Zplus_mod, Ha, Hb, <- Zplus_mod. Qed.
#[export] Instance eq16_mul : Proper (eq16 ==> eq16 ==> eq16) Z.mul.
Proof. unfold eq16, u16. intros a a' Ha b b' Hb. by rewrite Zmult_mod, Ha, Hb, <- Zmult_mod. Qed.
#[export] Instance eq16_opp : Proper (eq16 ==> eq16) Z.opp.
Proof.
  intros a b Hab. replace (- a) with (-1 * a) by lia. replace (- b) with (-1 * b) by lia.
  by rewrite Hab.
Qed.
#[export] Instance eq16_sub : Proper (eq16 ==> eq16 ==> eq16) Z.sub.
Proof. intros a a' Ha b b' Hb. unfold Z.sub. by rewrite Ha, Hb. Qed.
#[export] Instance u16_proper : Proper (eq16 ==> eq) u16.
Proof. by intros a b. Qed.

Lemma eq16_u16 z : eq16 (u16 z) z.
Proof. apply u16_idemp. Qed.
Lemma eq16_u32 z : eq16 (u32 z) z.
Proof. apply u16_u32. Qed.
Lemma eq16_mod23 z : eq16 (z mod 2 ^ 23) z.
Proof. apply u16_mod23. Qed.

(** Both updates are the exact ones modulo [2^16]. *)
Lemma fill_step_spec winFp c p : fill_step winFp c p = u16 (winFp + u8 c * p).
Proof.
  unfold fill_step. rewrite mask_u32, u16_mod23. apply u16_proper. by rewrite eq16_u32.
Qed.

Lemma slide_step_spec winFp r c : slide_step winFp r c = u16 ((winFp + r) * polyBase + u8 c).
Proof.
  unfold slide_step. rewrite mask_u32, u16_mod23. apply u16_proper.
  assert (E : eq16 (u16 (Z.land winFp polyMOD)) winFp).
  { rewrite eq16_u16, polyMOD_ones, land_ones_mod by lia. apply eq16_mod23. }
  by rewrite !eq16_u32, E.
Qed.

(** ** The tables *)

Lemma power_from_lookup n p i :
  (i < n)%nat -> power_from n (p mod 2 ^ 23) !! i = Some ((p * polyBase ^ Z.of_nat i) mod 2 ^ 23).
Proof.
  revert p i; induction n as [|n IH]; intros p i Hi; [lia|]. cbn [power_from].
  destruct i as [|i].
  - simpl. by rewrite Z.mul_1_r.
  - cbn [lookup list_lookup]. rewrite mask_u32.
    rewrite IH by lia. rewrite Nat2Z.inj_succ, Z.pow_succ_r by lia.
    f_equal. rewrite <- Z.mul_assoc. apply Zmult_mod_idemp_l.
Qed.

(** [powerLUT[i] = polyBase^i mod 2^23]; the modulus is the mask plus one. *)
Lemma powerLUT_spec w i :
  0 <= i < w -> nthZ (make_powerLUT w) i = Some (polyBase ^ i mod 2 ^ 23).
Proof.
  intros Hi. unfold nthZ, make_powerLUT. destruct (Z.ltb_spec i 0); [lia|].
  change 1 with (1 mod 2 ^ 23). rewrite power_from_lookup by lia.
  by rewrite Z.mul_1_l, Z2Nat.id by lia.
Qed.

(** An entry of [removeLUT] is the negative of what it removes. *)
Lemma remove_entry_spec pw i : eq16 (remove_entry pw i) (- (i * pw)).
Proof.
  unfold remove_entry. rewrite !mask_u32. destruct (Z.eqb_spec (i * pw mod 2 ^ 23) 0) as [E|_].
  - rewrite E. rewrite <- (eq16_mod23 (i * pw)), E. reflexivity.
  - rewrite eq16_mod23, polyMOD_ones.
    transitivity (0 - i * pw mod 2 ^ 23); [|by rewrite eq16_mod23].
    replace (2 ^ 23 - 1 - i * pw mod 2 ^ 23 + 1) with (2 ^ 23 - i * pw mod 2 ^ 23) by lia.
    apply eq16_sub; reflexivity.
Qed.

Lemma removeLUT_spec w l v :
  0 < w -> make_removeLUT w (make_powerLUT w) = Ok l -> 0 <= v < 256 ->
  exists r, nthZ l v = Some r /\ eq16 r (- (v * polyBase ^ (w - 1))).
Proof.
  intros Hw Hl Hv. unfold make_removeLUT in Hl. rewrite powerLUT_spec in Hl by lia.
  cbn [mbind outcome_bind in_bounds] in Hl.
  set (pw := polyBase ^ (w - 1) mod 2 ^ 23) in *.
  assert (l = (remove_entry pw <$> seqZ 0 256)) as -> by congruence.
  exists (remove_entry pw v). split.
  - unfold nthZ. destruct (Z.ltb_spec v 0); [lia|]. rewrite list_lookup_fmap.
    rewrite lookup_seqZ_lt by lia. simpl. by rewrite Z2Nat.id by lia.
  - rewrite remove_entry_spec. unfold pw. by rewrite eq16_mod23.
Qed.

Lemma make_removeLUT_ok w : 0 < w -> exists l, make_removeLUT w (make_powerLUT w) = Ok l.
Proof. intros. unfold make_removeLUT. rewrite powerLUT_spec by lia. simpl. eauto. Qed.

(** ** Filling and sliding

    [d] is what the fingerprint started from: 0 after a cut, but not
    initialised for the first chunk. *)

(** While the window fills, the fingerprint is that of the bytes so far
    followed by zeros. *)
Lemma fill_correct w l c d :
  lengthZ l < w ->
  u16 (u16 (poly l * polyBase ^ (w - lengthZ l) + d) +
       u8 c * (polyBase ^ (w - lengthZ l - 1) mod 2 ^ 23)) =
  u16 (poly (l ++ [c]) * polyBase ^ (w - lengthZ (l ++ [c])) + d).
Proof.
  intros Hw. pose proof (lengthZ_nonneg l). rewrite lengthZ_app. cbn [lengthZ].
  apply u16_proper. rewrite eq16_u16, eq16_mod23, poly_snoc.
  replace (w - lengthZ l) with (1 + (w - lengthZ l - 1)) at 1 by lia.
  rewrite Z.pow_add_r by lia. replace (w - (lengthZ l + (1 + 0))) with (w - lengthZ l - 1) by lia.
  apply eq_subrelation; [apply _|]. ring.
Qed.

(** A slide drops the first byte of the window and appends one. *)
Lemma slide_correct w v l c r d :
  lengthZ (v :: l) = w -> eq16 r (- (u8 v * polyBase ^ (w - 1))) ->
  u16 ((u16 (poly (v :: l) + d) + r) * polyBase + u8 c) = u16 (poly (l ++ [c]) + d * polyBase).
Proof.
  intros Hw Hr. apply u16_proper. rewrite eq16_u16, Hr, poly_cons, poly_snoc.
  cbn [lengthZ] in Hw. replace (w - 1) with (lengthZ l) by lia.
  apply eq_subrelation; [apply _|]. ring.
Qed.

(** ** The anchor mask *)

(** [while ((avgChunkSize >> numOfMaskBits) != 1) numOfMaskBits++]; a shift by
    the width of [int] or more is not defined. *)
Fixpoint mask_bits (fuel : nat) (avgChunkSize numOfMaskBits : Z) : outcome Z :=
  match fuel with
  | O => UB
  | S f =>
      if Z.shiftr avgChunkSize numOfMaskBits =? 1 then Ok numOfMaskBits
      else mask_bits f avgChunkSize (numOfMaskBits + 1)
  end.

(** Shift counts 1 to 31 are defined. *)
Definition numOfMaskBits (avgChunkSize : Z) : outcome Z := mask_bits 31 avgChunkSize 1.

Definition make_anchorMask (avgChunkSize : Z) : outcome Z :=
  n ← numOfMaskBits avgChunkSize;
  Ok (Z.shiftl 1 n - 1).

Lemma mask_bits_spec fuel avg n :
  1 <= n <= Z.log2 avg -> 0 < avg -> Z.log2 avg < n + Z.of_nat fuel ->
  mask_bits fuel avg n = Ok (Z.log2 avg).
Proof.
  revert n; induction fuel as [|f IH]; intros n Hn Ha Hf; [lia|]. cbn [mask_bits].
  rewrite Z.shiftr_div_pow2 by lia. pose proof (Z.log2_spec avg Ha) as [Hlo Hhi].
  destruct (Z.eq_dec n (Z.log2 avg)) as [->|Hne].
  - rewrite (Z.div_unique avg (2 ^ Z.log2 avg) 1 (avg - 2 ^ Z.log2 avg)) at 1;
      [by rewrite Z.eqb_refl| |lia].
    rewrite Z.pow_succ_r in Hhi by lia. lia.
  - destruct (Z.eqb_spec (avg / 2 ^ n) 1) as [E|_]; [|apply IH; lia].
    exfalso. assert (2 <= avg / 2 ^ n); [|lia].
    apply Z.div_le_lower_bound; [apply Z.pow_pos_nonneg; lia|].
    etransitivity; [|exact Hlo]. rewrite Z.mul_comm, <- Z.pow_succ_r by lia.
    apply Z.pow_le_mono_r; lia.
Qed.

(** The loop ends, and the mask covers the binary logarithm of the average
    size, for every average an [int] can hold from 2 on. *)
Lemma make_anchorMask_spec avg :
  2 <= avg < 2 ^ 31 -> make_anchorMask avg = Ok (2 ^ Z.log2 avg - 1).
Proof.
  intros Ha. unfold make_anchorMask, numOfMaskBits.
  assert (1 <= Z.log2 avg) by (apply Z.log2_le_pow2; lia).
  assert (Z.log2 avg < 31) by (apply Z.log2_lt_pow2; lia).
  rewrite mask_bits_spec by lia. simpl. by rewrite Z.shiftl_1_l.
Qed.

(** * Where a file is cut (src/chunker.cc)

    [ChunkerInit] turns the configuration into the parameters of the
    chunker; [feed] is the part of the byte loop of [varSizeChunking] up to
    the boundary tests.  [cut] is the specification: a chunk ends where the
    polynomial of its last [slidingWinSize] bytes has the anchor value, or
    where it reaches the maximal size. *)

(** ** ChunkerInit *)

Record ChunkerParams : Type := mkParams
  { ChunkerType : Z;
    avgChunkSize : Z; minChunkSize : Z; maxChunkSize : Z; slidingWinSize : Z;
    ReadSize : Z;
    powerLUT : list Z; removeLUT : list Z;
    anchorMask : Z; anchorValue : Z }.

(** The two size tests end the program; so does, in fixed-size mode, a minimum
    or maximum that differs from the average.  A [ReadSize] that is no
    multiple of the chunk size is only reported; the remainder needs a chunk
    size other than 0. *)
Definition ChunkerInit (config : Configure) : outcome ChunkerParams :=
  let type := i32 (getChunkingType config) in
  let avg := i32 (getAverageChunkSize config) in
  let min := i32 (getMinChunkSize config) in
  let max := i32 (getMaxChunkSize config) in
  let readSize := u64 (getReadSize config * 1024 * 1024) in
  if type =? CHUNKER_VAR_SIZE_TYPE then
    let win := i32 (getSlidingWinSize config) in
    if avg <=? min then Throw process_exit else
    if max <=? avg then Throw process_exit else
    let power := make_powerLUT win in
    remove ← make_removeLUT win power;
    mask ← make_anchorMask avg;
    Ok (mkParams type avg min max win readSize power remove mask 0)
  else if type =? CHUNKER_FIX_SIZE_TYPE then
    if negb (min =? avg) || negb (max =? avg) then Throw process_exit else
    _ ← require (negb (u64 avg =? 0));
    Ok (mkParams type avg min max 0 readSize [] [] 0 0)
  else Ok (mkParams type avg min max 0 readSize [] [] 0 0).

(** What [ChunkerInit] establishes in variable-size mode. *)
Record params_ok (p : ChunkerParams) : Prop := {
  pk_win : 0 < slidingWinSize p < 2 ^ 31;
  pk_sizes : 0 <= minChunkSize p < maxChunkSize p;
  pk_max : maxChunkSize p < 2 ^ 31;
  pk_power : powerLUT p = make_powerLUT (slidingWinSize p);
  pk_remove : make_removeLUT (slidingWinSize p) (powerLUT p) = Ok (removeLUT p);
  pk_mask : anchorMask p = 2 ^ Z.log2 (avgChunkSize p) - 1;
  pk_value : anchorValue p = 0
}.

(** ** The window *)

(** [chunkBuffer] has [maxChunkSize] bytes, the first [chunkBufferCnt] of
    which belong to the chunk being read. *)
Record window : Type := mkWindow
  { chunkBuffer : bytes; chunkBufferCnt : Z; winFp : Z }.

Definition reset_window (s : window) : window := mkWindow (chunkBuffer s) 0 0.

(** The start of the byte loop; the flag tells whether the boundary tests are
    reached ([continue] otherwise). *)
Definition feed (p : ChunkerParams) (b : byte) (s : window) : outcome (bool * window) :=
  buf ← in_bounds (setZ (chunkBuffer s) (chunkBufferCnt s) b);
  let cnt := chunkBufferCnt s in
  if cnt <? u64 (slidingWinSize p) then
    pw ← in_bounds (nthZ (powerLUT p) (slidingWinSize p - cnt - 1));
    Ok (false, mkWindow buf (cnt + 1) (fill_step (winFp s) b pw))
  else
    v ← in_bounds (nthZ buf (cnt - slidingWinSize p));
    r ← in_bounds (nthZ (removeLUT p) (u8 v));
    let s' := mkWindow buf (cnt + 1) (slide_step (winFp s) r b) in
    Ok (negb (chunkBufferCnt s' <? u64 (minChunkSize p)), s').

(** [(winFp & anchorMask) == anchorValue] *)
Definition at_anchor (p : ChunkerParams) (s : window) : bool :=
  Z.land (winFp s) (anchorMask p) =? anchorValue p.

(** The bytes of the chunk being read. *)
Definition chunk_bytes (s : window) : bytes := takeZ (chunkBufferCnt s) (chunkBuffer s).

(** ** Specification: cutting by content *)

(** The last [n] bytes. *)
Definition lastZ {A} (n : Z) (l : list A) : list A := dropZ (lengthZ l - n) l.

(** The fingerprint of the window at the end of [c], computed afresh; [d] is
    the value [winFp] had before the chunk. *)
Definition fingerprint_of (p : ChunkerParams) (d : Z) (c : bytes) : Z :=
  u16 (poly (lastZ (slidingWinSize p) c) + d * polyBase ^ (lengthZ c - slidingWinSize p)).

Definition anchor_at (p : ChunkerParams) (d : Z) (c : bytes) : bool :=
  Z.land (fingerprint_of p d c) (anchorMask p) =? anchorValue p.

(** A chunk ends with its last byte. *)
Definition boundary (p : ChunkerParams) (d : Z) (c : bytes) : bool :=
  (slidingWinSize p <? lengthZ c) && (minChunkSize p <=? lengthZ c) &&
  (anchor_at p d c || (maxChunkSize p <=? lengthZ c)).

(** Cut [l], [cur] being the chunk begun before it: the complete chunks and
    what is left.  Behind a cut [winFp] is 0. *)
Fixpoint cut (p : ChunkerParams) (d : Z) (cur l : bytes) : list bytes * bytes :=
  match l with
  | [] => ([], cur)
  | b :: l' =>
      let cur' := cur ++ [b] in
      if boundary p d cur' then
        let '(cs, r) := cut p 0 [] l' in (cur' :: cs, r)
      else cut p d cur' l'
  end.

(** All chunks of a file: the last one ends where the file does. *)
Definition with_last (x : list bytes * bytes) : list bytes :=
  x.1 ++ (if bool_decide (x.2 = []) then [] else [x.2]).
Definition chunks_of (p : ChunkerParams) (d : Z) (l : bytes) : list bytes :=
  with_last (cut p d [] l).

(** The value [winFp] starts from behind the chunks [cs]. *)
Definition fp_after (d : Z) (cs : list bytes) : Z := match cs with [] => d | _ => 0 end.

(** *** Facts about [cut] *)

Lemma cut_concat p d cur l : concat (cut p d cur l).1 ++ (cut p d cur l).2 = cur ++ l.
Proof.
  revert d cur; induction l as [|b l IH]; intros d cur; cbn [cut]; [by rewrite app_nil_r|].
  destruct (boundary p d (cur ++ [b])).
  - specialize (IH 0 []). destruct (cut p 0 [] l) as [cs r]. cbn in *.
    rewrite <- app_assoc, IH. by rewrite <- app_assoc.
  - rewrite IH. by rewrite <- app_assoc.
Qed.

Lemma chunks_of_concat p d l : concat (chunks_of p d l) = l.
Proof.
  unfold chunks_of, with_last. pose proof (cut_concat p d [] l) as Hc.
  destruct (cut p d [] l) as [cs r]. simpl in *. rewrite <- Hc, concat_app. case_bool_decide as E; simpl; [by rewrite E|by rewrite app_nil_r].
Qed.

Lemma cut_app p d cur l1 l2 :
  cut p d cur (l1 ++ l2) =
  let '(cs1, r1) := cut p d cur l1 in
  let '(cs2, r2) := cut p (fp_after d cs1) r1 l2 in (cs1 ++ cs2, r2).
Proof.
  revert d cur; induction l1 as [|b l1 IH]; intros d cur; cbn [app cut].
  - simpl. by destruct (cut p d cur l2).
  - destruct (boundary p d (cur ++ [b])); rewrite IH; [|done].
    destruct (cut p 0 [] l1) as [cs1 r1]. simpl.
    replace (fp_after 0 cs1) with 0 by (by destruct cs1). by destruct (cut p 0 r1 l2).
Qed.

Lemma cut_length_le p d cur l : lengthZ (cut p d cur l).1 <= lengthZ l.
Proof.
  revert d cur; induction l as [|b l IH]; intros d cur; cbn [cut]; [done|].
  destruct (boundary p d (cur ++ [b])).
  - specialize (IH 0 []). destruct (cut p 0 [] l). cbn in *. lia.
  - specialize (IH d (cur ++ [b])). cbn in *. lia.
Qed.

(** No chunk is longer than the maximum, none that is complete is shorter
    than the minimum or fits in the window. *)
Lemma cut_sizes p d cur l :
  slidingWinSize p < maxChunkSize p -> minChunkSize p < maxChunkSize p ->
  lengthZ cur < maxChunkSize p ->
  Forall (fun c => minChunkSize p <= lengthZ c /\ slidingWinSize p < lengthZ c <= maxChunkSize p)
    (cut p d cur l).1 /\ lengthZ (cut p d cur l).2 < maxChunkSize p.
Proof.
  intros Hw Hm. revert d cur; induction l as [|b l IH]; intros d cur Hcur; cbn [cut]; [by split|].
  assert (Hlen : lengthZ (cur ++ [b]) = lengthZ cur + 1) by (rewrite lengthZ_app; simpl; lia).
  pose proof (lengthZ_nonneg cur).
  destruct (boundary p d (cur ++ [b])) eqn:E.
  - destruct (IH 0 []) as [IH1 IH2]; [simpl; lia|]. destruct (cut p 0 [] l) as [cs r].
    split; [|done]. constructor; [|done]. unfold boundary in E. bools. lia.
  - apply IH. unfold boundary in E. destruct (Z.ltb_spec (slidingWinSize p) (lengthZ (cur ++ [b])));
      [|lia]. destruct (Z.leb_spec (minChunkSize p) (lengthZ (cur ++ [b]))); [|lia].
    simpl in E. bools. lia.
Qed.

(** ** The loop computes the specified fingerprint *)

Section loop.
Context (p : ChunkerParams) (Hp : params_ok p) (Hwin : slidingWinSize p < maxChunkSize p).

(** The window holds the chunk [c]: the buffer is full-sized, its first bytes
    are [c], and the fingerprint is that of [c]. *)
Definition win_repr (d : Z) (c : bytes) (s : window) : Prop :=
  lengthZ (chunkBuffer s) = maxChunkSize p /\ chunkBufferCnt s = lengthZ c /\
  lengthZ c < maxChunkSize p /\ chunk_bytes s = c /\
  winFp s = (if lengthZ c <? slidingWinSize p
             then u16 (poly c * polyBase ^ (slidingWinSize p - lengthZ c) + d)
             else fingerprint_of p d c).

Lemma setZ_prefix {A} (l : list A) i x :
  0 <= i < lengthZ l ->
  exists l', setZ l i x = Some l' /\ lengthZ l' = lengthZ l /\ takeZ (i + 1) l' = takeZ i l ++ [x].
Proof.
  intros Hi. unfold setZ. rewrite (proj2 (Z.leb_le _ _)), (proj2 (Z.ltb_lt _ _)) by lia. simpl.
  eexists. split; [done|]. rewrite lengthZ_length in *. rewrite lengthZ_length, length_insert.
  split; [done|]. rewrite !takeZ_take. replace (Z.to_nat (i + 1)) with (S (Z.to_nat i)) by lia.
  rewrite (take_S_r _ _ x) by (apply list_lookup_insert_eq; lia).
  by rewrite take_insert_ge by lia.
Qed.

Lemma lastZ_snoc {A} (n : Z) (l : list A) x v k :
  0 < n <= lengthZ l -> lastZ n l = v :: k -> lastZ n (l ++ [x]) = k ++ [x].
Proof.
  intros Hn Hl. unfold lastZ in *. rewrite lengthZ_app. cbn [lengthZ].
  rewrite dropZ_app_le by lia. replace (lengthZ l + (1 + 0) - n) with (lengthZ l - n + 1) by lia.
  rewrite <- dropZ_dropZ by lia. by rewrite Hl, dropZ_drop.
Qed.

Lemma lastZ_cons {A} (n : Z) (l : list A) :
  0 < n <= lengthZ l -> exists v k, lastZ n l = v :: k /\ nthZ l (lengthZ l - n) = Some v /\
    lengthZ (v :: k) = n.
Proof.
  intros Hn. unfold lastZ, nthZ. destruct (Z.ltb_spec (lengthZ l - n) 0); [lia|].
  assert (Hl : lengthZ (dropZ (lengthZ l - n) l) = n) by (rewrite lengthZ_dropZ; lia).
  destruct (dropZ (lengthZ l - n) l) as [|v k] eqn:E; [simpl in Hl; lia|].
  exists v, k. split; [done|]. split; [|done]. rewrite dropZ_drop in E.
  rewrite <- (Nat.add_0_r (Z.to_nat _)), <- lookup_drop, E. done.
Qed.

(** One byte: the window then holds the chunk with the byte appended, and the
    tests are reached exactly when the chunk is long enough. *)
Lemma feed_spec d c s b :
  win_repr d c s ->
  exists s', feed p b s = Ok ((slidingWinSize p <? lengthZ (c ++ [b])) &&
                              (minChunkSize p <=? lengthZ (c ++ [b])), s') /\
    lengthZ (chunkBuffer s') = maxChunkSize p /\ chunkBufferCnt s' = lengthZ (c ++ [b]) /\
    chunk_bytes s' = c ++ [b] /\
    winFp s' = (if lengthZ (c ++ [b]) <? slidingWinSize p
                then u16 (poly (c ++ [b]) * polyBase ^ (slidingWinSize p - lengthZ (c ++ [b])) + d)
                else fingerprint_of p d (c ++ [b])).
Proof.
  intros (Hbuf & Hcnt & Hmax & Hc & Hfp). destruct Hp as [Hw Hs Hm Hpow Hrem _ _].
  pose proof (lengthZ_nonneg c).
  assert (Hlen : lengthZ (c ++ [b]) = lengthZ c + 1) by (rewrite lengthZ_app; simpl; lia).
  unfold feed. rewrite Hcnt.
  destruct (setZ_prefix (chunkBuffer s) (lengthZ c) b) as (buf & -> & Hbl & Hbp); [lia|].
  unfold chunk_bytes in Hc. rewrite Hcnt in Hc. rewrite Hc in Hbp.
  cbn [mbind outcome_bind in_bounds]. rewrite !u64_small by lia. rewrite Hlen.
  destruct (Z.ltb_spec (lengthZ c) (slidingWinSize p)).
  - rewrite Hpow, powerLUT_spec by lia. cbn [mbind outcome_bind in_bounds].
    rewrite (proj2 (Z.ltb_ge _ _)) by lia.
    eexists. split; [done|]. split_and!; [by simpl; rewrite Hbl|done|done|]. simpl.
    rewrite fill_step_spec, Hfp, fill_correct by lia. rewrite Hlen.
    destruct (Z.ltb_spec (lengthZ c + 1) (slidingWinSize p)); [done|].
    replace (slidingWinSize p - (lengthZ c + 1)) with 0 by lia. rewrite Z.mul_1_r.
    unfold fingerprint_of, lastZ. rewrite Hlen, dropZ_nonpos by lia.
    replace (lengthZ c + 1 - slidingWinSize p) with 0 by lia. by rewrite Z.mul_1_r.
  - destruct (lastZ_cons (slidingWinSize p) c) as (v & k & Hlast & Hnth & Hvk); [lia|].
    assert (nthZ buf (lengthZ c - slidingWinSize p) = Some v) as ->.
    { rewrite <- (takeZ_dropZ (lengthZ c + 1) buf), Hbp.
      rewrite !nthZ_app_l by (rewrite ?lengthZ_app; simpl; lia). done. }
    cbn [mbind outcome_bind in_bounds]. rewrite Hpow in Hrem.
    destruct (removeLUT_spec (slidingWinSize p) (removeLUT p) (u8 v)) as (r & -> & Hr);
      [lia|done|apply u8_range|].
    cbn [mbind outcome_bind in_bounds chunkBufferCnt].
    rewrite (proj2 (Z.ltb_lt (slidingWinSize p) _)) by lia. rewrite <- Z.leb_antisym.
    eexists. split; [done|]. split_and!; [by simpl; rewrite Hbl|done|done|]. simpl.
    rewrite (proj2 (Z.ltb_ge _ _)) by lia. rewrite slide_step_spec, Hfp.
    unfold fingerprint_of. rewrite (lastZ_snoc _ _ _ v k), Hlast by (done || lia).
    rewrite (slide_correct (slidingWinSize p)) by done. f_equal. rewrite Hlen.
    replace (lengthZ c + 1 - slidingWinSize p) with (1 + (lengthZ c - slidingWinSize p)) by lia.
    rewrite Z.pow_add_r by lia. lia.
Qed.

Lemma win_repr_start s :
  lengthZ (chunkBuffer s) = maxChunkSize p -> chunkBufferCnt s = 0 -> winFp s = u16 (winFp s) ->
  win_repr (winFp s) [] s.
Proof.
  intros Hb Hc Hf. destruct Hp. unfold win_repr, chunk_bytes. rewrite Hc. simpl.
  split_and!; [done|done|lia|by apply takeZ_nonpos|].
  by destruct (Z.ltb_spec 0 (slidingWinSize p)); [|lia].
Qed.

Lemma win_repr_reset s : lengthZ (chunkBuffer s) = maxChunkSize p -> win_repr 0 [] (reset_window s).
Proof. intros. by apply (win_repr_start (reset_window s)). Qed.
End loop.
