(* ===== verification/FileIndex.v ===== *)
(** * The three-level index of a file (src/chunker.cc)

    While a file is chunked its chunks are recorded in an [Index]: chunks,
    segments of chunks, containers of segments.  [EndOfSegment] decides where
    a segment or a container ends; [index_cut] and [index_final] are the index
    parts of [varSizeChunking] for a chunk cut inside the file and for the
    last one; [saveToFile] and [loadIndex] store the index. *)

From S2P Require Import Prelude.
From S2P Require Import Bytes.
From S2P Require Import DataStructure.
From S2P Require Import Database.
From S2P Require Import Crypto.
From stdpp Require Import base tactics numbers list gmap strings.
From Stdlib Require Import Ascii ZArith Lia.

Open Scope Z_scope.

(** ** Sizes (include/chunker.hpp), in [int] arithmetic

    [2 << 30] does not fit an [int]. *)

Definition AVG_SEGMENT_SIZE : Z := i32 (Z.shiftl 2 20).
Definition MIN_SEGMENT_SIZE : Z := i32 (Z.shiftl 2 19).
Definition MAX_SEGMENT_SIZE : Z := i32 (Z.shiftl 2 21).
Definition AVG_CONTAINER_SIZE : Z := i32 (Z.shiftl 2 29).
Definition MIN_CONTAINER_SIZE : Z := i32 (Z.shiftl 2 28).
Definition MAX_CONTAINER_SIZE : Z := i32 (Z.shiftl 2 30).
Definition SEDIVISOR : Z := (AVG_SEGMENT_SIZE - MIN_SEGMENT_SIZE) / (8 * Z.shiftl 2 10).
Definition SEPATTERN : Z := SEDIVISOR - 1.
Definition CODIVISOR : Z := (AVG_CONTAINER_SIZE - MIN_CONTAINER_SIZE) / AVG_SEGMENT_SIZE.
Definition COPATTERN : Z := CODIVISOR - 1.

(** The tests the two levels share. *)
Definition size_or_pattern (hash : bytes) (size min max divisor pattern : Z) : outcome bool :=
  if size <? min then Ok false
  else if max <? size then Ok true
  else
    _ ← require (CHUNK_HASH_SIZE <=? lengthZ hash);
    let metaFPInt := unrep_int (slice 0 4 hash) in
    let ret_flag := Z.land metaFPInt (divisor - 1) =? pattern in
    let zeros := bool_decide (slice (CHUNK_HASH_SIZE - 9) 9 hash = replicate 9 (chr 48)) in
    Ok ((ret_flag && (min <=? size)) || zeros).

(** [EndOfSegment]; a flag other than 0 and 1 reaches the end without a
    [return]. *)
Definition EndOfSegment (hash : bytes) (size flag : Z) : outcome bool :=
  if flag =? 0 then
    size_or_pattern hash size MIN_SEGMENT_SIZE MAX_SEGMENT_SIZE SEDIVISOR SEPATTERN
  else if flag =? 1 then
    size_or_pattern hash size MIN_CONTAINER_SIZE MAX_CONTAINER_SIZE CODIVISOR COPATTERN
  else UB.

(** ** Building the index *)

(** [fileindex] with the locals of [varSizeChunking] that belong to it;
    [startChunkID] and [startSegmentID] are the only fields of [segmentIndex]
    and [containerIndex] that are carried from one chunk to the next. *)
Record indexer : Type := mkIndexer
  { fileindex : Index;
    ix_startChunkID : Z; ix_startSegmentID : Z;
    segmenthash : bytes; containerhash : bytes;
    segmentsize : Z; containersize : Z }.

Definition push_chunk (x : L0) (i : Index) : Index :=
  mkIndex (fileNameHash i) (segmentnumber i) (containernumber i) (chunknumber i)
    (idx_chunk i ++ [x]) (idx_segment i) (idx_container i).
Definition push_segment (x : LP) (i : Index) : Index :=
  mkIndex (fileNameHash i) (segmentnumber i) (containernumber i) (chunknumber i)
    (idx_chunk i) (idx_segment i ++ [x]) (idx_container i).
Definition push_container (x : L6) (i : Index) : Index :=
  mkIndex (fileNameHash i) (segmentnumber i) (containernumber i) (chunknumber i)
    (idx_chunk i) (idx_segment i) (idx_container i ++ [x]).
Definition with_numbers (seg con chk : Z) (i : Index) : Index :=
  mkIndex (fileNameHash i) seg con chk (idx_chunk i) (idx_segment i) (idx_container i).

(** The start of [varSizeChunking]: counters zeroed, nothing pushed yet. *)
Definition indexer_start (i : Index) : indexer :=
  let i0 := with_numbers 0 0 0 i in
  mkIndexer i0 (chunknumber i0) (containernumber i0) [] [] 0 0.

Section build.
Context `{EVP_Digest}.

(** The chunk level, both index kinds. *)
Definition index_chunk (hash : bytes) (uniq : Z) (i : Index) : Index :=
  push_chunk (mkL0 (chunknumber i) CHUNK_HASH_SIZE uniq (takeZ CHUNK_HASH_SIZE hash)) i.

(** A segment ended: its hash, then the test for the end of the container.
    [false]: a hash could not be computed and [varSizeChunking] returns. *)
Definition end_segment (hash : bytes) (ix : indexer) : outcome (bool * indexer) :=
  h ← in_bounds (cstr hash);
  let seghash := segmenthash ix ++ h in
  match generateHash seghash (lengthZ seghash) with
  | None => Ok (false, mkIndexer (fileindex ix) (ix_startChunkID ix) (ix_startSegmentID ix) seghash
                         (containerhash ix) (segmentsize ix) (containersize ix))
  | Some tempsegmenthash =>
      let i := fileindex ix in
      let i1 := push_segment (mkLP (segmentnumber i) (ix_startChunkID ix) (chunknumber i)
                                (takeZ CHUNK_HASH_SIZE tempsegmenthash)) i in
      seg ← in_bounds (nthZ (idx_segment i1) (segmentnumber i1));
      tsh ← in_bounds (cstr tempsegmenthash);
      endc ← EndOfSegment (LP_hash seg) (containersize ix) 1;
      if (endc : bool) then
        let conhash := containerhash ix ++ tsh in
        match generateHash conhash (lengthZ conhash) with
        | None => Ok (false, mkIndexer i1 (ix_startChunkID ix) (ix_startSegmentID ix) [] conhash 0 0)
        | Some tempcontainerhash =>
            let i2 := push_container (mkL6 (containernumber i1) (ix_startSegmentID ix)
                        (segmentnumber i1) (takeZ CHUNK_HASH_SIZE tempcontainerhash)) i1 in
            let i3 := with_numbers (segmentnumber i2 + 1) (containernumber i2 + 1)
                        (chunknumber i2 + 1) i2 in
            Ok (true, (mkIndexer i3 (chunknumber i3) (segmentnumber i3) [] [] 0 0))
        end
      else
        let i3 := with_numbers (segmentnumber i1 + 1) (containernumber i1) (chunknumber i1 + 1) i1 in
        Ok (true, (mkIndexer i3 (chunknumber i3) (ix_startSegmentID ix) [] (containerhash ix ++ tsh)
                    0 (i32 (containersize ix + segmentsize ix))))
  end.

(** The index part for a chunk cut inside the file. *)
Definition index_cut (fileindex_flag : Z) (hash : bytes) (uniq chunkBufferCnt : Z)
    (ix : indexer) : outcome (bool * indexer) :=
  let i := fileindex ix in
  if fileindex_flag =? 0 then
    let i1 := index_chunk hash uniq i in
    Ok (true, (mkIndexer (with_numbers (segmentnumber i1) (containernumber i1) (chunknumber i1 + 1) i1)
                (ix_startChunkID ix) (ix_startSegmentID ix) (segmenthash ix) (containerhash ix)
                (segmentsize ix) (containersize ix)))
  else if fileindex_flag =? 1 then
    let ix1 := mkIndexer (index_chunk hash uniq i) (ix_startChunkID ix) (ix_startSegmentID ix)
                 (segmenthash ix) (containerhash ix) (segmentsize ix) (containersize ix) in
    ends ← EndOfSegment hash (segmentsize ix1) 0;
    if (ends : bool) then end_segment hash ix1
    else
      h ← in_bounds (cstr hash);
      let i1 := fileindex ix1 in
      Ok (true, (mkIndexer
        (with_numbers (segmentnumber i1) (containernumber i1) (chunknumber i1 + 1) i1)
        (ix_startChunkID ix1) (ix_startSegmentID ix1) (segmenthash ix1 ++ h) (containerhash ix1)
        (i32 (segmentsize ix1 + chunkBufferCnt)) (containersize ix1)))
  else Ok (true, ix).

(** The index part for the last chunk: it closes the current segment and
    container.  Their hashes are MD5, 16 bytes at the front of uninitialised
    buffers of 32; [stack] and [stack'] are what lies behind the 16 bytes. *)
Context (MD5 : bytes -> bytes).

Definition index_final (stack stack' : bytes) (fileindex_flag : Z) (hash : bytes) (uniq : Z)
    (ix : indexer) : outcome indexer :=
  let i := fileindex ix in
  if fileindex_flag =? 0 then
    let i1 := index_chunk hash uniq i in
    Ok (mkIndexer (with_numbers (segmentnumber i1) (containernumber i1) (chunknumber i1 + 1) i1)
          (ix_startChunkID ix) (ix_startSegmentID ix) (segmenthash ix) (containerhash ix)
          (segmentsize ix) (containersize ix))
  else if fileindex_flag =? 1 then
    let i1 := index_chunk hash uniq i in
    let i2 := with_numbers (segmentnumber i1) (containernumber i1) (chunknumber i1 + 1) i1 in
    h ← in_bounds (cstr hash);
    let tempsegmenthash := MD5 (segmenthash ix ++ h) ++ stack in
    let i3 := push_segment (mkLP (segmentnumber i2) (ix_startChunkID ix) (chunknumber i2)
                              (takeZ CHUNK_HASH_SIZE tempsegmenthash)) i2 in
    let i4 := with_numbers (segmentnumber i3 + 1) (containernumber i3) (chunknumber i3) i3 in
    tsh ← in_bounds (cstr tempsegmenthash);
    let tempcontainerhash := MD5 (containerhash ix ++ tsh) ++ stack' in
    let i5 := push_container (mkL6 (containernumber i4) (ix_startSegmentID ix)
                (segmentnumber i4 - 1) (takeZ CHUNK_HASH_SIZE tempcontainerhash)) i4 in
    let i6 := with_numbers (segmentnumber i5) (containernumber i5 + 1) (chunknumber i5) i5 in
    Ok (mkIndexer i6 (ix_startChunkID ix) (ix_startSegmentID ix) [] [] (segmentsize ix)
          (containersize ix))
  else Ok ix.
End build.

(** ** saveToFile, loadIndex *)

Section io.
Context {db : Type}.
Implicit Types e : env db.

Definition index_path (fileName : bytes) : bytes := str "./Index/" ++ fileName.

(** The first [n] elements of a vector, written one by one. *)
Definition write_elems {A} `{Pod A} (n : Z) (v : list A) : outcome bytes :=
  _ ← require (n <=? lengthZ v);
  Ok (reps (takeZ n v)).

Definition saveToFile (i : Index) (fileName : bytes) e : outcome (bool * env db) :=
  let path := index_path fileName in
  let '(ok, e1) := write_file path [] e in
  if negb ok then Ok (false, e1) else
  c ← write_elems (containernumber i) (idx_container i);
  s ← write_elems (segmentnumber i) (idx_segment i);
  k ← write_elems (chunknumber i) (idx_chunk i);
  let '(_, e2) := append_file path
    (rep_int (containernumber i) ++ rep_int (segmentnumber i) ++ rep_int (chunknumber i) ++
     fileNameHash i ++ c ++ s ++ k) e1 in
  Ok (true, e2).

(** [n] structs read from [l]; a read past the end leaves an uninitialised
    variable, which is then used. *)
Fixpoint read_elems {A} `{Pod A} (n : nat) (l : bytes) : outcome (list A * bytes) :=
  match n with
  | O => Ok ([], l)
  | S n' =>
      x ← load l;
      '(xs, l') ← read_elems n' (dropZ (sizeof A) l);
      Ok (x :: xs, l')
  end.

Definition loadIndex (fileName : bytes) e : outcome Index :=
  l ← in_bounds (files e !! index_path fileName);
  _ ← require (44 <=? lengthZ l);
  let con := unrep_int (slice 0 4 l) in
  let seg := unrep_int (slice 4 4 l) in
  let chk := unrep_int (slice 8 4 l) in
  let h := slice 12 32 l in
  '(c, l1) ← read_elems (Z.to_nat con) (dropZ 44 l);
  '(s, l2) ← read_elems (Z.to_nat seg) l1;
  '(k, _) ← read_elems (Z.to_nat chk) l2;
  Ok (mkIndex h seg con chk k s c).
End io.

(** * The index of a file is well formed, and is read back as written

    [ix_wf] says what the counters, identifiers and sizes of an index under
    construction mean: the segments tile the chunks before the open segment
    and the containers tile the segments before the open container.  Every cut
    keeps it.  [loadIndex] gives back what [saveToFile] wrote. *)

(** ** Tilings and numberings *)

(** Consecutive inclusive ranges from [a] up to, and without, [b]. *)
Fixpoint tiled (a : Z) (l : list (Z * Z)) (b : Z) : Prop :=
  match l with
  | [] => a = b
  | (s, t) :: l' => s = a /\ a <= t /\ tiled (t + 1) l' b
  end.

Lemma tiled_snoc a l b t : tiled a l b -> b <= t -> tiled a (l ++ [(b, t)]) (t + 1).
Proof.
  revert a; induction l as [|[s u] l IH]; intros a; simpl; [intros ->; auto|].
  intros (-> & ? & ?) ?. auto.
Qed.

(** Every number below the end lies in exactly one range. *)
Lemma tiled_covers a l b x : tiled a l b -> a <= x < b ->
  exists k s t, l !! k = Some (s, t) /\ s <= x <= t.
Proof.
  revert a; induction l as [|[s u] l IH]; intros a; simpl; [lia|].
  intros (-> & ? & Ht) Hx. destruct (Z.le_gt_cases x u).
  - exists 0%nat, a, u. simpl. split; [done|lia].
  - destruct (IH _ Ht) as (k & s' & t' & ? & ?); [lia|]. by exists (S k), s', t'.
Qed.

Lemma tiled_ge a l b k s t : tiled a l b -> l !! k = Some (s, t) -> a <= s <= t /\ t < b.
Proof.
  assert (Hle : forall l a b, tiled a l b -> a <= b).
  { clear. induction l as [|[s u] l IH]; simpl; intros a b; [lia|]. intros (-> & ? & ?%IH). lia. }
  revert a k; induction l as [|[s' u] l IH]; intros a k; simpl; [done|].
  intros (-> & ? & Ht) Hk. destruct k as [|k]; simpl in Hk.
  - injection Hk as <- <-. apply Hle in Ht. lia.
  - destruct (IH _ _ Ht Hk). lia.
Qed.

Lemma tiled_disjoint a l b x k1 s1 t1 k2 s2 t2 :
  tiled a l b -> l !! k1 = Some (s1, t1) -> l !! k2 = Some (s2, t2) ->
  s1 <= x <= t1 -> s2 <= x <= t2 -> k1 = k2.
Proof.
  revert a k1 k2; induction l as [|[s u] l IH]; intros a k1 k2; simpl; [done|].
  intros (-> & ? & Ht) H1 H2 ??.
  destruct k1 as [|k1], k2 as [|k2]; simpl in H1, H2; simplify_eq; [done| | |].
  - destruct (tiled_ge _ _ _ _ _ _ Ht H2). lia.
  - destruct (tiled_ge _ _ _ _ _ _ Ht H1). lia.
  - f_equal. eauto.
Qed.

(** The identifiers are the positions. *)
Definition numbered {A} (f : A -> Z) (l : list A) : Prop := f <$> l = seqZ 0 (lengthZ l).

Lemma numbered_snoc {A} (f : A -> Z) l x :
  numbered f l -> f x = lengthZ l -> numbered f (l ++ [x]).
Proof.
  unfold numbered. intros Hl Hx. rewrite fmap_app, Hl, lengthZ_app. simpl.
  rewrite Hx, Z.add_0_r, seqZ_app by (pose proof (lengthZ_nonneg l); lia). done.
Qed.

(** ** Size tests *)

(** [MAX_CONTAINER_SIZE] overflowed to the smallest [int], so a container ends
    exactly when it has the minimal size; its hash is never looked at. *)
Lemma end_of_container hash size :
  - 2 ^ 31 <= size < 2 ^ 31 ->
  EndOfSegment hash size 1 = Ok (MIN_CONTAINER_SIZE <=? size).
Proof.
  intros Hs. unfold EndOfSegment, size_or_pattern. cbn [Z.eqb].
  change MIN_CONTAINER_SIZE with (2 ^ 29). change MAX_CONTAINER_SIZE with (- 2 ^ 31).
  destruct (Z.ltb_spec size (2 ^ 29)); [by rewrite (proj2 (Z.leb_gt _ _))|].
  by rewrite (proj2 (Z.ltb_lt (- 2 ^ 31) size)), (proj2 (Z.leb_le _ _)) by lia.
Qed.

(** A segment test runs on any 32-byte hash; below the minimum it fails and
    above the maximum it succeeds whatever the hash. *)
Lemma end_of_segment hash size :
  CHUNK_HASH_SIZE <= lengthZ hash ->
  exists b : bool, EndOfSegment hash size 0 = Ok b /\
    (size < MIN_SEGMENT_SIZE -> b = false) /\ (MAX_SEGMENT_SIZE < size -> b = true).
Proof.
  intros Hh. unfold EndOfSegment, size_or_pattern. cbn [Z.eqb].
  change MIN_SEGMENT_SIZE with (2 ^ 20). change MAX_SEGMENT_SIZE with (2 ^ 22).
  destruct (Z.ltb_spec size (2 ^ 20)); [exists false; split_and!; [done|done|lia]|].
  destruct (Z.ltb_spec (2 ^ 22) size); [exists true; split_and!; [done|lia|done]|].
  rewrite (proj2 (Z.leb_le CHUNK_HASH_SIZE _)) by done. cbn [mbind outcome_bind require].
  eexists. split; [reflexivity|]. split; lia.
Qed.

(** ** The invariant *)

Definition seg_range (s : LP) : Z * Z := (startChunkID s, endChunkID s).
Definition con_range (c : L6) : Z * Z := (startSegmentID c, endSegmentID c).

Record ix_wf (ix : indexer) : Prop := {
  iw_chunks : chunknumber (fileindex ix) = lengthZ (idx_chunk (fileindex ix));
  iw_segments : segmentnumber (fileindex ix) = lengthZ (idx_segment (fileindex ix));
  iw_containers : containernumber (fileindex ix) = lengthZ (idx_container (fileindex ix));
  iw_chunkIDs : numbered L0_chunkID (idx_chunk (fileindex ix));
  iw_segmentIDs : numbered segmentID (idx_segment (fileindex ix));
  iw_containerIDs : numbered containerID (idx_container (fileindex ix));
  iw_tile : tiled 0 (seg_range <$> idx_segment (fileindex ix)) (ix_startChunkID ix);
  iw_ctile : tiled 0 (con_range <$> idx_container (fileindex ix)) (ix_startSegmentID ix);
  iw_open : ix_startChunkID ix <= chunknumber (fileindex ix);
  iw_copen : ix_startSegmentID ix <= segmentnumber (fileindex ix);
  iw_segsize : 0 <= segmentsize ix <= MAX_SEGMENT_SIZE + MAX_CHUNK_SIZE;
  iw_consize : 0 <= containersize ix < MIN_CONTAINER_SIZE + MAX_SEGMENT_SIZE + MAX_CHUNK_SIZE
}.

Lemma indexer_start_wf i :
  idx_chunk i = [] -> idx_segment i = [] -> idx_container i = [] -> ix_wf (indexer_start i).
Proof. intros Hc Hs Hn. by split; simpl; rewrite ?Hc, ?Hs, ?Hn. Qed.

(** The entry of a chunk. *)
Definition chunk_entry (ix : indexer) (h : bytes) (uniq : Z) : L0 :=
  mkL0 (chunknumber (fileindex ix)) CHUNK_HASH_SIZE uniq h.

Section wf.
Context `{EVP_DigestReliable}.

(** What [end_segment] is applied to: the chunk is pushed, not yet counted. *)
Definition pushed (h : bytes) (uniq : Z) (ix : indexer) : indexer :=
  mkIndexer (index_chunk (h ++ [NUL]) uniq (fileindex ix)) (ix_startChunkID ix)
    (ix_startSegmentID ix) (segmenthash ix) (containerhash ix) (segmentsize ix)
    (containersize ix).

Lemma end_segment_wf ix h uniq :
  ix_wf ix -> lengthZ h = CHUNK_HASH_SIZE -> no_nul h ->
  exists ix', end_segment (h ++ [NUL]) (pushed h uniq ix) = Ok (true, ix') /\ ix_wf ix' /\
    idx_chunk (fileindex ix') = idx_chunk (fileindex ix) ++ [chunk_entry ix h uniq].
Proof.
  intros [Hc Hs Hn Ic Is In Ht Hct Ho Hco Hss Hcs] Hh Hnn. unfold end_segment.
  rewrite cstr_app_nul by done. cbn [mbind outcome_bind in_bounds]. rewrite generateHash_ok.
  cbn [pushed segmenthash fileindex index_chunk push_chunk push_segment idx_segment segmentnumber].
  set (g := fp_of _). assert (Hg : lengthZ g = CHUNK_HASH_SIZE) by apply fp_of_length.
  rewrite Hs, nthZ_app_mid. cbn [mbind outcome_bind in_bounds].
  rewrite cstr_app_nul by apply fp_of_no_nul. cbn [mbind outcome_bind in_bounds LP_hash pushed containersize].
  assert (Hb : MIN_CONTAINER_SIZE + MAX_SEGMENT_SIZE + MAX_CHUNK_SIZE < 2 ^ 31) by reflexivity.
  rewrite end_of_container by lia. cbn [mbind outcome_bind].
  pose proof (lengthZ_nonneg (idx_chunk (fileindex ix))).
  destruct (Z.leb_spec MIN_CONTAINER_SIZE (containersize ix)).
  all: rewrite ?generateHash_ok; eexists; split; [done|]; simpl; rewrite ?(takeZ_app_exact _ h) by done; split; [|done].
  all: split; simpl; rewrite ?lengthZ_app, ?fmap_app; cbn [lengthZ fmap list_fmap];
    try lia; try (apply numbered_snoc; simpl; done || lia).
  all: try (by apply (tiled_snoc 0 _ _ (chunknumber (fileindex ix)))).
  - rewrite <- Hs. by apply (tiled_snoc 0 _ _ (segmentnumber (fileindex ix))).
  - done.
  - done.
  - rewrite i32_small by lia. lia.
Qed.

(** A chunk cut inside the file: the computation succeeds, appends the chunk's
    entry and keeps the invariant. *)
Lemma index_cut_wf ix h uniq cnt :
  ix_wf ix -> lengthZ h = CHUNK_HASH_SIZE -> no_nul h -> 0 <= cnt <= MAX_CHUNK_SIZE ->
  exists ix', index_cut 1 (h ++ [NUL]) uniq cnt ix = Ok (true, ix') /\ ix_wf ix' /\
    idx_chunk (fileindex ix') = idx_chunk (fileindex ix) ++ [chunk_entry ix h uniq].
Proof.
  intros Hwf Hh Hnn Hcnt. unfold index_cut. cbn [Z.eqb segmentsize].
  destruct (end_of_segment (h ++ [NUL]) (segmentsize ix)) as (b & Hb & _ & Hmax);
    [rewrite lengthZ_app; cbn [lengthZ]; lia|].
  rewrite Hb. cbn [mbind outcome_bind]. destruct b; [by apply end_segment_wf|].
  rewrite cstr_app_nul by done. cbn [mbind outcome_bind in_bounds]. eexists. split; [done|].
  destruct Hwf as [Hc Hs Hn Ic Is In Ht Hct Ho Hco Hss Hcs].
  assert (segmentsize ix <= MAX_SEGMENT_SIZE) by (destruct (Z.le_gt_cases (segmentsize ix) MAX_SEGMENT_SIZE); [done|]; by specialize (Hmax ltac:(lia))).
  assert (MAX_SEGMENT_SIZE + MAX_CHUNK_SIZE < 2 ^ 31) by reflexivity.
  simpl. rewrite takeZ_app_exact by done. split; [|done].
  split; simpl; rewrite ?lengthZ_app; cbn [lengthZ]; try done; try lia.
  - by apply numbered_snoc.
  - rewrite i32_small by lia. lia.
Qed.

(** One-level index: only chunks. *)
Lemma index_cut_flat ix h uniq cnt :
  ix_wf ix -> lengthZ h = CHUNK_HASH_SIZE ->
  exists ix', index_cut 0 (h ++ [NUL]) uniq cnt ix = Ok (true, ix') /\ ix_wf ix' /\
    idx_chunk (fileindex ix') = idx_chunk (fileindex ix) ++ [chunk_entry ix h uniq].
Proof.
  intros [Hc Hs Hn Ic Is In Ht Hct Ho Hco Hss Hcs] Hh. eexists. split; [done|]. simpl.
  rewrite takeZ_app_exact by done. split; [|done].
  split; simpl; rewrite ?lengthZ_app; cbn [lengthZ]; try done; try lia.
  by apply numbered_snoc.
Qed.
End wf.

(** ** The last chunk *)

(** The last segment and container are closed; the segment's end is one past
    its last chunk, unlike that of every other segment. *)
Lemma index_final_ranges `{EVP_Digest} MD5 st st' ix h uniq ix' :
  ix_wf ix -> index_final MD5 st st' 1 (h ++ [NUL]) uniq ix = Ok ix' ->
  let i := fileindex ix in let i' := fileindex ix' in
  lengthZ (idx_chunk i') = lengthZ (idx_chunk i) + 1 /\
  chunknumber i' = lengthZ (idx_chunk i') /\ segmentnumber i' = lengthZ (idx_segment i') /\
  containernumber i' = lengthZ (idx_container i') /\
  seg_range <$> idx_segment i' =
    (seg_range <$> idx_segment i) ++ [(ix_startChunkID ix, lengthZ (idx_chunk i'))] /\
  tiled 0 (con_range <$> idx_container i') (lengthZ (idx_segment i')).
Proof.
  intros [Hc Hs Hn Ic Is In Ht Hct Ho Hco Hss Hcs] Hf. unfold index_final in Hf. change (1 =? 0) with false in Hf. change (1 =? 1) with true in Hf. cbv iota in Hf.
  inv_ok. subst ix'. simpl. rewrite !lengthZ_app, !fmap_app. simpl. rewrite Hc, Hs.
  split_and!; try lia; try (by rewrite Hn).
  - do 2 f_equal.
  - replace (lengthZ (idx_segment (fileindex ix)) + (1 + 0)) with
      ((lengthZ (idx_segment (fileindex ix)) + 1 - 1) + 1) by lia.
    apply tiled_snoc; [done|]. simpl. lia.
Qed.

(** ** saveToFile, loadIndex *)

Definition index_valid (i : Index) : Prop :=
  containernumber i = lengthZ (idx_container i) /\ segmentnumber i = lengthZ (idx_segment i) /\
  chunknumber i = lengthZ (idx_chunk i) /\ lengthZ (fileNameHash i) = 32 /\
  containernumber i < 2 ^ 31 /\ segmentnumber i < 2 ^ 31 /\ chunknumber i < 2 ^ 31 /\
  Forall pod_valid (idx_chunk i) /\ Forall pod_valid (idx_segment i) /\
  Forall pod_valid (idx_container i).

Lemma read_elems_spec {A} `{Pod A} (v : list A) rest :
  Forall pod_valid v -> read_elems (length v) (reps v ++ rest) = Ok (v, rest).
Proof.
  induction 1 as [|x v Hx _ IH]; [done|]. cbn [length read_elems].
  rewrite reps_cons, <- app_assoc, load_app by done. cbn [mbind outcome_bind].
  rewrite dropZ_app_exact by (by rewrite rep_length). by rewrite IH.
Qed.

Lemma write_elems_all {A} `{Pod A} n (v : list A) : n = lengthZ v -> write_elems n v = Ok (reps v).
Proof.
  intros ->. unfold write_elems. rewrite Z.leb_refl. cbn [mbind outcome_bind require].
  by rewrite takeZ_ge.
Qed.

Lemma loadIndex_saveToFile {db} (e : env db) i name :
  index_valid i -> writable e (index_path name) = true ->
  exists e', saveToFile i name e = Ok (true, e') /\ loadIndex name e' = Ok i.
Proof.
  intros (Hn & Hs & Hc & Hh & Hnb & Hsb & Hcb & Vc & Vs & Vn) Hw.
  assert (Hpos : forall A (l : list A), 0 <= lengthZ l) by (intros; apply lengthZ_nonneg).
  unfold saveToFile, write_file, append_file. rewrite Hw. cbn [negb writable with_files].
  rewrite !write_elems_all by done. cbn [mbind outcome_bind]. rewrite Hw.
  eexists. split; [done|]. unfold loadIndex. cbn [files with_files].
  rewrite !lookup_insert_eq. cbn [default from_option id app in_bounds mbind outcome_bind].
  set (l := _ ++ _).
  assert (Hl : lengthZ l = 44 + lengthZ (reps (idx_container i) ++ reps (idx_segment i) ++ reps (idx_chunk i))).
  { unfold l. rewrite !lengthZ_app, !rep_int_length. lia. }
  rewrite (proj2 (Z.leb_le 44 _)) by (rewrite Hl; specialize (Hpos _ (reps (idx_container i) ++ reps (idx_segment i) ++ reps (idx_chunk i))); lia).
  cbn [mbind outcome_bind require].
  assert (H4 : dropZ 44 l = reps (idx_container i) ++ reps (idx_segment i) ++ reps (idx_chunk i)).
  { unfold l. rewrite !app_assoc. rewrite <- !(app_assoc _ (reps _)).
    rewrite dropZ_app_exact; [done|]. rewrite !lengthZ_app, !rep_int_length. lia. }
  assert (F1 : slice 0 4 l = rep_int (containernumber i)) by (unfold l; by pod_fields).
  assert (F2 : slice 4 4 l = rep_int (segmentnumber i)) by (unfold l; by pod_fields).
  assert (F3 : slice 8 4 l = rep_int (chunknumber i)) by (unfold l; by pod_fields).
  assert (F4 : slice 12 32 l = fileNameHash i) by (unfold l; by pod_fields).
  pose proof (Hpos _ (idx_container i)). pose proof (Hpos _ (idx_segment i)).
  pose proof (Hpos _ (idx_chunk i)).
  rewrite F1, F2, F3, F4, !unrep_rep_int by lia. rewrite H4.
  assert (Hnat : forall A (v : list A), Z.to_nat (lengthZ v) = length v)
    by (intros; rewrite lengthZ_length; apply Nat2Z.id).
  rewrite Hn, Hs, Hc, !Hnat.
  rewrite read_elems_spec by done. cbn [mbind outcome_bind].
  rewrite read_elems_spec by done. cbn [mbind outcome_bind].
  rewrite <- (app_nil_r (reps (idx_chunk i))), read_elems_spec by done. cbn [mbind outcome_bind].
  rewrite <- Hn, <- Hs, <- Hc. by destruct i.
Qed.
