(* ===== verification/Chunker.v ===== *)
(** * Chunking a file (src/chunker.cc)

    [varSizeChunking] as the source runs it: blocks of [ReadSize] bytes, the
    byte loop, a chunk emitted where the fingerprint or the size says so, the
    last chunk, the recipe.  Emitting a chunk hashes it, extends the recipe,
    stores the chunk or counts another reference, and extends the index.
    [false] in a result means that [varSizeChunking] returned there. *)

From S2P Require Import Prelude.
From S2P Require Import Bytes.
From S2P Require Import DataStructure.
From S2P Require Import Database.
From S2P Require Import Storage.
From S2P Require Import Recipe.
From S2P Require Import Crypto.
From S2P Require Import Config.
From S2P Require Import Chunking.
From S2P Require Import FileIndex.
From stdpp Require Import base tactics numbers list gmap strings.
From Stdlib Require Import Ascii ZArith Lia.

Open Scope Z_scope.

(** The locals and members [varSizeChunking] changes. *)
Record chunking (db : Type) : Type := mkChunking
  { cs_recipeList : list RecipeEntry_t;
    cs_index : indexer;
    cs_chunkIDCnt : Z;
    cs_totalSize : Z;
    cs_window : window;
    cs_storage : StorageCore;
    cs_env : env db }.
Arguments mkChunking {db} _ _ _ _ _ _ _.
Arguments cs_recipeList {db} _.
Arguments cs_index {db} _.
Arguments cs_chunkIDCnt {db} _.
Arguments cs_totalSize {db} _.
Arguments cs_window {db} _.
Arguments cs_storage {db} _.
Arguments cs_env {db} _.

(** A [Chunker] after its constructor. *)
Record Chunker : Type := mkChunker
  { ck_params : ChunkerParams;
    ck_fileindex : Index;
    ck_recipe : Recipe_t;
    ck_fileindex_flag : Z;
    ck_file : bytes }.

Section Chunker.
Context {db : Type} `{LevelDB db} `{EVP_Digest}.
(** [MD5] of OpenSSL; what lies behind its results in the two buffers of the
    last chunk; the uninitialised [key] of the n-th call of [saveChunk]. *)
Context (MD5 : bytes -> bytes) (stack stack' : bytes).
Context (uninit_key : Z -> keyForChunkHashDB_t).
Context (p : ChunkerParams) (fileindex_flag : Z).
Implicit Types (s : chunking db) (e : env db) (sc : StorageCore).

Definition with_window (w : window) s : chunking db :=
  mkChunking (cs_recipeList s) (cs_index s) (cs_chunkIDCnt s) (cs_totalSize s) w
    (cs_storage s) (cs_env s).

(** The lookup of a chunk by its hash, read as a C string: a new chunk is
    stored, a known one gets a reference. *)
Definition dedup_chunk (key0 : keyForChunkHashDB_t) (hash logicData : bytes)
    (logicDataSize total : Z) sc e : outcome (bool * (Z * Z * StorageCore * env db)) :=
  k ← in_bounds (cstr hash);
  ans ← db_query (fp2ChunkDB e) k;
  match ans with
  | None =>
      '(ok, sc1, e1) ← saveChunk key0 hash logicData logicDataSize sc e;
      Ok (ok, (1, u64 (total + logicDataSize), sc1, e1))
  | Some a =>
      key ← load a;
      '(_, d) ← db_insert (fp2ChunkDB e) k
                  (rep (key_with_count (u32 (key_count key + 1)) key));
      Ok (true, (0, total, sc, with_fp2ChunkDB d e))
  end.

(** [tempChunk.chunk.logicData]: the chunk in a zeroed array. *)
Definition logic_data (c : bytes) : bytes :=
  c ++ replicate (Z.to_nat (MAX_CHUNK_SIZE - lengthZ c)) NUL.

(** Emit the chunk in the window; [index_step] is the index part. *)
Definition emit_chunk (index_step : bytes -> Z -> Z -> indexer -> outcome (bool * indexer)) s :
    outcome (bool * chunking db) :=
  let cnt := chunkBufferCnt (cs_window s) in
  match generateHash (chunkBuffer (cs_window s)) cnt with
  | None => Ok (false, s)
  | Some hash =>
      _ ← require (cnt <=? MAX_CHUNK_SIZE);
      let newRecipeEntry :=
        mkRecipeEntry (u32 (cs_chunkIDCnt s)) (i32 cnt) (takeZ CHUNK_HASH_SIZE hash) in
      let recipeList := cs_recipeList s ++ [newRecipeEntry] in
      '(ok, (uniq, total, sc1, e1)) ←
        dedup_chunk (uninit_key (cs_chunkIDCnt s)) hash (logic_data (chunk_bytes (cs_window s)))
          (i32 cnt) (cs_totalSize s) (cs_storage s) (cs_env s);
      if negb ok then
        Ok (false, mkChunking recipeList (cs_index s) (cs_chunkIDCnt s) total (cs_window s) sc1 e1)
      else
        '(ok, ix) ← index_step hash uniq cnt (cs_index s);
        if negb ok then
          Ok (false, mkChunking recipeList ix (cs_chunkIDCnt s) total (cs_window s) sc1 e1)
        else
          Ok (true, mkChunking recipeList ix (u64 (cs_chunkIDCnt s + 1)) total
                      (reset_window (cs_window s)) sc1 e1)
  end.

(** A chunk that ends at an anchor, one that reached the maximal size, the
    last one of the file. *)
Definition anchor_chunk s : outcome (bool * chunking db) :=
  if at_anchor p (cs_window s) then emit_chunk (index_cut fileindex_flag) s else Ok (true, s).

Definition max_chunk s : outcome (bool * chunking db) :=
  if u64 (maxChunkSize p) <=? chunkBufferCnt (cs_window s)
  then emit_chunk (index_cut fileindex_flag) s else Ok (true, s).

Definition final_chunk s : outcome (bool * chunking db) :=
  if chunkBufferCnt (cs_window s) =? 0 then Ok (true, s)
  else emit_chunk (fun hash uniq _ ix =>
         ix' ← index_final MD5 stack stack' fileindex_flag hash uniq ix; Ok (true, ix')) s.

(** One byte, the bytes of a block, the blocks of the file. *)
Definition byte_step (b : byte) s : outcome (bool * chunking db) :=
  '(tests, w) ← feed p b (cs_window s);
  let s1 := with_window w s in
  if (tests : bool) then
    '(ok, s2) ← anchor_chunk s1;
    if (ok : bool) then max_chunk s2 else Ok (false, s2)
  else Ok (true, s1).

Fixpoint block_loop (block : bytes) s : outcome (bool * chunking db) :=
  match block with
  | [] => Ok (true, s)
  | b :: block' =>
      '(ok, s1) ← byte_step b s;
      if (ok : bool) then block_loop block' s1 else Ok (false, s1)
  end.

(** [fin.read] sets the end-of-file state when it gets fewer bytes than it was
    asked for; [int len = fin.gcount()]. *)
Fixpoint read_loop (fuel : nat) (rest : bytes) (fileSize : Z) s :
    outcome (bool * Z * chunking db) :=
  match fuel with
  | O => NoFuel
  | S fuel' =>
      let block := takeZ (ReadSize p) rest in
      let len := i32 (lengthZ block) in
      let fileSize1 := u64 (fileSize + len) in
      '(ok, s1) ← block_loop (takeZ len block) s;
      if negb ok then Ok (false, fileSize1, s1)
      else if lengthZ block <? ReadSize p then Ok (true, fileSize1, s1)
      else read_loop fuel' (dropZ (ReadSize p) rest) fileSize1 s1
  end.

(** The recipe head at the end; [totalChunkKeyNumber] is never set. *)
Definition finish_recipe (recipe : Recipe_t) (chunkIDCnt fileSize : Z) : Recipe_t :=
  mkRecipe (mkFileRecipeHead fileSize (frh_fileNameHash (fileRecipeHead recipe)) chunkIDCnt)
    (mkKeyRecipeHead fileSize (krh_fileNameHash (keyRecipeHead recipe))
       (totalChunkKeyNumber (keyRecipeHead recipe))).

(** [varSizeChunking] on a file with contents [file]; [winFp0] is the
    uninitialised [winFp]. *)
Definition varSizeChunking (fuel : nat) (winFp0 : Z) (file : bytes) (i : Index)
    (recipe : Recipe_t) sc e : outcome (bool * chunking db) :=
  let w := mkWindow (replicate (Z.to_nat (maxChunkSize p)) NUL) 0 winFp0 in
  '(ok, fileSize, s1) ← read_loop fuel file 0 (mkChunking [] (indexer_start i) 0 0 w sc e);
  if negb ok then Ok (false, s1) else
  '(ok, s2) ← final_chunk s1;
  if negb ok then Ok (false, s2) else
  '(_, e1) ← checkRecipeStatus (finish_recipe recipe (cs_chunkIDCnt s2) fileSize)
               (cs_recipeList s2) (cs_storage s2) (cs_env s2);
  Ok (true, mkChunking (cs_recipeList s2) (cs_index s2) (cs_chunkIDCnt s2) (cs_totalSize s2)
              (cs_window s2) (cs_storage s2) e1).
End Chunker.

(** ** Construction *)

Section construct.
Context {db : Type} `{EVP_Digest}.
Implicit Types e : env db.

(** [filePathHash] is zeroed and keeps its zeros when hashing fails. *)
Definition file_path_hash (path : bytes) : bytes :=
  match generateHash path (lengthZ path) with
  | Some h => takeZ FILE_NAME_HASH_SIZE h
  | None => replicate 32 NUL
  end.

(** The constructor: [loadChunkFile] ends the program when the file does not
    open; [ChunkerInit] sets the parameters and the name hashes of the recipe
    and the index, which are not initialised otherwise. *)
Definition Chunker_new (config : Configure) (recipe0 : Recipe_t) (i0 : Index) (path : bytes)
    (index_flag : Z) e : outcome Chunker :=
  match files e !! path with
  | None => Throw process_exit
  | Some content =>
      let h := file_path_hash path in
      params ← ChunkerInit config;
      Ok (mkChunker params
            (mkIndex h (segmentnumber i0) (containernumber i0) (chunknumber i0) [] [] [])
            (mkRecipe
               (mkFileRecipeHead (frh_fileSize (fileRecipeHead recipe0)) h
                  (totalChunkNumber (fileRecipeHead recipe0)))
               (mkKeyRecipeHead (krh_fileSize (keyRecipeHead recipe0)) h
                  (totalChunkKeyNumber (keyRecipeHead recipe0))))
            index_flag content)
  end.
End construct.

(** ** Fixed-size chunks

    [fixSizeChunking] builds chunks and drops them, since nothing takes them
    from the queue any more; the list is kept here as its result. *)

Section fixed.
Context `{EVP_Digest}.
Context (p : ChunkerParams).

(** A chunk of [size] bytes from [buf]; [hash] keeps its last value when
    hashing fails, which is only reported. *)
Definition fix_chunk (id size : Z) (hash buf : bytes) : outcome (Chunk_t * bytes) :=
  _ ← require ((0 <=? size) && (size <=? avgChunkSize p) && (size <=? lengthZ buf) && (size <=? MAX_CHUNK_SIZE));
  let hash1 := default hash (generateHash (takeZ size buf) size) in
  Ok (mkChunk (u32 id) (i32 size) (takeZ size buf) (takeZ CHUNK_HASH_SIZE hash1) [], hash1).

(** The loop over a full block; [chunkedSize] is at the front of [buf]. *)
Fixpoint fix_full (fuel : nat) (id chunkedSize total : Z) (hash buf : bytes) :
    outcome (list Chunk_t * Z * bytes) :=
  match fuel with
  | O => NoFuel
  | S f =>
      if chunkedSize <? total then
        '(c, hash1) ← fix_chunk id (avgChunkSize p) hash buf;
        '(cs, id', hash') ← fix_full f (u64 (id + 1)) (u64 (chunkedSize + avgChunkSize p)) total
                              hash1 (dropZ (avgChunkSize p) buf);
        Ok (c :: cs, id', hash')
      else Ok ([], id, hash)
  end.

(** The loop over the last block: [retSize] is updated after it is used. *)
Fixpoint fix_partial (fuel : nat) (id chunkedSize total retSize : Z) (hash buf : bytes) :
    outcome (list Chunk_t * Z * bytes) :=
  match fuel with
  | O => NoFuel
  | S f =>
      if chunkedSize <? total then
        let size := if u64 (avgChunkSize p) <? retSize then avgChunkSize p else retSize in
        '(c, hash1) ← fix_chunk id size hash buf;
        '(cs, id', hash') ← fix_partial f (u64 (id + 1)) (u64 (chunkedSize + avgChunkSize p)) total
                              (u64 (total - chunkedSize)) hash1 (dropZ (avgChunkSize p) buf);
        Ok (c :: cs, id', hash')
      else Ok ([], id, hash)
  end.

(** The buffer behind a short read is zero. *)
Fixpoint fix_blocks (fuel : nat) (rest : bytes) (id fileSize : Z) (hash : bytes) :
    outcome (list Chunk_t * Z * Z) :=
  match fuel with
  | O => NoFuel
  | S f =>
      let block := takeZ (ReadSize p) rest in
      let total := lengthZ block in
      let fileSize1 := u64 (fileSize + total) in
      let buf := block ++ replicate (Z.to_nat (ReadSize p - total)) NUL in
      if total =? ReadSize p then
        '(cs, id1, hash1) ← fix_full fuel id 0 total hash buf;
        '(cs', id2, n) ← fix_blocks f (dropZ (ReadSize p) rest) id1 fileSize1 hash1;
        Ok (cs ++ cs', id2, n)
      else
        '(cs, id1, _) ← fix_partial fuel id 0 total 0 hash buf;
        Ok (cs, id1, fileSize1)
  end.

Definition fixSizeChunking (fuel : nat) (file : bytes) (recipe : Recipe_t) :
    outcome (Recipe_t * list Chunk_t) :=
  '(cs, n, fileSize) ← fix_blocks fuel file 0 0 (replicate 32 NUL);
  Ok (mkRecipe (mkFileRecipeHead fileSize (frh_fileNameHash (fileRecipeHead recipe)) n)
        (mkKeyRecipeHead fileSize (krh_fileNameHash (keyRecipeHead recipe)) n), cs).
End fixed.

(** [chunking]: by type; any other type does nothing. *)
Section run.
Context {db : Type} `{LevelDB db} `{EVP_Digest}.
Context (MD5 : bytes -> bytes) (stack stack' : bytes).
Context (uninit_key : Z -> keyForChunkHashDB_t).

Definition Chunker_chunking (fuel : nat) (winFp0 : Z) (c : Chunker) (sc : StorageCore)
    (e : env db) : outcome (Chunker * StorageCore * env db) :=
  let type := ChunkerType (ck_params c) in
  '(c1, sc1, e1) ←
    (if type =? CHUNKER_FIX_SIZE_TYPE then
       '(r, _) ← fixSizeChunking (ck_params c) fuel (ck_file c) (ck_recipe c);
       Ok (mkChunker (ck_params c) (ck_fileindex c) r (ck_fileindex_flag c) (ck_file c), sc, e)
     else Ok (c, sc, e));
  if type =? CHUNKER_VAR_SIZE_TYPE then
    '(_, s) ← varSizeChunking MD5 stack stack' uninit_key (ck_params c1) (ck_fileindex_flag c1)
                fuel winFp0 (ck_file c1) (ck_fileindex c1) (ck_recipe c1) sc1 e1;
    Ok (mkChunker (ck_params c1) (fileindex (cs_index s)) (ck_recipe c1) (ck_fileindex_flag c1)
          (ck_file c1), cs_storage s, cs_env s)
  else Ok (c1, sc1, e1).

Definition returnindex (c : Chunker) : Index := ck_fileindex c.
End run.
