(* ===== verification/ChunkerSpec.v ===== *)
(** * What chunking a file does to the chunk store

    [put] is the abstract effect of one chunk: it is stored, or gets one more
    reference.  The loop of [varSizeChunking] applies it to the chunks [cut]
    gives, whatever the block size, and records them in the recipe and in the
    index. *)

From S2P Require Import Prelude.
From S2P Require Import Bytes.
From S2P Require Import DataStructure.
From S2P Require Import Database.
From S2P Require Import Storage.
From S2P Require Import StorageSpec.
From S2P Require Import StorageRefine.
From S2P Require Import Recipe.
From S2P Require Import Crypto.
From S2P Require Import Config.
From S2P Require Import Chunking.
From S2P Require Import FileIndex.
From S2P Require Import Chunker.
From stdpp Require Import base tactics numbers list gmap strings.
From Stdlib Require Import Ascii ZArith Lia.

Open Scope Z_scope.

(** ** The abstract effect *)

Section spec.
Context `{EVP_Digest}.
Implicit Types (m : chunk_store) (c : bytes) (cs : list bytes).

Definition put m c : chunk_store :=
  match m !! fp_of c with
  | None => <[fp_of c := (masked c, 1)]> m
  | Some (d, r) => <[fp_of c := (d, u32 (r + 1))]> m
  end.
Definition put_all m cs : chunk_store := foldl put m cs.

(** 1 for a chunk that is new when it is reached, else 0. *)
Definition novel m c : Z := match m !! fp_of c with None => 1 | Some _ => 0 end.
Fixpoint novelties m cs : list Z :=
  match cs with [] => [] | c :: cs' => novel m c :: novelties (put m c) cs' end.

(** The bytes stored for new chunks. *)
Fixpoint stored_size m cs : Z :=
  match cs with [] => 0 | c :: cs' => novel m c * lengthZ c + stored_size (put m c) cs' end.

(** The recipe of a list of chunks. *)
Fixpoint entries_from (i : Z) cs : list RecipeEntry_t :=
  match cs with
  | [] => []
  | c :: cs' => mkRecipeEntry (u32 i) (i32 (lengthZ c)) (fp_of c) :: entries_from (i + 1) cs'
  end.
Definition entries cs : list RecipeEntry_t := entries_from 0 cs.

Lemma put_all_snoc m cs c : put_all m (cs ++ [c]) = put (put_all m cs) c.
Proof. unfold put_all. by rewrite foldl_app. Qed.

Lemma novelties_snoc m cs c :
  novelties m (cs ++ [c]) = novelties m cs ++ [novel (put_all m cs) c].
Proof. revert m; induction cs as [|x cs IH]; intros m; simpl; [done|]. by rewrite IH. Qed.

Lemma stored_size_snoc m cs c :
  stored_size m (cs ++ [c]) = stored_size m cs + novel (put_all m cs) c * lengthZ c.
Proof.
  revert m; induction cs as [|x cs IH]; intros m; cbn [app stored_size].
  - change (put_all m []) with m. lia.
  - rewrite IH. change (put_all m (x :: cs)) with (put_all (put m x) cs). lia.
Qed.

Lemma entries_snoc cs c :
  entries (cs ++ [c]) =
  entries cs ++ [mkRecipeEntry (u32 (lengthZ cs)) (i32 (lengthZ c)) (fp_of c)].
Proof.
  unfold entries. rewrite <- (Z.add_0_l (lengthZ cs)). generalize 0 as i.
  induction cs as [|x cs IH]; intros i; cbn [app entries_from lengthZ].
  - by rewrite Z.add_0_r.
  - rewrite IH. by rewrite Z.add_assoc.
Qed.
End spec.

(** [k] more container names after [name]. *)
Fixpoint names_left (k : nat) (name : bytes) : Prop :=
  match k with
  | O => True
  | S k' => (next_permutation name).1 = true /\ names_left k' (next_permutation name).2
  end.

Lemma names_left_le k k' name : (k' <= k)%nat -> names_left k name -> names_left k' name.
Proof.
  revert k' name; induction k as [|k IH]; intros [|k'] name Hk; simpl; try done; [lia|].
  intros [? ?]. split; [done|]. apply IH; [lia|done].
Qed.

Section ChunkerSpec.
Context {db : Type} `{LevelDB db, !LevelDBReliable db} `{EVP_DigestReliable}.
Context (MD5 : bytes -> bytes) (stack stack' : bytes).
Context (uninit_key : Z -> keyForChunkHashDB_t).
Context (Huninit : forall n, lengthZ (containerName (uninit_key n)) = 16).
Implicit Types (s : chunking db) (e : env db) (sc : StorageCore) (m : chunk_store)
  (c : bytes) (cs : list bytes).

(** ** Storing a chunk *)

(** [saveChunk] takes at most one new container name. *)
Lemma roll_container_name sc e sc' e' :
  roll_container sc e = Ok (sc', e') ->
  lastContainerFileName_ sc' = (next_permutation (lastContainerFileName_ sc)).2.
Proof.
  unfold roll_container. intros Hr. inv_run. by destruct (next_permutation _); simplify_eq.
Qed.

Lemma put_chunk_name key d sc key' sc' :
  put_chunk key d sc = Ok (key', sc') -> lastContainerFileName_ sc' = lastContainerFileName_ sc.
Proof. unfold put_chunk. intros Hp. by inv_run. Qed.

Lemma writeContainer_name key d sc e ok key' sc' e' :
  writeContainer key d sc e = Ok (ok, key', sc', e') ->
  lastContainerFileName_ sc' = lastContainerFileName_ sc \/
  lastContainerFileName_ sc' = (next_permutation (lastContainerFileName_ sc)).2.
Proof.
  unfold writeContainer. intros Hw. inv_run.
  select (put_chunk _ _ _ = _) (fun H => rewrite (put_chunk_name _ _ _ _ _ H)).
  destruct (_ <? _); simplify_eq; [by left|right]. by eapply roll_container_name.
Qed.

Lemma saveChunk_name key0 h data size sc e ok sc' e' :
  saveChunk key0 h data size sc e = Ok (ok, sc', e') ->
  lastContainerFileName_ sc' = lastContainerFileName_ sc \/
  lastContainerFileName_ sc' = (next_permutation (lastContainerFileName_ sc)).2.
Proof.
  unfold saveChunk. intros Hs. inv_run.
  select (writeContainer _ _ _ _ = _) (fun H => apply writeContainer_name in H).
  destruct (negb _); inv_run; [done|]. destruct (negb _); by simplify_eq.
Qed.

(** The chunks the program can store: the loop of [saveChunk] needs two bytes,
    the array [MAX_CHUNK_SIZE]. *)
Definition chunk_ok c : Prop := 2 <= lengthZ c <= MAX_CHUNK_SIZE.

Lemma logic_data_length c : lengthZ c <= MAX_CHUNK_SIZE -> lengthZ (logic_data c) = MAX_CHUNK_SIZE.
Proof.
  intros. unfold logic_data. rewrite lengthZ_app, (lengthZ_length (replicate _ _)), length_replicate.
  lia.
Qed.

Lemma saveChunk_app key0 h l data size sc e :
  lengthZ h = CHUNK_HASH_SIZE ->
  saveChunk key0 (h ++ l) data size sc e = saveChunk key0 h data size sc e.
Proof.
  intros Hh. unfold saveChunk. pose proof (lengthZ_nonneg l).
  rewrite string_of_le by (rewrite lengthZ_app; lia). rewrite string_of_exact by done.
  by rewrite takeZ_app_exact by done.
Qed.

Lemma dedup_chunk_spec m sc e c key0 total k :
  Repr sc e m -> chunk_ok c -> lengthZ (containerName key0) = 16 ->
  names_left (S k) (lastContainerFileName_ sc) ->
  (forall n, writable e (container_path sc n) = true) ->
  exists sc' e', dedup_chunk key0 (fp_of c ++ [NUL]) (logic_data c) (lengthZ c) total sc e =
      Ok (true, (novel m c, (if novel m c =? 1 then u64 (total + lengthZ c) else total), sc', e')) /\
    Repr sc' e' (put m c) /\ frame sc e sc' e' /\ names_left k (lastContainerFileName_ sc').
Proof.
  intros HR [Hc2 Hc] Hk0 Hn Hw. pose proof (fp_of_length c) as Hh. pose proof HR as [Hwf _].
  unfold dedup_chunk. rewrite cstr_app_nul by apply fp_of_no_nul.
  cbn [mbind outcome_bind in_bounds]. rewrite query_open by apply Hwf. cbn [mbind outcome_bind].
  unfold put, novel. destruct (m !! fp_of c) as [[d r]|] eqn:Hm.
  - destruct (Repr_lookup _ _ _ _ _ _ HR Hh Hm) as (key & Hg & Hv & Hd & Hr & Hl).
    rewrite Hg, load_rep by done. cbn [mbind outcome_bind]. rewrite Hr.
    destruct (insert_total (fp2ChunkDB e) (fp_of c) (rep (key_with_count (u32 (r + 1)) key)))
      as (d' & Hi); [apply Hwf|]. rewrite Hi. cbn [mbind outcome_bind].
    eexists sc, _. split; [done|].
    split; [by eapply (Repr_set_count sc e m _ d r (u32 (r + 1)) key); [..|apply u32_range| | | | |]|].
    split; [by split|]. by eapply (names_left_le (S k)); [lia|].
  - rewrite (Repr_lookup_None sc e m) by done. rewrite saveChunk_app by done.
    pose proof (logic_data_length c Hc) as Hld. unfold MAX_CHUNK_SIZE in *.
    assert (HB : BODY_SIZE = 16777216) by reflexivity.
    destruct (saveChunk_spec sc e m key0 (fp_of c) (logic_data c) (lengthZ c))
      as (sc' & e' & Hs & HR' & Hf); unfold save_length in *; rewrite ?Hm; try done; try lia.
    { right. split; [apply Hn|apply Hw]. }
    rewrite Hs. cbn [mbind outcome_bind]. exists sc', e'. split; [done|]. split_and!.
    + unfold save_count in HR'. rewrite Hm in HR'. unfold logic_data in HR'.
      by rewrite takeZ_app_exact in HR' by done.
    + done.
    + apply saveChunk_name in Hs as [->| ->]; [|apply Hn].
      eapply (names_left_le (S k)); [lia|done].
Qed.

(** ** Emitting a chunk *)

Context (p : ChunkerParams) (Hp : params_ok p).
Context (Hwin : slidingWinSize p < maxChunkSize p) (Hmax : maxChunkSize p <= MAX_CHUNK_SIZE).
Context (flag : Z) (Hflag : flag = 0 \/ flag = 1).
Context (m0 : chunk_store) (sc0 : StorageCore) (e0 : env db).
Context (Hwritable : forall n, writable e0 (container_path sc0 n) = true).

(** The stored chunks, the recipe and the counters after the chunks [cs], with
    [k] container names left. *)
Record store_inv (k : nat) cs s : Prop := {
  si_recipe : cs_recipeList s = entries cs;
  si_count : cs_chunkIDCnt s = lengthZ cs;
  si_total : cs_totalSize s = u64 (stored_size m0 cs);
  si_repr : Repr (cs_storage s) (cs_env s) (put_all m0 cs);
  si_frame : frame sc0 e0 (cs_storage s) (cs_env s);
  si_names : names_left k (lastContainerFileName_ (cs_storage s))
}.

(** The index after the chunks [cs]. *)
Record index_inv cs (ix : indexer) : Prop := {
  ii_wf : ix_wf ix;
  ii_entries : fingerprint <$> idx_chunk (fileindex ix) = fp_of <$> cs;
  ii_unique : unique <$> idx_chunk (fileindex ix) = novelties m0 cs
}.

Lemma index_cut_inv cs ix c :
  index_inv cs ix -> chunk_ok c ->
  exists ix', index_cut flag (fp_of c ++ [NUL]) (novel (put_all m0 cs) c) (lengthZ c) ix =
    Ok (true, ix') /\ index_inv (cs ++ [c]) ix'.
Proof.
  intros [Hwf He Hu] [??]. pose proof (fp_of_length c) as Hh.
  assert (exists ix', index_cut flag (fp_of c ++ [NUL]) (novel (put_all m0 cs) c) (lengthZ c) ix =
    Ok (true, ix') /\ ix_wf ix' /\ idx_chunk (fileindex ix') = idx_chunk (fileindex ix) ++
      [chunk_entry ix (fp_of c) (novel (put_all m0 cs) c)]) as (ix' & Hi & Hwf' & Hc).
  { destruct Hflag as [->| ->]; [by apply index_cut_flat|].
    apply index_cut_wf; try done; [apply fp_of_no_nul|lia]. }
  exists ix'. split; [done|]. split; [done|..].
  - by rewrite Hc, !fmap_app, He.
  - by rewrite Hc, fmap_app, novelties_snoc, Hu.
Qed.

(** Emitting the chunk in the window: if the index part runs, so does the
    whole, and the window is empty. *)
Lemma emit_chunk_spec step k cs s c (Q : indexer -> Prop) :
  store_inv (S k) cs s -> lengthZ cs < 2 ^ 64 - 1 -> chunk_ok c ->
  chunk_bytes (cs_window s) = c -> chunkBufferCnt (cs_window s) = lengthZ c ->
  (exists ix, step (fp_of c ++ [NUL]) (novel (put_all m0 cs) c) (lengthZ c) (cs_index s) =
              Ok (true, ix) /\ Q ix) ->
  exists s', emit_chunk uninit_key step s = Ok (true, s') /\ store_inv k (cs ++ [c]) s' /\
    Q (cs_index s') /\ cs_window s' = reset_window (cs_window s).
Proof.
  intros [Hr Hc Ht HR Hf Hn] Hb Hok Hbytes Hcnt (ix & Hstep & HQ). pose proof Hok as [Hc2 Hcm].
  unfold MAX_CHUNK_SIZE in Hcm. pose proof (lengthZ_nonneg cs).
  assert (Hw : forall n, writable (cs_env s) (container_path (cs_storage s) n) = true).
  { intros n. rewrite (frame_writable _ _ _ _ Hf), (frame_path _ _ _ _ n Hf). apply Hwritable. }
  destruct (dedup_chunk_spec _ _ _ c (uninit_key (cs_chunkIDCnt s)) (cs_totalSize s) k HR Hok
              (Huninit _) Hn Hw) as (sc' & e' & Hd & HR' & Hf' & Hn').
  unfold emit_chunk. rewrite generateHash_ok. unfold chunk_bytes in Hbytes. rewrite Hbytes.
  rewrite Hcnt in *. fold (chunk_bytes (cs_window s)).
  rewrite (proj2 (Z.leb_le _ MAX_CHUNK_SIZE)) by (unfold MAX_CHUNK_SIZE; lia).
  cbn [mbind outcome_bind require]. rewrite i32_small by lia.
  replace (chunk_bytes (cs_window s)) with c by (unfold chunk_bytes; by rewrite Hcnt).
  rewrite Hd. cbn [mbind outcome_bind negb]. rewrite Hstep. cbn [mbind outcome_bind negb].
  eexists. split; [done|]. split; [|done]. split; cbn.
  - rewrite Hr, entries_snoc, Hc, takeZ_app_exact by (by rewrite fp_of_length).
    by rewrite (i32_small (lengthZ c)) by lia.
  - rewrite Hc, lengthZ_app, u64_small by lia. done.
  - rewrite stored_size_snoc, Ht. unfold novel. destruct (_ !! _); simpl.
    + by rewrite Z.add_0_r.
    + unfold u64. rewrite Zplus_mod_idemp_l. f_equal. lia.
  - by rewrite put_all_snoc.
  - by eapply frame_trans.
  - done.
Qed.

(** ** The loops *)

Definition loop_inv (k : nat) cs (d : Z) (cur : bytes) s : Prop :=
  store_inv k cs s /\ index_inv cs (cs_index s) /\ win_repr p d cur (cs_window s).

(** A chunk [c] that is complete in the window. *)
Definition complete (c : bytes) (w : window) : Prop :=
  lengthZ (chunkBuffer w) = maxChunkSize p /\ chunkBufferCnt w = lengthZ c /\ chunk_bytes w = c.

Lemma emit_cut k cs s c :
  store_inv (S k) cs s -> index_inv cs (cs_index s) -> lengthZ cs < 2 ^ 64 - 1 -> chunk_ok c ->
  complete c (cs_window s) ->
  exists s', emit_chunk uninit_key (index_cut flag) s = Ok (true, s') /\
    loop_inv k (cs ++ [c]) 0 [] s' /\ chunkBufferCnt (cs_window s') = 0.
Proof.
  intros Hs Hi Hb Hok (Hbuf & Hcnt & Hbytes).
  destruct (emit_chunk_spec (index_cut flag) k cs s c (index_inv (cs ++ [c])))
    as (s' & He & Hs' & Hi' & Hw); try done; [by apply index_cut_inv|].
  exists s'. split; [done|]. rewrite Hw. split; [|done]. split_and!; [done|done|].
  rewrite Hw. by apply win_repr_reset.
Qed.

Lemma byte_step_spec k cs d cur s b :
  loop_inv (S k) cs d cur s -> lengthZ cs < 2 ^ 64 - 1 ->
  exists s', byte_step uninit_key p flag b s = Ok (true, s') /\
    (if boundary p d (cur ++ [b]) then loop_inv k (cs ++ [cur ++ [b]]) 0 [] s'
     else loop_inv (S k) cs d (cur ++ [b]) s').
Proof.
  intros (Hs & Hi & Hw) Hb. unfold byte_step. pose proof (pk_win _ Hp). pose proof (pk_max _ Hp).
  assert (Hlen : lengthZ (cur ++ [b]) = lengthZ cur + 1) by (rewrite lengthZ_app; simpl; lia).
  assert (Hcur : lengthZ cur < maxChunkSize p) by apply Hw.
  destruct (feed_spec p Hp d cur (cs_window s) b Hw)
    as (w & -> & Hbuf & Hcnt & Hbytes & Hfp).
  cbn [mbind outcome_bind]. set (s1 := with_window w s).
  assert (Hs1 : store_inv (S k) cs s1) by (destruct Hs; by split).
  assert (Hi1 : index_inv cs (cs_index s1)) by done.
  assert (Hcont : lengthZ (cur ++ [b]) < maxChunkSize p -> loop_inv (S k) cs d (cur ++ [b]) s1)
    by (intros; by split_and!).
  unfold boundary. destruct (Z.ltb_spec (slidingWinSize p) (lengthZ (cur ++ [b]))); cbn [andb];
    [|exists s1; split; [done|apply Hcont; lia]].
  destruct (Z.leb_spec (minChunkSize p) (lengthZ (cur ++ [b]))); cbn [andb];
    [|exists s1; split; [done|apply Hcont; pose proof (pk_sizes _ Hp); lia]].
  assert (Hok : chunk_ok (cur ++ [b])) by (unfold chunk_ok; lia).
  assert (Hat : at_anchor p w = anchor_at p d (cur ++ [b])).
  { unfold at_anchor, anchor_at. rewrite Hfp. by rewrite (proj2 (Z.ltb_ge _ _)) by lia. }
  destruct (emit_cut k cs s1 (cur ++ [b]) Hs1 Hi1 Hb Hok) as (s' & He & Hl' & Hz); [by split_and!|].
  unfold anchor_chunk. cbn [s1 with_window cs_window]. rewrite Hat.
  destruct (anchor_at p d (cur ++ [b])); cbn [orb].
  - fold s1. rewrite He. cbn [mbind outcome_bind]. exists s'. split; [|done]. unfold max_chunk.
    rewrite Hz, u64_small by lia. by rewrite (proj2 (Z.leb_gt _ _)) by lia.
  - cbn [mbind outcome_bind]. unfold max_chunk. fold s1. cbn [s1 with_window cs_window].
    rewrite Hcnt, u64_small by lia.
    destruct (Z.leb_spec (maxChunkSize p) (lengthZ (cur ++ [b]))).
    + exists s'. by split.
    + exists s1. split; [done|]. by apply Hcont.
Qed.

(** The bytes of a block: the chunks [cut] finds, and what is left. *)
Lemma block_loop_spec k cs d cur s l :
  let '(cs', r) := cut p d cur l in
  loop_inv (S (length cs') + k) cs d cur s -> lengthZ cs + lengthZ l < 2 ^ 64 - 1 ->
  exists s', block_loop uninit_key p flag l s = Ok (true, s') /\
    loop_inv (S k) (cs ++ cs') (fp_after d cs') r s'.
Proof.
  revert cs d cur s; induction l as [|b l IH]; intros cs d cur s; cbn [cut block_loop].
  { intros Hl _. exists s. split; [done|]. rewrite app_nil_r. exact Hl. }
  specialize (IH (if boundary p d (cur ++ [b]) then cs ++ [cur ++ [b]] else cs)
                 (if boundary p d (cur ++ [b]) then 0 else d)
                 (if boundary p d (cur ++ [b]) then [] else cur ++ [b])).
  pose proof (fun j => byte_step_spec j cs d cur s b) as Hstep.
  destruct (boundary p d (cur ++ [b])).
  - destruct (cut p 0 [] l) as [cs' r]. cbn [length lengthZ]. intros Hl Hb.
    pose proof (lengthZ_nonneg l).
    destruct (Hstep (S (length cs') + k)%nat Hl) as (s1 & -> & Hl1); [lia|].
    cbn [mbind outcome_bind]. destruct (IH s1 Hl1) as (s' & -> & Hl').
    { rewrite lengthZ_app. cbn [lengthZ]. lia. }
    exists s'. split; [done|]. rewrite <- app_assoc in Hl'. simpl in *.
    by destruct cs'.
  - destruct (cut p d (cur ++ [b]) l) as [cs' r]. cbn [lengthZ]. intros Hl Hb.
    pose proof (lengthZ_nonneg l).
    destruct (Hstep (length cs' + k)%nat Hl) as (s1 & -> & Hl1); [lia|].
    cbn [mbind outcome_bind]. apply (IH s1 Hl1). lia.
Qed.

(** The blocks: how the file is read does not matter. *)
Lemma read_loop_spec fuel k cs d cur s rest n :
  0 < ReadSize p < 2 ^ 31 -> lengthZ rest < ReadSize p * Z.of_nat fuel ->
  loop_inv (S (length (cut p d cur rest).1) + k) cs d cur s ->
  lengthZ cs + lengthZ rest < 2 ^ 64 - 1 ->
  exists s', read_loop uninit_key p flag fuel rest n s = Ok (true, u64 (n + lengthZ rest), s') /\
    loop_inv (S k) (cs ++ (cut p d cur rest).1) (fp_after d (cut p d cur rest).1)
      (cut p d cur rest).2 s'.
Proof.
  intros HR. revert cs d cur s rest n; induction fuel as [|fuel IH]; intros cs d cur s rest n Hfuel Hs Hb.
  { pose proof (lengthZ_nonneg rest). lia. }
  cbn [read_loop]. set (block := takeZ (ReadSize p) rest). set (rest' := dropZ (ReadSize p) rest).
  assert (Hrest : rest = block ++ rest') by (symmetry; apply takeZ_dropZ).
  assert (Hblock : lengthZ block = Z.min (ReadSize p) (lengthZ rest)) by (apply lengthZ_takeZ; lia).
  assert (Hrest' : lengthZ rest' = Z.max 0 (lengthZ rest - ReadSize p)) by (apply lengthZ_dropZ; lia).
  pose proof (lengthZ_nonneg rest). rewrite i32_small by lia. rewrite (takeZ_ge _ block) by lia.
  rewrite Hrest in Hs |- *. rewrite cut_app in Hs |- *.
  pose proof (fun j => block_loop_spec j cs d cur s block) as Hblk.
  pose proof (cut_length_le p d cur block) as Hcl.
  destruct (cut p d cur block) as [cs1 r1]. cbn [fst] in Hcl.
  specialize (IH (cs ++ cs1) (fp_after d cs1) r1).
  destruct (cut p (fp_after d cs1) r1 rest') as [cs2 r2] eqn:Ecut. cbn [fst snd] in *.
  rewrite length_app in Hs.
  destruct (Hblk (length cs2 + k)%nat) as (s1 & -> & Hs1); [|lia|].
  { by replace (S (length cs1) + (length cs2 + k))%nat with (S (length cs1 + length cs2) + k)%nat by lia. }
  cbn [mbind outcome_bind negb]. rewrite lengthZ_app.
  destruct (Z.ltb_spec (lengthZ block) (ReadSize p)) as [Hlt|Hge].
  - assert (rest' = []) as Hnil by (unfold rest'; apply dropZ_ge; lia).
    rewrite Hnil in Ecut. simpl in Ecut. injection Ecut as <- <-.
    exists s1. rewrite !app_nil_r, Hnil. split; [|done]. cbn [lengthZ]. by rewrite Z.add_0_r.
  - destruct (IH s1 rest' (u64 (n + lengthZ block))) as (s' & -> & Hs').
    + lia.
    + rewrite Ecut. exact Hs1.
    + rewrite lengthZ_app. lia.
    + rewrite Ecut in Hs'. cbn [fst snd] in Hs'. exists s'. split.
      * do 3 f_equal. unfold u64. rewrite Zplus_mod_idemp_l. f_equal. lia.
      * rewrite app_assoc. by destruct cs1, cs2.
Qed.

(** ** The last chunk *)

(** The index once the file is read: every chunk has its entry. *)
Record index_done cs (ix : indexer) : Prop := {
  id_entries : fingerprint <$> idx_chunk (fileindex ix) = fp_of <$> cs;
  id_unique : unique <$> idx_chunk (fileindex ix) = novelties m0 cs;
  id_number : chunknumber (fileindex ix) = lengthZ cs
}.

Lemma index_inv_done cs ix : index_inv cs ix -> index_done cs ix.
Proof.
  intros [Hwf He Hu]. split; [done|done|]. rewrite (iw_chunks _ Hwf).
  by rewrite <- (lengthZ_fmap fingerprint), He, lengthZ_fmap.
Qed.

Lemma index_final_done cs ix c :
  index_inv cs ix -> NUL ∈ stack ->
  exists ix', index_final MD5 stack stack' flag (fp_of c ++ [NUL]) (novel (put_all m0 cs) c) ix =
    Ok ix' /\ index_done (cs ++ [c]) ix'.
Proof.
  intros Hi Hst. pose proof (index_inv_done _ _ Hi) as [He Hu Hn].
  assert (Hfp : takeZ CHUNK_HASH_SIZE (fp_of c ++ [NUL]) = fp_of c)
    by (apply takeZ_app_exact; by rewrite fp_of_length).
  unfold index_final. destruct Hflag as [->| ->].
  - change (0 =? 0) with true. cbv iota. eexists. split; [done|].
    split; cbn; rewrite ?fmap_app, ?novelties_snoc, ?lengthZ_app, ?He, ?Hu, ?Hn; cbn; by rewrite ?Hfp.
  - change (1 =? 0) with false. change (1 =? 1) with true. cbv iota.
    rewrite cstr_app_nul by apply fp_of_no_nul. cbn [mbind outcome_bind in_bounds].
    destruct (cstr_is_Some (MD5 (segmenthash ix ++ fp_of c) ++ stack)) as [x Hx];
      [apply elem_of_app; by right|]. rewrite Hx. cbn [mbind outcome_bind in_bounds].
    eexists. split; [done|].
    split; cbn; rewrite ?fmap_app, ?novelties_snoc, ?lengthZ_app, ?He, ?Hu, ?Hn; cbn; by rewrite ?Hfp.
Qed.

Lemma final_chunk_spec k cs d cur s :
  loop_inv (S k) cs d cur s -> NUL ∈ stack -> cur = [] \/ chunk_ok cur -> lengthZ cs < 2 ^ 64 - 1 ->
  exists s', final_chunk MD5 stack stack' uninit_key flag s = Ok (true, s') /\
    store_inv k (with_last (cs, cur)) s' /\ index_done (with_last (cs, cur)) (cs_index s').
Proof.
  intros (Hs & Hi & (_ & Hcnt & _ & Hbytes & _)) Hst Hcur Hb. unfold final_chunk, with_last.
  rewrite Hcnt. cbn [fst snd]. destruct Hcur as [->|Hok].
  - exists s. split; [done|]. rewrite bool_decide_eq_true_2 by done. rewrite app_nil_r.
    split; [|by apply index_inv_done]. destruct Hs as [????? Hn]. split; try done.
    eapply (names_left_le (S k)); [lia|done].
  - rewrite (proj2 (Z.eqb_neq _ _)) by (destruct Hok; lia).
    rewrite bool_decide_eq_false_2 by (intros ->; destruct Hok; simpl in *; lia).
    eapply emit_chunk_spec in Hs as (s' & He & Hs' & Hix & _); try done.
    + exists s'. split; [exact He|]. split; [done|]. exact Hix.
    + destruct (index_final_done cs (cs_index s) cur Hi Hst) as (ix & Hf & Hd).
      rewrite Hf. cbn [mbind outcome_bind]. by exists ix.
Qed.
End ChunkerSpec.
