(* ===== verification/IndexInv.v ===== *)
(** * The index that chunking builds is one that can be stored

    While a file is chunked successfully the index in [fileindex] keeps
    counters that are the lengths of its lists and numbers
    that stay below the number of chunks; with fewer than 2^31 chunks
    [saveToFile] can write it and [loadIndex] gives it back. *)

From S2P Require Import Prelude.
From S2P Require Import Bytes.
From S2P Require Import DataStructure.
From S2P Require Import Database.
From S2P Require Import Storage.
From S2P Require Import Recipe.
From S2P Require Import Crypto.
From S2P Require Import Config.
From S2P Require Import Chunking.
From S2P Require Import FileIndex.
From S2P Require Import Chunker.
From stdpp Require Import base tactics numbers list gmap strings.
From Stdlib Require Import Ascii ZArith Lia.

Open Scope Z_scope.

(** ** What chunking does to the index *)

Definition is_unique (u : Z) : Prop := u = 0 \/ u = 1.

Section preserve.
Context {db : Type} `{LevelDB db} `{EVP_Digest}.
Context (MD5 : bytes -> bytes) (stack stack' : bytes).
Context (uninit_key : Z -> keyForChunkHashDB_t) (p : ChunkerParams) (flag : Z).
Context (Q : indexer -> Prop).
Implicit Types s : chunking db.

(** A successful step of the index keeps [Q]. *)
Definition keeps (f : bytes -> Z -> Z -> indexer -> outcome (bool * indexer)) : Prop :=
  forall hash uniq cnt ix ix', lengthZ hash = CHUNK_HASH_SIZE + 1 -> is_unique uniq ->
    f hash uniq cnt ix = Ok (true, ix') -> Q ix -> Q ix'.

Context (Hcut : keeps (index_cut flag)).
Context (Hfinal : keeps (fun hash uniq _ ix =>
           ix' ← index_final MD5 stack stack' flag hash uniq ix; Ok (true, ix'))).

Lemma dedup_unique key0 hash d n total sc (e : env db) ok u t sc' e' :
  dedup_chunk key0 hash d n total sc e = Ok (ok, (u, t, sc', e')) -> is_unique u.
Proof.
  unfold dedup_chunk. intros Hd. inv_ok.
  destruct x0; inv_run; [by left|by right].
Qed.

Lemma hash_length d : lengthZ (fp_of d ++ [NUL]) = CHUNK_HASH_SIZE + 1.
Proof. by rewrite lengthZ_app, fp_of_length. Qed.

Lemma emit_chunk_keeps f s s' :
  keeps f -> emit_chunk uninit_key f s = Ok (true, s') -> Q (cs_index s) -> Q (cs_index s').
Proof.
  intros Hf. unfold emit_chunk.
  destruct (generateHash _ _) as [hash|] eqn:Eh; [|done].
  apply generateHash_Some in Eh. intros Hr HQ. inv_run. rename b into stored.
  select (dedup_chunk _ _ _ _ _ _ _ = _) (fun Hd => apply dedup_unique in Hd as Hu).
  destruct stored; cbn [negb] in *; inv_run.
  destruct b; cbn [negb] in *; simplify_eq. eapply Hf; eauto using hash_length.
Qed.

Lemma byte_step_keeps b s s' :
  byte_step uninit_key p flag b s = Ok (true, s') -> Q (cs_index s) -> Q (cs_index s').
Proof.
  unfold byte_step. intros Hr HQ. inv_ok. destruct x as [[|] w]; [|by simplify_eq].
  inv_run. destruct b0; [|done]. assert (Q (cs_index c)).
  { unfold anchor_chunk in *. destruct (at_anchor _ _); [|by simplify_eq].
    by eapply emit_chunk_keeps; [exact Hcut|eassumption|]. }
  unfold max_chunk in Hr. destruct (u64 _ <=? _); [|by simplify_eq].
  by eapply emit_chunk_keeps in Hr.
Qed.

Lemma block_loop_keeps l s s' :
  block_loop uninit_key p flag l s = Ok (true, s') -> Q (cs_index s) -> Q (cs_index s').
Proof.
  revert s. induction l as [|b l IH]; intros s; cbn [block_loop]; [by intros [= <-]|].
  intros Hr HQ. inv_run. destruct b0; [|done].
  select (byte_step _ _ _ _ _ = _) (fun Hs => apply byte_step_keeps in Hs); eauto.
Qed.

Lemma read_loop_keeps fuel rest n s n' s' :
  read_loop uninit_key p flag fuel rest n s = Ok (true, n', s') -> Q (cs_index s) -> Q (cs_index s').
Proof.
  revert rest n s. induction fuel as [|fuel IH]; intros rest n s; cbn [read_loop]; [done|].
  intros Hr HQ. inv_run. destruct b; cbn [negb] in *; [|done].
  select (block_loop _ _ _ _ _ = _) (fun Hs => apply block_loop_keeps in Hs; [|done]).
  destruct (_ <? _); [by simplify_eq|eauto].
Qed.

Lemma varSizeChunking_keeps fuel winFp0 file i recipe sc e s :
  varSizeChunking MD5 stack stack' uninit_key p flag fuel winFp0 file i recipe sc e = Ok (true, s) ->
  Q (indexer_start i) -> Q (cs_index s).
Proof.
  unfold varSizeChunking. intros Hr HQ. inv_run. destruct b; cbn [negb] in *; [|done].
  select (read_loop _ _ _ _ _ _ _ = _) (fun Hs => apply read_loop_keeps in Hs; [|done]).
  inv_run. destruct b; cbn [negb] in *; inv_run. cbn [cs_index].
  select (final_chunk _ _ _ _ _ _ = _) (fun Hf => unfold final_chunk in Hf; rename Hf into Hf').
  destruct (_ =? 0); [by simplify_eq|].
  by eapply emit_chunk_keeps; [exact Hfinal|eassumption|].
Qed.
End preserve.

(** ** Numbers below the number of chunks *)

Definition below (n x : Z) : Prop := 0 <= x <= n.

Record counted_index (fh : bytes) (ix : indexer) : Prop := {
  ci_hash : fileNameHash (fileindex ix) = fh;
  ci_chunks : chunknumber (fileindex ix) = lengthZ (idx_chunk (fileindex ix));
  ci_segments : segmentnumber (fileindex ix) = lengthZ (idx_segment (fileindex ix));
  ci_containers : containernumber (fileindex ix) = lengthZ (idx_container (fileindex ix));
  ci_order : containernumber (fileindex ix) <= segmentnumber (fileindex ix)
             <= chunknumber (fileindex ix);
  ci_start : below (chunknumber (fileindex ix)) (ix_startChunkID ix) /\
             below (chunknumber (fileindex ix)) (ix_startSegmentID ix);
  ci_L0 : Forall (fun x => below (chunknumber (fileindex ix)) (L0_chunkID x) /\
            L0_size x = CHUNK_HASH_SIZE /\ is_unique (unique x) /\ lengthZ (fingerprint x) = 32)
            (idx_chunk (fileindex ix));
  ci_LP : Forall (fun x => below (chunknumber (fileindex ix)) (segmentID x) /\
            below (chunknumber (fileindex ix)) (startChunkID x) /\
            below (chunknumber (fileindex ix)) (endChunkID x) /\ lengthZ (LP_hash x) = 32)
            (idx_segment (fileindex ix));
  ci_L6 : Forall (fun x => below (chunknumber (fileindex ix)) (containerID x) /\
            below (chunknumber (fileindex ix)) (startSegmentID x) /\
            below (chunknumber (fileindex ix)) (endSegmentID x) /\ lengthZ (L6_hash x) = 32)
            (idx_container (fileindex ix))
}.

Lemma below_le n m x : below n x -> n <= m -> below m x.
Proof. unfold below. lia. Qed.

Create HintDb counted.
#[export] Hint Resolve below_le : counted.

(** Entries stay in bounds when chunks are added. *)
Ltac more_chunks :=
  match goal with
  | H : Forall _ ?l |- Forall _ ?l => eapply Forall_impl; [exact H|]; cbv beta; intros ? ?;
      destruct_and?; split_and!; eauto with counted lia
  end.

Ltac counted :=
  constructor; cbn; rewrite ?lengthZ_app; cbn [lengthZ];
  repeat match goal with
  | |- Forall _ (_ ++ [_]) => apply Forall_app; split
  | |- Forall _ [_] => constructor; [|constructor]
  | |- Forall _ _ => more_chunks
  | |- _ /\ _ => split
  end; cbn; unfold below in *; try done; try lia.

Section counted.
Context `{EVP_Digest}.
Context (MD5 : bytes -> bytes) (stack stack' : bytes).
Implicit Types (fh : bytes) (ix : indexer).

Lemma indexer_start_counted i :
  idx_chunk i = [] -> idx_segment i = [] -> idx_container i = [] ->
  counted_index (fileNameHash i) (indexer_start i).
Proof. intros Hc Hs Hn. split; cbn; rewrite ?Hc, ?Hs, ?Hn; by unfold below. Qed.

Lemma taken_hash (l : bytes) : CHUNK_HASH_SIZE <= lengthZ l -> lengthZ (takeZ CHUNK_HASH_SIZE l) = 32.
Proof. unfold CHUNK_HASH_SIZE. intros. rewrite lengthZ_takeZ; lia. Qed.

Lemma generated_hash d n h : generateHash d n = Some h -> lengthZ (takeZ CHUNK_HASH_SIZE h) = 32.
Proof.
  intros ->%generateHash_Some. apply taken_hash. rewrite lengthZ_app, fp_of_length. by cbn.
Qed.

Lemma index_cut_counted flag fh : flag = 0 \/ flag = 1 -> keeps (counted_index fh) (index_cut flag).
Proof.
  intros Hflag hash uniq cnt ix ix' Hh Hu Hr [E1 E2 E3 E4 E5 E6 E7 E8 E9].
  assert (lengthZ (takeZ CHUNK_HASH_SIZE hash) = 32) by (apply taken_hash; lia).
  pose proof (lengthZ_nonneg (idx_chunk (fileindex ix))).
  pose proof (lengthZ_nonneg (idx_segment (fileindex ix))).
  pose proof (lengthZ_nonneg (idx_container (fileindex ix))).
  unfold index_cut in Hr. destruct Hflag as [->| ->].
  - change (0 =? 0) with true in Hr. cbv iota in Hr. simplify_eq. counted.
  - change (1 =? 0) with false in Hr. change (1 =? 1) with true in Hr. cbv iota in Hr. inv_run.
    destruct x; [|inv_run; counted].
    unfold end_segment in Hr. inv_run. cbn [fileindex segmenthash] in *.
    destruct (generateHash _ _) as [h1|] eqn:G1; [|simplify_eq; counted].
    apply generated_hash in G1. inv_run.
    match type of Hr with (if ?b then _ else _) = _ => destruct b end; [|simplify_eq; counted].
    destruct (generateHash _ _) as [h2|] eqn:G2; [|simplify_eq; counted].
    apply generated_hash in G2. simplify_eq. counted.
Qed.

Lemma index_final_counted flag fh :
  flag = 0 \/ flag = 1 /\ (forall d, CHUNK_HASH_SIZE <= lengthZ (MD5 d ++ stack)) /\
                          (forall d, CHUNK_HASH_SIZE <= lengthZ (MD5 d ++ stack')) ->
  keeps (counted_index fh) (fun hash uniq _ ix =>
    ix' ← index_final MD5 stack stack' flag hash uniq ix; Ok (true, ix')).
Proof.
  intros Hflag hash uniq cnt ix ix' Hh Hu Hr [E1 E2 E3 E4 E5 E6 E7 E8 E9].
  assert (lengthZ (takeZ CHUNK_HASH_SIZE hash) = 32) by (apply taken_hash; lia).
  pose proof (lengthZ_nonneg (idx_chunk (fileindex ix))).
  pose proof (lengthZ_nonneg (idx_segment (fileindex ix))).
  pose proof (lengthZ_nonneg (idx_container (fileindex ix))).
  inv_run. unfold index_final in *. destruct Hflag as [->|(-> & HM & HM')].
  - change (0 =? 0) with true in *. cbv iota in *. simplify_eq. counted.
  - change (1 =? 0) with false in *. change (1 =? 1) with true in *. cbv iota in *. inv_run.
    counted; by apply taken_hash.
Qed.

(** Such an index can be stored. *)
Lemma counted_index_valid fh ix :
  counted_index fh ix -> lengthZ fh = FILE_NAME_HASH_SIZE -> chunknumber (fileindex ix) < 2 ^ 31 ->
  index_valid (fileindex ix).
Proof.
  intros [E1 E2 E3 E4 E5 _ E7 E8 E9] Hfh Hn. unfold index_valid, FILE_NAME_HASH_SIZE in *.
  rewrite E1. split_and!; try done; try lia; (eapply Forall_impl; [eassumption|]); cbv beta;
    intros x Hx; cbn; unfold L0_valid, LP_valid, L6_valid, int_valid, below, is_unique, CHUNK_HASH_SIZE in *;
    destruct_and?; split_and!; lia.
Qed.
End counted.
