(* ===== verification/Backup.v ===== *)
(** * A file is stored and given back

    [varSizeChunking] on a new file, [restoreRecipeAndChunk] on its recipe:
    the restored chunks are the chunks of the file, up to the masking of NUL
    bytes in [saveChunk]. *)

From S2P Require Import Prelude.
From S2P Require Import Bytes.
From S2P Require Import DataStructure.
From S2P Require Import Database.
From S2P Require Import Storage.
From S2P Require Import StorageSpec.
From S2P Require Import StorageRefine.
From S2P Require Import Recipe.
From S2P Require Import Crypto.
From S2P Require Import Config.
From S2P Require Import Chunking.
From S2P Require Import FileIndex.
From S2P Require Import Chunker.
From S2P Require Import ChunkerSpec.
From stdpp Require Import base tactics numbers list gmap strings.
From Stdlib Require Import Ascii ZArith Lia.

Open Scope Z_scope.

(** ** Looking chunks up after they are put *)

Section put.
Context `{EVP_Digest}.
Implicit Types (m : chunk_store) (c : bytes) (cs : list bytes).

(** References to a hash; occurrences of a hash among chunks. *)
Definition refs m (h : bytes) : Z := match m !! h with Some (_, r) => r | None => 0 end.
Definition occurrences (h : bytes) cs : Z :=
  lengthZ (filter (fun c => fp_of c = h) cs).

Lemma put_all_refs m cs h :
  0 <= refs m h < 2 ^ 32 -> refs (put_all m cs) h = u32 (refs m h + occurrences h cs).
Proof.
  revert m; induction cs as [|c cs IH]; intros m Hr.
  - unfold occurrences. cbn. by rewrite Z.add_0_r, u32_small.
  - change (put_all m (c :: cs)) with (put_all (put m c) cs).
    assert (Hp : refs (put m c) h = if decide (fp_of c = h) then u32 (refs m h + 1) else refs m h).
    { unfold refs, put. case_decide as E; [subst|].
      - destruct (m !! fp_of c) as [[d r]|]; by rewrite lookup_insert_eq.
      - destruct (m !! fp_of c) as [[d r]|]; by rewrite lookup_insert_ne. }
    rewrite IH; rewrite Hp; [|case_decide; [apply u32_range|done]].
    unfold occurrences. rewrite filter_cons. case_decide; [|done]. cbn [lengthZ].
    unfold u32. rewrite Zplus_mod_idemp_l. f_equal. lia.
Qed.

(** No two different chunks, among [cs] and the stored ones, share a hash. *)
Definition collision_free m cs : Prop :=
  (forall c c', c ∈ cs -> c' ∈ cs -> fp_of c = fp_of c' -> c = c') /\
  (forall c d r, c ∈ cs -> m !! fp_of c = Some (d, r) -> d = masked c).

Lemma collision_free_empty cs :
  Forall (fun c => Forall (fun c' => fp_of c = fp_of c' -> c = c') cs) cs -> collision_free ∅ cs.
Proof.
  intros Hall. split; [|done]. intros c c' Hc Hc'. rewrite Forall_forall in Hall.
  specialize (Hall c Hc). rewrite Forall_forall in Hall. auto.
Qed.

Lemma put_lookup_mono m c h d r :
  m !! h = Some (d, r) -> exists r', put m c !! h = Some (d, r').
Proof.
  intros Hm. unfold put. destruct (decide (fp_of c = h)) as [<-|Hne].
  - rewrite Hm, lookup_insert_eq. eauto.
  - destruct (m !! fp_of c) as [[d' r']|]; rewrite lookup_insert_ne by done; eauto.
Qed.

Lemma put_all_lookup_mono m cs h d r :
  m !! h = Some (d, r) -> exists r', put_all m cs !! h = Some (d, r').
Proof.
  revert m r; induction cs as [|c cs IH]; intros m r Hm; [by exists r|].
  destruct (put_lookup_mono m c h d r Hm) as [r' Hr']. exact (IH _ _ Hr').
Qed.

Lemma put_all_lookup m cs c :
  collision_free m cs -> c ∈ cs -> exists r, put_all m cs !! fp_of c = Some (masked c, r).
Proof.
  revert m; induction cs as [|x cs IH]; intros m [Hi Hm] Hc; [by apply elem_of_nil in Hc|].
  change (put_all m (x :: cs)) with (put_all (put m x) cs).
  destruct (decide (fp_of x = fp_of c)) as [E|Hne].
  - apply Hi in E as <-; [|by left|done].
    assert (exists r, put m x !! fp_of x = Some (masked x, r)) as [r Hr].
    { unfold put. destruct (m !! fp_of x) as [[d r]|] eqn:Hx; rewrite lookup_insert_eq; [|eauto].
      rewrite (Hm x d r) by (done || by left). eauto. }
    by eapply put_all_lookup_mono.
  - apply IH.
    + split; [intros c1 c2 ??; apply Hi; by right|]. intros c' d r Hc' Hl.
      unfold put in Hl. destruct (decide (fp_of x = fp_of c')) as [E|Hne'].
      * assert (x = c') as -> by (apply Hi; [by left|by right|done]).
        destruct (m !! fp_of c') as [[d' r']|] eqn:E'; rewrite lookup_insert_eq in Hl; simplify_eq; [|done].
        eapply Hm; [by left|done].
      * destruct (m !! fp_of x) as [[d' r']|]; rewrite lookup_insert_ne in Hl by done;
          (eapply Hm; [by right|done]).
    + apply elem_of_cons in Hc as [->|?]; [done|done].
Qed.

Lemma put_all_dom m cs c : c ∈ cs -> exists d r, put_all m cs !! fp_of c = Some (d, r).
Proof.
  intros Hc. revert m. induction Hc as [c cs|c x cs _ IH]; intros m; [|exact (IH (put m x))].
  assert (exists d r, put m c !! fp_of c = Some (d, r)) as (d & r & Hp).
  { unfold put. destruct (m !! fp_of c) as [[d r]|]; rewrite lookup_insert_eq; eauto. }
  exists d. exact (put_all_lookup_mono (put m c) cs _ d r Hp).
Qed.

(** The sizes and identifiers of a recipe. *)
Lemma entries_sizes i cs :
  Forall chunk_ok cs -> re_chunkSize <$> entries_from i cs = lengthZ <$> cs.
Proof.
  intros Hok. revert i. induction Hok as [|c cs [_ Hc] _ IH]; intros i; [done|].
  cbn [entries_from]. csimpl. unfold MAX_CHUNK_SIZE in Hc. pose proof (lengthZ_nonneg c).
  by rewrite IH, i32_small by lia.
Qed.

Lemma entries_ids i cs :
  re_chunkID <$> entries_from i cs = u32 <$> seqZ i (lengthZ cs).
Proof.
  revert i; induction cs as [|c cs IH]; intros i; [done|]. pose proof (lengthZ_nonneg cs).
  cbn [entries_from lengthZ]. rewrite seqZ_cons by lia. csimpl. rewrite IH.
  by replace (Z.pred (1 + lengthZ cs)) with (lengthZ cs) by lia.
Qed.

Lemma entries_length i cs : length (entries_from i cs) = length cs.
Proof. revert i; induction cs as [|c cs IH]; intros i; cbn; [done|]. by rewrite IH. Qed.

(** A recipe's entries match the chunk store. *)
Lemma entries_in_stored m cs :
  Forall chunk_ok cs -> Forall (fun c => exists r, m !! fp_of c = Some (masked c, r)) cs ->
  Forall2 (entry_in m) (entries cs) (masked <$> cs).
Proof.
  intros Hok Hlook. unfold entries. generalize 0 as i. revert Hok Hlook.
  induction cs as [|c cs IH]; intros Hok Hlook i; [constructor|].
  inversion_clear Hok as [|?? [H2 Hm]]. inversion_clear Hlook. csimpl. cbn [entries_from].
  constructor; [|by apply IH]. unfold MAX_CHUNK_SIZE in *. rewrite i32_small by lia.
  unfold entry_in, MAX_CHUNK_SIZE. cbn [re_chunkSize re_chunkHash]. rewrite masked_length.
  split_and!; try done. cbn [pod_valid re_pod]. unfold re_valid. cbn [re_chunkID re_chunkSize re_chunkHash].
  pose proof (u32_range i). pose proof (fp_of_length c). unfold CHUNK_HASH_SIZE in *.
  split_and!; lia.
Qed.

Lemma put_all_stored m cs :
  collision_free m cs -> Forall (fun c => exists r, put_all m cs !! fp_of c = Some (masked c, r)) cs.
Proof. intros Hcf. apply Forall_forall. intros. by apply put_all_lookup. Qed.

Lemma stored_mono m cs cs' :
  Forall (fun c => exists r, m !! fp_of c = Some (masked c, r)) cs ->
  Forall (fun c => exists r, put_all m cs' !! fp_of c = Some (masked c, r)) cs.
Proof.
  intros Hall. eapply Forall_impl; [exact Hall|]. intros c (r & Hr). by eapply put_all_lookup_mono.
Qed.

End put.

(** ** Storing a new file *)

Section Backup.
Context {db : Type} `{LevelDB db, !LevelDBReliable db} `{EVP_DigestReliable}.
Context (MD5 : bytes -> bytes) (stack stack' : bytes).
Context (uninit_key : Z -> keyForChunkHashDB_t).
Context (Huninit : forall n, lengthZ (containerName (uninit_key n)) = 16).
Context (p : ChunkerParams) (Hp : params_ok p).
Context (Hwin : slidingWinSize p < maxChunkSize p) (Hmax : maxChunkSize p <= MAX_CHUNK_SIZE).
Context (HR : 0 < ReadSize p < 2 ^ 31).
Implicit Types (e : env db) (sc : StorageCore) (m : chunk_store).

(** What a file must satisfy: its last chunk is not a single byte. *)
Definition file_ok (winFp0 : Z) (file : bytes) : Prop :=
  lengthZ file < 2 ^ 64 - 1 /\ ((cut p winFp0 [] file).2 = [] \/ chunk_ok (cut p winFp0 [] file).2).

(** Room for the file's chunks, and a recipe that does not exist yet. *)
Record store_ready (sc : StorageCore) (e : env db) (fh : bytes) (n : nat) : Prop := {
  sr_containers k : writable e (container_path sc k) = true;
  sr_names : names_left (S n) (lastContainerFileName_ sc);
  sr_meta : is_open (fileName2metaDB e);
  sr_hash : lengthZ fh = FILE_NAME_HASH_SIZE;
  sr_new : contents (fileName2metaDB e) fh = None;
  sr_file : files e !! recipe_path sc (hex fh) = None;
  sr_recipe : writable e (recipe_path sc (hex fh)) = true
}.

(** What storing a file leaves alone: the configuration of the storage object
    and every file that is no container and not the recipe. *)
Record stored_frame sc e (fh : bytes) sc' e' : Prop := {
  sf_prefix : containerNamePrefix_ sc' = containerNamePrefix_ sc;
  sf_recipe n : recipe_path sc' n = recipe_path sc n;
  sf_max : maxContainerSize_ sc' = maxContainerSize_ sc;
  sf_name : lastContainerFileName_ sc' ≡ₚ lastContainerFileName_ sc;
  sf_writable q : writable e' q = writable e q;
  sf_files q : q <> recipe_path sc (hex fh) -> (forall n, q <> container_path sc n) ->
               files e' !! q = files e !! q;
  sf_entry : contents (fileName2metaDB e') fh = Some (hex fh);
  sf_meta k : k <> fh -> contents (fileName2metaDB e') k = contents (fileName2metaDB e) k
}.

Lemma varSizeChunking_spec flag fuel winFp0 file i recipe sc e m :
  let cs := chunks_of p winFp0 file in
  let fh := frh_fileNameHash (fileRecipeHead recipe) in
  Repr sc e m -> flag = 0 \/ flag = 1 -> NUL ∈ stack -> winFp0 = u16 winFp0 ->
  file_ok winFp0 file -> lengthZ file < ReadSize p * Z.of_nat fuel ->
  idx_chunk i = [] -> idx_segment i = [] -> idx_container i = [] ->
  store_ready sc e fh (length (cut p winFp0 [] file).1) ->
  exists s, varSizeChunking MD5 stack stack' uninit_key p flag fuel winFp0 file i recipe sc e =
      Ok (true, s) /\
    Repr (cs_storage s) (cs_env s) (put_all m cs) /\
    recipe_stored (cs_storage s) (cs_env s) fh
      (finish_recipe recipe (lengthZ cs) (lengthZ file)) (entries cs) /\
    is_open (fileName2metaDB (cs_env s)) /\ index_done m cs (cs_index s) /\
    cs_totalSize s = u64 (stored_size m cs) /\ cs_recipeList s = entries cs /\
    stored_frame sc e fh (cs_storage s) (cs_env s).
Proof.
  intros cs fh Hr Hflag Hst Hfp0 [Hlen Hlast] Hfuel Hc Hs Hn [Hcw Hnl Hmo Hfh Hnew Hfile Hrw].
  pose proof (lengthZ_nonneg file). pose proof (pk_sizes _ Hp). unfold varSizeChunking.
  set (s0 := mkChunking [] (indexer_start i) 0 0 _ sc e).
  assert (Hinv : loop_inv p m sc e (S (length (cut p winFp0 [] file).1) + 0) [] winFp0 [] s0).
  { split_and!.
    - rewrite Nat.add_0_r. split; try done; apply frame_refl.
    - split; [by apply indexer_start_wf|cbn; by rewrite Hc..].
    - apply (win_repr_start p Hp Hwin); try done. cbn [s0 cs_window chunkBuffer].
      rewrite lengthZ_length, length_replicate. lia. }
  destruct (read_loop_spec uninit_key Huninit p Hp Hwin Hmax flag Hflag m sc e Hcw
              fuel 0 [] winFp0 [] s0 file 0 HR Hfuel Hinv) as (s1 & -> & Hs1); [cbn; lia|].
  cbn [mbind outcome_bind negb]. rewrite app_nil_l in Hs1.
  pose proof (cut_length_le p winFp0 [] file).
  destruct (final_chunk_spec MD5 stack stack' uninit_key Huninit p flag Hflag m sc e Hcw
              0 _ _ _ s1 Hs1 Hst Hlast) as (s2 & -> & Hs2 & Hd); [lia|].
  cbn [mbind outcome_bind negb]. rewrite <- surjective_pairing in Hs2, Hd.
  change (with_last (cut p winFp0 [] file)) with cs in Hs2, Hd.
  destruct Hs2 as [Hrec Hcnt Htot HR2 Hf2 _]. rewrite Hrec, Hcnt, Z.add_0_l, u64_small by lia.
  pose proof (frame_recipe _ _ _ _ Hf2) as Hrp.
  destruct (checkRecipeStatus_new (cs_storage s2) (cs_env s2)
    (finish_recipe recipe (lengthZ cs) (lengthZ file)) (entries cs))
    as (e' & Hcr & Hstored & Ho & Hfp & Hcdb & Hwr & Hfiles).
  1-5: cbn; fold fh; rewrite ?Hrp, ?(frame_meta _ _ _ _ Hf2), ?(frame_writable _ _ _ _ Hf2); try done.
  { rewrite (frame_files _ _ _ _ Hf2); [done|]. intros k. by apply (recipe_path_ne sc e _ k), Hr. }
  destruct (checkRecipeStatus_meta (cs_storage s2) (cs_env s2)
    (finish_recipe recipe (lengthZ cs) (lengthZ file)) (entries cs) true e') as [Hme Hmk];
    try (cbn; fold fh; rewrite ?(frame_meta _ _ _ _ Hf2); done).
  cbn in Hme, Hmk. fold fh in Hme, Hmk. rewrite (frame_meta _ _ _ _ Hf2) in Hmk.
  cbn in Hcr. fold fh in Hcr. rewrite Hcr. cbn [mbind outcome_bind]. eexists. split; [done|]. cbn.
  split_and!; try done.
  - apply (Repr_agree _ (cs_env s2)); [|done|done]. split; [|rewrite Hcdb; apply HR2].
    intros k. apply Hfiles. intros E. symmetry in E. revert E. eapply recipe_path_ne, HR2.
  - cbn in Hfiles. fold fh in Hfiles. rewrite Hrp in Hfiles. pose proof Hf2 as [].
    split; try done; cbn; [by rewrite Hwr|]. intros q Hq1 Hq2. rewrite Hfiles by done. auto.
Qed.

(** ** Restoring it *)

Context (delta_apply : bytes -> bytes -> bytes) (indet : Z -> byte).

(** The bytes the caller of [restoreRecipeAndChunk] writes to the file
    (src/main.cc). *)
Definition written (l : list Chunk_t) : bytes :=
  concat ((fun c => takeZ (logicDataSize c) (logicData c)) <$> l).

Lemma written_restored cs i :
  Forall chunk_ok cs ->
  written (zip_with (restored_chunk indet) (entries_from i cs) (masked <$> cs)) =
  concat (masked <$> cs).
Proof.
  intros Hok. revert i. induction Hok as [|c cs [H2 Hm] _ IH]; intros i; [done|].
  csimpl. unfold written in *. csimpl. rewrite IH. f_equal. cbn. unfold MAX_CHUNK_SIZE in *.
  rewrite i32_small by lia. apply takeZ_app_exact. by rewrite masked_length.
Qed.

Lemma masked_all_no_nul cs : no_nul (concat cs) -> concat (masked <$> cs) = concat cs.
Proof.
  induction cs as [|c cs IH]; csimpl; [done|]. intros [Hc Hcs]%Forall_app. rewrite IH by done.
  rewrite masked_no_nul; [done|]. unfold no_nul in *. rewrite takeZ_take. by apply Forall_take.
Qed.

Lemma concat_masked_length cs : lengthZ (concat (masked <$> cs)) = lengthZ (concat cs).
Proof. induction cs as [|c cs IH]; csimpl; [done|]. by rewrite !lengthZ_app, masked_length, IH. Qed.

Lemma chunks_of_ok winFp0 file : file_ok winFp0 file -> Forall chunk_ok (chunks_of p winFp0 file).
Proof.
  intros [_ Hlast]. pose proof (pk_win _ Hp). pose proof (pk_sizes _ Hp).
  destruct (cut_sizes p winFp0 [] file) as [Hcs _]; [done|lia|cbn; lia|].
  unfold chunks_of, with_last. apply Forall_app. split.
  - eapply Forall_impl; [exact Hcs|]. intros c [? ?]. unfold chunk_ok. lia.
  - case_bool_decide; [done|]. constructor; [|done]. by destruct Hlast.
Qed.

Lemma chunks_of_bounds winFp0 file :
  Forall (fun c => lengthZ c <= maxChunkSize p) (chunks_of p winFp0 file) /\
  Forall (fun c => minChunkSize p <= lengthZ c /\ slidingWinSize p < lengthZ c)
    (take (length (chunks_of p winFp0 file) - 1) (chunks_of p winFp0 file)).
Proof.
  pose proof (pk_win _ Hp). pose proof (pk_sizes _ Hp).
  destruct (cut_sizes p winFp0 [] file) as [Hcs Hr]; [done|lia|cbn; lia|].
  unfold chunks_of, with_last. split.
  - apply Forall_app. split; [eapply Forall_impl; [exact Hcs|]; intros c [? ?]; lia|].
    case_bool_decide; [done|]. constructor; [lia|done].
  - case_bool_decide; [rewrite app_nil_r|rewrite length_app, Nat.add_sub, take_app_length];
      try apply Forall_take; (eapply Forall_impl; [exact Hcs|]; intros c [? ?]; lia).
Qed.

Lemma restore_stored sc e m fh head cs fuel :
  Forall chunk_ok cs -> Forall (fun c => exists r, m !! fp_of c = Some (masked c, r)) cs ->
  lengthZ cs < 2 ^ 32 -> Repr sc e m -> is_open (fileName2metaDB e) ->
  lengthZ fh = FILE_NAME_HASH_SIZE -> recipe_stored sc e fh head (entries cs) -> pod_valid head ->
  exists l sc', restoreRecipeAndChunk delta_apply indet (S fuel) fh 0 (lengthZ cs) sc e =
      Ok (true, l, sc') /\ Repr sc' e m /\ written l = concat (masked <$> cs).
Proof.
  intros Hok Hin Hlen Hr Ho Hfh Hst Hv.
  assert (Hl : length (entries cs) = length cs).
  { apply entries_length. }
  rewrite lengthZ_length in *.
  destruct (restoreRecipeAndChunk_spec delta_apply indet fuel sc e m fh head
    (entries cs) (masked <$> cs) 0 (length cs) Hr Ho Hfh Hst Hv (entries_in_stored _ _ Hok Hin))
    as (sc' & Hres & Hr'); [lia|done|].
  rewrite Nat.sub_0_r, !drop_0, !take_ge in Hres by (rewrite ?length_fmap; lia).
  eexists _, sc'. split; [exact Hres|]. split; [done|]. by apply written_restored.
Qed.
End Backup.
