(* ===== verification/Manager.v ===== *)
(** * Manager: garbage collection and rewriting of containers (src/manager.cc)

    [GC] drops the database entries of chunks without references,
    [rewriteContainer] moves the chunks of containers that have shrunk into the
    current one and removes their files, [updateContainer] replaces chunks by
    their deltas.  The loops run over a LevelDB iterator, which is a snapshot
    of the database taken when it is made. *)

From S2P Require Import Prelude.
From S2P Require Import Bytes.
From S2P Require Import DataStructure.
From S2P Require Import Database.
From S2P Require Import Storage.
From S2P Require Import Recipe.
From S2P Require Import StorageSpec.
From S2P Require Import StorageRefine.
From S2P Require Import ChunkerSpec.
From stdpp Require Import base tactics numbers list gmap strings.
From Stdlib Require Import Ascii ZArith Lia.

Open Scope Z_scope.

(** [storageObj_] is the object pointed to; [currentContainer_] is never
    used. *)
Record Manager : Type := mkManager
  { mg_currentReadContainer_ : Container;
    mg_lastContainerFileName_ : bytes;
    mg_currentReadContainerFileName_ : bytes;
    mg_containerNamePrefix_ : bytes;
    DeltacontainerNamePrefix_ : bytes;
    mg_containerNameTail_ : bytes;
    mg_storageObj_ : StorageCore;
    mg_maxContainerSize_ : Z }.

Definition mg_with_read (n : bytes) (c : Container) (g : Manager) : Manager :=
  mkManager c (mg_lastContainerFileName_ g) n (mg_containerNamePrefix_ g)
    (DeltacontainerNamePrefix_ g) (mg_containerNameTail_ g) (mg_storageObj_ g)
    (mg_maxContainerSize_ g).
Definition mg_with_storage (sc : StorageCore) (g : Manager) : Manager :=
  mkManager (mg_currentReadContainer_ g) (mg_lastContainerFileName_ g)
    (mg_currentReadContainerFileName_ g) (mg_containerNamePrefix_ g)
    (DeltacontainerNamePrefix_ g) (mg_containerNameTail_ g) sc (mg_maxContainerSize_ g).

(** The path of the container of [key], its name read as a C string. *)
Definition mg_container_key (key : keyForChunkHashDB_t) (g : Manager) : outcome bytes :=
  name ← in_bounds (cstr (containerName key));
  Ok (mg_containerNamePrefix_ g ++ name ++ mg_containerNameTail_ g).

Section Manager.
Context {db : Type} `{LevelDB db}.
(** The uninitialised [key] of the n-th call of [saveChunk]; the effect of the
    command that empties the directory Delta on the files. *)
Context (uninit_key : Z -> keyForChunkHashDB_t).
Context (rm_Delta : gmap bytes bytes -> gmap bytes bytes).
Implicit Types (g : Manager) (e : env db) (key : keyForChunkHashDB_t).

Definition Manager_new (deltaRoot containerRoot : bytes) (maxSize : Z) (m : Z -> byte)
    (sc : StorageCore) e : Manager :=
  let name := match files e !! StorageConfig with
              | Some cfg => (read_token (skip_space cfg)).1
              | None => first_container_name
              end in
  mkManager (mkContainer 0 m) name [] containerRoot deltaRoot (str ".container") sc maxSize.

(** ** GC *)

Fixpoint GC_loop (l : list (bytes * bytes)) e : outcome (env db) :=
  match l with
  | [] => Ok e
  | (sKey, _) :: l' =>
      ans ← db_query (fp2ChunkDB e) sKey;
      match ans with
      | None => GC_loop l' e
      | Some a =>
          key ← load a;
          if key_count key =? 0 then
            '(_, d) ← db_delete (fp2ChunkDB e) sKey;
            GC_loop l' (with_fp2ChunkDB d e)
          else GC_loop l' e
      end
  end.

Definition GC e : outcome (bool * env db) :=
  l ← db_iterator (fp2ChunkDB e);
  e1 ← GC_loop l e;
  Ok (true, e1).

(** ** rewriteContainer *)

(** The containers to rewrite; their entries are dropped. *)
Fixpoint collect_loop (l : list (bytes * bytes)) (containerList : list bytes) g e :
    outcome (list bytes * env db) :=
  match l with
  | [] => Ok (containerList, e)
  | (sKey, _) :: l' =>
      r ← db_query (containerDB e) sKey;
      match r with
      | None => collect_loop l' containerList g e
      | Some containerSize =>
          size ← stoi containerSize;
          if (size <=? 8300000) &&
             negb (bool_decide (sKey = mg_containerNamePrefix_ g ++ mg_lastContainerFileName_ g ++
                                       mg_containerNameTail_ g)) then
            '(_, d) ← db_delete (containerDB e) sKey;
            collect_loop l' (containerList ++ [sKey]) g (with_containerDB d e)
          else collect_loop l' containerList g e
      end
  end.

(** The chunks in these containers are read and saved again; the results of
    both are ignored.  [n] counts the calls of [saveChunk]. *)
Fixpoint rewrite_loop (l : list (bytes * bytes)) (containerList : list bytes) (n : Z) g e :
    outcome (Manager * env db) :=
  match l with
  | [] => Ok (g, e)
  | (sKey, _) :: l' =>
      ans ← db_query (fp2ChunkDB e) sKey;
      match ans with
      | None => rewrite_loop l' containerList n g e
      | Some a =>
          key ← load a;
          temp ← mg_container_key key g;
          if bool_decide (temp ∈ containerList) then
            '(r, sc1) ← retriveChunk (sKey ++ [NUL]) (mg_storageObj_ g) e;
            let chunkData := default [] r in
            '(_, sc2, e1) ← saveChunk (uninit_key n) (sKey ++ [NUL]) (chunkData ++ [NUL])
                              (lengthZ chunkData) sc1 e;
            rewrite_loop l' containerList (n + 1) (mg_with_storage sc2 g) e1
          else rewrite_loop l' containerList n g e
      end
  end.

Definition remove_all (l : list bytes) e : env db := foldl (fun e f => remove_file f e) e l.

Definition rewriteContainer g e : outcome (bool * Manager * env db) :=
  cl ← db_iterator (containerDB e);
  '(containerList, e1) ← collect_loop cl [] g e;
  if bool_decide (containerList = []) then Ok (true, g, e1) else
  l ← db_iterator (fp2ChunkDB e1);
  '(g1, e2) ← rewrite_loop l containerList 0 g e1;
  Ok (true, g1, remove_all containerList e2).

(** ** updateContainer *)

(** [data] is a zeroed array of [MAX_CHUNK_SIZE * 2]; the result is the array
    and whether the container could be read. *)
Definition delta_buffer : bytes := replicate (Z.to_nat (MAX_CHUNK_SIZE * 2)) NUL.

Definition mg_readDeltaContainer key g e : outcome (bool * bytes * Manager) :=
  name ← string_of (containerName key) (lengthZ (mg_lastContainerFileName_ g));
  match files e !! (DeltacontainerNamePrefix_ g ++ name ++ mg_containerNameTail_ g) with
  | None => Ok (false, delta_buffer, g)
  | Some content =>
      _ ← require (lengthZ content <=? BODY_SIZE);
      let c := mkContainer (lengthZ content)
                 (write_mem (body_ (mg_currentReadContainer_ g)) 0 content) in
      _ ← require (key_offset key + key_length key <=? BODY_SIZE);
      _ ← require (key_length key <=? MAX_CHUNK_SIZE * 2);
      let d := read_mem (body_ c) (key_offset key) (key_length key) in
      Ok (true, d ++ dropZ (key_length key) delta_buffer, mg_with_read name c g)
  end.

(** Writing [d] at [off] into a file; a gap reads as zeros. *)
Definition write_at (off : Z) (d content : bytes) : bytes :=
  takeZ off (content ++ replicate (Z.to_nat (off - lengthZ content)) NUL) ++ d ++
  dropZ (off + lengthZ d) content.

(** The file is opened for reading and writing, so it must be there. *)
Definition updateContainerFile key (update_key : keyForChunkHashDB_t) (data : bytes) g e :
    outcome (bool * env db) :=
  name ← string_of (containerName key) (lengthZ (mg_lastContainerFileName_ g));
  let path := mg_containerNamePrefix_ g ++ name ++ mg_containerNameTail_ g in
  match files e !! path with
  | Some content =>
      if writable e path then
        d ← string_of data (key_length update_key);
        Ok (true, with_files (<[path := write_at (key_offset key) d content]> (files e)) e)
      else Ok (false, e)
  | None => Ok (false, e)
  end.

(** [stoi(containerSize) - (key.length - update_key.length)], an unsigned
    difference stored in an [int]. *)
Definition updated_size (size len len' : Z) : Z := i32 (u32 (size - u32 (len - len'))).

(** One entry of the delta database that is not in the last container. *)
Definition update_chunk (sKey : bytes) key g e : outcome (Manager * env db) :=
  deltaans ← db_query (deltaChunkDB e) sKey;
  update_key ← load (default [] deltaans);
  containerKey ← mg_container_key key g;
  containerSize ← db_query (containerDB e) containerKey;
  size ← stoi (default [] containerSize);
  let updateContainersize := updated_size size (key_length key) (key_length update_key) in
  let key' := mkKey (containerName key) (key_offset key) (key_length update_key) (key_count key)
                (deltaCount update_key) in
  '(_, dc) ← db_insert (containerDB e) containerKey (to_string updateContainersize);
  '(_, df) ← db_insert (fp2ChunkDB e) sKey (rep key');
  let e1 := with_fp2ChunkDB df (with_containerDB dc e) in
  '(_, delta_data, g1) ← mg_readDeltaContainer update_key g e1;
  '(_, e2) ← updateContainerFile key' update_key delta_data g1 e1;
  '(_, dd) ← db_delete (deltaChunkDB e2) sKey;
  Ok (g1, with_deltaChunkDB dd e2).

Fixpoint update_loop (l : list (bytes * bytes)) (count : Z) g e : outcome (Z * Manager * env db) :=
  match l with
  | [] => Ok (count, g, e)
  | (sKey, _) :: l' =>
      ans ← db_query (fp2ChunkDB e) sKey;
      match ans with
      | None => update_loop l' (count + 1) g e
      | Some a =>
          key ← load a;
          name ← in_bounds (cstr (containerName key));
          if bool_decide (name = mg_lastContainerFileName_ g) then update_loop l' (count + 1) g e
          else
            '(g1, e1) ← update_chunk sKey key g e;
            update_loop l' count g1 e1
      end
  end.

Definition updateContainer g e : outcome (bool * Manager * env db) :=
  l ← db_iterator (deltaChunkDB e);
  '(count, g1, e1) ← update_loop l 0 g e;
  if count =? 0 then Ok (true, g1, with_files (rm_Delta (files e1)) e1)
  else Ok (true, g1, e1).
End Manager.

(** * Garbage collection and rewriting keep the chunk store

    [GC] removes from the represented map exactly the chunks without
    references; [rewriteContainer] represents the same map afterwards, with the
    files of the collected containers gone. *)

Section ManagerRefine.
Context {db : Type} `{LevelDB db, !LevelDBReliable db}.
Implicit Types (sc : StorageCore) (e : env db) (m : chunk_store) (g : Manager)
  (key : keyForChunkHashDB_t) (l : list (bytes * bytes)).

(** The fingerprint database holds nothing but chunk hashes. *)
Definition only_hashes e : Prop :=
  forall k v, contents (fp2ChunkDB e) k = Some v -> lengthZ k = CHUNK_HASH_SIZE.

(** An entry of the database is one of the map. *)
Lemma Repr_entry sc e m h v :
  Repr sc e m -> only_hashes e -> contents (fp2ChunkDB e) h = Some v ->
  exists key d, v = rep key /\ pod_valid key /\ deltaCount key = 0 /\
    m !! h = Some (d, key_count key) /\ located sc e key d.
Proof.
  intros [_ He] Ho Hv. specialize (He h (Ho _ _ Hv)). unfold entry_ok in He.
  destruct (m !! h) as [[d r]|]; [|congruence].
  destruct He as (key & Hk & ? & ? & <- & ?). exists key, d. split_and!; congruence.
Qed.

(** ** GC *)

(** The value kept for a hash. *)
Definition keep (v : option bytes) : option bytes :=
  a ← v; if key_count (unrep (takeZ 32 a)) =? 0 then None else Some a.

Lemma bool_decide_cons_ne (k k' : bytes) (ks : list bytes) :
  k' <> k -> bool_decide (k' ∈ k :: ks) = bool_decide (k' ∈ ks).
Proof. intros Hne. apply bool_decide_ext. rewrite elem_of_cons. by split; [intros [?|?]|right]. Qed.

Lemma GC_loop_spec sc m l e :
  is_open (fp2ChunkDB e) -> NoDup l.*1 ->
  (forall k v, contents (fp2ChunkDB e) k = Some v -> exists key, v = rep key /\ pod_valid key) ->
  exists d, GC_loop l e = Ok (with_fp2ChunkDB d e) /\ is_open d /\
    forall k, contents d k =
      if bool_decide (k ∈ l.*1) then keep (contents (fp2ChunkDB e) k) else contents (fp2ChunkDB e) k.
Proof.
  revert e; induction l as [|[k v0] l IH]; intros e Ho Hnd Hv.
  { exists (fp2ChunkDB e). split; [by destruct e|]. split; [done|]. intros k. by rewrite bool_decide_eq_false_2 by (by intros ?%elem_of_nil). }
  cbn [GC_loop fmap list_fmap fst] in *. apply NoDup_cons in Hnd as [Hnin Hnd].
  rewrite query_open by done. cbn [mbind outcome_bind].
  assert (Hgen : forall d, GC_loop l e = Ok (with_fp2ChunkDB d e) ->
    (forall k', contents d k' = if bool_decide (k' ∈ l.*1) then keep (contents (fp2ChunkDB e) k')
                                else contents (fp2ChunkDB e) k') ->
    keep (contents (fp2ChunkDB e) k) = contents (fp2ChunkDB e) k ->
    forall k', contents d k' = if bool_decide (k' ∈ k :: l.*1) then keep (contents (fp2ChunkDB e) k')
                               else contents (fp2ChunkDB e) k').
  { intros d _ Hd Hk k'. rewrite Hd. destruct (decide (k' = k)) as [->|Hne].
    - rewrite bool_decide_eq_false_2 by done. rewrite bool_decide_eq_true_2 by (by left). done.
    - rewrite !bool_decide_cons_ne by done. done. }
  destruct (contents (fp2ChunkDB e) k) as [a|] eqn:Ha.
  - destruct (Hv k a Ha) as (key & -> & Hkv). rewrite load_rep by done. cbn [mbind outcome_bind].
    assert (Hkeep : keep (Some (rep key)) = if key_count key =? 0 then None else Some (rep key)).
    { unfold keep. cbn [mbind option_bind]. rewrite takeZ_ge by (by rewrite (rep_length key)).
      by rewrite (unrep_rep key). }
    destruct (Z.eqb_spec (key_count key) 0) as [E|E].
    + destruct (delete_total (fp2ChunkDB e) k Ho) as (d & Hd). rewrite Hd. cbn [mbind outcome_bind].
      apply delete_spec in Hd as (Hod & Hdk & Hdne).
      destruct (IH (with_fp2ChunkDB d e) Hod Hnd) as (d' & -> & Hod' & Hd').
      { intros k' v Hk'. cbn in Hk'. destruct (decide (k = k')) as [<-|Hne]; [congruence|].
        rewrite Hdne in Hk' by done. eauto. }
      exists d'. split; [done|]. split; [done|]. intros k'. rewrite Hd'. cbn [with_fp2ChunkDB fp2ChunkDB].
      destruct (decide (k' = k)) as [->|Hne].
      * rewrite bool_decide_eq_false_2 by done. rewrite bool_decide_eq_true_2 by (by left).
        by rewrite Ha, Hkeep, Hdk.
      * rewrite !bool_decide_cons_ne by done. by rewrite Hdne.
    + destruct (IH e Ho Hnd Hv) as (d & Hd & Hod & Hdk). exists d. split; [done|]. split; [done|].
      by apply Hgen.
  - destruct (IH e Ho Hnd Hv) as (d & Hd & Hod & Hdk). exists d. split; [done|]. split; [done|].
    by apply Hgen.
Qed.

Lemma GC_spec sc e m :
  Repr sc e m -> only_hashes e ->
  exists e', GC e = Ok (true, e') /\ Repr sc e' (filter (fun x => x.2.2 <> 0) m) /\
    files e' = files e.
Proof.
  intros HR Ho. pose proof HR as [Hwf He]. unfold GC.
  destruct (wf_fp2 _ _ Hwf) as [o Hopen].
  assert (exists l, db_iterator (fp2ChunkDB e) = Ok l) as [l Hl]
    by (unfold db_iterator; rewrite Hopen; by eexists).
  rewrite Hl. cbn [mbind outcome_bind]. apply iterator_spec in Hl as [Hnd Hl].
  destruct (GC_loop_spec sc m l e) as (d & -> & Hod & Hd); [apply Hwf|done| |].
  { intros k v Hk. destruct (Repr_entry _ _ _ _ _ HR Ho Hk) as (key & _ & ? & ? & _). eauto. }
  cbn [mbind outcome_bind]. eexists. split; [done|]. split; [|done].
  assert (Ha : agree sc e (with_fp2ChunkDB d e)) by (split; [done|apply Hwf]).
  split; [by apply (sc_wf_agree sc e)|]. intros h Hh. specialize (He h Hh). unfold entry_ok in *.
  cbn [with_fp2ChunkDB fp2ChunkDB]. rewrite Hd.
  assert (Hin : contents (fp2ChunkDB e) h <> None -> h ∈ l.*1).
  { destruct (contents (fp2ChunkDB e) h) as [v|] eqn:E; [|done]. intros _.
    apply list_elem_of_fmap. exists (h, v). split; [done|]. by apply Hl. }
  destruct (m !! h) as [[dd r]|] eqn:Hm.
  - destruct He as (key & Hk & Hv & Hdc & Hr & Hloc). rewrite Hk in Hin |- *.
    rewrite bool_decide_eq_true_2 by (by apply Hin). unfold keep. cbn [mbind option_bind].
    rewrite takeZ_ge, (unrep_rep key) by (done || by rewrite (rep_length key)). rewrite Hr.
    destruct (Z.eqb_spec r 0) as [->|Hr0].
    + rewrite (map_lookup_filter_None_2 _ m h); [done|]. right. intros x Hx ?. rewrite Hm in Hx.
      injection Hx as <-. done.
    + rewrite (map_lookup_filter_Some_2 _ m h (dd, r)) by done. exists key. by split_and!.
  - rewrite map_lookup_filter_None_2 by (by left). rewrite He. by case_bool_decide.
Qed.
End ManagerRefine.
