(* ===== verification/RewriteRefine.v ===== *)
(** * Rewriting containers keeps the chunk store

    The loop of [rewriteContainer] copies every chunk of a collected container
    into the current one; no entry then points into a collected container, so
    that removing their files loses nothing. *)

From S2P Require Import Prelude.
From S2P Require Import Bytes.
From S2P Require Import DataStructure.
From S2P Require Import Database.
From S2P Require Import Storage.
From S2P Require Import StorageSpec.
From S2P Require Import StorageRefine.
From S2P Require Import Recipe.
From S2P Require Import ChunkerSpec.
From S2P Require Import Manager.
From stdpp Require Import base tactics numbers list gmap strings.
From Stdlib Require Import Ascii ZArith Lia.

Open Scope Z_scope.

Section Rewrite.
Context {db : Type} `{LevelDB db, !LevelDBReliable db}.
Implicit Types (sc : StorageCore) (e : env db) (m : chunk_store) (g : Manager)
  (key : keyForChunkHashDB_t) (l : list (bytes * bytes)) (CL : list bytes).

(** ** What [saveChunk] leaves in the database *)

Lemma roll_container_fp2 sc e sc' e' :
  roll_container sc e = Ok (sc', e') -> fp2ChunkDB e' = fp2ChunkDB e.
Proof.
  unfold roll_container, saveTOFile, write_file. intros Hr. inv_run.
  destruct (writable _ _) in *; inv_run; by destruct (next_permutation _); simplify_eq.
Qed.

Lemma writeContainer_key key data sc e ok key1 sc1 e1 :
  writeContainer key data sc e = Ok (ok, key1, sc1, e1) ->
  fp2ChunkDB e1 = fp2ChunkDB e /\
  containerName key1 = lastContainerFileName_ sc1 ++
    dropZ (lengthZ (lastContainerFileName_ sc1)) (containerName key).
Proof.
  unfold writeContainer, put_chunk. intros Hw. inv_run. split; [|done].
  destruct (_ <? _); simplify_eq; [done|]. by eapply roll_container_fp2.
Qed.

Lemma saveChunk_entry key0 h data size sc e sc' e' :
  saveChunk key0 h data size sc e = Ok (true, sc', e') ->
  exists key1, contents (fp2ChunkDB e') (takeZ CHUNK_HASH_SIZE h) = Some (rep key1) /\
    containerName key1 = lastContainerFileName_ sc' ++
      dropZ (lengthZ (lastContainerFileName_ sc')) (containerName key0) /\
    forall h', takeZ CHUNK_HASH_SIZE h <> h' ->
      contents (fp2ChunkDB e') h' = contents (fp2ChunkDB e) h'.
Proof.
  unfold saveChunk, string_of. intros Hs. inv_run.
  select (writeContainer _ _ _ _ = _) (fun H => apply writeContainer_key in H as [Hfp Hn]).
  repeat (match goal with Hs : context [negb ?b] |- _ => destruct b end; cbn [negb] in Hs; inv_run).
  select (db_insert _ _ _ = _) (fun H => apply insert_spec in H as (_ & Hc & Hne)).
  eexists. split; [exact Hc|]. split.
  - rewrite Hn. cbn. do 2 f_equal.
    select (option bytes) (fun o => destruct o); inv_run; done.
  - intros h' Hh'. cbn. by rewrite Hne, Hfp.
Qed.
(** ** The loop *)

(** Container names in the database are terminated inside their array, so that
    reading them as C strings gives the names. *)
Definition names_terminated sc e : Prop :=
  forall h key, contents (fp2ChunkDB e) h = Some (rep key) -> pod_valid key ->
    cstr (containerName key) = Some (key_container sc key).

(** The bytes behind the name in an uninitialised key terminate it. *)
Definition terminates (n : Z) (key0 : keyForChunkHashDB_t) : Prop :=
  lengthZ (containerName key0) = 16 /\ nthZ (containerName key0) n = Some NUL.

(** Chunks as [saveChunk] stores them: masking them again changes nothing. *)
Definition chunks_stable m : Prop :=
  forall h d r, m !! h = Some (d, r) -> 2 <= lengthZ d <= BODY_SIZE /\ masked d = d.

Context (uninit_key : Z -> keyForChunkHashDB_t).
Context (sc0 : StorageCore) (m : chunk_store) (CL : list bytes) (Hstable : chunks_stable m).
Let last0 := lastContainerFileName_ sc0.
Context (Hlast0 : no_nul last0 /\ 0 < lengthZ last0 < 16).
Context (Huninit : forall n, terminates (lengthZ last0) (uninit_key n)).
Context (HCL : forall n, container_path sc0 n ∈ CL -> lexlt n last0 = true).

(** While the hashes [todo] are left: all other entries have been moved out
    of the containers [CL]. *)
Record rewrite_inv (todo : list bytes) (k : nat) sc e : Prop := {
  ri_repr : Repr sc e m;
  ri_hashes : only_hashes e;
  ri_names : names_terminated sc e;
  ri_last : lastContainerFileName_ sc = last0 \/ lexlt last0 (lastContainerFileName_ sc) = true;
  ri_perm : last0 ≡ₚ lastContainerFileName_ sc;
  ri_left : names_left k (lastContainerFileName_ sc);
  ri_path n : container_path sc n = container_path sc0 n;
  ri_writable n : writable e (container_path sc0 n) = true;
  ri_moved h key : contents (fp2ChunkDB e) h = Some (rep key) -> pod_valid key -> h ∉ todo ->
    container_path sc0 (key_container sc key) ∉ CL
}.

Lemma ri_length todo k sc e :
  rewrite_inv todo k sc e -> lengthZ (lastContainerFileName_ sc) = lengthZ last0.
Proof. intros Hi. rewrite !lengthZ_length. by rewrite (ri_perm _ _ _ _ Hi). Qed.

(** The current container is not collected. *)
Lemma current_not_collected todo k sc e :
  rewrite_inv todo k sc e -> container_path sc0 (lastContainerFileName_ sc) ∉ CL.
Proof.
  intros Hi Hin. apply HCL in Hin. destruct (ri_last _ _ _ _ Hi) as [E|Hlt].
  - rewrite E, lexlt_irrefl in Hin. done.
  - pose proof (lexlt_trans _ _ _ Hin Hlt) as Hc. by rewrite lexlt_irrefl in Hc.
Qed.

Lemma names_left_pred k name : names_left (S k) name -> names_left k name.
Proof. intros. by apply (names_left_le (S k)); [lia|]. Qed.

(** An entry that is absent or not in a collected container is done. *)
Lemma rewrite_inv_skip h todo k sc e :
  rewrite_inv (h :: todo) (S k) sc e ->
  (forall key, contents (fp2ChunkDB e) h = Some (rep key) -> pod_valid key ->
     container_path sc0 (key_container sc key) ∉ CL) ->
  rewrite_inv todo k sc e.
Proof.
  intros [] Hh. split; try done; [by apply names_left_pred|]. intros h' key Hc Hv Hn.
  destruct (decide (h' = h)) as [->|Hne]; [by apply Hh|].
  eapply ri_moved0; [done|done|]. by intros [?|?]%elem_of_cons.
Qed.

Lemma retriveChunk_app (h l : bytes) sc e :
  lengthZ h = CHUNK_HASH_SIZE -> retriveChunk (h ++ l) sc e = retriveChunk h sc e.
Proof.
  intros Hh. unfold retriveChunk. pose proof (lengthZ_nonneg l).
  rewrite string_of_le by (rewrite lengthZ_app; lia). rewrite string_of_exact by done.
  by rewrite takeZ_app_exact by done.
Qed.

(** Moving one chunk. *)
Lemma move_chunk h todo k sc e d r n :
  rewrite_inv (h :: todo) (S k) sc e -> lengthZ h = CHUNK_HASH_SIZE -> m !! h = Some (d, r) ->
  exists sc1 sc2 e2,
    retriveChunk (h ++ [NUL]) sc e = Ok (Some d, sc1) /\
    saveChunk (uninit_key n) (h ++ [NUL]) (d ++ [NUL]) (lengthZ d) sc1 e = Ok (true, sc2, e2) /\
    rewrite_inv todo k sc2 e2.
Proof.
  intros Hi Hh Hm. pose proof (ri_length _ _ _ _ Hi) as Hlen.
  destruct Hi as [HR Hho Hnt Hl Hpm Hnl Hpath Hw Hmv].
  destruct (retriveChunk_found sc e m h d r HR Hh Hm) as (sc1 & Hret & HR1 & rn & rc & ->).
  destruct (Hstable h d r Hm) as [[Hd2 Hdb] Hmask]. assert (HB : BODY_SIZE = 16777216) by reflexivity.
  destruct (saveChunk_spec (with_read rn rc sc) e m (uninit_key n) h (d ++ [NUL]) (lengthZ d))
    as (sc2 & e2 & Hs & HR2 & Hf); try done; try (unfold save_length; rewrite Hm);
    rewrite ?lengthZ_app; cbn [lengthZ]; try lia; [apply Huninit| |].
  { right. split; [apply Hnl|]. rewrite <- (Hw (lastContainerFileName_ sc)), <- Hpath. done. }
  unfold save_length, save_count in HR2. rewrite Hm, takeZ_app_exact, Hmask, insert_id in HR2 by done.
  exists (with_read rn rc sc), sc2, e2. rewrite retriveChunk_app, saveChunk_app by done.
  split; [done|]. split; [done|].
  pose proof (saveChunk_name _ _ _ _ _ _ _ _ _ Hs) as Hname. cbn [with_read lastContainerFileName_] in Hname.
  destruct (saveChunk_entry _ _ _ _ _ _ _ _ Hs) as (key1 & Hc & Hk1 & Hne).
  rewrite takeZ_ge in Hc, Hne by lia.
  assert (Hpath2 : forall n, container_path sc2 n = container_path sc0 n).
  { intros x. rewrite (frame_path _ _ _ _ x Hf). apply Hpath. }
  assert (Hlen2 : lengthZ (lastContainerFileName_ sc2) = lengthZ last0).
  { destruct Hname as [->| ->]; [done|]. by rewrite next_permutation_lengthZ. }
  assert (Hpm2 : last0 ≡ₚ lastContainerFileName_ sc2).
  { destruct Hname as [->| ->]; [done|]. by rewrite <- next_permutation_Permutation. }
  assert (Hkc : forall key, key_container sc2 key = key_container sc key).
  { intros key. unfold key_container. by rewrite Hlen2, Hlen. }
  assert (Hkey1 : forall key, contents (fp2ChunkDB e2) h = Some (rep key) -> pod_valid key ->
            key_container sc2 key = lastContainerFileName_ sc2 /\
            cstr (containerName key) = Some (lastContainerFileName_ sc2)).
  { intros key Hk Hv. rewrite Hc in Hk. injection Hk as Hk.
    assert (Hck : containerName key = containerName key1).
    { cbn [rep key_pod] in Hk. unfold key_rep in Hk. destruct Hv as [Hv _]. destruct (Huninit n) as [H16 _].
      assert (lengthZ (containerName key1) = 16) as Hl1
        by (rewrite Hk1, lengthZ_app, lengthZ_dropZ; lia).
      symmetry in Hk. apply app_inj_1 in Hk; [apply Hk|]. rewrite !lengthZ_length in *. lia. }
    rewrite Hck, Hk1. split.
    - unfold key_container. rewrite Hck, Hk1. by apply takeZ_app_exact.
    - rewrite Hlen2. destruct (Huninit n) as [H16 Hn0]. apply nthZ_dropZ in Hn0 as [rest ->].
      apply cstr_app_nul. unfold no_nul. rewrite <- Hpm2. apply Hlast0. }
  assert (Hl2 : lastContainerFileName_ sc2 = last0 \/ lexlt last0 (lastContainerFileName_ sc2) = true).
  { destruct Hname as [->| ->]; [done|right]. destruct Hnl as [Hnx _].
    pose proof (next_permutation_lexlt _ Hnx). destruct Hl as [<-|Hl]; [done|]. by eapply lexlt_trans. }
  split; try done.
  - intros h' v Hv'. destruct (decide (h = h')) as [<-|Hneq]; [done|].
    rewrite Hne in Hv' by done. by eapply Hho.
  - intros h' key Hk Hv. rewrite Hkc. destruct (decide (h = h')) as [<-|Hneq].
    + destruct (Hkey1 key Hk Hv) as [E1 E2]. rewrite <- Hkc, E1. exact E2.
    + rewrite Hne in Hk by done. by apply (Hnt h').
  - destruct Hname as [->| ->]; [by apply names_left_pred|apply Hnl].
  - intros x. rewrite (frame_writable _ _ _ _ Hf). apply Hw.
  - intros h' key Hk Hv Hnin. destruct (decide (h = h')) as [<-|Hneq].
    + destruct (Hkey1 key Hk Hv) as [-> _]. intros Hin%HCL.
      destruct Hl2 as [E|Hlt]; [by rewrite E, lexlt_irrefl in Hin|].
      pose proof (lexlt_trans _ _ _ Hin Hlt) as Hx. by rewrite lexlt_irrefl in Hx.
    + rewrite Hne in Hk by done. rewrite Hkc. apply (Hmv h'); [done|done|].
      by intros [?|?]%elem_of_cons.
Qed.

(** The manager names containers as the storage does. *)
Definition same_paths g sc : Prop :=
  mg_containerNamePrefix_ g = containerNamePrefix_ sc /\
  mg_containerNameTail_ g = containerNameTail_ sc.

Lemma mg_container_key_path key g name :
  same_paths g sc0 -> cstr (containerName key) = Some name ->
  mg_container_key key g = Ok (container_path sc0 name).
Proof. unfold mg_container_key, container_path. intros [-> ->] ->. done. Qed.

Lemma rep_key_inj key key' :
  pod_valid key -> pod_valid key' -> rep key = rep key' -> key = key'.
Proof. intros Hv Hv' E. by rewrite <- (unrep_rep key), E, (unrep_rep key'). Qed.

Lemma rewrite_loop_spec l n g e :
  same_paths g sc0 -> rewrite_inv l.*1 (length l) (mg_storageObj_ g) e ->
  exists g' e', rewrite_loop uninit_key l CL n g e = Ok (g', e') /\
    rewrite_inv [] 0 (mg_storageObj_ g') e'.
Proof.
  revert n g e; induction l as [|[h v0] l IH]; intros n g e Hp Hi; [by exists g, e|].
  cbn [rewrite_loop fmap list_fmap fst length] in *.
  pose proof (ri_repr _ _ _ _ Hi) as HR. pose proof (ri_hashes _ _ _ _ Hi) as Hho.
  rewrite query_open by apply HR. cbn [mbind outcome_bind].
  destruct (contents (fp2ChunkDB e) h) as [a|] eqn:Ha.
  2: { apply IH; [done|]. apply (rewrite_inv_skip h); [done|]. intros key. by rewrite Ha. }
  destruct (Repr_entry _ _ _ _ _ HR Hho Ha) as (key & d & -> & Hv & _ & Hm & _).
  rewrite load_rep by done. cbn [mbind outcome_bind].
  rewrite (mg_container_key_path key g (key_container (mg_storageObj_ g) key))
    by (done || by apply (ri_names _ _ _ _ Hi h)).
  cbn [mbind outcome_bind]. case_bool_decide as Hin.
  - destruct (move_chunk h l.*1 (length l) _ e d _ n Hi (Hho _ _ Ha) Hm)
      as (sc1 & sc2 & e2 & -> & Hs & Hi2).
    cbn [mbind outcome_bind default from_option id]. rewrite Hs. cbn [mbind outcome_bind].
    by apply IH.
  - apply IH; [done|]. apply (rewrite_inv_skip h); [done|]. intros key' Hk Hv'.
    rewrite Ha in Hk. injection Hk as Hk. by rewrite <- (rep_key_inj key key').
Qed.

(** Removing the collected files afterwards loses nothing. *)
Lemma remove_all_spec (l : list bytes) e :
  fp2ChunkDB (remove_all l e) = fp2ChunkDB e /\ containerDB (remove_all l e) = containerDB e /\
  forall p, files (remove_all l e) !! p = if bool_decide (p ∈ l) then None else files e !! p.
Proof.
  unfold remove_all. revert e; induction l as [|f l IH]; intros e; cbn [foldl].
  - split_and!; [done..|]. intros p. by rewrite bool_decide_eq_false_2 by (by intros ?%elem_of_nil).
  - destruct (IH (remove_file f e)) as (-> & -> & Hf). split_and!; [done..|]. intros p.
    rewrite Hf. unfold remove_file. cbn [files with_files]. destruct (decide (p = f)) as [->|Hne].
    + rewrite lookup_delete_eq. rewrite (bool_decide_eq_true_2 (f ∈ f :: l)) by (by left).
      by case_bool_decide.
    + by rewrite bool_decide_cons_ne, lookup_delete_ne by done.
Qed.

Lemma rewrite_inv_removed k sc e : rewrite_inv [] k sc e -> Repr sc (remove_all CL e) m.
Proof.
  intros Hi. destruct (remove_all_spec CL e) as (Hfp & Hcdb & Hf).
  pose proof (ri_repr _ _ _ _ Hi) as [Hwf He].
  assert (Hcf : forall n c, container_file sc (remove_all CL e) n c -> container_file sc e n c).
  { intros n c (? & Hn & ?). split_and!; [done| |done]. rewrite Hf in Hn. by case_bool_decide. }
  split.
  - destruct Hwf as [????? Hc ??]. split; rewrite ?Hfp, ?Hcdb; try done.
    destruct Hc as [?|[? Hb]]; [by left|right]. split; [done|]. intros c Hc. by apply Hb, Hcf.
  - intros h Hh. specialize (He h Hh). unfold entry_ok in *. rewrite Hfp.
    destruct (m !! h) as [[d r]|]; [|done]. destruct He as (key & Hk & Hv & ? & ? & Hl).
    exists key. split_and!; try done.
    pose proof (ri_moved _ _ _ _ Hi h key Hk Hv (not_elem_of_nil _)) as Hn.
    destruct Hl as (? & ? & ? & [Hl|(c & (? & Hc & ?) & ?)]); split_and!; try done; [by left|right].
    exists c. split; [|done]. split_and!; [done| |done]. rewrite Hf.
    rewrite bool_decide_eq_false_2; [done|]. by rewrite (ri_path _ _ _ _ Hi).
Qed.
End Rewrite.

Section Collect.
Context {db : Type} `{LevelDB db, !LevelDBReliable db}.
Implicit Types (sc : StorageCore) (e : env db) (m : chunk_store) (g : Manager)
  (l : list (bytes * bytes)).

(** ** Which containers are collected *)

(** A recorded container of at most 8300000 bytes other than the last one. *)
Definition collected g e (p : bytes) : Prop :=
  exists v z, contents (containerDB e) p = Some v /\ stoi v = Ok z /\ z <= 8300000 /\
    p <> mg_containerNamePrefix_ g ++ mg_lastContainerFileName_ g ++ mg_containerNameTail_ g.

Lemma collected_ext g e d p :
  contents d p = contents (containerDB e) p -> collected g (with_containerDB d e) p <-> collected g e p.
Proof. intros E. unfold collected. cbn [containerDB with_containerDB]. by rewrite E. Qed.

Lemma collect_loop_spec l acc g e :
  is_open (containerDB e) -> NoDup l.*1 ->
  (forall p v, contents (containerDB e) p = Some v -> exists z, stoi v = Ok z) ->
  exists CL d, collect_loop l acc g e = Ok (acc ++ CL, with_containerDB d e) /\ is_open d /\
    forall p, p ∈ CL <-> p ∈ l.*1 /\ collected g e p.
Proof.
  revert acc e; induction l as [|[k v0] l IH]; intros acc e Ho Hnd Hz.
  { exists [], (containerDB e). rewrite app_nil_r. split; [by destruct e|]. split; [done|].
    intros p. split; [by intros ?%elem_of_nil|by intros [?%elem_of_nil _]]. }
  cbn [collect_loop fmap list_fmap fst] in *. apply NoDup_cons in Hnd as [Hnin Hnd].
  rewrite query_open by done. cbn [mbind outcome_bind].
  assert (Hskip : ~ collected g e k ->
    exists CL d, collect_loop l acc g e = Ok (acc ++ CL, with_containerDB d e) /\ is_open d /\
      forall p, p ∈ CL <-> p ∈ k :: l.*1 /\ collected g e p).
  { intros Hn. destruct (IH acc e Ho Hnd Hz) as (CL & d & HC & Hd & Hiff). exists CL, d.
    split_and!; [done..|]. intros p. rewrite Hiff, elem_of_cons. split; [intuition|].
    intros [[->|?] ?]; [done|]. by split. }
  destruct (contents (containerDB e) k) as [v|] eqn:Hv.
  2: { apply Hskip. intros (v & z & Hc & _). congruence. }
  destruct (Hz k v Hv) as [z Hsz]. rewrite Hsz. cbn [mbind outcome_bind].
  destruct (_ && _) eqn:Hcond.
  - apply andb_true_iff in Hcond as [Hle%Z.leb_le Hne%negb_true_iff%bool_decide_eq_false_1].
    destruct (delete_total (containerDB e) k Ho) as (d & Hd). rewrite Hd. cbn [mbind outcome_bind].
    apply delete_spec in Hd as (Hod & Hdk & Hdne).
    destruct (IH (acc ++ [k]) (with_containerDB d e)) as (CL & d' & -> & Hod' & Hiff); [done|done| |].
    { intros p v' Hp. cbn in Hp. destruct (decide (k = p)) as [<-|Hn]; [congruence|].
      rewrite Hdne in Hp by done. by eapply Hz. }
    exists (k :: CL), d'. rewrite <- app_assoc. split_and!; [done..|]. intros p.
    rewrite !elem_of_cons, Hiff. destruct (decide (p = k)) as [->|Hn].
    + split; [|by left]. intros _. split; [by left|]. by exists v, z.
    + rewrite collected_ext by (by apply Hdne). intuition.
  - apply Hskip. intros (v' & z' & Hv' & Hz' & Hle & Hne). assert (z' = z) as -> by congruence.
    rewrite (proj2 (Z.leb_le _ _)), bool_decide_eq_false_2 in Hcond by done. done.
Qed.

(** ** rewriteContainer *)

(** Containers in the database are those written so far, with their sizes. *)
Definition containers_recorded sc e : Prop :=
  forall p v, contents (containerDB e) p = Some v ->
    (exists n, p = container_path sc n /\
      (n = lastContainerFileName_ sc \/ lexlt n (lastContainerFileName_ sc) = true)) /\
    exists z, stoi v = Ok z.

(** The manager of a store, with names for every chunk it may move. *)
Record rewrite_ready sc g e m : Prop := {
  rr_storage : mg_storageObj_ g = sc;
  rr_repr : Repr sc e m;
  rr_hashes : only_hashes e;
  rr_stable : chunks_stable m;
  rr_terminated : names_terminated sc e;
  rr_paths : same_paths g sc;
  rr_last : mg_lastContainerFileName_ g = lastContainerFileName_ sc;
  rr_name : no_nul (lastContainerFileName_ sc) /\ 0 < lengthZ (lastContainerFileName_ sc) < 16;
  rr_left l : db_iterator (fp2ChunkDB e) = Ok l -> names_left (length l) (lastContainerFileName_ sc);
  rr_writable n : writable e (container_path sc n) = true;
  rr_recorded : containers_recorded sc e
}.

Lemma iterator_open (d : Database db) : is_open d -> exists l, db_iterator d = Ok l.
Proof. intros [o Ho]. unfold db_iterator. rewrite Ho. by eexists. Qed.

(** Nothing has been moved when the loop starts. *)
Lemma rewrite_inv_start sc g e m CL d l :
  rewrite_ready sc g e m -> is_open d -> db_iterator (fp2ChunkDB e) = Ok l ->
  rewrite_inv sc m CL l.*1 (length l) sc (with_containerDB d e).
Proof.
  intros [] Hd Hl. split; try done; [|by left|by apply rr_left0|].
  - apply (Repr_agree sc e); [|done|done]. by split.
  - intros h key Hc _ Hn. apply iterator_spec in Hl as [_ Hl]. destruct Hn.
    apply list_elem_of_fmap. exists (h, rep key). split; [done|]. by apply Hl.
Qed.

Lemma rewriteContainer_spec uninit_key sc g e m :
  rewrite_ready sc g e m ->
  (forall n, terminates (lengthZ (lastContainerFileName_ sc)) (uninit_key n)) ->
  exists g' e', rewriteContainer uninit_key g e = Ok (true, g', e') /\
    Repr (mg_storageObj_ g') e' m /\
    (forall p, collected g e p -> files e' !! p = None) /\
    forall h key, contents (fp2ChunkDB e') h = Some (rep key) -> pod_valid key ->
      ~ collected g e (container_path sc (key_container (mg_storageObj_ g') key)).
Proof.
  intros Hr Hun. pose proof (rr_repr _ _ _ _ Hr) as HR. pose proof HR as [Hwf _].
  unfold rewriteContainer. destruct (iterator_open _ (wf_cdb _ _ Hwf)) as [cl Hcl].
  rewrite Hcl. cbn [mbind outcome_bind]. apply iterator_spec in Hcl as [Hnd Hcl].
  destruct (collect_loop_spec cl [] g e) as (CL & d & -> & Hd & Hiff); [apply Hwf|done| |].
  { intros p v Hv. by destruct (rr_recorded _ _ _ _ Hr p v Hv) as [_ ?]. }
  cbn [mbind outcome_bind app].
  assert (HCL : forall p, p ∈ CL <-> collected g e p).
  { intros p. rewrite Hiff. split; [by intros [_ ?]|]. intros Hp. split; [|done].
    destruct Hp as (v & z & Hv & _). apply list_elem_of_fmap. exists (p, v).
    split; [done|]. by apply Hcl. }
  destruct (iterator_open _ (wf_fp2 _ _ Hwf)) as [l Hl].
  pose proof (rewrite_inv_start sc g e m CL d l Hr Hd Hl) as Hi.
  case_bool_decide as Hnil.
  { subst CL. exists g, (with_containerDB d e). rewrite (rr_storage _ _ _ _ Hr).
    split_and!; [done|apply Hi| |].
    - intros p Hp%HCL. by apply elem_of_nil in Hp.
    - intros h key _ _ Hp%HCL. by apply elem_of_nil in Hp. }
  cbn [fp2ChunkDB with_containerDB]. rewrite Hl. cbn [mbind outcome_bind].
  destruct (rewrite_loop_spec uninit_key sc m CL (rr_stable _ _ _ _ Hr) (rr_name _ _ _ _ Hr) Hun)
    with (l := l) (n := 0) (g := g) (e := with_containerDB d e) as (g' & e' & -> & Hi').
  { intros n Hn%HCL. destruct Hn as (v & z & Hv & _ & _ & Hne).
    destruct (rr_recorded _ _ _ _ Hr _ _ Hv) as [(n' & E & Hn') _].
    apply container_path_inj in E as <-. destruct Hn' as [->|?]; [|done]. destruct Hne.
    unfold container_path. destruct (rr_paths _ _ _ _ Hr) as [-> ->].
    by rewrite (rr_last _ _ _ _ Hr). }
  { apply Hr. }
  { by rewrite (rr_storage _ _ _ _ Hr). }
  cbn [mbind outcome_bind]. destruct (remove_all_spec CL e') as (Hfp & _ & Hf).
  eexists g', _. split_and!; [done|by eapply rewrite_inv_removed| |].
  - intros p Hp%HCL. by rewrite Hf, bool_decide_eq_true_2.
  - intros h key Hk Hv Hp%HCL. rewrite Hfp in Hk.
    by apply (ri_moved _ _ _ _ _ _ _ Hi' h key Hk Hv (not_elem_of_nil _)).
Qed.
End Collect.
