(* ===== verification/UpdateRefine.v ===== *)
(** * Replacing chunks by their deltas

    What [update_chunk], the body of the loop of [updateContainer], does to
    the databases and the container file, and that the other chunks of the
    container stay where they are. *)

From S2P Require Import Prelude.
From S2P Require Import Bytes.
From S2P Require Import DataStructure.
From S2P Require Import Database.
From S2P Require Import Storage.
From S2P Require Import StorageSpec.
From S2P Require Import Manager.
From stdpp Require Import base tactics numbers list gmap strings.
From Stdlib Require Import Ascii ZArith Lia.

Open Scope Z_scope.

(** ** Writing into a file *)

Lemma write_at_inside off (d content : bytes) :
  0 <= off -> off + lengthZ d <= lengthZ content ->
  write_at off d content = takeZ off content ++ d ++ dropZ (off + lengthZ d) content.
Proof.
  intros ? Hle. unfold write_at. pose proof (lengthZ_nonneg d).
  replace (Z.to_nat (off - lengthZ content)) with 0%nat by lia. cbn [replicate].
  by rewrite app_nil_r.
Qed.

Lemma write_at_length off (d content : bytes) :
  0 <= off -> off + lengthZ d <= lengthZ content ->
  lengthZ (write_at off d content) = lengthZ content.
Proof.
  intros ? Hle. rewrite write_at_inside, !lengthZ_app by done. pose proof (lengthZ_nonneg d).
  rewrite lengthZ_takeZ, lengthZ_dropZ by lia. lia.
Qed.

Lemma write_at_slice off (d content : bytes) :
  0 <= off -> off + lengthZ d <= lengthZ content ->
  slice off (lengthZ d) (write_at off d content) = d.
Proof.
  intros ? Hle. rewrite write_at_inside by done. pose proof (lengthZ_nonneg d).
  assert (lengthZ (takeZ off content) = off) as Ht by (rewrite lengthZ_takeZ; lia).
  unfold slice. rewrite dropZ_app_exact by done. by apply takeZ_app_exact.
Qed.

(** A window that does not meet the written bytes is as before. *)
Lemma write_at_slice_disjoint off (d content : bytes) off' len' :
  0 <= off -> off + lengthZ d <= lengthZ content -> 0 <= off' -> 0 <= len' ->
  off' + len' <= lengthZ content -> off' + len' <= off \/ off + lengthZ d <= off' ->
  slice off' len' (write_at off d content) = slice off' len' content.
Proof.
  intros ? Hle ? ? ? Hdis. rewrite write_at_inside by done. pose proof (lengthZ_nonneg d).
  assert (lengthZ (takeZ off content) = off) as Ht by (rewrite lengthZ_takeZ; lia).
  rewrite <- (takeZ_dropZ off content) at 3. destruct Hdis.
  - by rewrite !slice_app_l by lia.
  - rewrite (slice_skip _ _ (takeZ off content)) by lia. rewrite slice_skip by lia.
    rewrite (slice_skip _ _ (takeZ off content)) by lia. rewrite Ht. unfold slice.
    rewrite <- (dropZ_dropZ (lengthZ d) off) by lia. rewrite dropZ_dropZ by lia.
    f_equal. f_equal. lia.
Qed.

(** The new size, when it is an [int], in spite of the unsigned detour. *)
Lemma updated_size_exact size len len' :
  - 2 ^ 31 <= size - len + len' < 2 ^ 31 -> updated_size size len len' = size - len + len'.
Proof.
  intros Hr. unfold updated_size, u32. rewrite Zminus_mod_idemp_r.
  replace (size - (len - len')) with (size - len + len') by lia. by apply i32_u32.
Qed.

Section Update.
Context {db : Type} `{LevelDB db, !LevelDBReliable db}.
Implicit Types (sc : StorageCore) (e : env db) (g : Manager) (key : keyForChunkHashDB_t).

Definition mg_path g (name : bytes) : bytes :=
  mg_containerNamePrefix_ g ++ name ++ mg_containerNameTail_ g.
Definition delta_path g (name : bytes) : bytes :=
  DeltacontainerNamePrefix_ g ++ name ++ mg_containerNameTail_ g.

(** [key] lies in the file of the container [name]: the name is read both as
    a C string and by its length. *)
Record in_container g key (name : bytes) : Prop := {
  ic_valid : pod_valid key;
  ic_cstr : cstr (containerName key) = Some name;
  ic_length : lengthZ (mg_lastContainerFileName_ g) = lengthZ name
}.

Lemma in_container_name g key name :
  in_container g key name ->
  string_of (containerName key) (lengthZ (mg_lastContainerFileName_ g)) = Ok name.
Proof.
  intros [_ Hc Hl]. apply cstr_Some in Hc as (_ & l' & ->). pose proof (lengthZ_nonneg l').
  rewrite string_of_le by (rewrite lengthZ_app; cbn [lengthZ]; lia).
  by rewrite takeZ_app_exact by done.
Qed.

Lemma in_container_key g key name : in_container g key name -> mg_container_key key g = Ok (mg_path g name).
Proof. intros [_ Hc _]. unfold mg_container_key. by rewrite Hc. Qed.

(** An update that can be applied. *)
Record can_update (h : bytes) key (ukey : keyForChunkHashDB_t) (name dname v content dcontent : bytes)
    (size : Z) g e : Prop := {
  cu_open : is_open (fp2ChunkDB e);
  cu_key : in_container g key name;
  cu_ukey : in_container g ukey dname;
  cu_delta : contents (deltaChunkDB e) h = Some (rep ukey);
  cu_recorded : contents (containerDB e) (mg_path g name) = Some v;
  cu_size : stoi v = Ok size;
  cu_range : - 2 ^ 31 <= size - key_length key + key_length ukey < 2 ^ 31;
  cu_file : files e !! mg_path g name = Some content;
  cu_inside : key_offset key + key_length key <= lengthZ content;
  cu_shorter : key_length ukey <= key_length key <= MAX_CHUNK_SIZE * 2;
  cu_writable : writable e (mg_path g name) = true;
  cu_dfile : files e !! delta_path g dname = Some dcontent;
  cu_dinside : key_offset ukey + key_length ukey <= lengthZ dcontent <= BODY_SIZE
}.

Lemma mg_readDeltaContainer_spec g e key name content :
  in_container g key name -> files e !! delta_path g name = Some content ->
  key_offset key + key_length key <= lengthZ content <= BODY_SIZE ->
  key_length key <= MAX_CHUNK_SIZE * 2 ->
  exists d g', mg_readDeltaContainer key g e = Ok (true, d, g') /\
    takeZ (key_length key) d = slice (key_offset key) (key_length key) content /\
    lengthZ d = MAX_CHUNK_SIZE * 2 /\ g' = mg_with_read name (mg_currentReadContainer_ g') g.
Proof.
  intros Hic Hf Hin Hlen. destruct (ic_valid _ _ _ Hic) as (_ & Ho & Hl & _).
  unfold mg_readDeltaContainer. rewrite (in_container_name _ _ _ Hic). cbn [mbind outcome_bind].
  unfold delta_path in Hf. rewrite Hf.
  rewrite !(proj2 (Z.leb_le _ _)) by lia. cbn [mbind outcome_bind require body_].
  assert (Hd : read_mem (write_mem (body_ (mg_currentReadContainer_ g)) 0 content) (key_offset key)
            (key_length key) = slice (key_offset key) (key_length key) content).
  { replace (key_offset key) with (0 + key_offset key) at 1 by lia. apply read_write_slice; lia. }
  rewrite Hd. eexists _, _. split; [done|].
  assert (lengthZ (slice (key_offset key) (key_length key) content) = key_length key) as Hs
    by (apply lengthZ_slice; lia).
  split_and!; [by apply takeZ_app_exact| |done].
  rewrite lengthZ_app, lengthZ_dropZ by lia. unfold delta_buffer, MAX_CHUNK_SIZE in *.
  assert (Hrep : forall n x, lengthZ (replicate n x : bytes) = Z.of_nat n)
    by (intros; by rewrite lengthZ_length, length_replicate).
  rewrite Hrep. lia.
Qed.

Lemma update_chunk_spec h key ukey name dname v content dcontent size g e :
  can_update h key ukey name dname v content dcontent size g e ->
  exists g' e', update_chunk h key g e = Ok (g', e') /\
    (let key' := mkKey (containerName key) (key_offset key) (key_length ukey) (key_count key)
                   (deltaCount ukey) in
     contents (fp2ChunkDB e') h = Some (rep key')) /\
    (forall h', h <> h' -> contents (fp2ChunkDB e') h' = contents (fp2ChunkDB e) h') /\
    contents (containerDB e') (mg_path g name) =
      Some (to_string (size - key_length key + key_length ukey)) /\
    contents (deltaChunkDB e') h = None /\
    files e' = <[mg_path g name := write_at (key_offset key)
                  (slice (key_offset ukey) (key_length ukey) dcontent) content]> (files e).
Proof.
  intros []. destruct (ic_valid _ _ _ cu_key0) as (Hn16 & Hko & Hkl & Hkc & Hkd).
  destruct (ic_valid _ _ _ cu_ukey0) as (_ & Huo & Hul & _ & Hud).
  unfold update_chunk. rewrite (query_open (deltaChunkDB e)) by (by eapply contents_open).
  rewrite cu_delta0. cbn [mbind outcome_bind default from_option id].
  rewrite load_rep by apply cu_ukey0. cbn [mbind outcome_bind].
  rewrite (in_container_key _ _ _ cu_key0). cbn [mbind outcome_bind].
  rewrite (query_open (containerDB e)) by (by eapply contents_open).
  rewrite cu_recorded0. cbn [mbind outcome_bind default from_option id]. rewrite cu_size0. cbn [mbind outcome_bind].
  rewrite updated_size_exact by done.
  destruct (insert_total (containerDB e) (mg_path g name)
    (to_string (size - key_length key + key_length ukey))) as (dc & Hdc); [by eapply contents_open|].
  rewrite Hdc. cbn [mbind outcome_bind].
  match goal with |- context [db_insert (fp2ChunkDB e) h (rep ?k)] =>
    destruct (insert_total (fp2ChunkDB e) h (rep k)) as (df & Hdf); [done|] end.
  rewrite Hdf. cbn [mbind outcome_bind].
  set (e1 := with_fp2ChunkDB df (with_containerDB dc e)).
  destruct (mg_readDeltaContainer_spec g e1 ukey dname dcontent) as (d & g' & -> & Htd & Hld & Hg');
    [done|done|done|lia|]. cbn [mbind outcome_bind].
  unfold updateContainerFile. cbn [containerName].
  assert (mg_lastContainerFileName_ g' = mg_lastContainerFileName_ g) as -> by (by rewrite Hg').
  rewrite (in_container_name _ _ _ cu_key0). cbn [mbind outcome_bind].
  assert (mg_containerNamePrefix_ g' ++ name ++ mg_containerNameTail_ g' = mg_path g name) as ->
    by (by rewrite Hg').
  cbn [files writable e1 with_fp2ChunkDB with_containerDB]. rewrite cu_file0, cu_writable0.
  rewrite string_of_le by lia. subst e1.
  cbn [mbind outcome_bind deltaChunkDB with_files with_fp2ChunkDB with_containerDB].
  destruct (delete_total (deltaChunkDB e) h) as (dd & Hdd); [by eapply contents_open|].
  rewrite Hdd. cbn [mbind outcome_bind]. eexists g', _. split; [done|].
  apply insert_spec in Hdc as (_ & Hdc & _). apply insert_spec in Hdf as (_ & Hdf & Hdfne).
  apply delete_spec in Hdd as (_ & Hdd & _). rewrite Htd. done.
Qed.

(** A chunk elsewhere, or in another part of the container, stays located. *)
Lemma located_write_at sc e e' key' d' path off (d content : bytes) :
  0 <= off -> off + lengthZ d <= lengthZ content ->
  files e !! path = Some content -> files e' = <[path := write_at off d content]> (files e) ->
  (container_path sc (key_container sc key') = path ->
     key_offset key' + key_length key' <= off \/ off + lengthZ d <= key_offset key') ->
  0 <= key_length key' -> located sc e key' d' -> located sc e' key' d'.
Proof.
  intros Ho Hle Hf Hf' Hdis Hk0 (? & ? & ? & [Hl|(c & (? & Hc & ?) & ? & Hs)]); split_and!; try done;
    [by left|right].
  destruct (decide (container_path sc (key_container sc key') = path)) as [E|Hne].
  - assert (c = content) as -> by (rewrite E in Hc; congruence).
    exists (write_at off d content). unfold container_file. rewrite Hf', E, write_at_length by done.
    split_and!; try done; [apply lookup_insert_eq|].
    rewrite write_at_slice_disjoint by (done || lia || auto). done.
  - exists c. unfold container_file. by rewrite Hf', lookup_insert_ne by done.
Qed.
End Update.
