(* ===== verification/DeltaStore.v ===== *)
(** * DeltaCompressor: delta containers (src/compressor.cc)

    The delta containers repeat the containers of [StorageCore] in a directory
    of their own, with [.DeltaConfig] and the database [deltaChunkDB]; their
    sizes are not recorded in [containerDB].  [compress] is in Compress.v. *)

From S2P Require Import Prelude.
From S2P Require Import Bytes.
From S2P Require Import DataStructure.
From S2P Require Import Database.
From S2P Require Import Storage.
From S2P Require Import Recipe.
From S2P Require Import StorageSpec.
From S2P Require Import StorageRefine.
From stdpp Require Import base tactics numbers list gmap strings.
From Stdlib Require Import Ascii ZArith Lia.

Open Scope Z_scope.

(** [DeltaContainer] has the fields of [Container]. *)
Definition DeltaContainer : Type := Container.

(** [storageObj_] is the object pointed to; [cryptoObj_] is not used. *)
Record DeltaCompressor : Type := mkDeltaCompressor
  { dc_storageObj_ : StorageCore;
    dc_lastContainerFileName_ : bytes;
    dc_currentReadContainerFileName_ : bytes;
    dc_containerNamePrefix_ : bytes;
    dc_containerNameTail_ : bytes;
    dc_maxContainerSize_ : Z;
    dc_currentContainer_ : DeltaContainer;
    dc_currentReadContainer_ : DeltaContainer;
    groupList : list (list bytes) }.

Implicit Types (dc : DeltaCompressor) (key : keyForChunkHashDB_t).

Definition dc_with_current (name : bytes) (c : DeltaContainer) dc : DeltaCompressor :=
  mkDeltaCompressor (dc_storageObj_ dc) name (dc_currentReadContainerFileName_ dc)
    (dc_containerNamePrefix_ dc) (dc_containerNameTail_ dc) (dc_maxContainerSize_ dc) c
    (dc_currentReadContainer_ dc) (groupList dc).
Definition dc_with_read (name : bytes) (c : DeltaContainer) dc : DeltaCompressor :=
  mkDeltaCompressor (dc_storageObj_ dc) (dc_lastContainerFileName_ dc) name
    (dc_containerNamePrefix_ dc) (dc_containerNameTail_ dc) (dc_maxContainerSize_ dc)
    (dc_currentContainer_ dc) c (groupList dc).
Definition dc_with_storage (sc : StorageCore) dc : DeltaCompressor :=
  mkDeltaCompressor sc (dc_lastContainerFileName_ dc) (dc_currentReadContainerFileName_ dc)
    (dc_containerNamePrefix_ dc) (dc_containerNameTail_ dc) (dc_maxContainerSize_ dc)
    (dc_currentContainer_ dc) (dc_currentReadContainer_ dc) (groupList dc).
Definition dc_with_groups (gs : list (list bytes)) dc : DeltaCompressor :=
  mkDeltaCompressor (dc_storageObj_ dc) (dc_lastContainerFileName_ dc)
    (dc_currentReadContainerFileName_ dc) (dc_containerNamePrefix_ dc) (dc_containerNameTail_ dc)
    (dc_maxContainerSize_ dc) (dc_currentContainer_ dc) (dc_currentReadContainer_ dc) gs.

Definition dc_container_path dc (name : bytes) : bytes :=
  dc_containerNamePrefix_ dc ++ name ++ dc_containerNameTail_ dc.

Definition DeltaConfig : bytes := str ".DeltaConfig".

Section DeltaStore.
Context {db : Type} `{LevelDB db}.
Implicit Types (e : env db).

(** [DeltaContainer::saveTOFile] *)
Definition delta_saveTOFile (c : DeltaContainer) (fileName : bytes) e : outcome (bool * env db) :=
  if writable e fileName then
    _ ← require (used_ c <=? BODY_SIZE);
    let '(_, e1) := write_file fileName (read_mem (body_ c) 0 (used_ c)) e in
    Ok (true, e1)
  else Ok (false, e).

(** [m], [m'] are the uninitialised bodies. *)
Definition DeltaCompressor_new (deltaRoot : bytes) (maxSize : Z) (m m' : Z -> byte)
    (sc : StorageCore) e : outcome DeltaCompressor :=
  let mk name c :=
    mkDeltaCompressor sc name [] deltaRoot (str ".container") maxSize c (mkContainer 0 m') [] in
  match files e !! DeltaConfig with
  | Some cfg =>
      let '(name, rest) := read_token (skip_space cfg) in
      let used := read_uint32 rest in
      _ ← require (used <=? BODY_SIZE);
      let content := default [] (files e !! (deltaRoot ++ name ++ str ".container")) in
      Ok (mk name (mkContainer used (write_mem m 0 (takeZ used content))))
  | None => Ok (mk first_container_name (mkContainer 0 m))
  end.

Definition DeltaCompressor_delete dc e : outcome (env db) :=
  let '(_, e1) := write_file DeltaConfig
    (dc_lastContainerFileName_ dc ++ [newline] ++
     to_string (used_ (dc_currentContainer_ dc)) ++ [newline]) e in
  '(_, e2) ← delta_saveTOFile (dc_currentContainer_ dc)
               (dc_container_path dc (dc_lastContainerFileName_ dc)) e1;
  Ok e2.

(** The two [memcpy] of [writeDeltaContainer]. *)
Definition put_delta key (data : bytes) dc : outcome (keyForChunkHashDB_t * DeltaCompressor) :=
  let c := dc_currentContainer_ dc in
  _ ← require (used_ c + key_length key <=? BODY_SIZE);
  d ← string_of data (key_length key);
  let c' := mkContainer (used_ c) (write_mem (body_ c) (used_ c) d) in
  let name := dc_lastContainerFileName_ dc in
  _ ← require (lengthZ name <=? 16);
  Ok (key_with_name (name ++ dropZ (lengthZ name) (containerName key)) key,
      dc_with_current name c' dc).

Definition roll_delta_container dc e : outcome (DeltaCompressor * env db) :=
  '(_, e1) ← delta_saveTOFile (dc_currentContainer_ dc)
               (dc_container_path dc (dc_lastContainerFileName_ dc)) e;
  let '(_, name) := next_permutation (dc_lastContainerFileName_ dc) in
  Ok (dc_with_current name (mkContainer 0 (body_ (dc_currentContainer_ dc))) dc, e1).

Definition writeDeltaContainer key (data : bytes) dc e :
    outcome (bool * keyForChunkHashDB_t * DeltaCompressor * env db) :=
  '(dc1, e1) ←
    (if u32 (key_length key + used_ (dc_currentContainer_ dc)) <? dc_maxContainerSize_ dc
     then Ok (dc, e) else roll_delta_container dc e);
  '(key1, dc2) ← put_delta key data dc1;
  Ok (true, key_with_offset (used_ (dc_currentContainer_ dc2)) key1, dc2, e1).

(** [None] is false; [Some d] is true with [d] copied to [data]. *)
Definition readDeltaContainer key dc e : outcome (option bytes * DeltaCompressor) :=
  name ← string_of (containerName key) (lengthZ (dc_lastContainerFileName_ dc));
  let copy (c : DeltaContainer) :=
    _ ← require (key_offset key + key_length key <=? BODY_SIZE);
    Ok (read_mem (body_ c) (key_offset key) (key_length key)) in
  if bool_decide (name = dc_currentReadContainerFileName_ dc) then
    d ← copy (dc_currentReadContainer_ dc); Ok (Some d, dc)
  else if bool_decide (name = dc_lastContainerFileName_ dc) then
    d ← copy (dc_currentContainer_ dc); Ok (Some d, dc)
  else
    match files e !! dc_container_path dc name with
    | None => Ok (None, dc)
    | Some content =>
        _ ← require (lengthZ content <=? BODY_SIZE);
        let c := mkContainer (lengthZ content)
                   (write_mem (body_ (dc_currentReadContainer_ dc)) 0 content) in
        d ← copy c;
        Ok (Some d, dc_with_read name c dc)
    end.

(** [saveDeltaChunk]; the argument [baseHash] is not used. *)
Definition saveDeltaChunk (chunkhash baseHash chunkData : bytes) (chunkSize : Z) dc e :
    outcome (bool * DeltaCompressor * env db) :=
  chunkHash ← string_of chunkhash CHUNK_HASH_SIZE;
  ans ← db_query (fp2ChunkDB e) chunkHash;
  match ans with
  | None => Ok (false, dc, e)
  | Some a =>
      found ← load a;
      let key := mkKey (containerName found) (key_offset found) (u32 chunkSize) (key_count found)
                   (u32 (deltaCount found + 1)) in
      '(status, key1, dc1, e1) ← writeDeltaContainer key chunkData dc e;
      if negb status then Ok (false, dc1, e1) else
      '(status, d) ← db_insert (deltaChunkDB e1) chunkHash (rep key1);
      let e2 := with_deltaChunkDB d e1 in
      if negb status then Ok (false, dc1, e2) else
      let c := dc_currentContainer_ dc1 in
      Ok (true,
          dc_with_current (dc_lastContainerFileName_ dc1)
            (mkContainer (u32 (used_ c + key_length key1)) (body_ c)) dc1, e2)
  end.

Definition restoreDeltaChunk (chunkhash : bytes) dc e : outcome (option bytes * DeltaCompressor) :=
  chunkHash ← string_of chunkhash CHUNK_HASH_SIZE;
  ans ← db_query (deltaChunkDB e) chunkHash;
  match ans with
  | None => Ok (None, dc)
  | Some a =>
      key ← load a;
      readDeltaContainer key dc e
  end.
End DeltaStore.

(** * The delta containers refine a map from hashes to deltas

    The operations on delta containers are those of [StorageCore] on the
    object [as_storage dc], except that container sizes are not recorded; the
    lemmas of [StorageSpec] carry over along this correspondence. *)

(** ** The delta containers as a [StorageCore] *)

Definition as_storage (dc : DeltaCompressor) : StorageCore :=
  mkStorageCore (dc_lastContainerFileName_ dc) (dc_currentReadContainerFileName_ dc)
    (dc_containerNamePrefix_ dc) (dc_containerNameTail_ dc) [] (str ".recipe")
    (dc_currentContainer_ dc) (dc_currentReadContainer_ dc) (dc_maxContainerSize_ dc).

(** The object [dc] with the containers of [sc]. *)
Definition of_storage (sc : StorageCore) (dc : DeltaCompressor) : DeltaCompressor :=
  dc_with_read (currentReadContainerFileName_ sc) (currentReadContainer_ sc)
    (dc_with_current (lastContainerFileName_ sc) (currentContainer_ sc) dc).

Section DeltaRefine.
Context {db : Type} `{LevelDB db, !LevelDBReliable db}.
Implicit Types (e : env db)
  (m : gmap bytes bytes).

Lemma of_storage_id dc : of_storage (as_storage dc) dc = dc.
Proof. by destruct dc. Qed.

Lemma put_delta_storage key data dc key1 sc1 :
  put_chunk key data (as_storage dc) = Ok (key1, sc1) ->
  put_delta key data dc = Ok (key1, of_storage sc1 dc) /\ as_storage (of_storage sc1 dc) = sc1.
Proof.
  unfold put_chunk, put_delta. cbn [as_storage currentContainer_ lastContainerFileName_].
  intros Hp. inv_run. split; [|done].
  repeat match goal with E : _ = true |- _ => rewrite E; cbn [mbind outcome_bind require] end.
  match goal with E : string_of _ _ = Ok _ |- _ => rewrite E; cbn [mbind outcome_bind] end.
  repeat match goal with E : _ = true |- _ => rewrite E; cbn [mbind outcome_bind require] end.
  by destruct dc.
Qed.

(** Rolling over differs in the container database only. *)
Lemma roll_delta_storage dc e sc1 e1 :
  roll_container (as_storage dc) e = Ok (sc1, e1) ->
  roll_delta_container dc e = Ok (of_storage sc1 dc, with_containerDB (containerDB e) e1) /\
  as_storage (of_storage sc1 dc) = sc1.
Proof.
  unfold roll_container, roll_delta_container, saveTOFile, delta_saveTOFile, write_file.
  cbn [as_storage currentContainer_ lastContainerFileName_]. intros Hr. inv_run.
  change (container_path (as_storage dc)) with (dc_container_path dc) in *.
  destruct (writable e _) eqn:Hw.
  - inv_run. destruct (next_permutation _). simplify_eq.
    match goal with E : _ = true |- _ => rewrite E end. by destruct dc, e.
  - inv_run. destruct (next_permutation _). simplify_eq. by destruct dc, e1.
Qed.

Lemma writeDeltaContainer_storage key data dc e ok key1 sc1 e1 :
  writeContainer key data (as_storage dc) e = Ok (ok, key1, sc1, e1) ->
  writeDeltaContainer key data dc e =
    Ok (ok, key1, of_storage sc1 dc, with_containerDB (containerDB e) e1) /\
  as_storage (of_storage sc1 dc) = sc1.
Proof.
  unfold writeContainer, writeDeltaContainer. intros Hw. inv_run.
  cbn [as_storage currentContainer_ maxContainerSize_] in *.
  destruct (_ <? _).
  - simplify_eq. cbn [mbind outcome_bind].
    destruct (put_delta_storage _ _ _ _ _ H1) as [-> Has]. cbn [mbind outcome_bind].
    rewrite <- Has at 1. split; [|done]. by destruct e1.
  - destruct (roll_delta_storage dc e _ _ H0) as [-> Has]. cbn [mbind outcome_bind].
    rewrite <- Has in H1. destruct (put_delta_storage _ _ _ _ _ H1) as [-> Has1].
    cbn [mbind outcome_bind]. split; [|by destruct sc1, dc; rewrite <- Has1]. done.
Qed.

(** ** The represented map *)

Definition delta_entry_ok dc e (h : bytes) (o : option bytes) : Prop :=
  match o with
  | None => contents (deltaChunkDB e) h = None
  | Some d => exists key, contents (deltaChunkDB e) h = Some (rep key) /\ pod_valid key /\
                located (as_storage dc) e key d
  end.

Definition DRepr dc e m : Prop :=
  sc_wf (as_storage dc) e /\ is_open (deltaChunkDB e) /\
  forall h, lengthZ h = CHUNK_HASH_SIZE -> delta_entry_ok dc e h (m !! h).

Lemma saveDeltaChunk_spec dc e m h baseHash (found : keyForChunkHashDB_t) data size :
  DRepr dc e m -> lengthZ h = CHUNK_HASH_SIZE -> contents (fp2ChunkDB e) h = Some (rep found) ->
  pod_valid found -> 0 <= size <= lengthZ data -> size <= BODY_SIZE ->
  has_room (as_storage dc) e size ->
  exists dc' e', saveDeltaChunk h baseHash data size dc e = Ok (true, dc', e') /\
    DRepr dc' e' (<[h := takeZ size data]> m) /\ fp2ChunkDB e' = fp2ChunkDB e /\
    containerDB e' = containerDB e.
Proof.
  intros (Hwf & Hdo & He) Hh Hf Hv Hs Hb Hroom. assert (HB : BODY_SIZE = 16777216) by reflexivity.
  unfold saveDeltaChunk. rewrite string_of_exact by done. cbn [mbind outcome_bind].
  rewrite query_open, Hf by apply Hwf. cbn [mbind outcome_bind].
  rewrite load_rep by done. cbn [mbind outcome_bind]. rewrite (u32_small size) by lia.
  destruct Hv as (Hn16 & Hvo & Hvl & Hvc & Hvd).
  set (key := mkKey (containerName found) (key_offset found) size (key_count found)
                (u32 (deltaCount found + 1))).
  destruct (writeContainer_spec (as_storage dc) e key data Hwf Hn16)
    as (key1 & sc1 & e1 & Hw & Hv1 & Hk1 & Hfp & Hfr & Hwf2 & Hl2 & Hold); [simpl; lia|done|done|].
  apply writeDeltaContainer_storage in Hw as [-> Has]. cbn [mbind outcome_bind negb].
  cbn [deltaChunkDB with_containerDB]. rewrite (frame_delta _ _ _ _ Hfr).
  destruct (insert_total (deltaChunkDB e) h (rep key1) Hdo) as (d2 & Hi). rewrite Hi.
  cbn [mbind outcome_bind negb]. apply insert_spec in Hi as (Ho & Heq & Hne).
  eexists _, _. split; [done|]. cbn [fp2ChunkDB containerDB with_deltaChunkDB with_containerDB].
  split; [|done]. set (dc2 := dc_with_current _ _ _). set (e2 := with_deltaChunkDB _ _).
  assert (Has2 : as_storage dc2 =
    set_used (u32 (used_ (currentContainer_ sc1) + key_length key1)) sc1).
  { rewrite <- Has. by destruct dc, sc1. }
  replace (key_length key1) with (key_length key) in Has2 by (by rewrite Hk1).
  assert (Ha : agree (as_storage dc2) e1 e2) by (split; [done|apply Hwf]).
  rewrite <- Has2 in Hwf2, Hl2, Hold. split_and!; [|done|].
  - apply (sc_wf_agree _ e1); [done| |done]. cbn. rewrite Hfp. apply Hwf.
  - intros h' Hh'. destruct (decide (h = h')) as [<-|Hneq].
    + rewrite lookup_insert_eq. exists key1. split_and!; [done| |by apply (located_agree _ e1)].
      rewrite Hk1. destruct Hv1 as (?&?&_). pose proof (u32_range (deltaCount found + 1)).
      repeat split; simpl in *; lia.
    + rewrite lookup_insert_ne by done. specialize (He h' Hh'). unfold delta_entry_ok in *.
      cbn [deltaChunkDB with_deltaChunkDB e2]. rewrite Hne by done.
      destruct (m !! h') as [d'|]; [|done]. destruct He as (k & ? & Hkv & ?). exists k.
      split_and!; try done. apply (located_agree _ e1); [done|]. apply Hold; [|done].
      destruct Hkv as (_&_&?&_). lia.
Qed.

Lemma saveDeltaChunk_no_base dc e m h baseHash data size :
  DRepr dc e m -> lengthZ h = CHUNK_HASH_SIZE -> contents (fp2ChunkDB e) h = None ->
  saveDeltaChunk h baseHash data size dc e = Ok (false, dc, e).
Proof.
  intros (Hwf & _) Hh Hf. unfold saveDeltaChunk. rewrite string_of_exact by done.
  cbn [mbind outcome_bind]. by rewrite query_open, Hf by apply Hwf.
Qed.

Lemma readDeltaContainer_storage key dc e r sc1 :
  readContainer key (as_storage dc) e = Ok (r, sc1) ->
  readDeltaContainer key dc e = Ok (r, of_storage sc1 dc) /\ as_storage (of_storage sc1 dc) = sc1.
Proof.
  unfold readContainer, readDeltaContainer.
  cbn [as_storage currentContainer_ lastContainerFileName_ currentReadContainerFileName_
       currentReadContainer_].
  change (container_path (as_storage dc)) with (dc_container_path dc). intros Hr. inv_run.
  match goal with E : string_of _ _ = Ok _ |- _ => rewrite E; cbn [mbind outcome_bind] end.
  repeat case_bool_decide; [| |destruct (files e !! _)]; inv_run;
    repeat match goal with E : _ = true |- _ => rewrite E; cbn [mbind outcome_bind require] end;
    by destruct dc.
Qed.

Lemma restoreDeltaChunk_found dc e m h d :
  DRepr dc e m -> lengthZ h = CHUNK_HASH_SIZE -> m !! h = Some d ->
  exists dc', restoreDeltaChunk h dc e = Ok (Some d, dc') /\ DRepr dc' e m.
Proof.
  intros (Hwf & Hdo & He) Hh Hm. pose proof (He h Hh) as Heh. rewrite Hm in Heh.
  destruct Heh as (key & Hk & Hv & Hl). unfold restoreDeltaChunk.
  rewrite string_of_exact by done. cbn [mbind outcome_bind].
  rewrite query_open, Hk by done. cbn [mbind outcome_bind]. rewrite load_rep by done.
  cbn [mbind outcome_bind].
  destruct (readContainer_located _ e key d Hwf Hl) as (sc1 & Hr & Hwf1 & n & c & ->);
    [by destruct Hv as (_&_&?&_); lia|].
  apply readDeltaContainer_storage in Hr as [-> Has]. eexists. split; [done|].
  split_and!; [by rewrite Has|done|]. intros h' Hh'. specialize (He h' Hh').
  unfold delta_entry_ok in *. destruct (m !! h'); [|done].
  destruct He as (k & ? & ? & ?). exists k. by split_and!.
Qed.

Lemma restoreDeltaChunk_missing dc e m h :
  DRepr dc e m -> lengthZ h = CHUNK_HASH_SIZE -> m !! h = None ->
  restoreDeltaChunk h dc e = Ok (None, dc).
Proof.
  intros (_ & Hdo & He) Hh Hm. specialize (He h Hh). rewrite Hm in He. unfold restoreDeltaChunk.
  rewrite string_of_exact by done. cbn [mbind outcome_bind]. by rewrite query_open, He by done.
Qed.

(** ** Shut-down and start-up *)

Lemma DeltaConfig_ne dc e n : sc_wf (as_storage dc) e -> DeltaConfig <> dc_container_path dc n.
Proof.
  intros Hwf E. unfold dc_container_path in E. pose proof (wf_tail _ _ Hwf) as Ht.
  cbn in Ht. rewrite Ht, app_assoc in E. apply (f_equal last) in E. by rewrite last_app in E.
Qed.

Lemma DeltaCompressor_delete_spec dc e :
  sc_wf (as_storage dc) e -> writable e DeltaConfig = true ->
  writable e (dc_container_path dc (dc_lastContainerFileName_ dc)) = true ->
  DeltaCompressor_delete dc e = Ok (with_files
    (<[dc_container_path dc (dc_lastContainerFileName_ dc) :=
         read_mem (body_ (dc_currentContainer_ dc)) 0 (used_ (dc_currentContainer_ dc))]>
      (<[DeltaConfig := dc_lastContainerFileName_ dc ++ newline ::
           to_string (used_ (dc_currentContainer_ dc)) ++ [newline]]> (files e))) e).
Proof.
  intros Hwf Hw1 Hw2. unfold DeltaCompressor_delete, write_file. rewrite Hw1.
  unfold delta_saveTOFile, write_file. cbn [writable with_files]. rewrite Hw2.
  pose proof (wf_used _ _ Hwf) as Hu. cbn in Hu. rewrite (proj2 (Z.leb_le _ _)) by lia. done.
Qed.

Lemma restart_DRepr dc e m e' mem mem' sc :
  DRepr dc e m -> writable e DeltaConfig = true ->
  writable e (dc_container_path dc (dc_lastContainerFileName_ dc)) = true ->
  Forall (fun b => is_space b = false) (dc_lastContainerFileName_ dc) ->
  DeltaCompressor_delete dc e = Ok e' ->
  exists dc', DeltaCompressor_new (dc_containerNamePrefix_ dc) (dc_maxContainerSize_ dc) mem mem' sc e'
      = Ok dc' /\ DRepr dc' e' m.
Proof.
  intros (Hwf & Hdo & He) Hw1 Hw2 Hns Hdel. rewrite DeltaCompressor_delete_spec in Hdel by done.
  injection Hdel as <-. pose proof Hwf as [[Hn _] Hu Hm Ht Hrt _ _ _]. cbn [as_storage containerNameTail_ lastContainerFileName_ currentContainer_] in Hn, Hu, Ht.
  assert (HB : BODY_SIZE = 16777216) by reflexivity.
  unfold DeltaCompressor_new. cbn [files with_files].
  rewrite lookup_insert_ne by (apply not_eq_sym; by eapply DeltaConfig_ne).
  rewrite lookup_insert_eq, skip_space_token by done. rewrite read_token_app by done.
  unfold read_uint32. change (skip_space (newline :: ?l)) with (skip_space l).
  rewrite parse_unsigned_decimal by (done || lia). rewrite Z.min_l by lia.
  rewrite (proj2 (Z.leb_le _ BODY_SIZE)) by lia. cbn [mbind outcome_bind require].
  rewrite <- Ht.
  change (dc_containerNamePrefix_ dc ++ dc_lastContainerFileName_ dc ++ dc_containerNameTail_ dc)
    with (dc_container_path dc (dc_lastContainerFileName_ dc)). rewrite lookup_insert_eq. simpl default.
  rewrite takeZ_ge by (rewrite read_mem_lengthZ; lia).
  eexists. split; [done|]. split_and!; [|done|].
  - split; try done; [by apply Hwf|by left|by apply Hwf|by apply Hwf].
  - intros h Hh. specialize (He h Hh). unfold delta_entry_ok in *.
    destruct (m !! h) as [d|]; [|done]. destruct He as (key & ? & Hv & Hl). exists key.
    split_and!; try done.
    apply (located_restart (as_storage dc) e _ _ key d mem); try done; [|apply Hwf].
    intros n Hne. cbn [files with_files]. change (container_path (as_storage dc)) with (dc_container_path dc).
    rewrite lookup_insert_ne
      by (intros E; by apply (container_path_inj (as_storage dc)) in E; apply Hne).
    apply lookup_insert_ne. by apply (DeltaConfig_ne dc e).
Qed.
End DeltaRefine.
