(* ===== verification/Compress.v ===== *)
(** * DeltaCompressor::compress and its collection (src/compressor.cc)

    The collection of super-features as a class of calls, then compress. *)

From S2P Require Import Prelude.
From S2P Require Import Bytes.
From S2P Require Import DataStructure.
From S2P Require Import Database.
From S2P Require Import Storage.
From S2P Require Import DeltaStore.
From stdpp Require Import base tactics numbers list strings.
From Stdlib Require Import Ascii ZArith Lia Permutation.
From stdpp Require Import base tactics numbers list gmap strings.
From Stdlib Require Import Ascii ZArith Lia.

Open Scope Z_scope.

(** * The collection "restaurants" of MongoDB

    Super-features of chunks are kept in MongoDB, which is third-party code:
    the class [Mongo] lists the calls the program makes on its one collection
    and what the driver and the server document about them.  [list document]
    is the instance the witnesses run on. *)

(** ** The documents the program inserts *)

(** The value of ["SF"]: a document with ["F"] and ["S"], or an array. *)
Inductive superfeatures : Type :=
| SF_doc (vF vS : bytes)
| SF_array (l : list bytes).

Inductive document : Type :=
| chunk_doc (SF : superfeatures) (flag hash group : bytes)
| group_number_doc (group_number number : bytes).

#[export] Instance superfeatures_eq_dec : EqDecision superfeatures.
Proof. solve_decision. Defined.
#[export] Instance document_eq_dec : EqDecision document.
Proof. solve_decision. Defined.

(** ["SF.F"] and ["SF.S"] *)
Inductive field : Type := SF_F | SF_S.

(** The string a path leads to; in an array of strings it leads to none. *)
Definition doc_field (f : field) (d : document) : option bytes :=
  match d with
  | chunk_doc (SF_doc vF vS) _ _ _ => Some (match f with SF_F => vF | SF_S => vS end)
  | _ => None
  end.
Definition doc_hash (d : document) : option bytes :=
  match d with chunk_doc _ _ h _ => Some h | _ => None end.
Definition doc_group (d : document) : option bytes :=
  match d with chunk_doc _ _ _ g => Some g | _ => None end.
Definition doc_group_number (d : document) : option bytes :=
  match d with group_number_doc n _ => Some n | _ => None end.

Definition ungrouped (d : document) : bool := bool_decide (doc_group d = Some (str "-1")).
Definition has_field (f : field) (s : bytes) (d : document) : bool :=
  bool_decide (doc_field f d = Some s).
Definition regroup (g : bytes) (d : document) : document :=
  match d with chunk_doc SF fl h _ => chunk_doc SF fl h g | _ => d end.

(** The documents a test selects, and how many there are. *)
Definition select_docs (P : document -> bool) (l : list document) : list document :=
  filter (fun d => P d = true) l.
Definition count_id (f : field) (id : option bytes) (l : list document) : Z :=
  lengthZ (filter (fun d => doc_field f d = id) (select_docs ungrouped l)).

(** ** The calls

    [aggregate m f]: [match] on group "-1", then [group] by the field with the
    number of documents; an identifier that is no string is [None].  The
    pipeline ends in a [group] stage, which gives its result only when it has
    seen all documents, so that the cursor does not see later updates. *)

Class Mongo (M : Type) := {
  documents : M -> list document;
  aggregate : M -> field -> list (option bytes * Z);
  find_hash : M -> field -> bytes -> list bytes;
  update_group : M -> field -> bytes -> bytes -> M;
  insert_one : M -> document -> M;
  find_group_number : M -> bytes -> list bytes;
  aggregate_elem m f id n :
    (id, n) ∈ aggregate m f <-> n = count_id f id (documents m) /\ 0 < n;
  aggregate_NoDup m f : NoDup (aggregate m f).*1;
  find_hash_spec m f s :
    find_hash m f s ≡ₚ omap doc_hash (select_docs (has_field f s) (documents m));
  update_group_spec m f s g :
    documents (update_group m f s g) ≡ₚ
    (fun d => if has_field f s d then regroup g d else d) <$> documents m;
  insert_one_spec m d : documents (insert_one m d) ≡ₚ d :: documents m;
  find_group_number_spec m n :
    find_group_number m n ≡ₚ
    omap doc_group_number (select_docs (fun d => bool_decide (doc_group_number d = Some n)) (documents m))
}.

(** ** The instance on lists *)

Definition list_aggregate (l : list document) (f : field) : list (option bytes * Z) :=
  (fun id => (id, count_id f id l)) <$> remove_dups (doc_field f <$> select_docs ungrouped l).

Lemma count_id_pos f id l : 0 < count_id f id l <-> id ∈ doc_field f <$> select_docs ungrouped l.
Proof.
  unfold count_id. induction (select_docs ungrouped l) as [|d l' IH]; cbn [fmap list_fmap].
  - split; [done|by intros ?%elem_of_nil].
  - rewrite elem_of_cons, filter_cons. pose proof (lengthZ_nonneg (filter (fun d => doc_field f d = id) l')).
    case_decide as Hd; cbn [lengthZ]; [split; [by left|lia]|]. rewrite IH. split; [by right|].
    by intros [->|?].
Qed.

Lemma list_aggregate_fst l f :
  (list_aggregate l f).*1 = remove_dups (doc_field f <$> select_docs ungrouped l).
Proof. unfold list_aggregate. rewrite <- list_fmap_compose. by apply list_fmap_id. Qed.

#[export] Program Instance list_Mongo : Mongo (list document) := {|
  documents l := l;
  aggregate := list_aggregate;
  find_hash l f s := omap doc_hash (select_docs (has_field f s) l);
  update_group l f s g := (fun d => if has_field f s d then regroup g d else d) <$> l;
  insert_one l d := l ++ [d];
  find_group_number l n :=
    omap doc_group_number (select_docs (fun d => bool_decide (doc_group_number d = Some n)) l)
|}.
Next Obligation.
  intros l f id n. unfold list_aggregate. rewrite list_elem_of_fmap. split.
  - intros (id' & [= -> ->] & Hin). split; [done|]. apply count_id_pos.
    by apply elem_of_remove_dups.
  - intros [-> Hp]. exists id. split; [done|]. by apply elem_of_remove_dups, count_id_pos.
Qed.
Next Obligation. intros l f. rewrite list_aggregate_fst. apply NoDup_remove_dups. Qed.
Next Obligation. done. Qed.
Next Obligation. done. Qed.
Next Obligation. intros l d. by rewrite Permutation_app_comm. Qed.
Next Obligation. done. Qed.

(** * DeltaCompressor::compress (src/compressor.cc)

    The first part measures the deltas of the pairs of hashes in [similar.log],
    the second those of the groups of chunks that share a super-feature.  Only
    the four sizes are kept; no delta is stored.  [delta_create] and
    [delta_apply] of libsim are parameters that give the bytes written to the
    output buffer. *)

Definition similar_log : bytes := str "similar.log".

(** The four [int] counters. *)
Record compress_sizes : Type := mkSizes
  { totalSize : Z; deltaSize : Z; totalSize_ : Z; deltaSize_ : Z }.

(** [fin.read(hash, CHUNK_HASH_SIZE)] into a zeroed array, and whether the end
    of the file was met. *)
Definition read_hash (l : bytes) : bytes * bool * bytes :=
  let got := takeZ CHUNK_HASH_SIZE l in
  (got ++ replicate (Z.to_nat (CHUNK_HASH_SIZE - lengthZ got)) NUL,
   lengthZ l <? CHUNK_HASH_SIZE, dropZ CHUNK_HASH_SIZE l).

(** [s.substr(0, s.size() - 2)]; the unsigned difference wraps for a short
    string, and then the whole string is meant. *)
Definition but_two (s : bytes) : bytes := takeZ (u64 (lengthZ s - 2)) s.

(** Adding a size to an [int]. *)
Definition add_size (a n : Z) : Z := i32 (a + n).

Section Compress.
Context {db : Type} `{LevelDB db} {mongo : Type} `{Mongo mongo}.
Context (delta_create delta_apply : bytes -> bytes -> bytes).
Implicit Types (sc : StorageCore) (dc : DeltaCompressor) (e : env db) (mg : mongo).

(** [char delta[MAX_CHUNK_SIZE * 2] = {0}] after writing [out] to it, read as
    a C string. *)
Definition zeroed_cstr (out : bytes) : outcome bytes :=
  _ ← require (lengthZ out <=? MAX_CHUNK_SIZE * 2);
  in_bounds (cstr (out ++ replicate (Z.to_nat (MAX_CHUNK_SIZE * 2 - lengthZ out)) NUL)).

(** The delta, after checking it with [delta_apply], whose result is not
    used. *)
Definition make_delta (basechunk newchunk : bytes) : outcome bytes :=
  delta ← zeroed_cstr (delta_create basechunk newchunk);
  _ ← require (lengthZ (delta_apply basechunk delta) <=? MAX_CHUNK_SIZE * 2);
  Ok delta.

(** ** The pairs of similar.log *)

Fixpoint similar_loop (depth fuel : nat) (l : bytes) (total delta : Z) sc e :
    outcome (Z * Z * StorageCore) :=
  match fuel with
  | O => NoFuel
  | S fuel' =>
      let '(basehash, eof, l1) := read_hash l in
      '(b, sc1) ← restoreChunk delta_apply depth basehash sc e;
      let basechunk := default [] b in
      if (eof : bool) then Ok (total, delta, sc1) else
      let '(newhash, eof2, l2) := read_hash l1 in
      '(n, sc2) ← restoreChunk delta_apply depth newhash sc1 e;
      let newchunk := default [] n in
      let next t d :=
        if (eof2 : bool) then Ok (t, d, sc2) else similar_loop depth fuel' l2 t d sc2 e in
      if bool_decide (basehash = newhash) then next total delta else
      if bool_decide (but_two basechunk = but_two newchunk) then next total delta else
      zdelta ← make_delta basechunk newchunk;
      let data := basehash ++ zdelta in
      if (lengthZ newchunk <=? lengthZ data) || (MAX_CHUNK_SIZE <=? lengthZ data)
      then next total delta
      else next (add_size total (lengthZ newchunk)) (add_size delta (lengthZ data))
  end.

(** The file is opened for reading and writing. *)
Definition similar_pairs (depth : nat) sc e : outcome (Z * Z * StorageCore) :=
  match files e !! similar_log with
  | Some content =>
      if writable e similar_log then
        similar_loop depth (S (length content)) content 0 0 sc e
      else Ok (0, 0, sc)
  | None => Ok (0, 0, sc)
  end.

(** ** Groups *)

(** The loop over the cursor of [aggregate]: fields that more than one
    ungrouped document has give a group. *)
Fixpoint group_loop (f : field) (l : list (option bytes * Z)) (gs : list (list bytes)) mg :
    outcome (list (list bytes) * mongo) :=
  match l with
  | [] => Ok (gs, mg)
  | (id, count) :: l' =>
      if negb (count <? 2 ^ 31) then Throw bson_type_error else
      if 1 <? count then
        match id with
        | None => Throw bson_type_error
        | Some s =>
            group_loop f l' (gs ++ [find_hash mg f s]) (update_group mg f s (str "1"))
        end
      else group_loop f l' gs mg
  end.

Definition make_groups (gs : list (list bytes)) mg : outcome (list (list bytes) * mongo) :=
  '(gs1, mg1) ← group_loop SF_F (aggregate mg SF_F) gs mg;
  group_loop SF_S (aggregate mg1 SF_S) gs1 mg1.

(** The loop over the members of a group behind its first. *)
Fixpoint member_loop (depth : nat) (basehash basechunk : bytes) (l : list bytes)
    (z : compress_sizes) sc e : outcome (compress_sizes * StorageCore) :=
  match l with
  | [] => Ok (z, sc)
  | h :: l' =>
      if bool_decide (h = basehash) then member_loop depth basehash basechunk l' z sc e else
      '(n, sc1) ← restoreChunk delta_apply depth (h ++ [NUL]) sc e;
      match n with
      | None => member_loop depth basehash basechunk l' z sc1 e
      | Some newchunk =>
          let total := add_size (totalSize z) (lengthZ newchunk) in
          zdelta ← make_delta basechunk newchunk;
          _ ← in_bounds (cstr (delta_apply basechunk zdelta ++
                replicate (Z.to_nat (MAX_CHUNK_SIZE * 2 - lengthZ (delta_apply basechunk zdelta))) NUL));
          head ← string_of (basehash ++ [NUL]) CHUNK_HASH_SIZE;
          let data := head ++ zdelta in
          let z' :=
            if (lengthZ newchunk <=? lengthZ data) || (MAX_CHUNK_SIZE <=? lengthZ data)
            then mkSizes total (add_size (deltaSize z) (lengthZ newchunk)) (totalSize_ z) (deltaSize_ z)
            else mkSizes total (add_size (deltaSize z) (lengthZ data))
                   (add_size (totalSize_ z) (lengthZ newchunk))
                   (add_size (deltaSize_ z) (lengthZ data)) in
          member_loop depth basehash basechunk l' z' sc1 e
      end
  end.

Fixpoint groups_loop (depth : nat) (gs : list (list bytes)) (z : compress_sizes) sc e :
    outcome (compress_sizes * StorageCore) :=
  match gs with
  | [] => Ok (z, sc)
  | g :: gs' =>
      basehash ← in_bounds (head g);
      '(b, sc1) ← restoreChunk delta_apply depth (basehash ++ [NUL]) sc e;
      match b with
      | None => groups_loop depth gs' z sc1 e
      | Some basechunk =>
          let z1 := mkSizes (add_size (totalSize z) (lengthZ basechunk))
                      (add_size (deltaSize z) (lengthZ basechunk)) (totalSize_ z) (deltaSize_ z) in
          '(z2, sc2) ← member_loop depth basehash basechunk (tail g) z1 sc1 e;
          groups_loop depth gs' z2 sc2 e
      end
  end.

(** ** compress *)

Definition compress (depth : nat) dc e mg :
    outcome (bool * compress_sizes * DeltaCompressor * env db * mongo) :=
  '(total, delta, sc1) ← similar_pairs depth (dc_storageObj_ dc) e;
  let e1 := remove_file similar_log e in
  '(gs, mg1) ← make_groups (groupList dc) mg;
  '(z, sc2) ← groups_loop depth gs (mkSizes total delta total delta) sc1 e1;
  Ok (true, z, dc_with_groups gs (dc_with_storage sc2 dc), e1, mg1).
End Compress.
