(* ===== verification/CompressRefine.v ===== *)
(** * What compress measures

    The groups [make_groups] forms, and the four sizes as sums over the pairs
    of the log and the members of the groups, computed from the represented
    chunk store. *)

From S2P Require Import Prelude.
From S2P Require Import Bytes.
From S2P Require Import DataStructure.
From S2P Require Import Database.
From S2P Require Import Storage.
From S2P Require Import StorageSpec.
From S2P Require Import StorageRefine.
From S2P Require Import DeltaStore.
From S2P Require Import Compress.
From stdpp Require Import base tactics numbers list gmap strings.
From Stdlib Require Import Ascii ZArith Lia.

Open Scope Z_scope.

(** ** Groups *)

Definition hashes_with (f : field) (s : bytes) (l : list document) : list bytes :=
  omap doc_hash (select_docs (has_field f s) l).

(** What chunk documents have when the number of super-features is two. *)
Definition doc_ok (d : document) : Prop :=
  match d with
  | chunk_doc (SF_doc _ _) _ h _ => lengthZ h = CHUNK_HASH_SIZE
  | chunk_doc (SF_array _) _ _ _ => False
  | group_number_doc _ _ => True
  end.

Lemma regroup_doc_ok f s g d : doc_ok (if has_field f s d then regroup g d else d) <-> doc_ok d.
Proof. destruct (has_field f s d); [|done]. by destruct d as [[]|]. Qed.

Lemma regroup_hashes f s f' s' g l :
  hashes_with f s ((fun d => if has_field f' s' d then regroup g d else d) <$> l) = hashes_with f s l.
Proof.
  unfold hashes_with, select_docs. induction l as [|d l IH]; [done|].
  rewrite fmap_cons, !filter_cons.
  assert (has_field f s (if has_field f' s' d then regroup g d else d) = has_field f s d) as ->
    by (destruct (has_field f' s' d); [by destruct d as [[]|]|done]).
  destruct (has_field f s d); [|done]. rewrite !decide_True by done. cbn [omap list_omap].
  assert (doc_hash (if has_field f' s' d then regroup g d else d) = doc_hash d) as ->
    by (destruct (has_field f' s' d); [by destruct d|done]).
  rewrite IH. done.
Qed.

#[export] Instance hashes_with_Permutation f s : Proper ((≡ₚ) ==> (≡ₚ)) (hashes_with f s).
Proof. intros l l' E. unfold hashes_with, select_docs. by rewrite E. Qed.

(** A field that [n] ungrouped documents have is that of at least [n] hashes. *)
Lemma count_id_hashes f s l :
  Forall doc_ok l -> count_id f (Some s) l <= lengthZ (hashes_with f s l).
Proof.
  unfold count_id, hashes_with, select_docs. induction 1 as [|d l Hd _ IH]; [done|].
  rewrite !filter_cons.
  assert (Hf : doc_field f d = Some s -> has_field f s d = true /\ is_Some (doc_hash d)).
  { intros E. unfold has_field. rewrite bool_decide_eq_true_2 by done. by destruct d as [[]|]. }
  case_decide as Hu.
  - rewrite filter_cons. case_decide as Hs.
    + destruct (Hf Hs) as [-> [h Hh]]. rewrite decide_True by done. cbn [omap list_omap].
      rewrite Hh. cbn [lengthZ]. lia.
    + case_decide; [|done]. cbn [omap list_omap]. destruct (doc_hash d); cbn [lengthZ]; lia.
  - case_decide; [|done]. cbn [omap list_omap]. destruct (doc_hash d); cbn [lengthZ]; lia.
Qed.

Lemma lengthZ_filter {A} (P : A -> Prop) `{!forall x, Decision (P x)} (l : list A) :
  lengthZ (filter P l) <= lengthZ l.
Proof. rewrite !lengthZ_length. pose proof (length_filter P l). lia. Qed.

Lemma count_id_le f id l : count_id f id l <= lengthZ l.
Proof. unfold count_id, select_docs. etrans; [apply lengthZ_filter|apply lengthZ_filter]. Qed.

Lemma count_id_None f l : Forall doc_ok l -> count_id f None l = 0.
Proof.
  intros Hl. assert (0 <= count_id f None l) by apply lengthZ_nonneg.
  destruct (decide (0 < count_id f None l)) as [Hp|]; [|lia].
  apply count_id_pos, list_elem_of_fmap in Hp as (d & Hd & Hin).
  apply list_elem_of_filter in Hin as [Hu Hin]. eapply Forall_forall in Hl; [|exact Hin].
  destruct d as [[]|]; done.
Qed.

Section Groups.
Context {mongo : Type} `{Mongo mongo}.
Implicit Types (mg : mongo).

(** The collection before and after regrouping: same fields and hashes. *)
Record regrouped mg mg' : Prop := {
  rg_ok : Forall doc_ok (documents mg) -> Forall doc_ok (documents mg');
  rg_hashes f s : hashes_with f s (documents mg') ≡ₚ hashes_with f s (documents mg);
  rg_length : lengthZ (documents mg') = lengthZ (documents mg)
}.

Lemma regrouped_refl mg : regrouped mg mg.
Proof. by split. Qed.

Lemma regrouped_trans mg1 mg2 mg3 : regrouped mg1 mg2 -> regrouped mg2 mg3 -> regrouped mg1 mg3.
Proof.
  intros [O1 H1 L1] [O2 H2 L2]. split; [auto|intros; by rewrite H2|by rewrite L2].
Qed.

Lemma update_regrouped mg f s g : regrouped mg (update_group mg f s g).
Proof.
  split.
  - intros Hok. rewrite update_group_spec. apply Forall_fmap. eapply Forall_impl; [exact Hok|].
    intros d Hd. cbn. by apply regroup_doc_ok.
  - intros f' s'. rewrite update_group_spec. by rewrite regroup_hashes.
  - by rewrite !lengthZ_length, update_group_spec, length_fmap.
Qed.

(** The hashes of at least two documents that agree on a field. *)
Definition is_group mg (g : list bytes) : Prop :=
  2 <= lengthZ g /\ exists f s, g ≡ₚ hashes_with f s (documents mg).

Lemma is_group_regrouped mg mg' g : regrouped mg mg' -> is_group mg' g -> is_group mg g.
Proof. intros [_ Hh _] (? & f & s & E). split; [done|]. exists f, s. by rewrite E. Qed.

Lemma group_loop_spec mg0 f l gs mg :
  Forall doc_ok (documents mg) -> lengthZ (documents mg) < 2 ^ 31 -> regrouped mg0 mg ->
  (forall id n, (id, n) ∈ l -> 0 < n < 2 ^ 31 /\ exists s, id = Some s /\
     n <= lengthZ (hashes_with f s (documents mg0))) ->
  exists new mg', group_loop f l gs mg = Ok (gs ++ new, mg') /\ regrouped mg0 mg' /\
    Forall (is_group mg0) new.
Proof.
  revert gs mg; induction l as [|[id n] l IH]; intros gs mg Hok Hlen Hrg Hl.
  { exists [], mg. by rewrite app_nil_r. }
  cbn [group_loop]. destruct (Hl id n) as [Hn (s & -> & Hle)]; [by left|].
  rewrite (proj2 (Z.ltb_lt n _)) by lia. cbn [negb].
  assert (Hl' : forall id n, (id, n) ∈ l -> 0 < n < 2 ^ 31 /\ exists s, id = Some s /\
     n <= lengthZ (hashes_with f s (documents mg0))) by (intros; apply Hl; by right).
  destruct (Z.ltb_spec 1 n); [|by apply IH].
  pose proof (update_regrouped mg f s (str "1")) as Hup.
  destruct (IH (gs ++ [find_hash mg f s]) (update_group mg f s (str "1")))
    as (new & mg' & -> & Hrg' & Hnew); [by apply Hup|by rewrite (rg_length _ _ Hup)|
    by eapply regrouped_trans|done|].
  exists (find_hash mg f s :: new), mg'. rewrite <- app_assoc. split_and!; try done.
  apply Forall_cons. split; [|done].
  assert (E : find_hash mg f s ≡ₚ hashes_with f s (documents mg0)).
  { rewrite find_hash_spec. apply (rg_hashes _ _ Hrg). }
  split; [|by exists f, s]. rewrite lengthZ_length, E, <- lengthZ_length. lia.
Qed.

Lemma aggregate_ok mg f id n :
  Forall doc_ok (documents mg) -> lengthZ (documents mg) < 2 ^ 31 -> (id, n) ∈ aggregate mg f ->
  0 < n < 2 ^ 31 /\ exists s, id = Some s /\ n <= lengthZ (hashes_with f s (documents mg)).
Proof.
  intros Hok Hlen [-> Hp]%aggregate_elem. pose proof (count_id_le f id (documents mg)).
  split; [lia|]. destruct id as [s|]; [|by rewrite count_id_None in Hp].
  exists s. split; [done|]. by apply count_id_hashes.
Qed.

(** Every group has a first member, and its members share a super-feature. *)
Lemma make_groups_spec mg gs :
  Forall doc_ok (documents mg) -> lengthZ (documents mg) < 2 ^ 31 ->
  exists new mg', make_groups gs mg = Ok (gs ++ new, mg') /\ regrouped mg mg' /\
    Forall (is_group mg) new.
Proof.
  intros Hok Hlen. unfold make_groups.
  destruct (group_loop_spec mg SF_F (aggregate mg SF_F) gs mg) as (n1 & mg1 & -> & R1 & G1);
    [done|done|apply regrouped_refl|intros; by apply aggregate_ok|].
  cbn [mbind outcome_bind].
  assert (Hok1 : Forall doc_ok (documents mg1)) by by apply R1.
  assert (Hlen1 : lengthZ (documents mg1) < 2 ^ 31) by by rewrite (rg_length _ _ R1).
  destruct (group_loop_spec mg1 SF_S (aggregate mg1 SF_S) (gs ++ n1) mg1)
    as (n2 & mg2 & -> & R2 & G2); [done|done|apply regrouped_refl|intros; by apply aggregate_ok|].
  exists (n1 ++ n2), mg2. rewrite app_assoc. split_and!; [done|by eapply regrouped_trans|].
  apply Forall_app. split; [done|]. eapply Forall_impl; [exact G2|]. intros g.
  by apply is_group_regrouped.
Qed.

(** A group's members are hashes. *)
Lemma is_group_hash mg g :
  Forall doc_ok (documents mg) -> is_group mg g -> Forall (fun h => lengthZ h = CHUNK_HASH_SIZE) g.
Proof.
  intros Hok (_ & f & s & E). rewrite E. apply Forall_forall. intros h Hh.
  apply list_elem_of_omap in Hh as (d & Hd & Hdh). apply list_elem_of_filter in Hd as [Hf Hd].
  eapply Forall_forall in Hok; [|exact Hd]. destruct d as [[]|]; try done. by injection Hdh as <-.
Qed.
End Groups.

(** ** Sizes *)

Definition sumZ (l : list Z) : Z := foldr Z.add 0 l.

Lemma sumZ_app l1 l2 : sumZ (l1 ++ l2) = sumZ l1 + sumZ l2.
Proof. unfold sumZ. induction l1 as [|x l1 IH]; cbn [app foldr]; lia. Qed.

Lemma i32_mod z : i32 z = i32 (z mod 2 ^ 32).
Proof. unfold i32. by rewrite Zplus_mod_idemp_l. Qed.

Lemma i32_congr a b : a mod 2 ^ 32 = b mod 2 ^ 32 -> i32 a = i32 b.
Proof. intros E. rewrite (i32_mod a), (i32_mod b). by rewrite E. Qed.

Lemma i32_mod_id a : i32 a mod 2 ^ 32 = a mod 2 ^ 32.
Proof.
  unfold i32. rewrite Zminus_mod_idemp_l. by rewrite Z.add_simpl_r.
Qed.

(** The [int] counter is the exact sum truncated. *)
Lemma add_size_i32 a n : add_size (i32 a) n = i32 (a + n).
Proof.
  apply i32_congr. rewrite <- Zplus_mod_idemp_l, i32_mod_id. by rewrite Zplus_mod_idemp_l.
Qed.

(** Up to the first NUL. *)
Definition until_nul (l : bytes) : bytes := default l (cstr l).

Lemma cstr_app_NULs l k : 0 < k -> cstr (l ++ replicate (Z.to_nat k) NUL) = Some (until_nul l).
Proof.
  intros Hk. replace (Z.to_nat k) with (S (Z.to_nat (k - 1))) by lia. cbn [replicate].
  unfold until_nul. destruct (cstr l) as [s|] eqn:E.
  - apply cstr_Some in E as [Hs (l' & ->)]. rewrite <- app_assoc. cbn [app default from_option].
    by apply cstr_app_nul.
  - apply cstr_app_nul. apply Forall_forall. intros b Hb ->.
    destruct (cstr_is_Some l Hb) as [? ?]. congruence.
Qed.

Section Sizes.
Context {db : Type} `{LevelDB db}.
Context (delta_create delta_apply : bytes -> bytes -> bytes).
(** What libsim writes leaves room for a terminator in the buffers. *)
Context (Hcreate : forall b n, lengthZ (delta_create b n) < MAX_CHUNK_SIZE * 2).
Context (Happly : forall b z, lengthZ (delta_apply b z) < MAX_CHUNK_SIZE * 2).
Context (m : chunk_store).
Implicit Types (sc : StorageCore) (e : env db).

(** The size of a delta with the hash of its base in front. *)
Definition delta_length (base new : bytes) : Z :=
  CHUNK_HASH_SIZE + lengthZ (until_nul (delta_create base new)).
Definition too_long (base new : bytes) : bool :=
  (lengthZ new <=? delta_length base new) || (MAX_CHUNK_SIZE <=? delta_length base new).

(** The chunk of a hash, empty when there is none. *)
Definition chunk_of (h : bytes) : bytes := default [] (fst <$> m !! h).

(** A pair of the log: the size of the new chunk and that of its delta. *)
Definition pair_size (p : bytes * bytes) : option (Z * Z) :=
  let base := chunk_of p.1 in let new := chunk_of p.2 in
  if bool_decide (p.1 = p.2) || bool_decide (but_two base = but_two new) || too_long base new
  then None else Some (lengthZ new, delta_length base new).

(** A group: its base counts on both sides, a member with its delta, or with
    its own size when the delta is too long. *)
Definition member_size (basehash base h : bytes) : option (Z * Z) :=
  if bool_decide (h = basehash) then None else
  '(new, _) ← m !! h;
  Some (lengthZ new, if too_long base new then lengthZ new else delta_length base new).
Definition group_size (g : list bytes) : list (Z * Z) :=
  match g with
  | [] => []
  | b :: l =>
      match m !! b with
      | None => []
      | Some (base, _) => (lengthZ base, lengthZ base) :: omap (member_size b base) l
      end
  end.

(** Those with a delta. *)
Definition shrunk (l : list (Z * Z)) : list (Z * Z) := filter (fun p => p.2 < p.1) l.

(** The counters after [P] pairs and the members [L]. *)
Definition sizes_of (P L : list (Z * Z)) : compress_sizes :=
  mkSizes (i32 (sumZ P.*1 + sumZ L.*1)) (i32 (sumZ P.*2 + sumZ L.*2))
    (i32 (sumZ P.*1 + sumZ (shrunk L).*1)) (i32 (sumZ P.*2 + sumZ (shrunk L).*2)).

Lemma zeroed_cstr_spec out :
  lengthZ out < MAX_CHUNK_SIZE * 2 -> zeroed_cstr out = Ok (until_nul out).
Proof.
  intros Ho. unfold zeroed_cstr. rewrite (proj2 (Z.leb_le _ _)) by lia.
  cbn [mbind outcome_bind require]. by rewrite cstr_app_NULs by lia.
Qed.

Lemma make_delta_spec base new :
  make_delta delta_create delta_apply base new = Ok (until_nul (delta_create base new)).
Proof.
  unfold make_delta. rewrite zeroed_cstr_spec by done. cbn [mbind outcome_bind].
  by rewrite (proj2 (Z.leb_le _ _)) by (specialize (Happly base (until_nul (delta_create base new))); lia).
Qed.

(** Reading any hash: the chunk if there is one. *)
Lemma restoreChunk_default sc e h depth :
  Repr sc e m -> lengthZ h = CHUNK_HASH_SIZE ->
  exists sc', restoreChunk delta_apply (S depth) h sc e = Ok (fst <$> m !! h, sc') /\ Repr sc' e m.
Proof.
  intros HR Hh. destruct (m !! h) as [[d r]|] eqn:Hm.
  - destruct (restoreChunk_found delta_apply sc e m h d r depth HR Hh Hm) as (sc' & ? & ? & _). eauto.
  - exists sc. split; [|done]. by eapply restoreChunk_missing.
Qed.

Lemma restoreChunk_app (h l : bytes) sc e depth :
  lengthZ h = CHUNK_HASH_SIZE ->
  restoreChunk delta_apply depth (h ++ l) sc e = restoreChunk delta_apply depth h sc e.
Proof.
  intros Hh. destruct depth as [|depth]; [done|]. cbn [restoreChunk]. pose proof (lengthZ_nonneg l).
  rewrite string_of_le by (rewrite lengthZ_app; lia). rewrite string_of_exact by done.
  by rewrite takeZ_app_exact by done.
Qed.

(** ** The log *)

Definition is_pair (p : bytes * bytes) : Prop :=
  lengthZ p.1 = CHUNK_HASH_SIZE /\ lengthZ p.2 = CHUNK_HASH_SIZE.
Definition log_bytes (ps : list (bytes * bytes)) : bytes := concat ((fun p => p.1 ++ p.2) <$> ps).

Lemma read_hash_app h l : lengthZ h = CHUNK_HASH_SIZE -> read_hash (h ++ l) = (h, false, l).
Proof.
  intros Hh. unfold read_hash. rewrite takeZ_app_exact, dropZ_app_exact, Hh by done.
  rewrite Z.sub_diag, app_nil_r, lengthZ_app, Hh. pose proof (lengthZ_nonneg l).
  by rewrite (proj2 (Z.ltb_ge _ _)) by lia.
Qed.

Lemma similar_loop_spec depth fuel ps T D sc e :
  Repr sc e m -> Forall is_pair ps -> (length ps < fuel)%nat ->
  exists sc', similar_loop delta_create delta_apply (S depth) fuel (log_bytes ps) (i32 T) (i32 D) sc e =
    Ok (i32 (T + sumZ (omap pair_size ps).*1), i32 (D + sumZ (omap pair_size ps).*2), sc') /\
    Repr sc' e m.
Proof.
  intros HR Hps. revert fuel T D sc HR.
  induction Hps as [|[h1 h2] ps [Hh1 Hh2] _ IH]; intros [|fuel] T D sc HR Hf; cbn [length] in Hf; try lia;
    cbn [similar_loop].
  - change (read_hash (log_bytes [])) with (replicate 32 NUL, true, @nil byte). cbn match.
    destruct (restoreChunk_default sc e (replicate 32 NUL) depth HR) as (sc1 & -> & HR1); [done|].
    cbn [mbind outcome_bind omap list_omap fmap list_fmap sumZ foldr]. rewrite !Z.add_0_r.
    by exists sc1.
  - cbn [fst snd] in *. change (log_bytes ((h1, h2) :: ps)) with ((h1 ++ h2) ++ log_bytes ps).
    rewrite <- app_assoc, read_hash_app by done. cbn match.
    destruct (restoreChunk_default sc e h1 depth HR) as (sc1 & -> & HR1); [done|].
    cbn [mbind outcome_bind]. rewrite read_hash_app by done. cbn match.
    destruct (restoreChunk_default sc1 e h2 depth HR1) as (sc2 & -> & HR2); [done|].
    cbn [mbind outcome_bind]. fold (chunk_of h1) (chunk_of h2).
    cbn [omap list_omap].
    assert (pair_size (h1, h2) =
      if bool_decide (h1 = h2) || bool_decide (but_two (chunk_of h1) = but_two (chunk_of h2)) ||
         too_long (chunk_of h1) (chunk_of h2)
      then None else Some (lengthZ (chunk_of h2), delta_length (chunk_of h1) (chunk_of h2))) as -> by done.
    case_bool_decide; cbn [orb]; [apply IH; [done|lia]|].
    case_bool_decide; cbn [orb]; [apply IH; [done|lia]|].
    rewrite make_delta_spec. cbn [mbind outcome_bind]. rewrite !lengthZ_app, Hh1.
    fold (delta_length (chunk_of h1) (chunk_of h2)). fold (too_long (chunk_of h1) (chunk_of h2)).
    destruct (too_long _ _); [apply IH; [done|lia]|]. rewrite !add_size_i32.
    destruct (IH fuel (T + lengthZ (chunk_of h2)) (D + delta_length (chunk_of h1) (chunk_of h2)) sc2)
      as (sc' & -> & HR'); [done|lia|]. exists sc'. split; [|done].
    rewrite !fmap_cons. cbn [sumZ foldr fst snd]. unfold sumZ. by rewrite !Z.add_assoc.
Qed.

(** ** The members *)

Definition add_sizes (z : compress_sizes) (L : list (Z * Z)) : compress_sizes :=
  mkSizes (i32 (totalSize z + sumZ L.*1)) (i32 (deltaSize z + sumZ L.*2))
    (i32 (totalSize_ z + sumZ (shrunk L).*1)) (i32 (deltaSize_ z + sumZ (shrunk L).*2)).

Definition sizes_int (z : compress_sizes) : Prop :=
  i32 (totalSize z) = totalSize z /\ i32 (deltaSize z) = deltaSize z /\
  i32 (totalSize_ z) = totalSize_ z /\ i32 (deltaSize_ z) = deltaSize_ z.

Lemma i32_i32_add a b : i32 (i32 a + b) = i32 (a + b).
Proof. apply add_size_i32. Qed.

Lemma i32_idem a : i32 (i32 a) = i32 a.
Proof. pose proof (i32_i32_add a 0) as E. by rewrite !Z.add_0_r in E. Qed.

Lemma add_sizes_int z L : sizes_int (add_sizes z L).
Proof. repeat split; apply i32_idem. Qed.

Lemma shrunk_app L1 L2 : shrunk (L1 ++ L2) = shrunk L1 ++ shrunk L2.
Proof. apply filter_app. Qed.

Lemma add_sizes_app z L1 L2 : add_sizes (add_sizes z L1) L2 = add_sizes z (L1 ++ L2).
Proof.
  unfold add_sizes. cbn [totalSize deltaSize totalSize_ deltaSize_].
  rewrite !i32_i32_add, shrunk_app, !fmap_app, !sumZ_app. by rewrite !Z.add_assoc.
Qed.

Lemma add_sizes_nil z : sizes_int z -> add_sizes z [] = z.
Proof.
  intros (E1 & E2 & E3 & E4). unfold add_sizes. cbn. rewrite !Z.add_0_r, E1, E2, E3, E4. by destruct z.
Qed.

Lemma sumZ_one (x : Z) : sumZ [x] = x.
Proof. cbn. lia. Qed.

Lemma member_loop_spec depth b base l z sc e :
  Repr sc e m -> lengthZ b = CHUNK_HASH_SIZE -> Forall (fun h => lengthZ h = CHUNK_HASH_SIZE) l ->
  sizes_int z ->
  exists sc', member_loop delta_create delta_apply (S depth) b base l z sc e =
    Ok (add_sizes z (omap (member_size b base) l), sc') /\ Repr sc' e m.
Proof.
  intros HR Hb Hl. revert z sc HR. induction Hl as [|h l Hh _ IH]; intros z sc HR Hz.
  { exists sc. by rewrite add_sizes_nil. }
  cbn [member_loop omap list_omap]. unfold member_size at 1.
  case_bool_decide; [by apply IH|]. rewrite restoreChunk_app by done.
  destruct (restoreChunk_default sc e h depth HR Hh) as (sc1 & -> & HR1). cbn [mbind outcome_bind].
  destruct (m !! h) as [[new r]|] eqn:Hm; cbn [fmap option_fmap option_map fst mbind option_bind];
    [|by apply IH].
  rewrite make_delta_spec. cbn [mbind outcome_bind].
  rewrite cstr_app_NULs
    by (specialize (Happly base (until_nul (delta_create base new))); lia).
  cbn [in_bounds mbind outcome_bind].
  rewrite string_of_le by (rewrite lengthZ_app, Hb; cbn [lengthZ]; lia).
  rewrite takeZ_app_exact by done. cbn [mbind outcome_bind]. rewrite !lengthZ_app, Hb.
  fold (delta_length base new). fold (too_long base new).
  set (x := (lengthZ new, if too_long base new then lengthZ new else delta_length base new)).
  match goal with |- context [member_loop _ _ _ _ _ _ ?z' _ _] => assert (z' = add_sizes z [x]) as -> end.
  { destruct Hz as (E1 & E2 & E3 & E4). unfold add_sizes, x, shrunk, add_size. rewrite filter_cons.
    cbn [fst snd]. unfold too_long.
    destruct (Z.leb_spec (lengthZ new) (delta_length base new)); cbn [orb].
    - rewrite decide_False by lia. cbn [fmap list_fmap fst snd filter list_filter].
      rewrite !sumZ_one. cbn [sumZ foldr]. by rewrite !Z.add_0_r, E3, E4.
    - destruct (MAX_CHUNK_SIZE <=? delta_length base new).
      + rewrite decide_False by lia. cbn [fmap list_fmap fst snd filter list_filter].
        rewrite !sumZ_one. cbn [sumZ foldr]. by rewrite !Z.add_0_r, E3, E4.
      + rewrite decide_True by lia. cbn [fmap list_fmap fst snd filter list_filter].
        by rewrite !sumZ_one. }
  destruct (IH (add_sizes z [x]) sc1 HR1 (add_sizes_int _ _)) as (sc' & -> & HR'). exists sc'.
  by rewrite add_sizes_app.
Qed.

Lemma groups_loop_spec depth gs z sc e :
  Repr sc e m -> sizes_int z ->
  Forall (fun g => g <> [] /\ Forall (fun h => lengthZ h = CHUNK_HASH_SIZE) g) gs ->
  exists sc', groups_loop delta_create delta_apply (S depth) gs z sc e =
    Ok (add_sizes z (concat (group_size <$> gs)), sc') /\ Repr sc' e m.
Proof.
  intros HR Hz Hgs. revert z sc HR Hz. induction Hgs as [|g gs [Hne Hh] _ IH]; intros z sc HR Hz.
  { exists sc. by rewrite add_sizes_nil. }
  destruct g as [|b l]; [done|]. apply Forall_cons in Hh as [Hb Hl].
  cbn [groups_loop head in_bounds mbind outcome_bind tail]. rewrite restoreChunk_app by done.
  destruct (restoreChunk_default sc e b depth HR Hb) as (sc1 & -> & HR1). cbn [mbind outcome_bind].
  cbn [fmap list_fmap concat]. unfold group_size at 1. destruct (m !! b) as [[base r]|] eqn:Hm;
    cbn [fmap option_fmap option_map fst]; [|by apply IH].
  set (x := (lengthZ base, lengthZ base)).
  match goal with |- context [member_loop _ _ _ _ _ _ ?z' _ _] => assert (z' = add_sizes z [x]) as -> end.
  { destruct Hz as (E1 & E2 & E3 & E4). unfold add_sizes, x, shrunk, add_size. rewrite filter_cons.
    cbn [fst snd]. rewrite decide_False by lia. cbn [fmap list_fmap fst snd filter list_filter].
    rewrite !sumZ_one. cbn [sumZ foldr]. by rewrite !Z.add_0_r, E3, E4. }
  destruct (member_loop_spec depth b base l (add_sizes z [x]) sc1 e HR1 Hb Hl (add_sizes_int _ _))
    as (sc2 & -> & HR2). cbn [mbind outcome_bind].
  destruct (IH (add_sizes (add_sizes z [x]) (omap (member_size b base) l)) sc2 HR2 (add_sizes_int _ _))
    as (sc' & -> & HR'). exists sc'. by rewrite !add_sizes_app.
Qed.
End Sizes.

(** ** compress *)

Lemma container_not_log {db} `{LevelDB db} sc (e : env db) n :
  sc_wf sc e -> similar_log <> container_path sc n.
Proof.
  intros Hwf E. unfold container_path in E. rewrite (wf_tail _ _ Hwf), app_assoc in E.
  apply (f_equal last) in E. by rewrite last_app in E.
Qed.

Lemma log_bytes_length ps : Forall is_pair ps -> (length ps <= length (log_bytes ps))%nat.
Proof.
  induction 1 as [|[h1 h2] ps [Hh1 Hh2] _ IH]; [done|].
  change (log_bytes ((h1, h2) :: ps)) with ((h1 ++ h2) ++ log_bytes ps).
  rewrite !length_app. cbn [fst snd length] in *. rewrite lengthZ_length in *.
  unfold CHUNK_HASH_SIZE in *. lia.
Qed.

Section CompressRun.
Context {db : Type} `{LevelDB db} {mongo : Type} `{Mongo mongo}.
Context (delta_create delta_apply : bytes -> bytes -> bytes).
Implicit Types (dc : DeltaCompressor) (e : env db) (mg : mongo) (m : chunk_store).

(** A compressor that has just been made, on a store and a collection; the log
    holds pairs of hashes. *)
Record compress_ready dc e mg m (ps : list (bytes * bytes)) : Prop := {
  cr_create b n : lengthZ (delta_create b n) < MAX_CHUNK_SIZE * 2;
  cr_apply b z : lengthZ (delta_apply b z) < MAX_CHUNK_SIZE * 2;
  cr_repr : Repr (dc_storageObj_ dc) e m;
  cr_groups : groupList dc = [];
  cr_docs : Forall doc_ok (documents mg);
  cr_number : lengthZ (documents mg) < 2 ^ 31;
  cr_pairs : Forall is_pair ps;
  cr_log : files e !! similar_log = Some (log_bytes ps);
  cr_writable : writable e similar_log = true
}.

Lemma compress_spec depth dc e mg m ps :
  compress_ready dc e mg m ps ->
  exists dc' mg',
    compress delta_create delta_apply (S depth) dc e mg =
      Ok (true, sizes_of (omap (pair_size delta_create m) ps)
                  (concat (group_size delta_create m <$> groupList dc')),
          dc', remove_file similar_log e, mg') /\
    Repr (dc_storageObj_ dc') (remove_file similar_log e) m /\
    Forall (is_group mg) (groupList dc') /\ regrouped mg mg'.
Proof.
  intros Hr. destruct Hr as [Hc Ha HR Hg Hdocs Hn Hps Hlog Hw].
  unfold compress, similar_pairs. rewrite Hlog, Hw. change 0 with (i32 0) at 1 2.
  destruct (similar_loop_spec delta_create delta_apply Hc Ha m depth (S (length (log_bytes ps))) ps 0 0
    (dc_storageObj_ dc) e HR Hps) as (sc1 & -> & HR1).
  { pose proof (log_bytes_length ps Hps). lia. }
  cbn [mbind outcome_bind]. rewrite Hg.
  destruct (make_groups_spec mg [] Hdocs Hn) as (gs & mg1 & -> & Hrg & Hgs).
  cbn [mbind outcome_bind app].
  assert (HR2 : Repr sc1 (remove_file similar_log e) m).
  { apply (Repr_agree sc1 e); [|done|done]. split; [|apply HR1]. intros n. cbn.
    apply lookup_delete_ne. eapply container_not_log, HR1. }
  match goal with |- context [groups_loop _ _ _ _ ?z] => set (z0 := z) end.
  destruct (groups_loop_spec delta_create delta_apply Hc Ha m depth gs z0 sc1 _ HR2)
    as (sc2 & -> & HR3).
  { repeat split; apply i32_idem. }
  { eapply Forall_impl; [exact Hgs|]. intros g Hgr. split; [|by eapply is_group_hash].
    intros ->. by destruct Hgr. }
  cbn [mbind outcome_bind]. exists (dc_with_groups gs (dc_with_storage sc2 dc)), mg1.
  split; [|split_and!; [exact HR3|exact Hgs|exact Hrg]].
  cbn [dc_with_groups groupList]. do 5 f_equal. unfold add_sizes, sizes_of, z0.
  cbn [totalSize deltaSize totalSize_ deltaSize_]. by rewrite !i32_i32_add, !Z.add_0_l.
Qed.

(** What is counted for a delta is below what is counted for its chunk. *)
Lemma sums_le (L : list (Z * Z)) :
  Forall (fun p => 0 <= p.2 <= p.1) L ->
  0 <= sumZ L.*2 <= sumZ L.*1 /\
  0 <= sumZ (shrunk L).*2 <= sumZ (shrunk L).*1 /\ sumZ (shrunk L).*1 <= sumZ L.*1 /\
  sumZ L.*1 - sumZ L.*2 = sumZ (shrunk L).*1 - sumZ (shrunk L).*2.
Proof.
  unfold shrunk, sumZ. induction 1 as [|[n d] L Hp _ IH]; [cbn; lia|].
  rewrite filter_cons. cbn [fmap list_fmap foldr fst snd] in *.
  case_decide; cbn [fmap list_fmap foldr fst snd]; lia.
Qed.

Lemma delta_length_nonneg base new : 0 <= delta_length delta_create base new.
Proof.
  unfold delta_length, CHUNK_HASH_SIZE.
  pose proof (lengthZ_nonneg (until_nul (delta_create base new))). lia.
Qed.

Lemma too_long_false base new :
  too_long delta_create base new = false -> delta_length delta_create base new < lengthZ new.
Proof. unfold too_long. intros. bools. lia. Qed.

Lemma pair_sizes_le m ps :
  Forall (fun p => 0 <= p.2 <= p.1) (omap (pair_size delta_create m) ps).
Proof.
  apply Forall_forall. intros p Hp. apply list_elem_of_omap in Hp as ([h1 h2] & _ & E).
  unfold pair_size in E. cbn [fst snd] in E. destruct (_ || _) eqn:Hl; [done|]. injection E as <-.
  cbn [fst snd].
  apply orb_false_iff in Hl as [_ Hl]. apply too_long_false in Hl.
  pose proof (delta_length_nonneg (chunk_of m h1) (chunk_of m h2)). lia.
Qed.

Lemma group_sizes_le m gs :
  Forall (fun p => 0 <= p.2 <= p.1) (concat (group_size delta_create m <$> gs)).
Proof.
  apply Forall_concat, Forall_fmap, Forall_true. intros [|b l]; cbn; [constructor|].
  destruct (m !! b) as [[base r]|]; [|constructor]. pose proof (lengthZ_nonneg base).
  constructor; [cbn; lia|]. apply Forall_forall. intros p Hp.
  apply list_elem_of_omap in Hp as (h & _ & E). unfold member_size in E.
  case_bool_decide; [done|]. destruct (m !! h) as [[new r']|]; [|done].
  cbn in E. injection E as <-. cbn [fst snd]. pose proof (lengthZ_nonneg new).
  pose proof (delta_length_nonneg base new).
  destruct (too_long delta_create base new) eqn:Ht; [lia|]. apply too_long_false in Ht. lia.
Qed.

(** Documents without the field: the cursor has an identifier that is no
    string. *)
Lemma group_loop_throws f l gs mg n :
  (None, n) ∈ l -> 1 < n -> group_loop f l gs mg = Throw bson_type_error.
Proof.
  intros Hin Hn. revert gs mg; induction l as [|[id k] l IH]; intros gs mg; [by apply elem_of_nil in Hin|].
  cbn [group_loop]. destruct (negb (k <? 2 ^ 31)); [done|].
  apply elem_of_cons in Hin as [E|Hin].
  - injection E as <- <-. by rewrite (proj2 (Z.ltb_lt 1 n)) by lia.
  - destruct (1 <? k); [|by apply IH]. destruct id; [by apply IH|done].
Qed.
End CompressRun.
