(* ===== verification/Dector.v ===== *)
(** * Dector: transfer regions between two versions (src/dector.cc)

    [truetransferDector] walks over the chunk lists of two file indexes.  Equal
    chunks move both positions; at a difference a window is searched for the
    next position where the lists meet, and the ends of the region in between
    become transfer pairs, written to [similar.log] and, with the chunks
    inside, to the collection.  The text output is left out.  An index that is
    not in the vector is [UB]. *)

From S2P Require Import Prelude.
From S2P Require Import Bytes.
From S2P Require Import DataStructure.
From S2P Require Import Database.
From S2P Require Import Storage.
From S2P Require Import Recipe.
From S2P Require Import Compress.
From stdpp Require Import base tactics numbers list gmap strings.
From Stdlib Require Import Ascii ZArith Lia.

Open Scope Z_scope.

(** The positions and marks of the walk: the local variables of the loop. *)
Record cursor : Type := mkCursor
  { i_1 : Z; i_2 : Z; win_size : Z; flag : Z; before : Z; after : Z }.

(** What has been found: the members of the object, the log, the restored
    chunks of both versions, and the storage object they are read with. *)
Record findings : Type := mkFindings
  { transferPair : list Pair;
    transferpairnumber : Z;
    dt_log : bytes;
    oldrestoredChunkList : list Chunk_t;
    newrestoredChunkList : list Chunk_t;
    dt_storageObj_ : StorageCore }.

Definition with_flag (f : Z) (c : cursor) : cursor :=
  mkCursor (i_1 c) (i_2 c) (win_size c) f (before c) (after c).
Definition with_marks (f b a : Z) (c : cursor) : cursor :=
  mkCursor (i_1 c) (i_2 c) (win_size c) f b a.

Definition add_pair (newID oldID : Z) (r : findings) : findings :=
  mkFindings (transferPair r ++ [mkPair newID oldID]) (i32 (transferpairnumber r + 1)) (dt_log r)
    (oldrestoredChunkList r) (newrestoredChunkList r) (dt_storageObj_ r).
Definition add_log (l : bytes) (r : findings) : findings :=
  mkFindings (transferPair r) (transferpairnumber r) (dt_log r ++ l)
    (oldrestoredChunkList r) (newrestoredChunkList r) (dt_storageObj_ r).
Definition add_restored (o n : list Chunk_t) (sc : StorageCore) (r : findings) : findings :=
  mkFindings (transferPair r) (transferpairnumber r) (dt_log r)
    (oldrestoredChunkList r ++ o) (newrestoredChunkList r ++ n) sc.

Section Dector.
Context {db : Type} `{LevelDB db} {mongo : Type} `{Mongo mongo}.
(** libsim: the bytes of a delta applied, the super-features of a buffer. *)
Context (delta_apply : bytes -> bytes -> bytes).
Context (extractSuperFeatures : bytes -> Z -> Z -> list bytes).
Context (indet : Z -> byte).
Context (minWin maxWin SFNumber : Z).
Context (fileindex_1 fileindex_2 : Index).
Implicit Types (c : cursor) (r : findings) (e : env db) (sc : StorageCore) (mg : mongo).

Definition chunk_1 (i : Z) : outcome L0 := in_bounds (nthZ (idx_chunk fileindex_1) i).
Definition chunk_2 (i : Z) : outcome L0 := in_bounds (nthZ (idx_chunk fileindex_2) i).

(** ** The search in the window *)

(** The loop over [k]; it starts again with the next chunk of the new version
    when the window, or the old version, is used up. *)
Fixpoint scan (fuel : nat) (stand1 k count : Z) c : outcome cursor :=
  match fuel with
  | O => NoFuel
  | S fuel' =>
      if negb (k <? win_size c) then Ok c else
      x ← chunk_1 (i_1 c + k);
      y ← chunk_2 (i_2 c);
      if bool_decide (fingerprint x = fingerprint y) then
        if flag c =? 2 then Ok (mkCursor (i_1 c + k) (i_2 c) minWin (flag c) (before c) 1)
        else Ok (mkCursor (i_1 c + k) (i_2 c) minWin 1 (before c) (after c))
      else if (chunknumber fileindex_1 <=? i_1 c + k) || (k =? win_size c - 1) then
        let i2 := i_2 c + 1 in
        if win_size c <=? count + 1 then Ok (mkCursor i2 i2 maxWin 2 1 (after c))
        else scan fuel' stand1 0 (count + 1)
               (mkCursor stand1 i2 (win_size c) (flag c) (before c) (after c))
      else scan fuel' stand1 (k + 1) count c
  end.

(** At most [win_size] rounds over [win_size] chunks. *)
Definition scan_fuel (size : Z) : nat := S (Z.to_nat (size * size)).

(** ** Regions *)

(** The two fingerprints of a pair to the log. *)
Definition log_pair (i j : Z) r : outcome findings :=
  x ← chunk_1 i;
  y ← chunk_2 j;
  Ok (add_log (fingerprint x ++ fingerprint y) r).

(** The chunks strictly inside a region. *)
Definition restore_region (depth : nat) (fi : Index) (stand i : Z) sc e :
    outcome (list Chunk_t * StorageCore) :=
  if stand <? i - 2 then
    '(_, l, sc1) ← restoreRecipeAndChunk delta_apply indet depth (fileNameHash fi)
                     (u32 (stand + 1)) (u32 (i - 1)) sc e;
    Ok (l, sc1)
  else Ok ([], sc).

Definition restore_regions (depth : nat) (stand1 stand2 i1 i2 : Z) r e :
    outcome (list Chunk_t * list Chunk_t * StorageCore) :=
  '(o, sc1) ← restore_region depth fileindex_1 stand1 i1 (dt_storageObj_ r) e;
  '(n, sc2) ← restore_region depth fileindex_2 stand2 i2 sc1 e;
  Ok (o, n, sc2).

(** [transferPair[transferPair.size() - 2]] *)
Definition pair_before_last r : outcome Pair :=
  in_bounds (nthZ (transferPair r) (lengthZ (transferPair r) - 2)).

(** Equal chunks: an open region ends before them; the chunks of the region
    are read into lists of the inner block and dropped. *)
Definition equal_step (depth : nat) c r e : outcome (cursor * findings) :=
  '(c1, r1) ←
    (if flag c =? 2 then
       let r1 := add_pair (i_1 c - 1) (i_2 c - 1) r in
       stand ← pair_before_last r1;
       r2 ← log_pair (i_1 c - 1) (i_2 c - 1) r1;
       '(_, _, sc) ← restore_regions depth (newID stand) (oldID stand) (i_1 c) (i_2 c) r2 e;
       Ok (with_marks 0 (before c) 0 c, add_restored [] [] sc r2)
     else Ok (c, r));
  Ok (mkCursor (i_1 c1 + 1) (i_2 c1 + 1) minWin (flag c1) (before c1) (after c1), r1).

(** The four tests after the search. *)
Definition close_region (depth : nat) (stand1 stand2 : Z) c r e : outcome (cursor * findings) :=
  if (flag c =? 1) && negb (i_1 c =? stand1) && negb (i_2 c =? stand2) &&
     negb (i_1 c - 1 =? stand1) && negb (i_2 c - 1 =? stand2) then
    let r1 := add_pair (i_1 c - 1) (i_2 c - 1) (add_pair stand1 stand2 r) in
    y ← chunk_2 stand2;
    r2 ← (if unique y =? 0 then Ok r1 else
          y' ← chunk_2 (i_2 c - 1);
          if unique y' =? 0 then Ok r1 else
          r2 ← log_pair stand1 stand2 r1;
          log_pair (i_1 c - 1) (i_2 c - 1) r2);
    '(o, n, sc) ← restore_regions depth stand1 stand2 (i_1 c) (i_2 c) r2 e;
    Ok (with_flag 0 c, add_restored o n sc r2)
  else Ok (c, r).

Definition close_single (stand1 stand2 : Z) c r : outcome (cursor * findings) :=
  if (flag c =? 1) &&
     (((i_1 c - 1 =? stand1) && (i_2 c - 1 =? stand2)) || ((i_1 c =? stand1) && (i_2 c =? stand2))) then
    let r1 := add_pair stand1 stand2 r in
    y ← chunk_2 stand2;
    r2 ← (if unique y =? 0 then Ok r1 else log_pair stand1 stand2 r1);
    Ok (with_flag 0 c, r2)
  else Ok (c, r).

Definition open_region (stand1 stand2 : Z) c r : outcome (cursor * findings) :=
  if (flag c =? 2) && (before c =? 1) && (after c =? 0) then
    let r1 := add_pair stand1 stand2 r in
    y ← chunk_2 stand2;
    r2 ← (if unique y =? 0 then Ok r1 else log_pair stand1 stand2 r1);
    Ok (with_marks (flag c) 0 2 c, r2)
  else Ok (c, r).

Definition end_region (depth : nat) c r e : outcome (cursor * findings) :=
  if (flag c =? 2) && (after c =? 1) then
    let r1 := add_pair (i_1 c - 1) (i_2 c - 1) r in
    stand ← pair_before_last r1;
    y ← chunk_2 (i_2 c - 1);
    r2 ← (if unique y =? 0 then Ok r1 else log_pair (i_1 c - 1) (i_2 c - 1) r1);
    '(o, n, sc) ← restore_regions depth (newID stand) (oldID stand) (i_1 c) (i_2 c) r2 e;
    Ok (with_marks 0 (before c) 0 c, add_restored o n sc r2)
  else Ok (c, r).

Definition differ_step (depth : nat) c r e : outcome (cursor * findings) :=
  let stand1 := i_1 c in
  let stand2 := i_2 c in
  c1 ← scan (scan_fuel (win_size c)) stand1 0 0 c;
  '(c2, r2) ← close_region depth stand1 stand2 c1 r e;
  '(c3, r3) ← close_single stand1 stand2 c2 r2;
  '(c4, r4) ← open_region stand1 stand2 c3 r3;
  end_region depth c4 r4 e.

(** One turn of the outer loop. *)
Definition walk_step (depth : nat) c r e : outcome (cursor * findings) :=
  x ← chunk_1 (i_1 c);
  y ← chunk_2 (i_2 c);
  if bool_decide (fingerprint x = fingerprint y) then equal_step depth c r e
  else differ_step depth c r e.

Fixpoint walk (depth fuel : nat) c r e : outcome (cursor * findings) :=
  if (i_1 c <? chunknumber fileindex_1) && (i_2 c <=? chunknumber fileindex_2) then
    match fuel with
    | O => NoFuel
    | S fuel' =>
        '(c1, r1) ← walk_step depth c r e;
        walk depth fuel' c1 r1 e
    end
  else Ok (c, r).

(** ** Super-features of the restored chunks *)

Definition feature (l : list bytes) (i : Z) : outcome bytes := in_bounds (nthZ l i).

(** The documents inserted for a chunk: one for four features, one for two,
    none for another number. *)
Definition chunk_documents (h : bytes) (l : list bytes) : outcome (list document) :=
  if SFNumber =? 4 then
    a ← feature l 0; b ← feature l 1; c ← feature l 2; d ← feature l 3;
    Ok [chunk_doc (SF_array [a; b; c; d]) (str "0") h (str "-1")]
  else if SFNumber =? 2 then
    a ← feature l 0; b ← feature l 1;
    Ok [chunk_doc (SF_doc a b) (str "0") h (str "-1")]
  else Ok [].

(** The loop over the restored chunks of one version; [uniqueSizes] is a
    [size_t]. *)
Fixpoint insert_loop (fi : Index) (l : list Chunk_t) (uniqueSizes : Z) mg : outcome (Z * mongo) :=
  match l with
  | [] => Ok (uniqueSizes, mg)
  | it :: l' =>
      x ← in_bounds (nthZ (idx_chunk fi) (chunk_ID it));
      if unique x =? 0 then insert_loop fi l' uniqueSizes mg else
      docs ← chunk_documents (chunkHash it)
               (extractSuperFeatures (logicData it) 2048 SFNumber);
      insert_loop fi l' (u64 (uniqueSizes + logicDataSize it)) (foldl insert_one mg docs)
  end.

(** [atoi] of the number found last; without one, of the empty string. *)
Definition atoi (l : bytes) : Z := match stoi l with Ok n => n | _ => 0 end.

Definition insert_group_number mg : mongo :=
  let groupid := default [] (last (find_group_number mg (str "0"))) in
  if atoi groupid <=? 0 then insert_one mg (group_number_doc (str "0") (str "0")) else mg.

(** ** truetransferDector *)

(** Every turn but the last moves on, so that this many turns are enough. *)
Definition walk_fuel : nat :=
  Z.to_nat ((chunknumber fileindex_1 + 1) * (chunknumber fileindex_2 + 2)).

Definition first_findings sc : findings := mkFindings [] 0 [] [] [] sc.
Definition first_cursor : cursor := mkCursor 0 0 minWin 0 0 0.

(** The result: what was found and the three sizes that are reported. *)
Definition truetransferDector (depth : nat) sc e mg :
    outcome (findings * (Z * Z * Z) * mongo) :=
  '(_, r) ← walk depth walk_fuel first_cursor (first_findings sc) e;
  '(olduniqueSizes, mg1) ← insert_loop fileindex_1 (oldrestoredChunkList r) 0 mg;
  '(newuniqueSizes, mg2) ← insert_loop fileindex_2 (newrestoredChunkList r) 0 mg1;
  _ ← require (transferpairnumber r <=? lengthZ (transferPair r));
  Ok (r, (u64 (newuniqueSizes + olduniqueSizes), olduniqueSizes, newuniqueSizes),
      insert_group_number mg2).

(** The constructor: [ContainerDector] gives its empty list.  The log is open
    for writing all along; when it cannot be opened nothing is written. *)
Definition Dector_new (depth : nat) (indexflag : Z) sc e mg :
    outcome (findings * env db * mongo) :=
  let '(_, e1) := write_file similar_log [] e in
  if indexflag =? 1 then Ok (first_findings sc, e1, mg)
  else
    '(r, _, mg1) ← truetransferDector depth sc e1 mg;
    let '(_, e2) := write_file similar_log (dt_log r) e1 in
    Ok (r, e2, mg1).

Definition gettransfers r : list Pair := transferPair r.
Definition gettransfercount r : Z := transferpairnumber r.
End Dector.
