(* ===== verification/DectorSpec.v ===== *)
(** * What the walk over two indexes finds

    The log consists of pairs of fingerprints, the walk ends, equal versions
    give no transfer, and a replaced chunk gives one. *)

From S2P Require Import Prelude.
From S2P Require Import Bytes.
From S2P Require Import DataStructure.
From S2P Require Import Database.
From S2P Require Import Storage.
From S2P Require Import StorageSpec.
From S2P Require Import StorageRefine.
From S2P Require Import Recipe.
From S2P Require Import Compress.
From S2P Require Import CompressRefine.
From S2P Require Import Dector.
From stdpp Require Import base tactics numbers list gmap strings.
From Stdlib Require Import Ascii ZArith Lia.

Open Scope Z_scope.

Definition fps (fi : Index) : list bytes := fingerprint <$> idx_chunk fi.

(** [chunknumber] counts the chunks. *)
Definition counted (fi : Index) : Prop := chunknumber fi = lengthZ (idx_chunk fi).

Lemma nthZ_fmap {A B} (f : A -> B) (l : list A) i : nthZ (f <$> l) i = f <$> nthZ l i.
Proof. unfold nthZ. destruct (i <? 0); [done|]. apply list_lookup_fmap. Qed.

Lemma nthZ_elem {A} (l : list A) i x : nthZ l i = Some x -> x ∈ l.
Proof. unfold nthZ. destruct (i <? 0); [done|]. apply list_elem_of_lookup_2. Qed.

Section DectorSpec.
Context {db : Type} `{LevelDB db} {mongo : Type} `{Mongo mongo}.
Context (delta_apply : bytes -> bytes -> bytes).
Context (extractSuperFeatures : bytes -> Z -> Z -> list bytes).
Context (indet : Z -> byte).
Context (minWin maxWin SFNumber : Z).
Context (fi1 fi2 : Index).
Implicit Types (c : cursor) (r : findings) (e : env db) (sc : StorageCore) (mg : mongo).

(** ** The log is a list of pairs *)

(** One fingerprint of the old and one of the new version per pair, and no
    more pairs in the log than transfers. *)
Definition log_ok r : Prop :=
  transferpairnumber r = i32 (lengthZ (transferPair r)) /\
  exists ps, dt_log r = log_bytes ps /\ Forall (fun p => p.1 ∈ fps fi1 /\ p.2 ∈ fps fi2) ps /\
    lengthZ ps <= lengthZ (transferPair r).

Lemma log_bytes_snoc ps p : log_bytes (ps ++ [p]) = log_bytes ps ++ p.1 ++ p.2.
Proof. unfold log_bytes. by rewrite fmap_app, concat_app, <- (app_nil_r (p.1 ++ p.2)). Qed.

Lemma chunk_fp_1 i x : chunk_1 fi1 i = Ok x -> fingerprint x ∈ fps fi1.
Proof. unfold chunk_1. intros Hx. inv_ok. apply list_elem_of_fmap_2. by eapply nthZ_elem. Qed.
Lemma chunk_fp_2 i x : chunk_2 fi2 i = Ok x -> fingerprint x ∈ fps fi2.
Proof. unfold chunk_2. intros Hx. inv_ok. apply list_elem_of_fmap_2. by eapply nthZ_elem. Qed.

Lemma add_pair_ok a b r : log_ok r -> log_ok (add_pair a b r).
Proof.
  intros (Hn & ps & Hl & Hps & Hle). split.
  - cbn. rewrite Hn, lengthZ_app. apply (add_size_i32 _ 1).
  - exists ps. split_and!; try done. cbn. rewrite lengthZ_app. cbn. lia.
Qed.

Lemma log_pair_log i j r r' :
  log_pair fi1 fi2 i j r = Ok r' ->
  exists h1 h2, r' = add_log (h1 ++ h2) r /\ h1 ∈ fps fi1 /\ h2 ∈ fps fi2.
Proof.
  unfold log_pair. intros Hl. inv_ok. subst r'. eexists _, _. split; [done|].
  split; [by eapply chunk_fp_1|by eapply chunk_fp_2].
Qed.

(** A transfer and then its fingerprints. *)
Lemma add_logged_ok a b h1 h2 r :
  log_ok r -> h1 ∈ fps fi1 -> h2 ∈ fps fi2 -> log_ok (add_log (h1 ++ h2) (add_pair a b r)).
Proof.
  intros (Hn & ps & Hl & Hps & Hle) H1 H2. split.
  - cbn. rewrite Hn, lengthZ_app. apply (add_size_i32 _ 1).
  - exists (ps ++ [(h1, h2)]). rewrite log_bytes_snoc. cbn. rewrite Hl, !lengthZ_app. cbn.
    split_and!; [done| |lia]. apply Forall_app. split; [done|]. by constructor.
Qed.

Lemma add_restored_ok o n sc r : log_ok r -> log_ok (add_restored o n sc r).
Proof. done. Qed.

(** A transfer whose pair is logged under a condition. *)
Lemma logged_if_ok (b : bool) i j a b' r r' :
  log_ok r ->
  (if b then Ok (add_pair a b' r) else log_pair fi1 fi2 i j (add_pair a b' r)) = Ok r' -> log_ok r'.
Proof.
  intros Hr. destruct b; intros Hl.
  - injection Hl as <-. by apply add_pair_ok.
  - apply log_pair_log in Hl as (h1 & h2 & -> & ? & ?). by apply add_logged_ok.
Qed.

(** Two transfers, both or none logged. *)
Lemma logged_two_ok i j i' j' a b a' b' r r1 r2 :
  log_ok r -> log_pair fi1 fi2 i j (add_pair a' b' (add_pair a b r)) = Ok r1 ->
  log_pair fi1 fi2 i' j' r1 = Ok r2 -> log_ok r2.
Proof.
  intros Hr H1 H2. apply log_pair_log in H1 as (h1 & h2 & -> & ? & ?).
  apply log_pair_log in H2 as (h1' & h2' & -> & ? & ?).
  change (log_ok (add_log (h1' ++ h2') (add_pair a' b' (add_log (h1 ++ h2) (add_pair a b r))))).
  apply add_logged_ok; [|done|done]. by apply add_logged_ok.
Qed.

Abbreviation equal_step := (equal_step delta_apply indet minWin fi1 fi2).
Abbreviation differ_step := (differ_step delta_apply indet minWin maxWin fi1 fi2).
Abbreviation walk_step := (walk_step delta_apply indet minWin maxWin fi1 fi2).
Abbreviation walk := (walk delta_apply indet minWin maxWin fi1 fi2).

Lemma equal_step_ok depth c r e c' r' :
  equal_step depth c r e = Ok (c', r') -> log_ok r -> log_ok r'.
Proof.
  unfold Dector.equal_step. intros Hs Hr. inv_run. destruct (flag c =? 2); inv_run; [|done].
  apply add_restored_ok. by eapply (logged_if_ok false).
Qed.

Lemma close_region_ok depth s1 s2 c r e c' r' :
  close_region delta_apply indet fi1 fi2 depth s1 s2 c r e = Ok (c', r') -> log_ok r -> log_ok r'.
Proof.
  unfold close_region. intros Hs Hr. destruct (_ && _); inv_run; [|done]. apply add_restored_ok.
  destruct (unique _ =? 0); inv_run; [by do 2 apply add_pair_ok|].
  destruct (unique _ =? 0); inv_run; [by do 2 apply add_pair_ok|]. by eapply logged_two_ok.
Qed.

Lemma close_single_ok s1 s2 c r c' r' :
  close_single fi1 fi2 s1 s2 c r = Ok (c', r') -> log_ok r -> log_ok r'.
Proof.
  unfold close_single. intros Hs Hr. destruct (_ && _); inv_run; [|done]. by eapply logged_if_ok.
Qed.

Lemma open_region_ok s1 s2 c r c' r' :
  open_region fi1 fi2 s1 s2 c r = Ok (c', r') -> log_ok r -> log_ok r'.
Proof.
  unfold open_region. intros Hs Hr. destruct (_ && _); inv_run; [|done]. by eapply logged_if_ok.
Qed.

Lemma end_region_ok depth c r e c' r' :
  end_region delta_apply indet fi1 fi2 depth c r e = Ok (c', r') -> log_ok r -> log_ok r'.
Proof.
  unfold end_region. intros Hs Hr. destruct (_ && _); inv_run; [|done]. apply add_restored_ok.
  by eapply logged_if_ok.
Qed.

Lemma differ_step_ok depth c r e c' r' :
  differ_step depth c r e = Ok (c', r') -> log_ok r -> log_ok r'.
Proof.
  unfold Dector.differ_step. intros Hs Hr. inv_run.
  eauto using close_region_ok, close_single_ok, open_region_ok, end_region_ok.
Qed.

Lemma walk_ok depth fuel c r e c' r' :
  walk depth fuel c r e = Ok (c', r') -> log_ok r -> log_ok r'.
Proof.
  revert c r; induction fuel as [|fuel IH]; intros c r; cbn [Dector.walk];
    destruct (_ && _); intros Hw Hr; inv_run; try done.
  eapply IH; [done|]. unfold Dector.walk_step in *. inv_run. case_bool_decide.
  - by eapply equal_step_ok.
  - by eapply differ_step_ok.
Qed.

Lemma first_findings_ok sc : log_ok (first_findings sc).
Proof. split; [done|]. exists []. by split_and!. Qed.

(** ** The walk ends *)

Context (Hmin : 0 < minWin) (Hmax : 0 < maxWin).

(** Positions are not negative, the window is not empty. *)
Definition cursor_ok c : Prop := 0 <= i_1 c /\ 0 <= i_2 c /\ 0 < win_size c.

(** Same positions, other marks. *)
Definition same_place c c' : Prop :=
  i_1 c' = i_1 c /\ i_2 c' = i_2 c /\ win_size c' = win_size c.

(** Moved on: a later chunk of the new version, or of the old one. *)
Definition moved c c' : Prop :=
  cursor_ok c' /\ i_2 c <= i_2 c' /\ (i_2 c' = i_2 c -> i_1 c < i_1 c').

Lemma scan_runs fuel s k count c :
  i_1 c = s -> cursor_ok c -> 0 <= k < win_size c -> 0 <= count < win_size c ->
  (win_size c - 1 - count) * win_size c + (win_size c - k) <= Z.of_nat fuel ->
  runs (scan minWin maxWin fi1 fi2 fuel s k count c) (fun c' =>
    cursor_ok c' /\ i_2 c <= i_2 c' /\ (i_2 c' = i_2 c -> s + k <= i_1 c')).
Proof.
  revert k count c; induction fuel as [|fuel IH]; intros k count c Hs (H1 & H2 & Hw) Hk Hc Hf; [nia|].
  cbn [scan]. rewrite (proj2 (Z.ltb_lt k _)) by lia. cbn [negb].
  eapply runs_bind; [apply runs_in_bounds|]. intros x _.
  eapply runs_bind; [apply runs_in_bounds|]. intros y _.
  case_bool_decide.
  { destruct (flag c =? 2); cbn; unfold cursor_ok; cbn; lia. }
  destruct (_ || _) eqn:Hend.
  - destruct (Z.leb_spec (win_size c) (count + 1)); [cbn; unfold cursor_ok; cbn; lia|].
    eapply runs_impl; [apply IH; cbn; unfold cursor_ok; cbn; nia|]. cbn. intros c' (? & ? & ?).
    split_and!; [done|lia|lia].
  - apply orb_false_iff in Hend as [_ Hk1]. apply Z.eqb_neq in Hk1.
    eapply runs_impl; [apply IH; unfold cursor_ok; nia|]. cbn. intros c' (? & ? & Hi).
    split_and!; [done|lia|]. intros E. specialize (Hi E). lia.
Qed.

(** From a difference the search moves on. *)
Lemma scan_moves c x y :
  cursor_ok c -> chunk_1 fi1 (i_1 c) = Ok x -> chunk_2 fi2 (i_2 c) = Ok y ->
  fingerprint x <> fingerprint y ->
  runs (scan minWin maxWin fi1 fi2 (scan_fuel (win_size c)) (i_1 c) 0 0 c) (moved c).
Proof.
  intros Hok Hx Hy Hne. pose proof Hok as (H1 & H2 & Hw). unfold scan_fuel. cbn [scan].
  rewrite (proj2 (Z.ltb_lt 0 _)) by lia. cbn [negb]. rewrite Z.add_0_r, Hx, Hy.
  cbn [mbind outcome_bind]. rewrite bool_decide_eq_false_2 by done.
  destruct (_ || _) eqn:Hend.
  - destruct (Z.leb_spec (win_size c) (0 + 1)).
    { cbn. unfold moved, cursor_ok. cbn. lia. }
    eapply runs_impl; [apply scan_runs; cbn; unfold cursor_ok; cbn; nia|]. cbn. intros c' (? & ? & ?).
    split_and!; [done|lia|lia].
  - apply orb_false_iff in Hend as [_ Hk1]. apply Z.eqb_neq in Hk1.
    eapply runs_impl; [apply scan_runs; unfold cursor_ok; nia|]. cbn. intros c' (? & ? & Hi).
    split_and!; [done|lia|]. intros E. specialize (Hi E). lia.
Qed.

(** Reading chunks back takes one level of fuel in a represented store. *)
Lemma restore_loop_runs depth n buf sc e m :
  Repr sc e m ->
  runs (restore_loop delta_apply indet (S depth) n buf sc e) (fun x => Repr x.2 e m).
Proof.
  revert buf sc; induction n as [|n IH]; intros buf sc HR; [done|]. cbn [restore_loop].
  destruct (load buf) as [en| | |] eqn:Hl; try done;
    [|by unfold load in Hl; destruct (_ <=? _)]. cbn [mbind outcome_bind].
  apply load_valid in Hl as (_ & _ & Hh).
  destruct (restoreChunk_default delta_apply m sc e (re_chunkHash en) depth HR Hh) as (sc1 & -> & HR1).
  cbn [mbind outcome_bind]. destruct (fst <$> m !! _) as [d|]; [|done]. destruct (negb _); [done|].
  eapply runs_bind; [apply runs_require|]. intros _ _.
  eapply runs_bind; [by apply IH|]. intros [[ok l] sc2] HR2. exact HR2.
Qed.

Lemma restoreRecipeAndChunk_runs depth fh a b sc e m :
  Repr sc e m ->
  runs (restoreRecipeAndChunk delta_apply indet (S depth) fh a b sc e) (fun x => Repr x.2 e m).
Proof.
  intros HR. unfold restoreRecipeAndChunk, string_of, db_query.
  destruct (_ <=? _); [|done]. cbn [mbind outcome_bind require].
  destruct (levelDBObj_ _); [|done]. cbn [mbind outcome_bind in_bounds].
  destruct (Get _ _); [|done]. destruct (files e !! _); [|done]. by apply restore_loop_runs.
Qed.

Lemma restore_region_runs depth fi s i sc e m :
  Repr sc e m ->
  runs (restore_region delta_apply indet (S depth) fi s i sc e) (fun x => Repr x.2 e m).
Proof.
  intros HR. unfold restore_region. destruct (_ <? _); [|done].
  eapply runs_bind; [by apply restoreRecipeAndChunk_runs|]. by intros [[ok l] sc1].
Qed.

Lemma restore_regions_runs depth s1 s2 i1 i2 r e m :
  Repr (dt_storageObj_ r) e m ->
  runs (restore_regions delta_apply indet fi1 fi2 (S depth) s1 s2 i1 i2 r e) (fun x => Repr x.2 e m).
Proof.
  intros HR. unfold restore_regions. eapply runs_bind; [by apply restore_region_runs|].
  intros [o sc1] HR1. eapply runs_bind; [by apply restore_region_runs|]. by intros [n sc2].
Qed.

Lemma log_pair_runs i j r :
  runs (log_pair fi1 fi2 i j r) (fun r' => dt_storageObj_ r' = dt_storageObj_ r).
Proof.
  unfold log_pair. eapply runs_bind; [apply runs_in_bounds|]. intros x _.
  eapply runs_bind; [apply runs_in_bounds|]. by intros y _.
Qed.

Lemma logged_if_runs (b : bool) i j r :
  runs (if b then Ok r else log_pair fi1 fi2 i j r) (fun r' => dt_storageObj_ r' = dt_storageObj_ r).
Proof. destruct b; [done|apply log_pair_runs]. Qed.

(** What a part of a turn keeps. *)
Definition keeps c e m (x : cursor * findings) : Prop :=
  same_place c x.1 /\ Repr (dt_storageObj_ x.2) e m.

Ltac run_step := eapply runs_bind; [first [apply runs_in_bounds|apply log_pair_runs|apply logged_if_runs]|].

Lemma equal_step_runs depth c r e m :
  cursor_ok c -> Repr (dt_storageObj_ r) e m ->
  runs (equal_step (S depth) c r e) (fun x => moved c x.1 /\ Repr (dt_storageObj_ x.2) e m).
Proof.
  intros (? & ? & ?) HR. unfold Dector.equal_step.
  eapply (runs_bind _ _ (keeps c e m)).
  - destruct (flag c =? 2); [|done]. cbv zeta. run_step. intros st _. run_step. intros r2 Hr2.
    eapply runs_bind; [apply restore_regions_runs; rewrite Hr2; exact HR|].
    intros [[o n] sc1] HR1. by split.
  - intros [c1 r1] ((E1 & E2 & E3) & HR1). cbn in *. unfold moved, cursor_ok. cbn.
    split; [|done]. lia.
Qed.

Lemma close_region_runs depth s1 s2 c r e m :
  Repr (dt_storageObj_ r) e m ->
  runs (close_region delta_apply indet fi1 fi2 (S depth) s1 s2 c r e) (keeps c e m).
Proof.
  intros HR. unfold close_region. destruct (_ && _); [|done]. cbv zeta. run_step. intros y _.
  eapply (runs_bind _ _ (fun r' => dt_storageObj_ r' = dt_storageObj_ r)).
  - destruct (unique y =? 0); [done|]. run_step. intros y' _. destruct (unique y' =? 0); [done|].
    run_step. intros r1 Hr1. eapply runs_impl; [apply log_pair_runs|]. intros r2 ->. exact Hr1.
  - intros r2 Hr2. eapply runs_bind; [apply restore_regions_runs; rewrite Hr2; exact HR|].
    intros [[o n] sc1] HR1. by split.
Qed.

Lemma close_single_runs s1 s2 c r e m :
  Repr (dt_storageObj_ r) e m -> runs (close_single fi1 fi2 s1 s2 c r) (keeps c e m).
Proof.
  intros HR. unfold close_single. destruct (_ && _); [|done]. cbv zeta. run_step. intros y _.
  run_step. intros r2 Hr2. split; [done|]. cbn [snd]. by rewrite Hr2.
Qed.

Lemma open_region_runs s1 s2 c r e m :
  Repr (dt_storageObj_ r) e m -> runs (open_region fi1 fi2 s1 s2 c r) (keeps c e m).
Proof.
  intros HR. unfold open_region. destruct (_ && _); [|done]. cbv zeta. run_step. intros y _.
  run_step. intros r2 Hr2. split; [done|]. cbn [snd]. by rewrite Hr2.
Qed.

Lemma end_region_runs depth c r e m :
  Repr (dt_storageObj_ r) e m ->
  runs (end_region delta_apply indet fi1 fi2 (S depth) c r e) (keeps c e m).
Proof.
  intros HR. unfold end_region. destruct (_ && _); [|done]. cbv zeta. run_step. intros st _.
  run_step. intros y _. run_step. intros r2 Hr2.
  eapply runs_bind; [apply restore_regions_runs; rewrite Hr2; exact HR|].
  intros [[o n] sc1] HR1. by split.
Qed.

Lemma moved_same c c1 c2 : moved c c1 -> same_place c1 c2 -> moved c c2.
Proof.
  unfold moved, cursor_ok. intros Hm (E1 & E2 & E3). rewrite E1, E2, E3. exact Hm.
Qed.

Lemma walk_step_runs depth c r e m :
  cursor_ok c -> Repr (dt_storageObj_ r) e m ->
  runs (walk_step (S depth) c r e) (fun x => moved c x.1 /\ Repr (dt_storageObj_ x.2) e m).
Proof.
  intros Hok HR. unfold Dector.walk_step.
  destruct (chunk_1 fi1 (i_1 c)) as [x| | |] eqn:Hx; try done;
    [|by unfold chunk_1, in_bounds in Hx; destruct (nthZ _ _)].
  destruct (chunk_2 fi2 (i_2 c)) as [y| | |] eqn:Hy; try done;
    [|by unfold chunk_2, in_bounds in Hy; destruct (nthZ _ _)].
  cbn [mbind outcome_bind]. case_bool_decide; [by apply equal_step_runs|].
  unfold Dector.differ_step. cbv zeta.
  eapply runs_bind; [by eapply scan_moves|]. intros c1 Hm1.
  eapply runs_bind; [by apply close_region_runs|]. intros [c2 r2] [Hp2 HR2].
  eapply runs_bind; [by apply close_single_runs|]. intros [c3 r3] [Hp3 HR3].
  eapply runs_bind; [by apply open_region_runs|]. intros [c4 r4] [Hp4 HR4].
  eapply runs_impl; [by apply end_region_runs|]. intros [c5 r5] [Hp5 HR5]. split; [|done].
  cbn [fst] in *. eauto using moved_same.
Qed.

(** How far the walk may still go. *)
Definition walk_left c : Z :=
  (chunknumber fi2 + 1 - i_2 c) * (chunknumber fi1 + 1) + (chunknumber fi1 - i_1 c).

Lemma walk_runs depth fuel c r e m :
  cursor_ok c -> Repr (dt_storageObj_ r) e m ->
  (i_1 c < chunknumber fi1 -> i_2 c <= chunknumber fi2 -> walk_left c <= Z.of_nat fuel) ->
  runs (walk (S depth) fuel c r e) (fun x => Repr (dt_storageObj_ x.2) e m).
Proof.
  revert c r; induction fuel as [|fuel IH]; intros c r Hok HR Hf; cbn [Dector.walk];
    destruct (_ && _) eqn:Hg; try done; bools; specialize (Hf ltac:(lia) ltac:(lia));
    pose proof Hok as (? & ? & ?); unfold walk_left in *; [nia|].
  eapply runs_bind; [by apply walk_step_runs|]. intros [c1 r1] [(Hok1 & Hi2 & Hi1) HR1].
  cbn [fst snd] in *. apply IH; [done|done|]. intros ? ?. pose proof Hok1 as (? & ? & ?).
  destruct (Z.eq_dec (i_2 c1) (i_2 c)) as [E|Hne]; [specialize (Hi1 E); rewrite E; lia|nia].
Qed.
End DectorSpec.
