(* ===== verification/DectorWalk.v ===== *)
(** * The walk over equal chunks and over one replaced chunk

    Equal chunks are walked over without finding anything; a chunk that was
    replaced inside otherwise equal versions is found as the one transfer. *)

From S2P Require Import Prelude.
From S2P Require Import Bytes.
From S2P Require Import DataStructure.
From S2P Require Import Database.
From S2P Require Import Storage.
From S2P Require Import Recipe.
From S2P Require Import Compress.
From S2P Require Import Dector.
From S2P Require Import DectorSpec.
From stdpp Require Import base tactics numbers list gmap strings.
From Stdlib Require Import Ascii ZArith Lia.

Open Scope Z_scope.

Lemma nthZ_app_r {A} (l1 l2 : list A) j : 0 <= j -> nthZ (l1 ++ l2) (lengthZ l1 + j) = nthZ l2 j.
Proof.
  intros Hj. pose proof (lengthZ_nonneg l1). unfold nthZ.
  rewrite !(proj2 (Z.ltb_ge _ _)) by lia. rewrite lengthZ_length in *.
  rewrite lookup_app_r by lia. f_equal. lia.
Qed.

Section DectorWalk.
Context {db : Type} `{LevelDB db} {mongo : Type} `{Mongo mongo}.
Context (delta_apply : bytes -> bytes -> bytes).
Context (extractSuperFeatures : bytes -> Z -> Z -> list bytes).
Context (indet : Z -> byte).
Context (minWin maxWin SFNumber : Z).
Context (fi1 fi2 : Index) (Hn1 : counted fi1) (Hn2 : counted fi2).
Implicit Types (c : cursor) (r : findings) (e : env db) (sc : StorageCore) (mg : mongo).

Abbreviation walk := (walk delta_apply indet minWin maxWin fi1 fi2).
Abbreviation walk_step := (walk_step delta_apply indet minWin maxWin fi1 fi2).
Abbreviation truetransferDector :=
  (truetransferDector delta_apply extractSuperFeatures indet minWin maxWin SFNumber fi1 fi2).

(** The chunks at the two positions have the same fingerprint. *)
Definition same_at (i j : Z) : Prop :=
  exists x y, nthZ (idx_chunk fi1) i = Some x /\ nthZ (idx_chunk fi2) j = Some y /\
    fingerprint x = fingerprint y.

Lemma same_at_fps i j h :
  nthZ (fps fi1) i = Some h -> nthZ (fps fi2) j = Some h -> same_at i j.
Proof.
  unfold fps. rewrite !nthZ_fmap. intros (x & Hx & ->)%fmap_Some (y & Hy & E)%fmap_Some.
  by exists x, y.
Qed.

Lemma same_at_lt i j : same_at i j -> i < chunknumber fi1 /\ j < chunknumber fi2.
Proof.
  intros (x & y & Hx%nthZ_lt & Hy%nthZ_lt & _). unfold counted in *. lia.
Qed.

Definition advance (n : Z) c : cursor :=
  mkCursor (i_1 c + n) (i_2 c + n) (win_size c) (flag c) (before c) (after c).

Lemma walk_stop depth fuel c r e : chunknumber fi1 <= i_1 c -> walk depth fuel c r e = Ok (c, r).
Proof. intros Hi. destruct fuel; cbn [Dector.walk]; by rewrite (proj2 (Z.ltb_ge _ _)) by lia. Qed.

Lemma walk_go depth fuel c r e :
  i_1 c < chunknumber fi1 -> i_2 c <= chunknumber fi2 ->
  walk depth (S fuel) c r e = '(c1, r1) ← walk_step depth c r e; walk depth fuel c1 r1 e.
Proof.
  intros H1 H2. cbn [Dector.walk]. by rewrite (proj2 (Z.ltb_lt _ _)), (proj2 (Z.leb_le _ _)) by lia.
Qed.

Lemma walk_equal depth n fuel c r e :
  flag c <> 2 -> win_size c = minWin ->
  (forall j, 0 <= j < Z.of_nat n -> same_at (i_1 c + j) (i_2 c + j)) ->
  walk depth (n + fuel) c r e = walk depth fuel (advance (Z.of_nat n) c) r e.
Proof.
  revert c; induction n as [|n IH]; intros c Hf Hw Hs.
  { unfold advance. rewrite !Z.add_0_r. by destruct c. }
  assert (same_at (i_1 c) (i_2 c)) as Hs0.
  { specialize (Hs 0 ltac:(lia)). by rewrite !Z.add_0_r in Hs. }
  pose proof (same_at_lt _ _ Hs0) as [? ?]. destruct Hs0 as (x & y & Hx & Hy & E).
  change (S n + fuel)%nat with (S (n + fuel)). rewrite walk_go by lia.
  unfold Dector.walk_step, chunk_1, chunk_2. rewrite Hx, Hy. cbn [mbind outcome_bind in_bounds].
  rewrite bool_decide_eq_true_2 by done. unfold equal_step.
  rewrite (proj2 (Z.eqb_neq _ _)) by done. cbn [mbind outcome_bind].
  rewrite IH; cbn; [|done|done|].
  - unfold advance. cbn. rewrite <- Hw. f_equal. f_equal; lia.
  - intros j Hj. specialize (Hs (j + 1) ltac:(lia)).
    by replace (i_1 c + 1 + j) with (i_1 c + (j + 1)) by lia;
       replace (i_2 c + 1 + j) with (i_2 c + (j + 1)) by lia.
Qed.

(** ** A common beginning *)

Lemma walk_prefix depth n fuel r e :
  (forall j, 0 <= j < Z.of_nat n -> same_at j j) ->
  walk depth (n + fuel) (first_cursor minWin) r e =
  walk depth fuel (advance (Z.of_nat n) (first_cursor minWin)) r e.
Proof. intros Hs. by apply walk_equal. Qed.

Lemma same_prefix (l k1 k2 : list bytes) j :
  fps fi1 = l ++ k1 -> fps fi2 = l ++ k2 -> 0 <= j < lengthZ l -> same_at j j.
Proof.
  intros E1 E2 Hj. destruct (nthZ_is_Some l j Hj) as [h Hh]. apply (same_at_fps _ _ h).
  - by rewrite E1, nthZ_app_l by lia.
  - by rewrite E2, nthZ_app_l by lia.
Qed.

Lemma fps_length fi : lengthZ (fps fi) = lengthZ (idx_chunk fi).
Proof. unfold fps. by rewrite !lengthZ_length, length_fmap. Qed.

Lemma walk_fuel_enough : chunknumber fi1 < Z.of_nat (walk_fuel fi1 fi2).
Proof.
  unfold walk_fuel, counted in *. rewrite Hn1, Hn2.
  pose proof (lengthZ_nonneg (idx_chunk fi1)). pose proof (lengthZ_nonneg (idx_chunk fi2)). nia.
Qed.

(** The new version begins like the old one, or is it: nothing is found. *)
Lemma no_transfer depth sc e mg k :
  fps fi2 = fps fi1 ++ k ->
  truetransferDector depth sc e mg = Ok (first_findings sc, (0, 0, 0), insert_group_number mg).
Proof.
  intros E. unfold Dector.truetransferDector. pose proof walk_fuel_enough as Hf.
  pose proof (fps_length fi1) as Hl. unfold counted in Hn1. pose proof (lengthZ_nonneg (idx_chunk fi1)).
  replace (walk_fuel fi1 fi2) with
    (Z.to_nat (chunknumber fi1) + (walk_fuel fi1 fi2 - Z.to_nat (chunknumber fi1)))%nat by lia.
  rewrite walk_prefix.
  - rewrite walk_stop; [done|]. cbn. lia.
  - intros j Hj. apply (same_prefix (fps fi1) [] k); [by rewrite app_nil_r|done|lia].
Qed.

(** The old version is longer: after the last chunk of the new one the walk
    reads behind its vector. *)
Lemma prefix_out_of_bounds depth sc e mg h k :
  fps fi1 = fps fi2 ++ h :: k -> truetransferDector depth sc e mg = UB.
Proof.
  intros E. unfold Dector.truetransferDector. pose proof walk_fuel_enough as Hf.
  pose proof (fps_length fi1) as Hl1. pose proof (fps_length fi2) as Hl2.
  rewrite E, lengthZ_app in Hl1. cbn [lengthZ] in Hl1. pose proof (lengthZ_nonneg k).
  unfold counted in Hn1, Hn2. pose proof (lengthZ_nonneg (idx_chunk fi2)).
  replace (walk_fuel fi1 fi2) with
    (Z.to_nat (chunknumber fi2) + S (walk_fuel fi1 fi2 - Z.to_nat (chunknumber fi2) - 1))%nat by lia.
  rewrite walk_prefix.
  - rewrite walk_go by (cbn; lia). unfold Dector.walk_step, chunk_1, chunk_2. cbn [i_1 i_2 advance first_cursor].
    destruct (nthZ_is_Some (idx_chunk fi1) (0 + Z.of_nat (Z.to_nat (chunknumber fi2)))) as [x ->]; [lia|].
    destruct (nthZ (idx_chunk fi2) _) eqn:Hy; [|done]. apply nthZ_lt in Hy. lia.
  - intros j Hj. apply (same_prefix (fps fi2) (h :: k) []); [done|by rewrite app_nil_r|lia].
Qed.

(** ** A replaced chunk *)

(** One round of the search over [n] chunks that differ from the chunk of the
    new version. *)
Lemma scan_skip n fuel s k count c y :
  chunk_2 fi2 (i_2 c) = Ok y -> 0 <= k -> k + Z.of_nat n < win_size c ->
  (forall j, k <= j < k + Z.of_nat n -> i_1 c + j < chunknumber fi1 /\
     exists x, chunk_1 fi1 (i_1 c + j) = Ok x /\ fingerprint x <> fingerprint y) ->
  scan minWin maxWin fi1 fi2 (n + fuel) s k count c =
  scan minWin maxWin fi1 fi2 fuel s (k + Z.of_nat n) count c.
Proof.
  intros Hy. revert k; induction n as [|n IH]; intros k Hk Hlt Hs; [by rewrite Z.add_0_r|].
  change (S n + fuel)%nat with (S (n + fuel)). cbn [scan].
  rewrite (proj2 (Z.ltb_lt k _)) by lia. cbn [negb].
  destruct (Hs k) as (Hi & x & Hx & Hne); [lia|]. rewrite Hx, Hy. cbn [mbind outcome_bind].
  rewrite bool_decide_eq_false_2 by done.
  rewrite (proj2 (Z.leb_gt _ _)), (proj2 (Z.eqb_neq k _)) by lia. cbn [orb].
  rewrite IH by (lia || (intros j Hj; apply Hs; lia)). f_equal. lia.
Qed.

(** The versions agree but for one chunk, [x] in the old and [y] in the new
    one, which no chunk of the window is like; the window does not reach behind
    the old version. *)
Record replaced (A1 A2 B1 B2 : list L0) (x y b1 b2 : L0) : Prop := {
  rp_old : idx_chunk fi1 = A1 ++ x :: b1 :: B1;
  rp_new : idx_chunk fi2 = A2 ++ y :: b2 :: B2;
  rp_before : fingerprint <$> A1 = fingerprint <$> A2;
  rp_behind : fingerprint <$> b1 :: B1 = fingerprint <$> b2 :: B2;
  rp_differ z : z ∈ x :: b1 :: B1 -> fingerprint z <> fingerprint y;
  rp_first : fingerprint x <> fingerprint b2;
  rp_window : 2 <= minWin <= lengthZ (x :: b1 :: B1)
}.

Section Replaced.
Context (A1 A2 B1 B2 : list L0) (x y b1 b2 : L0) (Hrep : replaced A1 A2 B1 B2 x y b1 b2).
Let p := lengthZ A1.

Lemma replaced_length : lengthZ A2 = p /\ lengthZ B2 = lengthZ B1.
Proof.
  pose proof (rp_before _ _ _ _ _ _ _ _ Hrep) as E1%(f_equal length).
  pose proof (rp_behind _ _ _ _ _ _ _ _ Hrep) as E2%(f_equal length).
  rewrite !length_fmap in *. cbn [length] in E2. unfold p. rewrite !lengthZ_length. lia.
Qed.

Lemma old_at j : 0 <= j -> chunk_1 fi1 (p + j) = in_bounds (nthZ (x :: b1 :: B1) j).
Proof. intros. unfold chunk_1, p. by rewrite (rp_old _ _ _ _ _ _ _ _ Hrep), nthZ_app_r. Qed.

Lemma new_at j : 0 <= j -> chunk_2 fi2 (p + j) = in_bounds (nthZ (y :: b2 :: B2) j).
Proof.
  intros. unfold chunk_2. destruct replaced_length as [<- _].
  by rewrite (rp_new _ _ _ _ _ _ _ _ Hrep), nthZ_app_r.
Qed.

Lemma chunknumber_old : chunknumber fi1 = p + 2 + lengthZ B1.
Proof.
  unfold counted in Hn1. rewrite Hn1, (rp_old _ _ _ _ _ _ _ _ Hrep), lengthZ_app. cbn [lengthZ]. unfold p. lia.
Qed.
Lemma chunknumber_new : chunknumber fi2 = p + 2 + lengthZ B1.
Proof.
  destruct replaced_length as [E1 E2]. unfold counted in Hn2.
  rewrite Hn2, (rp_new _ _ _ _ _ _ _ _ Hrep), lengthZ_app. cbn [lengthZ]. lia.
Qed.

(** The search finds the chunk behind the replaced one. *)
Lemma scan_replaced fl b a :
  fl <> 2 ->
  scan minWin maxWin fi1 fi2 (scan_fuel minWin) p 0 0 (mkCursor p p minWin fl b a) =
  Ok (mkCursor (p + 1) (p + 1) minWin 1 b a).
Proof.
  intros Hfl. destruct (rp_window _ _ _ _ _ _ _ _ Hrep) as [Hw1 Hw2].
  pose proof chunknumber_old as Hc. cbn [lengthZ] in Hw2.
  assert (Hy : chunk_2 fi2 p = Ok y) by (rewrite <- (Z.add_0_r p), new_at by lia; done).
  assert (Hb : chunk_2 fi2 (p + 1) = Ok b2) by (rewrite new_at by lia; done).
  assert (Hx : chunk_1 fi1 (p + 0) = Ok x) by (rewrite old_at by lia; done).
  assert (Hb1 : chunk_1 fi1 (p + (0 + 1)) = Ok b1) by (rewrite old_at by lia; done).
  assert (Hdiff : forall j, 0 <= j < minWin ->
    exists z, chunk_1 fi1 (p + j) = Ok z /\ fingerprint z <> fingerprint y).
  { intros j Hj. destruct (nthZ_is_Some (x :: b1 :: B1) j) as [z Hz]; [cbn [lengthZ]; lia|].
    exists z. rewrite old_at, Hz by lia. split; [done|].
    apply (rp_differ _ _ _ _ _ _ _ _ Hrep). by eapply nthZ_elem. }
  replace (scan_fuel minWin) with
    (Z.to_nat (minWin - 1) + S (S (S (Z.to_nat (minWin * minWin) - Z.to_nat (minWin - 1) - 2))))%nat
    by (unfold scan_fuel; nia).
  rewrite (scan_skip _ _ _ _ _ _ y); cbn [i_1 i_2 win_size]; [|done|lia|lia|].
  2: { intros j Hj. split; [lia|]. apply Hdiff. lia. }
  cbn [scan i_1 i_2 win_size flag before after]. rewrite (proj2 (Z.ltb_lt _ _)) by lia. cbn [negb].
  destruct (Hdiff (0 + Z.of_nat (Z.to_nat (minWin - 1)))) as (z & -> & Hne); [lia|]. rewrite Hy.
  cbn [mbind outcome_bind]. rewrite bool_decide_eq_false_2 by done.
  rewrite (proj2 (Z.eqb_eq _ (minWin - 1))), orb_true_r by lia.
  rewrite (proj2 (Z.leb_gt minWin _)) by lia.
  rewrite (proj2 (Z.ltb_lt 0 minWin)) by lia. cbn [negb]. rewrite Hx, Hb.
  cbn [mbind outcome_bind].
  rewrite bool_decide_eq_false_2 by apply (rp_first _ _ _ _ _ _ _ _ Hrep).
  rewrite (proj2 (Z.leb_gt _ _)), (proj2 (Z.eqb_neq 0 _)) by (pose proof (lengthZ_nonneg B1); lia).
  cbn [orb]. rewrite (proj2 (Z.ltb_lt (0 + 1) minWin)) by lia. cbn [negb]. rewrite Hb1.
  cbn [mbind outcome_bind]. pose proof (rp_behind _ _ _ _ _ _ _ _ Hrep) as E.
  rewrite !fmap_cons in E. injection E as E _. rewrite bool_decide_eq_true_2 by done.
  by rewrite (proj2 (Z.eqb_neq fl 2)) by done.
Qed.

(** What is found for it. *)
Definition replaced_findings sc : findings :=
  mkFindings [mkPair p p] 1 (if unique y =? 0 then [] else fingerprint x ++ fingerprint y) [] [] sc.

Lemma walk_step_replaced depth sc e :
  walk_step depth (mkCursor p p minWin 0 0 0) (first_findings sc) e =
  Ok (mkCursor (p + 1) (p + 1) minWin 0 0 0, replaced_findings sc).
Proof.
  assert (Hx : chunk_1 fi1 p = Ok x) by (rewrite <- (Z.add_0_r p), old_at by lia; done).
  assert (Hy : chunk_2 fi2 p = Ok y) by (rewrite <- (Z.add_0_r p), new_at by lia; done).
  unfold Dector.walk_step. cbn [i_1 i_2]. rewrite Hx, Hy. cbn [mbind outcome_bind].
  rewrite bool_decide_eq_false_2 by (apply (rp_differ _ _ _ _ _ _ _ _ Hrep); by left).
  unfold differ_step. cbn [i_1 i_2 win_size]. rewrite scan_replaced by done.
  cbn [mbind outcome_bind]. unfold close_region. cbn [i_1 i_2 flag].
  replace (p + 1 - 1) with p by lia. rewrite !Z.eqb_refl. cbn [negb]. rewrite !andb_false_r. cbn [mbind outcome_bind].
  unfold close_single. cbn [i_1 i_2 flag]. replace (p + 1 - 1) with p by lia. rewrite !Z.eqb_refl.
  cbn [andb orb]. rewrite Hy. change (1 =? 1) with true. cbn [andb mbind outcome_bind].
  unfold replaced_findings, log_pair. rewrite Hx, Hy.
  destruct (unique y =? 0); reflexivity.
Qed.

Lemma walk_fuel_split :
  exists f, walk_fuel fi1 fi2 = (Z.to_nat p + S (Z.to_nat (1 + lengthZ B1) + f))%nat.
Proof.
  exists (walk_fuel fi1 fi2 - (Z.to_nat p + S (Z.to_nat (1 + lengthZ B1))))%nat.
  pose proof walk_fuel_enough as Hf. pose proof chunknumber_old. pose proof (lengthZ_nonneg A1).
  pose proof (lengthZ_nonneg B1). unfold p in *. lia.
Qed.

(** The versions but for the replaced chunk, aligned. *)
Lemma replaced_same j : 0 <= j -> j <> p -> j < chunknumber fi1 -> same_at j j.
Proof.
  intros Hj Hne Hlt. rewrite chunknumber_old in Hlt. destruct replaced_length as [E1 E2].
  pose proof (rp_before _ _ _ _ _ _ _ _ Hrep) as Ea. pose proof (rp_behind _ _ _ _ _ _ _ _ Hrep) as Eb.
  unfold same_at. rewrite (rp_old _ _ _ _ _ _ _ _ Hrep), (rp_new _ _ _ _ _ _ _ _ Hrep).
  destruct (Z.lt_ge_cases j p).
  - rewrite !nthZ_app_l by (unfold p in *; lia).
    destruct (nthZ_is_Some A1 j) as [z Hz]; [unfold p in *; lia|].
    pose proof (nthZ_fmap fingerprint A2 j) as E. rewrite <- Ea, nthZ_fmap, Hz in E.
    symmetry in E. apply fmap_Some in E as (z' & Hz' & E). by exists z, z'.
  - remember (j - p - 1) as q eqn:Hq.
    replace (nthZ (A1 ++ x :: b1 :: B1) j) with (nthZ (b1 :: B1) q).
    2: { replace j with (lengthZ A1 + (1 + q)) by (unfold p in *; lia). rewrite nthZ_app_r by lia.
         symmetry. apply (nthZ_app_r [x] (b1 :: B1)). lia. }
    replace (nthZ (A2 ++ y :: b2 :: B2) j) with (nthZ (b2 :: B2) q).
    2: { replace j with (lengthZ A2 + (1 + q)) by lia. rewrite nthZ_app_r by lia.
         symmetry. apply (nthZ_app_r [y] (b2 :: B2)). lia. }
    destruct (nthZ_is_Some (b1 :: B1) q) as [z Hz]; [cbn [lengthZ]; lia|].
    pose proof (nthZ_fmap fingerprint (b2 :: B2) q) as E. rewrite <- Eb, nthZ_fmap, Hz in E.
    symmetry in E. apply fmap_Some in E as (z' & Hz' & E). by exists z, z'.
Qed.

(** The whole walk finds one transfer, at the replaced chunk. *)
Lemma one_transfer depth sc e mg :
  truetransferDector depth sc e mg =
  Ok (replaced_findings sc, (0, 0, 0), insert_group_number mg).
Proof.
  pose proof chunknumber_old as Hc1. pose proof chunknumber_new as Hc2.
  pose proof (lengthZ_nonneg A1) as Hp. fold p in Hp. pose proof (lengthZ_nonneg B1).
  unfold Dector.truetransferDector. destruct walk_fuel_split as [f ->].
  rewrite walk_prefix by (intros j Hj; apply replaced_same; lia).
  unfold advance, first_cursor. cbn [i_1 i_2 win_size flag before after].
  rewrite Z.add_0_l, Z2Nat.id by lia. rewrite walk_go by (cbn; lia). rewrite walk_step_replaced.
  cbn [mbind outcome_bind].
  rewrite walk_equal; cbn [i_1 i_2 win_size flag]; [|done|done|].
  - rewrite walk_stop by (cbn; lia). cbn [mbind outcome_bind]. reflexivity.
  - intros j Hj. apply replaced_same; lia.
Qed.
End Replaced.
End DectorWalk.
