(* ===== verification/Main.v ===== *)
(** * The program (src/main.cc)

    [main] opens the databases, makes a [StorageCore] and runs one of four
    commands: [-c] stores a new version of a file and compares it with the
    version before, [-rw] measures the compression, [-rs] restores a version,
    and anything else takes two files through all of it.  What lies in memory
    that is not initialised is a parameter, numbered by the object it belongs
    to.  Left out are the signal handlers, the clock and the text output. *)

From S2P Require Import Prelude.
From S2P Require Import Bytes.
From S2P Require Import DataStructure.
From S2P Require Import Database.
From S2P Require Import Storage.
From S2P Require Import Recipe.
From S2P Require Import StorageSpec.
From S2P Require Import StorageRefine.
From S2P Require Import Crypto.
From S2P Require Import Config.
From S2P Require Import Chunking.
From S2P Require Import FileIndex.
From S2P Require Import Chunker.
From S2P Require Import ChunkerSpec.
From S2P Require Import IndexInv.
From S2P Require Import Backup.
From S2P Require Import Manager.
From S2P Require Import DeltaStore.
From S2P Require Import Compress.
From S2P Require Import Dector.
From stdpp Require Import base tactics numbers list gmap strings.
From Stdlib Require Import Ascii ZArith Lia.

Open Scope Z_scope.

Section Main.
Context {db : Type} `{LevelDB db} `{EVP_Digest} {mongo : Type} `{Mongo mongo}.
(** libsim, MD5, the shell command of [updateContainer]. *)
Context (delta_create delta_apply : bytes -> bytes -> bytes).
Context (extractSuperFeatures : bytes -> Z -> Z -> list bytes).
Context (MD5 : bytes -> bytes) (rm_Delta : gmap bytes bytes -> gmap bytes bytes).
(** Memory that is not initialised. *)
Context (mem mem' : nat -> Z -> byte) (indet : Z -> byte) (stack stack' : bytes).
Context (uninit_key : nat -> Z -> keyForChunkHashDB_t).
Context (uninit_recipe : nat -> Recipe_t) (uninit_index : nat -> Index) (winFp0 : nat -> Z).
(** [leveldb::DB::Open], and the configuration [main] starts with. *)
Context (open : bytes -> option db) (config : Configure).
(** How long a chain of deltas may be. *)
Context (depth : nat).
Implicit Types (e : env db) (mg : mongo) (sc : StorageCore).

Definition new_storage (k : nat) e : outcome StorageCore :=
  StorageCore_new (getContainerRootPath config) (getRecipeRootPath config)
    (getMaxContainerSize config) (mem k) (mem' k) e.

(** [!indexflag], where [indexflag] is an [int]. *)
Definition not_indexflag : Z := if i32 (getIndexflag config) =? 0 then 1 else 0.

(** A [Chunker] on [path] that has chunked it; every turn of the read loop but
    the last takes at least a byte. *)
Definition chunk_file (k : nat) (path : bytes) sc e : outcome (Chunker * StorageCore * env db) :=
  ck ← Chunker_new config (uninit_recipe k) (uninit_index k) path not_indexflag e;
  Chunker_chunking MD5 stack stack' (uninit_key k) (S (length (ck_file ck))) (winFp0 k) ck sc e.

Definition new_dector (c d : Index) sc e mg : outcome (findings * env db * mongo) :=
  Dector_new delta_apply extractSuperFeatures indet (i32 (getMinSlidingWinSize config))
    (i32 (getMaxSlidingWinSize config)) (getSFNumber config) c d depth not_indexflag sc e mg.

(** ** The index files of the versions *)

Definition version_name (name : bytes) (version : Z) : bytes :=
  name ++ str "-" ++ to_string version.

(** [fstream::open] with its default mode: the file is there and can be
    written. *)
Definition fstream_opens (path : bytes) e : bool :=
  bool_decide (is_Some (files e !! path)) && writable e path.

(** The loop that looks for the first version without an index file; each turn
    finds another file. *)
Fixpoint next_version (fuel : nat) (name : bytes) (version : Z) e : outcome Z :=
  if fstream_opens (index_path (version_name name version)) e then
    match fuel with
    | O => NoFuel
    | S fuel' => next_version fuel' name (version + 1) e
    end
  else Ok version.

(** [fileName.substr(0, fileName.size() - 2)] is [but_two]. *)
Definition find_version (name : bytes) e : outcome Z := next_version (size (files e)) name 0 e.

(** ** -c *)

Definition main_c (fileName : bytes) sc e mg : outcome (env db * mongo) :=
  '(ck, sc1, e1) ← chunk_file 0 fileName sc e;
  e2 ← StorageCore_delete sc1 e1;
  let name := but_two fileName in
  version ← find_version name e2;
  '(_, e3) ← saveToFile (returnindex ck) (version_name name version) e2;
  if version <? 1 then Ok (e3, mg) else
  sc2 ← new_storage 1 e3;
  c ← loadIndex (version_name name (version - 1)) e3;
  '(r, e4, mg1) ← new_dector c (returnindex ck) sc2 e3 mg;
  e5 ← StorageCore_delete (dt_storageObj_ r) e4;
  Ok (e5, mg1).

(** ** -rw

    The calls of [updateContainer] and [rewriteContainer] are commented out;
    the second of the three storage objects is never deleted. *)

Definition main_rw e mg : outcome (env db * mongo) :=
  sc ← new_storage 1 e;
  dc ← DeltaCompressor_new (getDeltaContainerRootPath config) (getMaxDeltaContainerSize config)
         (mem 2) (mem' 2) sc e;
  '(_, _, dc1, e1, mg1) ← compress delta_create delta_apply depth dc e mg;
  e2 ← DeltaCompressor_delete dc1 e1;
  e3 ← StorageCore_delete (dc_storageObj_ dc1) e2;
  sc2 ← new_storage 3 e3;
  sc3 ← new_storage 4 e3;
  e4 ← StorageCore_delete sc3 e3;
  Ok (e4, mg1).

(** ** -rs

    The file is created before the chunks are restored, and stays empty when
    that fails. *)

Definition main_rs (fileName : bytes) e mg : outcome (env db * mongo) :=
  sc ← new_storage 1 e;
  _ ← Chunker_new config (uninit_recipe 0) (uninit_index 0) fileName 1 e;
  c ← loadIndex fileName e;
  let out := but_two fileName in
  let '(_, e1) := write_file out [] e in
  '(ok, newrestoredChunkList, _) ←
     restoreRecipeAndChunk delta_apply indet depth (fileNameHash c) 0 (u32 (chunknumber c)) sc e1;
  Ok (if (ok : bool) then (write_file out (written newrestoredChunkList) e1).2 else e1, mg).

(** ** Two files *)

Definition main_two (fileName1 fileName2 : bytes) sc e mg : outcome (env db * mongo) :=
  '(test3, sc1, e1) ← chunk_file 0 fileName1 sc e;
  '(test4, sc2, e2) ← chunk_file 1 fileName2 sc1 e1;
  e3 ← StorageCore_delete sc2 e2;
  sc3 ← new_storage 1 e3;
  let d := returnindex test4 in
  '(r, e4, mg1) ← new_dector (returnindex test3) d sc3 e3 mg;
  e5 ← StorageCore_delete (dt_storageObj_ r) e4;
  sc4 ← new_storage 2 e5;
  dc ← DeltaCompressor_new (getDeltaContainerRootPath config) (getMaxDeltaContainerSize config)
         (mem 3) (mem' 3) sc4 e5;
  '(_, _, dc1, e6, mg2) ← compress delta_create delta_apply depth dc e5 mg1;
  e7 ← DeltaCompressor_delete dc1 e6;
  e8 ← StorageCore_delete (dc_storageObj_ dc1) e7;
  sc5 ← new_storage 4 e8;
  let manager k sc e := Manager_new (getDeltaContainerRootPath config) (getContainerRootPath config)
                          (getMaxContainerSize config) (mem' k) sc e in
  '(_, _, e9) ← updateContainer rm_Delta (manager 5%nat sc5 e8) e8;
  sc6 ← new_storage 6 e9;
  '(_, g, e10) ← rewriteContainer (uninit_key 2) (manager 7%nat sc6 e9) e9;
  e11 ← StorageCore_delete (mg_storageObj_ g) e10;
  sc7 ← new_storage 8 e11;
  '(_, _, _) ← restoreRecipeAndChunk delta_apply indet depth (fileNameHash d) 0 1253 sc7 e11;
  Ok (e11, mg2).

(** ** main *)

(** The four databases are opened; a failed [openDB] is not looked at. *)
Definition open_databases e : outcome (env db) :=
  '(_, d1) ← openDB open (files e) (getFp2ChunkDBName config) (fp2ChunkDB e);
  '(_, d2) ← openDB open (files e) (getFp2MetaDBame config) (fileName2metaDB e);
  '(_, d3) ← openDB open (files e) (getdeltaChunkDBame config) (deltaChunkDB e);
  '(_, d4) ← openDB open (files e) (getcontainerDBame config) (containerDB e);
  Ok (mkEnv d1 d2 d3 d4 (files e) (writable e)).

(** The destructors of the global databases. *)
Definition close_databases e : env db :=
  with_files
    (Database_destructor (fp2ChunkDB e)
      (Database_destructor (fileName2metaDB e)
        (Database_destructor (deltaChunkDB e)
          (Database_destructor (containerDB e) (files e))))) e.

Definition main (argv : list bytes) e mg : outcome (env db * mongo) :=
  sc ← new_storage 0 e;
  e1 ← open_databases e;
  arg1 ← in_bounds (nthZ argv 1);
  '(e2, mg1) ←
    (if bool_decide (arg1 = str "-c") then
       fileName ← in_bounds (nthZ argv 2); main_c fileName sc e1 mg
     else if bool_decide (arg1 = str "-rw") then main_rw e1 mg
     else if bool_decide (arg1 = str "-rs") then
       fileName ← in_bounds (nthZ argv 2); main_rs fileName e1 mg
     else
       fileName2 ← in_bounds (nthZ argv 2); main_two arg1 fileName2 sc e1 mg);
  Ok (close_databases e2, mg1).
End Main.

(** * The commands of the program: lemmas

    The search for a version, a storage object shut down and started again
    between two commands, and the two commands [-c] and [-rs] one after the
    other. *)

(** ** The search for a version *)

Section version.
Context {db : Type}.
Implicit Types (e : env db) (name : bytes).

Lemma to_string_inj a b :
  0 <= a < 2 ^ 64 -> 0 <= b < 2 ^ 64 -> to_string a = to_string b -> a = b.
Proof.
  intros Ha Hb E. unfold to_string in E. rewrite !(proj2 (Z.ltb_ge _ _)) in E by lia.
  apply (f_equal parse_unsigned) in E. rewrite !parse_unsigned_to_string in E by auto.
  by injection E.
Qed.

Lemma version_path_inj name a b : 0 <= a < 2 ^ 64 -> 0 <= b < 2 ^ 64 ->
  index_path (version_name name a) = index_path (version_name name b) -> a = b.
Proof.
  intros Ha Hb. unfold index_path, version_name. intros E%app_inv_head.
  apply app_inv_head in E. apply app_inv_head in E. by apply to_string_inj.
Qed.

Definition has_version e name (v : Z) : Prop :=
  fstream_opens (index_path (version_name name v)) e = true.

(** Versions are different files. *)
Lemma versions_size name v e :
  0 <= v < 2 ^ 64 -> (forall u, 0 <= u < v -> has_version e name u) ->
  (Z.to_nat v <= size (files e))%nat.
Proof.
  intros Hv Hall. set (paths := (fun u => index_path (version_name name u)) <$> seqZ 0 v).
  assert (Hnd : NoDup paths).
  { apply NoDup_fmap_2_strong; [|apply NoDup_seqZ]. intros x y Hx%elem_of_seqZ Hy%elem_of_seqZ.
    apply version_path_inj; lia. }
  assert (Hsub : list_to_set paths ⊆ dom (files e)).
  { intros q Hq%elem_of_list_to_set. apply list_elem_of_fmap in Hq as (u & -> & Hu%elem_of_seqZ).
    specialize (Hall u). unfold has_version, fstream_opens in Hall.
    apply elem_of_dom. assert (Hb := Hall ltac:(lia)). by bools. }
  apply subseteq_size in Hsub. rewrite size_list_to_set in Hsub by done.
  rewrite size_dom in Hsub. unfold paths in Hsub. by rewrite length_fmap, length_seqZ in Hsub.
Qed.

Lemma next_version_ends fuel name v e :
  0 <= v -> v + Z.of_nat fuel < 2 ^ 63 -> (size (files e) <= Z.to_nat v + fuel)%nat ->
  (forall u, 0 <= u < v -> has_version e name u) ->
  exists w, next_version fuel name v e = Ok w /\ v <= w <= v + Z.of_nat fuel /\
    ~ has_version e name w /\ forall u, 0 <= u < w -> has_version e name u.
Proof.
  revert v. induction fuel as [|fuel IH]; intros v Hv Hb Hsz Hall; cbn [next_version];
    destruct (fstream_opens _ _) eqn:E.
  2, 4: exists v; split_and!; try done; try lia; unfold has_version; congruence.
  - exfalso. assert (Hs : (Z.to_nat (v + 1) <= size (files e))%nat); [|lia].
    apply (versions_size name); [lia|]. intros u Hu.
    destruct (decide (u = v)) as [->|]; [done|apply Hall; lia].
  - destruct (IH (v + 1)) as (w & Hw & ? & ? & ?); [lia..| |].
    + intros u Hu. destruct (decide (u = v)) as [->|]; [done|apply Hall; lia].
    + exists w. split_and!; done || lia.
Qed.

(** With fewer than 2^31 files the search ends with the least version without
    an index. *)
Lemma find_version_spec name e :
  Z.of_nat (size (files e)) < 2 ^ 31 ->
  exists w, find_version name e = Ok w /\ 0 <= w < 2 ^ 31 /\
    ~ has_version e name w /\ forall u, 0 <= u < w -> has_version e name u.
Proof.
  intros Hs. destruct (next_version_ends (size (files e)) name 0 e) as (w & ? & ? & ? & ?); try lia.
  exists w. split_and!; done || lia.
Qed.

Lemma find_version_first name e :
  files e !! index_path (version_name name 0) = None -> find_version name e = Ok 0.
Proof.
  intros Hn. unfold find_version. destruct (size (files e)); cbn [next_version];
    unfold fstream_opens; by rewrite Hn.
Qed.
End version.
