(* ===== verification/Session.v ===== *)
(** * Two commands one after the other: -c, then -rs

    A first version [name-0] of a file is stored by one process and restored
    by another that opens the databases the first one left. *)

From S2P Require Import Prelude.
From S2P Require Import Bytes.
From S2P Require Import DataStructure.
From S2P Require Import Database.
From S2P Require Import Storage.
From S2P Require Import StorageSpec.
From S2P Require Import StorageRefine.
From S2P Require Import Recipe.
From S2P Require Import Crypto.
From S2P Require Import Config.
From S2P Require Import Chunking.
From S2P Require Import FileIndex.
From S2P Require Import Chunker.
From S2P Require Import ChunkerSpec.
From S2P Require Import IndexInv.
From S2P Require Import Backup.
From S2P Require Import DeltaStore.
From S2P Require Import Compress.
From S2P Require Import Main.
From stdpp Require Import base tactics numbers list gmap strings.
From Stdlib Require Import Ascii ZArith Lia.

Open Scope Z_scope.

(** ** Files that are told apart by their last letter *)

Definition ends (c : byte) (q : bytes) : Prop := last q = Some c.

Lemma ends_app c l l' : ends c l' -> ends c (l ++ l').
Proof. unfold ends. intros E. by rewrite last_app, E. Qed.

Lemma ends_ne a b q q' : ends a q -> ends b q' -> a <> b -> q <> q'.
Proof. unfold ends. intros Ha Hb Hne ->. rewrite Ha in Hb. by injection Hb. Qed.

Section ends.
Context {db : Type} `{LevelDB db}.
Implicit Types (e : env db) (sc : StorageCore).

Lemma ends_container sc e n : sc_wf sc e -> ends "r"%char (container_path sc n).
Proof. intros Hwf. unfold container_path. rewrite (wf_tail _ _ Hwf). by do 2 apply ends_app. Qed.
Lemma ends_recipe sc e n : sc_wf sc e -> ends "e"%char (recipe_path sc n).
Proof. intros Hwf. unfold recipe_path. rewrite (wf_rtail _ _ Hwf). by do 2 apply ends_app. Qed.
Lemma ends_config : ends "g"%char StorageConfig.
Proof. done. Qed.
Lemma ends_version name : ends "0"%char (version_name name 0).
Proof. unfold version_name. by do 2 apply ends_app. Qed.
Lemma ends_index q c : ends c q -> ends c (index_path q).
Proof. apply ends_app. Qed.

Lemma close_databases_files e q c :
  ends c q -> c <> "k"%char -> files (close_databases e) !! q = files e !! q.
Proof.
  intros Hq Hc. unfold close_databases, Database_destructor. cbn [files with_files].
  assert (Hne : forall n, str "." ++ n ++ str ".lock" <> q).
  { intros n. eapply (ends_ne "k"%char c); [by do 2 apply ends_app|done|by apply not_eq_sym]. }
  by rewrite !lookup_delete_ne by apply Hne.
Qed.

(** The constructor and [loadIndex] depend on the files they read only. *)
Lemma StorageCore_new_files croot rroot max m m' e e' :
  files e !! StorageConfig = files e' !! StorageConfig ->
  (forall n, files e !! (croot ++ n ++ str ".container") = files e' !! (croot ++ n ++ str ".container")) ->
  StorageCore_new croot rroot max m m' e = StorageCore_new croot rroot max m m' e'.
Proof.
  intros H1 H2. unfold StorageCore_new. rewrite H1. destruct (files e' !! StorageConfig); [|done].
  destruct (read_token _). by rewrite H2.
Qed.

Lemma loadIndex_files q e e' :
  files e !! index_path q = files e' !! index_path q -> loadIndex q e = loadIndex q e'.
Proof. intros E. unfold loadIndex. by rewrite E. Qed.

Lemma saveToFile_files i q e e' p :
  saveToFile i q e = Ok (true, e') -> p <> index_path q -> files e' !! p = files e !! p.
Proof.
  intros Hs Hp. unfold saveToFile, write_file, append_file in Hs.
  destruct (writable e _) eqn:W; cbn [negb] in Hs; [|done]. inv_run.
  cbn [writable with_files] in *. rewrite W in *. simplify_eq. cbn [files with_files].
  by rewrite !lookup_insert_ne by done.
Qed.

Lemma saveToFile_dbs i q e e' ok :
  saveToFile i q e = Ok (ok, e') ->
  fp2ChunkDB e' = fp2ChunkDB e /\ fileName2metaDB e' = fileName2metaDB e /\
  containerDB e' = containerDB e /\ writable e' = writable e.
Proof.
  intros Hs. unfold saveToFile, write_file, append_file in Hs.
  destruct (writable e _) eqn:W; cbn [negb] in Hs; [|by simplify_eq]. inv_run.
  cbn [writable with_files] in *. rewrite W in *. by simplify_eq.
Qed.
End ends.

(** ** Chunking a file on a path *)

Section Storing.
Context {db : Type} `{LevelDB db, !LevelDBReliable db} `{EVP_DigestReliable}.
Context (MD5 : bytes -> bytes).
Context (stack stack' : bytes).
Context (uninit_key : nat -> Z -> keyForChunkHashDB_t).
Context (uninit_recipe : nat -> Recipe_t) (uninit_index : nat -> Index) (winFp0 : nat -> Z).
Context (config : Configure) (p : ChunkerParams).
Implicit Types (e : env db) (sc : StorageCore) (m : chunk_store).

Context (f file : bytes).
Let fh := file_path_hash f.
Let cs := chunks_of p (winFp0 0) file.

(** What the sizes and the memory of the chunker must satisfy. *)
Record chunking_ready : Prop := {
  cr_init : ChunkerInit config = Ok p;
  cr_type : ChunkerType p = CHUNKER_VAR_SIZE_TYPE;
  cr_params : params_ok p;
  cr_win : slidingWinSize p < maxChunkSize p;
  cr_max : maxChunkSize p <= MAX_CHUNK_SIZE;
  cr_read : 0 < ReadSize p < 2 ^ 31;
  cr_key n : lengthZ (containerName (uninit_key 0 n)) = 16;
  cr_stack : NUL ∈ stack;
  cr_md5 : not_indexflag config = 0 \/
    (forall d, CHUNK_HASH_SIZE <= lengthZ (MD5 d ++ stack)) /\
    (forall d, CHUNK_HASH_SIZE <= lengthZ (MD5 d ++ stack'));
  cr_winFp : winFp0 0 = u16 (winFp0 0);
  cr_recipe : pod_valid (uninit_recipe 0);
  cr_file : file_ok p (winFp0 0) file;
  cr_chunks : lengthZ cs < 2 ^ 31
}.

(** The file is there, has no recipe yet, and everything can be written. *)
Record file_ready e sc m : Prop := {
  fr_repr : Repr sc e m;
  fr_file : files e !! f = Some file;
  fr_writable q : writable e q = true;
  fr_room : names_left (S (length (cut p (winFp0 0) [] file).1)) (lastContainerFileName_ sc);
  fr_meta : is_open (fileName2metaDB e);
  fr_first : contents (fileName2metaDB e) fh = None;
  fr_recipe : files e !! recipe_path sc (hex fh) = None;
  fr_free : collision_free m cs
}.

Lemma path_hash_length q : lengthZ (file_path_hash q) = FILE_NAME_HASH_SIZE.
Proof.
  unfold file_path_hash. rewrite generateHash_ok.
  change FILE_NAME_HASH_SIZE with CHUNK_HASH_SIZE. apply (generated_hash q (lengthZ q)).
  apply generateHash_ok.
Qed.

(** What the chunker leaves. *)
Record chunked sc e m (ck : Chunker) sc1 e1 : Prop := {
  cd_repr : Repr sc1 e1 (put_all m cs);
  cd_recipe : exists head, pod_valid head /\ recipe_stored sc1 e1 fh head (entries cs);
  cd_meta : is_open (fileName2metaDB e1);
  cd_frame : stored_frame sc e fh sc1 e1;
  cd_index : index_valid (returnindex ck);
  cd_hash : fileNameHash (returnindex ck) = fh;
  cd_number : chunknumber (returnindex ck) = lengthZ cs
}.

Lemma chunk_file_spec e sc m :
  chunking_ready -> file_ready e sc m ->
  exists ck sc1 e1,
    chunk_file MD5 stack stack' uninit_key uninit_recipe uninit_index winFp0 config 0 f sc e =
      Ok (ck, sc1, e1) /\ chunked sc e m ck sc1 e1.
Proof.
  intros [] [].
  unfold chunk_file, Chunker_new. rewrite fr_file0, cr_init0. cbn [mbind outcome_bind ck_file].
  unfold Chunker_chunking. cbn [ck_params]. rewrite cr_type0.
  change (CHUNKER_VAR_SIZE_TYPE =? CHUNKER_FIX_SIZE_TYPE) with false. cbv iota.
  cbn [mbind outcome_bind ck_params ck_fileindex ck_recipe ck_fileindex_flag ck_file].
  rewrite Z.eqb_refl. fold fh. set (i := mkIndex fh _ _ _ [] [] []). set (recipe := mkRecipe _ _).
  set (flag := not_indexflag config).
  assert (Hflag : flag = 0 \/ flag = 1).
  { unfold flag, not_indexflag. destruct (_ =? _); auto. }
  destruct (varSizeChunking_spec MD5 stack stack' (uninit_key 0%nat) cr_key0 p cr_params0 cr_win0
    cr_max0 cr_read0 flag (S (length file)) (winFp0 0%nat) file i recipe sc e m)
    as (s & Hrun & HR & Hst & Hmeta & [_ _ Hn] & _ & _ & Hfr); try done.
  { rewrite lengthZ_length. nia. }
  { split; try done. apply path_hash_length. }
  rewrite Hrun. cbn [mbind outcome_bind]. eexists _, _, _. split; [done|].
  assert (Hci : counted_index fh (cs_index s)).
  { eapply (varSizeChunking_keeps MD5 stack stack' (uninit_key 0%nat) p flag (counted_index fh));
      [by apply index_cut_counted| |exact Hrun|by apply (indexer_start_counted i)].
    apply index_final_counted. fold flag in cr_md6. destruct cr_md6; [by left|]. tauto. }
  pose proof (lengthZ_nonneg file). pose proof (lengthZ_nonneg cs).
  assert (lengthZ file < 2 ^ 64) by (destruct cr_file0; lia).
  split; cbn [returnindex ck_fileindex]; try done.
  - eexists. split; [|exact Hst]. destruct cr_recipe0 as [_ (_ & _ & ?)].
    cbn. unfold recipe_valid. cbn. unfold fh; rewrite path_hash_length. fold cs. split_and!; try done; lia.
  - eapply counted_index_valid; [exact Hci|exact (path_hash_length f)|]. by rewrite Hn.
  - apply Hci.
Qed.

End Storing.
Arguments cr_init {_ _ _ _ _ _ _ _ _} _.
Arguments cr_params {_ _ _ _ _ _ _ _ _} _.
Arguments cr_win {_ _ _ _ _ _ _ _ _} _.
Arguments cr_max {_ _ _ _ _ _ _ _ _} _.
Arguments cr_read {_ _ _ _ _ _ _ _ _} _.
Arguments cr_file {_ _ _ _ _ _ _ _ _} _.
Arguments cr_chunks {_ _ _ _ _ _ _ _ _} _.

(** ** The session *)

Section Session.
Context {db : Type} `{LevelDB db, !LevelDBReliable db} `{EVP_DigestReliable}.
Context {mongo : Type} `{Mongo mongo}.
Context (delta_create delta_apply : bytes -> bytes -> bytes).
Context (extractSuperFeatures : bytes -> Z -> Z -> list bytes).
Context (MD5 : bytes -> bytes) (rm_Delta : gmap bytes bytes -> gmap bytes bytes).
Context (mem mem' : nat -> Z -> byte) (indet : Z -> byte) (stack stack' : bytes).
Context (uninit_key : nat -> Z -> keyForChunkHashDB_t).
Context (uninit_recipe : nat -> Recipe_t) (uninit_index : nat -> Index) (winFp0 : nat -> Z).
Context (config : Configure) (depth : nat) (p : ChunkerParams).
Implicit Types (e : env db) (sc : StorageCore) (mg : mongo) (m : chunk_store).

Abbreviation run open := (main delta_create delta_apply extractSuperFeatures MD5 rm_Delta mem mem'
  indet stack stack' uninit_key uninit_recipe uninit_index winFp0 open config (S depth)).

Context (name file : bytes).
Let f := version_name name 0.
Let fh := file_path_hash f.
Let cs := chunks_of p (winFp0 0) file.
Abbreviation chunking_ok := (chunking_ready MD5 stack stack' uninit_key uninit_recipe winFp0 config p file).

(** The state the first process starts in: the file is there, it has no index
    yet, its store represents [m], and everything can be written. *)
Record session_ready (open : bytes -> option db) e0 e sc m : Prop := {
  se_new : new_storage mem mem' config 0 e0 = Ok sc;
  se_open : open_databases open config e0 = Ok e;
  se_repr : Repr sc e m;
  se_file : files e0 !! f = Some file;
  se_index : files e0 !! index_path f = None;
  se_writable q : writable e0 q = true;
  se_room : names_left (S (length (cut p (winFp0 0) [] file).1)) (lastContainerFileName_ sc);
  se_name : Forall (fun b => is_space b = false) (lastContainerFileName_ sc);
  se_meta : is_open (fileName2metaDB e);
  se_first : contents (fileName2metaDB e) fh = None;
  se_recipe : files e0 !! recipe_path sc (hex fh) = None;
  se_free : collision_free m cs;
  se_length : lengthZ name < 2 ^ 63;
  se_out n : name <> recipe_path sc n /\ name <> container_path sc n;
  se_lock n : name <> str "." ++ n ++ str ".lock"
}.

(** The next process finds the files as they are and closed databases. *)
Definition next_process e : env db :=
  let closed := mkDatabase None [] in
  mkEnv closed closed closed closed (files e) (writable e).

Lemma open_databases_files open e0 e :
  open_databases open config e0 = Ok e -> files e = files e0 /\ writable e = writable e0.
Proof. unfold open_databases. intros Ho. inv_run. done. Qed.

Lemma session_file_ready open e0 e sc m :
  session_ready open e0 e sc m -> file_ready winFp0 p f file e sc m.
Proof.
  intros []. destruct (open_databases_files _ _ _ se_open0) as [Hf Hw].
  split; try done; [by rewrite Hf|intros q; by rewrite Hw|by rewrite Hf].
Qed.

Lemma but_two_version : lengthZ name < 2 ^ 63 -> but_two f = name.
Proof.
  intros Hn. pose proof (lengthZ_nonneg name). unfold but_two, f, version_name.
  change (str "-" ++ to_string 0) with (str "-0").
  rewrite lengthZ_app. change (lengthZ (str "-0")) with 2. rewrite Z.add_simpl_r.
  rewrite u64_small by lia. by apply takeZ_app_exact.
Qed.

(** ** Between the processes *)

(** A storage object is deleted, the index saved, and the process ends with
    [e3]. *)
Record shut_down sc m sc1 e1 (i : Index) e3 : Prop := {
  sd_repr : Repr sc1 e1 (put_all m cs);
  sd_delete : exists e2, StorageCore_delete sc1 e1 = Ok e2 /\ saveToFile i f e2 = Ok (true, e3) /\
                loadIndex f e3 = Ok i;
  sd_recipe : exists head, pod_valid head /\ recipe_stored sc1 e1 fh head (entries cs);
  sd_meta : is_open (fileName2metaDB e1);
  sd_frame : exists e, stored_frame sc e fh sc1 e1;
  sd_writable q : writable e1 q = true;
  sd_input : is_Some (files e1 !! f);
  sd_name : Forall (fun b => is_space b = false) (lastContainerFileName_ sc1)
}.

(** What the next process finds: whatever [mem] is, its storage objects
    represent the stored chunks. *)
Record found sc m (i : Index) e : Prop := {
  fd_storage n : exists sc', new_storage mem mem' config n e = Ok sc' /\
    Repr sc' e (put_all m cs) /\ (forall x, recipe_path sc' x = recipe_path sc x) /\
    (forall x, container_path sc' x = container_path sc x) /\
    exists head, pod_valid head /\ recipe_stored sc' e fh head (entries cs);
  fd_index : loadIndex f e = Ok i;
  fd_input : is_Some (files e !! f);
  fd_meta : is_open (fileName2metaDB e);
  fd_writable q : writable e q = true
}.

Lemma new_storage_prefix n e sc :
  new_storage mem mem' config n e = Ok sc ->
  containerNamePrefix_ sc = getContainerRootPath config /\
  RecipeNamePrefix_ sc = getRecipeRootPath config /\ RecipeNameTail_ sc = str ".recipe" /\
  containerNameTail_ sc = str ".container" /\
  maxContainerSize_ sc = getMaxContainerSize config.
Proof.
  unfold new_storage, StorageCore_new. destruct (files e !! StorageConfig); intros Hn.
  - destruct (read_token _). by inv_run.
  - by inv_run.
Qed.

Lemma shut_down_found n0 e0 sc m sc1 e1 i e3 :
  new_storage mem mem' config n0 (e0 : env db) = Ok sc ->
  shut_down sc m sc1 e1 i e3 -> found sc m i (close_databases e3).
Proof.
  intros Hnew [HR (e2 & Hdel & Hsave & Hload) (head & Hv & Hst) Hmeta (e & Hfr) Hw Hin Hns].
  pose proof (proj1 HR) as Hwf. destruct (new_storage_prefix _ _ _ Hnew) as (Ec & Er & Ert & Ect & Em).
  destruct Hfr as [Fp Fr Fm Fn _ _ _ _].
  assert (Hrp : RecipeNamePrefix_ sc1 = getRecipeRootPath config).
  { specialize (Fr []). unfold recipe_path in Fr. rewrite (wf_rtail _ _ Hwf), Ert, Er in Fr.
    by apply app_inv_tail in Fr. }
  destruct (StorageCore_delete_spec sc1 e1 Hwf) as (e2' & Hdel' & Hco & Hfp & Hm2 & Hwr & Hfiles);
    [auto..|]. rewrite Hdel in Hdel'. injection Hdel' as <-.
  assert (Hw2 : forall q, writable e2 q = true) by (intros q; by rewrite Hwr).
  destruct (saveToFile_dbs _ _ _ _ _ Hsave) as (D1 & D2 & D3 & D4).
  pose proof (fun q => saveToFile_files _ _ _ _ q Hsave) as Hsf.
  assert (Hkeep : forall q c, ends c q -> c <> "k"%char -> c <> "0"%char ->
            files (close_databases e3) !! q = files e2 !! q).
  { intros q c Hq Hk Hz. rewrite (close_databases_files _ _ _ Hq Hk). apply Hsf.
    eapply ends_ne; [exact Hq|apply ends_index, ends_version|done]. }
  assert (Hrec : forall n, files e2 !! recipe_path sc1 n = files e1 !! recipe_path sc1 n).
  { intros n. rewrite Hfiles, !lookup_insert_ne; [done| |].
    - eapply ends_ne; [apply ends_config|by eapply ends_recipe|done].
    - apply not_eq_sym. by eapply recipe_path_ne. }
  split.
  - intros n. destruct (restart_Repr sc1 e1 (put_all m cs) e2 (mem n) (mem' n) HR)
      as (sc' & Hnew' & HR' & Hl' & _); [auto..|].
    rewrite Fp, Ec, Hrp, Fm, Em in Hnew'.
    assert (Hnew'' : new_storage mem mem' config n (close_databases e3) = Ok sc').
    { unfold new_storage. rewrite <- Hnew'. apply StorageCore_new_files.
      - by eapply Hkeep; [apply ends_config|..].
      - intros x. by eapply (Hkeep _ "r"%char); [do 2 apply ends_app|..]. }
    destruct (new_storage_prefix _ _ _ Hnew'') as (Ec' & Er' & Ert' & _).
    pose proof (proj1 HR') as Hwf'.
    assert (Hpc : forall x, container_path sc' x = container_path sc1 x).
    { intros x. unfold container_path.
      by rewrite Ec', Fp, Ec, (wf_tail _ _ Hwf), (wf_tail _ _ Hwf'). }
    assert (Hpr : forall x, recipe_path sc' x = recipe_path sc1 x).
    { intros x. unfold recipe_path. by rewrite Er', Hrp, Ert', (wf_rtail _ _ Hwf). }
    exists sc'. split; [done|]. split_and!.
    + apply (Repr_agree sc' e2); [|by cbn; rewrite D1|done]. split.
      * intros x. by eapply Hkeep; [by eapply ends_container|..].
      * cbn. rewrite D3. apply HR'.
    + intros x. by rewrite Hpr, Fr.
    + intros x. rewrite Hpc. unfold container_path. by rewrite Fp, (wf_tail _ _ Hwf), Ect.
    + exists head. split; [done|]. destruct Hst as (x & Hx & Hxf). exists x. split.
      * unfold contents in *. cbn. by rewrite D2, Hm2.
      * rewrite Hpr. rewrite (Hkeep _ "e"%char); [by rewrite Hrec|by eapply ends_recipe|done..].
  - rewrite <- Hload. apply loadIndex_files.
    eapply close_databases_files; [apply ends_index, ends_version|done].
  - assert (Hf : files (close_databases e3) !! f = files e1 !! f).
    { rewrite (close_databases_files _ _ "0"%char); [|apply ends_version|done].
      rewrite Hsf, Hfiles, !lookup_insert_ne; [done| | |].
      - eapply ends_ne; [apply ends_config|apply ends_version|done].
      - eapply ends_ne; [by eapply ends_container|apply ends_version|done].
      - intros E. apply (f_equal lengthZ) in E. unfold index_path in E. rewrite lengthZ_app in E.
        cbn [str lengthZ String.list_ascii_of_string] in E. lia. }
    by rewrite Hf.
  - cbn. by rewrite D2, Hm2.
  - intros q. cbn. by rewrite D4.
Qed.

(** ** The first process *)

Lemma main_c_spec open e0 e sc m mg :
  chunking_ok -> session_ready open e0 e sc m ->
  exists sc1 e1 i e3,
    main_c delta_apply extractSuperFeatures MD5 mem mem' indet stack stack' uninit_key uninit_recipe
      uninit_index winFp0 config (S depth) f sc e mg = Ok (e3, mg) /\
    shut_down sc m sc1 e1 i e3 /\ fileNameHash i = fh /\ chunknumber i = lengthZ cs.
Proof.
  intros Hcr Hse. destruct (chunk_file_spec MD5 stack stack' uninit_key uninit_recipe uninit_index winFp0 config p f file
    e sc m Hcr (session_file_ready _ _ _ _ _ Hse)) as (ck & sc1 & e1 & Hck & Hcd).
  destruct Hse as [Hnew Hopen HR Hfile Hindex Hw _ Hns _ _ _ _ Hlen _ _].
  destruct (open_databases_files _ _ _ Hopen) as [Hf0 Hw0].
  destruct Hcd as [HR1 Hst Hmeta Hfr Hi Hh Hn]. pose proof (proj1 HR) as Hwf.
  pose proof (proj1 HR1) as Hwf1.
  assert (Hw1 : forall q, writable e1 q = true).
  { intros q. by rewrite (sf_writable _ _ _ _ _ Hfr), Hw0. }
  destruct (StorageCore_delete_spec sc1 e1 Hwf1) as (e2 & Hdel & _ & _ & _ & Hwr & Hfiles); [auto..|].
  destruct (loadIndex_saveToFile e2 (returnindex ck) f Hi) as (e3 & Hsave & Hload);
    [by rewrite Hwr|].
  assert (Hold : forall q, ends "0"%char q -> files e1 !! q = files e0 !! q).
  { intros q Hq. rewrite (sf_files _ _ _ _ _ Hfr), Hf0; [done| |].
    - eapply ends_ne; [exact Hq|by eapply ends_recipe|done].
    - intros n. eapply ends_ne; [exact Hq|by eapply ends_container|done]. }
  exists sc1, e1, (returnindex ck), e3. split.
  - unfold main_c. rewrite Hck. cbn [mbind outcome_bind]. rewrite Hdel. cbn [mbind outcome_bind].
    rewrite but_two_version by done. rewrite find_version_first.
    + cbn [mbind outcome_bind]. fold f. rewrite Hsave. done.
    + fold f. rewrite Hfiles, !lookup_insert_ne.
      * rewrite Hold; [done|]. apply ends_index, ends_version.
      * eapply ends_ne; [apply ends_config|apply ends_index, ends_version|done].
      * eapply ends_ne; [by eapply ends_container|apply ends_index, ends_version|done].
  - split_and!; try done. split; try done; [by exists e2|by exists e| |].
    + rewrite Hold by apply ends_version. by rewrite Hfile.
    + by rewrite (sf_name _ _ _ _ _ Hfr).
Qed.

(** ** The second process *)

Lemma main_rs_spec sc m i e mg :
  chunking_ok -> found sc m i e -> fileNameHash i = fh -> chunknumber i = lengthZ cs ->
  collision_free m cs -> lengthZ name < 2 ^ 63 ->
  (forall n, name <> recipe_path sc n /\ name <> container_path sc n) ->
  exists e', main_rs delta_apply mem mem' indet uninit_recipe uninit_index config (S depth) f e mg =
      Ok (e', mg) /\ files e' !! name = Some (concat (masked <$> cs)).
Proof.
  intros Hcr [Hsto Hload [content Hin] Hmeta Hw] Hh Hn Hcf Hlen Hout. unfold main_rs.
  destruct (Hsto 1%nat) as (sc' & -> & HR & Hrp & Hcp & head & Hv & Hst).
  cbn [mbind outcome_bind]. unfold Chunker_new. rewrite Hin, (cr_init Hcr).
  cbn [mbind outcome_bind]. rewrite Hload. cbn [mbind outcome_bind].
  rewrite but_two_version by done. unfold write_file. rewrite Hw. rewrite Hh, Hn.
  set (e1 := with_files _ e). pose proof (lengthZ_nonneg cs).
  assert (lengthZ cs < 2 ^ 31) by exact (cr_chunks Hcr).
  rewrite u32_small by lia.
  assert (HR1 : Repr sc' e1 (put_all m cs)).
  { apply (Repr_agree sc' e); [|done|done]. split; [|apply HR]. intros n. cbn.
    rewrite Hcp. apply lookup_insert_ne, Hout. }
  assert (Hst1 : recipe_stored sc' e1 fh head (entries cs)).
  { destruct Hst as (x & Hx & Hxf). exists x. split; [done|]. cbn. rewrite lookup_insert_ne; [done|].
    rewrite Hrp. apply Hout. }
  destruct (restore_stored delta_apply indet sc' e1 (put_all m cs) fh head cs depth) as (l & sc2 & -> & _ & Hwl);
    try done; [|by apply put_all_stored|lia|apply path_hash_length|].
  { eapply chunks_of_ok; [..|apply (cr_file Hcr)]; apply Hcr. }
  cbn [mbind outcome_bind writable e1 with_files]. rewrite Hw. eexists. split; [done|].
  cbn. by rewrite lookup_insert_eq, Hwl.
Qed.
End Session.
