(* ===== verification/MainRw.v ===== *)
(** * The command -rw keeps the store

    Compressing and detecting transfers leave the storage alone but for the
    read cache; hence -rw does. *)

From S2P Require Import Prelude.
From S2P Require Import Bytes.
From S2P Require Import DataStructure.
From S2P Require Import Database.
From S2P Require Import Storage.
From S2P Require Import Recipe.
From S2P Require Import StorageSpec.
From S2P Require Import StorageRefine.
From S2P Require Import Config.
From S2P Require Import FileIndex.
From S2P Require Import Manager.
From S2P Require Import DeltaStore.
From S2P Require Import Compress.
From S2P Require Import CompressRefine.
From S2P Require Import Dector.
From S2P Require Import DectorSpec.
From S2P Require Import Main.
From S2P Require Import Session.
From stdpp Require Import base tactics numbers list gmap strings.
From Stdlib Require Import Ascii ZArith Lia.

Open Scope Z_scope.

(** * Compressing changes no more than the read cache

    Whatever [restoreChunk] and [compress] meet, the storage object they leave
    is the one they were given, with another container in its read cache. *)

Definition cache_only (sc sc' : StorageCore) : Prop := exists n c, sc' = with_read n c sc.

#[export] Instance cache_only_PreOrder : PreOrder cache_only.
Proof.
  split; [intros sc; destruct sc; by eexists _, _|].
  intros sc1 sc2 sc3 (n & c & ->) (n' & c' & ->). by eexists n', c'.
Qed.

Create HintDb cache.
#[export] Hint Extern 1 (cache_only ?x ?x) => reflexivity : cache.
#[export] Hint Extern 3 (cache_only _ _) => etransitivity; eassumption : cache.

Section cache.
Context {db : Type} `{LevelDB db} {mongo : Type} `{Mongo mongo}.
Context (delta_create delta_apply : bytes -> bytes -> bytes).
Implicit Types (sc : StorageCore) (e : env db) (mg : mongo) (dc : DeltaCompressor).

Lemma readContainer_cache key sc e o sc' :
  readContainer key sc e = Ok (o, sc') -> cache_only sc sc'.
Proof.
  unfold readContainer. intros Hr. inv_ok. repeat case_match; inv_run; try reflexivity.
  by eexists _, _.
Qed.

Lemma restoreChunk_cache fuel h sc e o sc' :
  restoreChunk delta_apply fuel h sc e = Ok (o, sc') -> cache_only sc sc'.
Proof.
  revert h sc o sc'. induction fuel as [|fuel IH]; intros h sc o sc'; cbn [restoreChunk]; [done|].
  intros Hr. inv_ok. destruct x0; inv_run; [|reflexivity].
  select (readContainer _ _ _ = _) (fun Hc => apply readContainer_cache in Hc).
  destruct o0; [|by simplify_eq]. destruct (_ <? _); inv_run; [|done].
  select (restoreChunk _ _ _ _ _ = _) (fun Hc => apply IH in Hc).
  destruct (_ <? _); inv_run. by etransitivity.
Qed.

Ltac restored :=
  repeat match goal with
  | H : restoreChunk _ _ _ _ _ = Ok _ |- _ => apply restoreChunk_cache in H
  end.

Lemma similar_loop_cache depth fuel l t d sc e t' d' sc' :
  similar_loop delta_create delta_apply depth fuel l t d sc e = Ok (t', d', sc') -> cache_only sc sc'.
Proof.
  revert l t d sc. induction fuel as [|fuel IH]; intros l t d sc; cbn [similar_loop]; [done|].
  intros Hr. destruct (read_hash l) as [[h1 eof] l1]. inv_ok. destruct x as [b sc1].
  destruct eof; [inv_run; restored; done|]. destruct (read_hash l1) as [[h2 eof2] l2]. inv_ok.
  destruct x as [n sc2]. restored. transitivity sc2; [by transitivity sc1|].
  assert (Hnext : forall t d, (if eof2 then Ok (t, d, sc2)
    else similar_loop delta_create delta_apply depth fuel l2 t d sc2 e) = Ok (t', d', sc') ->
    cache_only sc2 sc').
  { intros u v. destruct eof2; [by intros [= _ _ <-]|apply IH]. }
  repeat (case_bool_decide; [by eapply Hnext|]). inv_ok.
  destruct (_ || _) in Hr; by eapply Hnext.
Qed.

Lemma similar_pairs_cache depth sc e t d sc' :
  similar_pairs delta_create delta_apply depth sc e = Ok (t, d, sc') -> cache_only sc sc'.
Proof.
  unfold similar_pairs. repeat case_match; [|by intros [= _ _ <-]..]. apply similar_loop_cache.
Qed.

Lemma member_loop_cache depth h b l z sc e z' sc' :
  member_loop delta_create delta_apply depth h b l z sc e = Ok (z', sc') -> cache_only sc sc'.
Proof.
  revert z sc. induction l as [|x l IH]; intros z sc; cbn [member_loop]; [by intros [= _ <-]|].
  case_bool_decide; [apply IH|]. intros Hr. inv_ok. destruct x0 as [n sc1]. restored.
  transitivity sc1; [done|]. destruct n; [|by eapply IH]. inv_ok. by eapply IH.
Qed.

Lemma groups_loop_cache depth gs z sc e z' sc' :
  groups_loop delta_create delta_apply depth gs z sc e = Ok (z', sc') -> cache_only sc sc'.
Proof.
  revert z sc. induction gs as [|x gs IH]; intros z sc; cbn [groups_loop]; [by intros [= _ <-]|].
  intros Hr. inv_ok. destruct x1 as [n sc1]. restored. transitivity sc1; [done|].
  destruct n; [|by eapply IH]. inv_run.
  select (member_loop _ _ _ _ _ _ _ _ _ = _) (fun Hm => apply member_loop_cache in Hm).
  etransitivity; [done|by eapply IH].
Qed.

Lemma compress_cache depth dc e mg ok z dc' e' mg' :
  compress delta_create delta_apply depth dc e mg = Ok (ok, z, dc', e', mg') ->
  exists gs sc, cache_only (dc_storageObj_ dc) sc /\ dc' = dc_with_groups gs (dc_with_storage sc dc).
Proof.
  unfold compress. intros Hr. inv_run.
  select (similar_pairs _ _ _ _ _ = _) (fun Hs => apply similar_pairs_cache in Hs).
  select (groups_loop _ _ _ _ _ _ _ = _) (fun Hs => apply groups_loop_cache in Hs).
  eexists _, _. split; [|done]. by etransitivity.
Qed.
End cache.

(** * Detecting transfers leaves the store alone

    A detection reads chunks only: the storage object it ends with is the one
    it was given with another container in its read cache, it still represents
    the same chunks, and of the files only the log is written. *)

Section frame.
Context {db : Type} `{LevelDB db, !LevelDBReliable db} {mongo : Type} `{Mongo mongo}.
Context (delta_apply : bytes -> bytes -> bytes).
Context (extractSuperFeatures : bytes -> Z -> Z -> list bytes).
Context (indet : Z -> byte).
Context (minWin maxWin SFNumber : Z).
Context (fi1 fi2 : Index).
Implicit Types (c : cursor) (r : findings) (e : env db) (sc : StorageCore) (mg : mongo).

(** ** The read cache *)

Lemma restore_loop_cache depth n buf sc e ok l sc' :
  restore_loop delta_apply indet depth n buf sc e = Ok (ok, l, sc') -> cache_only sc sc'.
Proof.
  revert buf sc ok l. induction n as [|n IH]; intros buf sc ok l; cbn [restore_loop];
    [by intros [= _ _ <-]|].
  intros Hr. inv_ok. destruct x0 as [o sc1].
  select (restoreChunk _ _ _ _ _ = _) (fun Hc => apply restoreChunk_cache in Hc).
  destruct o; [|by inv_run]. destruct (negb _); [by inv_run|]. inv_run.
  etransitivity; [done|by eapply IH].
Qed.

Lemma restoreRecipeAndChunk_cache depth fh a b sc e ok l sc' :
  restoreRecipeAndChunk delta_apply indet depth fh a b sc e = Ok (ok, l, sc') -> cache_only sc sc'.
Proof.
  unfold restoreRecipeAndChunk. intros Hr. inv_ok. destruct x0; [|by inv_run].
  destruct (files e !! _); [|by inv_run]. by eapply restore_loop_cache.
Qed.

Lemma restore_region_cache depth fi s i sc e l sc' :
  restore_region delta_apply indet depth fi s i sc e = Ok (l, sc') -> cache_only sc sc'.
Proof.
  unfold restore_region. destruct (_ <? _); [|by intros [= _ <-]]. intros Hr. inv_run.
  by eapply restoreRecipeAndChunk_cache.
Qed.

Lemma restore_regions_cache depth s1 s2 i1 i2 r e o n sc' :
  restore_regions delta_apply indet fi1 fi2 depth s1 s2 i1 i2 r e = Ok (o, n, sc') ->
  cache_only (dt_storageObj_ r) sc'.
Proof.
  unfold restore_regions. intros Hr. inv_run.
  repeat select (restore_region _ _ _ _ _ _ _ _ = _) (fun Hc => apply restore_region_cache in Hc).
  by etransitivity.
Qed.

Lemma log_pair_storage i j r r' : log_pair fi1 fi2 i j r = Ok r' -> dt_storageObj_ r' = dt_storageObj_ r.
Proof. unfold log_pair. intros Hr. by inv_run. Qed.

(** What a part of a turn does to the storage object. *)
Definition cached r r' : Prop := cache_only (dt_storageObj_ r) (dt_storageObj_ r').

#[local] Instance cached_PreOrder : PreOrder cached.
Proof. split; [intros r; unfold cached; reflexivity|intros r1 r2 r3; unfold cached; apply transitivity]. Qed.

Lemma logged_if_storage (b : bool) i j r r' :
  (if b then Ok r else log_pair fi1 fi2 i j r) = Ok r' -> dt_storageObj_ r' = dt_storageObj_ r.
Proof. destruct b; [by intros [= <-]|apply log_pair_storage]. Qed.

Ltac storage :=
  repeat match goal with
  | H : log_pair _ _ _ _ _ = Ok _ |- _ => apply log_pair_storage in H
  | H : (if _ then Ok _ else log_pair _ _ _ _ _) = Ok _ |- _ => apply logged_if_storage in H
  | H : restore_regions _ _ _ _ _ _ _ _ _ _ _ = Ok _ |- _ => apply restore_regions_cache in H
  end; unfold cached in *; cbn in *.

Lemma equal_step_cached depth c r e c' r' :
  equal_step delta_apply indet minWin fi1 fi2 depth c r e = Ok (c', r') -> cached r r'.
Proof.
  unfold equal_step. intros Hr. inv_ok. destruct x as [c1 r1]. inv_run.
  destruct (flag c =? 2); inv_run; [|reflexivity]. storage. congruence.
Qed.

Lemma close_region_cached depth s1 s2 c r e c' r' :
  close_region delta_apply indet fi1 fi2 depth s1 s2 c r e = Ok (c', r') -> cached r r'.
Proof.
  unfold close_region. destruct (_ && _); intros Hr; [|by inv_run]. inv_ok.
  destruct x1 as [[o n] sc]. inv_run. destruct (unique x =? 0); inv_run; [by storage|].
  destruct (unique _ =? 0); inv_run; storage; congruence.
Qed.

Lemma close_single_cached s1 s2 c r c' r' :
  close_single fi1 fi2 s1 s2 c r = Ok (c', r') -> cached r r'.
Proof.
  unfold close_single. destruct (_ && _); intros Hr; inv_run; [|done]. storage.
  by replace (dt_storageObj_ r') with (dt_storageObj_ r).
Qed.

Lemma open_region_cached s1 s2 c r c' r' :
  open_region fi1 fi2 s1 s2 c r = Ok (c', r') -> cached r r'.
Proof.
  unfold open_region. destruct (_ && _); intros Hr; inv_run; [|done]. storage.
  by replace (dt_storageObj_ r') with (dt_storageObj_ r).
Qed.

Lemma end_region_cached depth c r e c' r' :
  end_region delta_apply indet fi1 fi2 depth c r e = Ok (c', r') -> cached r r'.
Proof.
  unfold end_region. destruct (_ && _); intros Hr; [|by inv_run]. inv_ok.
  destruct x2 as [[o n] sc]. inv_run. storage. congruence.
Qed.

Lemma walk_step_cached depth c r e c' r' :
  walk_step delta_apply indet minWin maxWin fi1 fi2 depth c r e = Ok (c', r') -> cached r r'.
Proof.
  unfold walk_step. intros Hr. inv_ok. case_bool_decide; [by eapply equal_step_cached|].
  unfold differ_step in Hr. inv_ok. destruct x2 as [c2 r2]. inv_ok. destruct x2 as [c3 r3].
  inv_ok. destruct x2 as [c4 r4]. inv_ok.
  select (close_region _ _ _ _ _ _ _ _ _ _ = _) (fun Hc => apply close_region_cached in Hc).
  select (close_single _ _ _ _ _ _ = _) (fun Hc => apply close_single_cached in Hc).
  select (open_region _ _ _ _ _ _ = _) (fun Hc => apply open_region_cached in Hc).
  apply end_region_cached in Hr. unfold cached in *. by repeat (etransitivity; [eassumption|]).
Qed.

Lemma walk_cached depth fuel c r e c' r' :
  walk delta_apply indet minWin maxWin fi1 fi2 depth fuel c r e = Ok (c', r') -> cached r r'.
Proof.
  revert c r. induction fuel as [|fuel IH]; intros c r; cbn [walk]; destruct (_ && _); try done;
    intros Hr; try (by inv_run). inv_ok. destruct x as [c1 r1].
  select (walk_step _ _ _ _ _ _ _ _ _ _ = _) (fun Hc => apply walk_step_cached in Hc).
  unfold cached in *. etransitivity; [done|by eapply IH].
Qed.

(** ** The detection as a whole *)

(** Only the log differs. *)
Record log_written e e' : Prop := {
  lw_fp2 : fp2ChunkDB e' = fp2ChunkDB e;
  lw_meta : fileName2metaDB e' = fileName2metaDB e;
  lw_containers : containerDB e' = containerDB e;
  lw_writable : writable e' = writable e;
  lw_files q : q <> similar_log -> files e' !! q = files e !! q
}.

Lemma write_log_written d e : log_written e (write_file similar_log d e).2.
Proof.
  unfold write_file. destruct (writable e similar_log); split; try done.
  intros q Hq. cbn. by rewrite lookup_insert_ne by apply not_eq_sym, Hq.
Qed.

Lemma log_written_trans e1 e2 e3 : log_written e1 e2 -> log_written e2 e3 -> log_written e1 e3.
Proof.
  intros [] []. split; try congruence. intros q Hq. rewrite lw_files1 by done. by apply lw_files0.
Qed.

Lemma log_written_Repr sc e e' m : log_written e e' -> Repr sc e m -> Repr sc e' m.
Proof.
  intros [Hfp _ Hc _ Hf] HR. apply (Repr_agree sc e); [|done|done].
  split; [|rewrite Hc; apply HR]. intros n. apply Hf, not_eq_sym. eapply container_not_log, HR.
Qed.

Lemma insert_loop_runs fi l n mg :
  runs (insert_loop extractSuperFeatures SFNumber fi l n mg) (fun _ => True).
Proof.
  revert n mg; induction l as [|it l IH]; intros n mg; [done|]. cbn [insert_loop].
  eapply runs_bind; [apply runs_in_bounds|]. intros x _. destruct (unique x =? 0); [apply IH|].
  eapply (runs_bind _ _ (fun _ => True)); [|intros; apply IH].
  unfold chunk_documents, feature. destruct (SFNumber =? 4); [|destruct (SFNumber =? 2); [|done]];
    repeat (eapply runs_bind; [apply runs_in_bounds|]; intros ? _); done.
Qed.

Lemma truetransferDector_runs (depth : nat) sc e mg (m : chunk_store) :
  Repr sc e m -> 0 < minWin -> 0 < maxWin ->
  runs (truetransferDector delta_apply extractSuperFeatures indet minWin maxWin SFNumber fi1 fi2
          (S depth) sc e mg) (fun x => Repr (dt_storageObj_ x.1.1) e m).
Proof.
  intros HR Hmin Hmax. unfold truetransferDector.
  eapply runs_bind; [apply (walk_runs _ _ _ _ _ _ Hmin Hmax _ _ _ _ _ m)|].
  - unfold cursor_ok. cbn. lia.
  - exact HR.
  - intros ? ?. unfold walk_left, walk_fuel in *. cbn in *. nia.
  - intros [c r] HR1. eapply runs_bind; [apply insert_loop_runs|]. intros [n1 mg1] _.
    eapply runs_bind; [apply insert_loop_runs|]. intros [n2 mg2] _.
    eapply runs_bind; [apply runs_require|]. done.
Qed.

(** A detection ends, with the same chunks. *)
Lemma Dector_new_runs (depth : nat) (indexflag : Z) sc e mg (m : chunk_store) :
  Repr sc e m -> 0 < minWin -> 0 < maxWin ->
  runs (Dector_new delta_apply extractSuperFeatures indet minWin maxWin SFNumber fi1 fi2 (S depth)
    indexflag sc e mg) (fun x => Repr (dt_storageObj_ x.1.1) x.1.2 m /\ log_written e x.1.2).
Proof.
  intros HR Hmin Hmax. unfold Dector_new. pose proof (write_log_written [] e) as Hlw.
  destruct (write_file similar_log [] e) as [ok e1]. cbn [snd] in Hlw.
  pose proof (log_written_Repr _ _ _ _ Hlw HR) as HR1.
  destruct (indexflag =? 1); [by split|].
  eapply runs_bind; [by apply (truetransferDector_runs depth sc e1 mg m)|].
  intros [[r s] mg1] HR2. cbn [fst snd] in HR2.
  pose proof (write_log_written (dt_log r) e1) as Hlw2.
  destruct (write_file similar_log (dt_log r) e1) as [ok2 e2]. cbn [fst snd] in *.
  split; [by eapply log_written_Repr|by eapply log_written_trans].
Qed.

Lemma Dector_new_cache (depth : nat) (indexflag : Z) sc e mg r e' mg' :
  Dector_new delta_apply extractSuperFeatures indet minWin maxWin SFNumber fi1 fi2 depth indexflag
    sc e mg = Ok (r, e', mg') -> cache_only sc (dt_storageObj_ r).
Proof.
  unfold Dector_new. destruct (write_file similar_log [] e) as [ok e1].
  destruct (indexflag =? 1); intros Hr; [by inv_run|]. inv_ok. destruct x as [[r1 z] mg1].
  destruct (write_file similar_log (dt_log r1) e1) as [ok2 e2]. inv_run.
  select (truetransferDector _ _ _ _ _ _ _ _ _ _ _ _ = _) (fun Ht => unfold truetransferDector in Ht).
  inv_ok. destruct x as [c2 r2].
  select (walk _ _ _ _ _ _ _ _ _ _ _ = _) (fun Hc => apply walk_cached in Hc). by inv_run.
Qed.
End frame.

(** * The command -rw keeps the stored chunks

    It compresses, which measures only, and shuts down and starts storage
    objects in between; the next process finds the same chunks. *)

Section MainRw.
Context {db : Type} `{LevelDB db} {mongo : Type} `{Mongo mongo}.
Context (delta_create delta_apply : bytes -> bytes -> bytes).
Context (mem mem' : nat -> Z -> byte) (config : Configure) (depth : nat).
Implicit Types (e : env db) (sc : StorageCore) (mg : mongo) (m : chunk_store).

Abbreviation new_sc := (new_storage mem mem' config).

(** A storage object as the configuration makes it. *)
Record configured sc : Prop := {
  cg_container : containerNamePrefix_ sc = getContainerRootPath config;
  cg_recipe : RecipeNamePrefix_ sc = getRecipeRootPath config;
  cg_max : maxContainerSize_ sc = getMaxContainerSize config;
  cg_name : Forall (fun b => is_space b = false) (lastContainerFileName_ sc)
}.

Lemma configured_cache sc sc' : cache_only sc sc' -> configured sc -> configured sc'.
Proof. intros (n & c & ->) []. by split. Qed.

(** It can be shut down and started again as often as one likes. *)
Lemma restart_storage sc e m :
  Repr sc e m -> configured sc -> (forall q, writable e q = true) ->
  exists e', StorageCore_delete sc e = Ok e' /\ writable e' = writable e /\
    forall n, exists sc', new_sc n e' = Ok sc' /\ Repr sc' e' m /\ configured sc'.
Proof.
  intros HR [Hc Hr Hm Hn] Hw.
  destruct (StorageCore_delete_spec sc e (proj1 HR)) as (e' & Hd & _ & _ & _ & Hwr & _); [auto..|].
  exists e'. split; [done|]. split; [done|]. intros n.
  destruct (restart_Repr sc e m e' (mem n) (mem' n) HR) as (sc' & Hnew & HR' & Hl & _); [auto..|].
  rewrite Hc, Hr, Hm in Hnew. change (new_sc n e' = Ok sc') in Hnew.
  exists sc'. split; [done|]. split; [done|].
  destruct (new_storage_prefix _ _ _ _ _ _ Hnew) as (? & ? & _ & _ & ?). split; try done. by rewrite Hl.
Qed.

(** What the command starts with; the containers of deltas have paths of their
    own. *)
Record rw_ready e sc dc mg m (ps : list (bytes * bytes)) : Prop := {
  rw_new : new_sc 1 e = Ok sc;
  rw_name : Forall (fun b => is_space b = false) (lastContainerFileName_ sc);
  rw_dc : DeltaCompressor_new (getDeltaContainerRootPath config) (getMaxDeltaContainerSize config)
            (mem 2) (mem' 2) sc e = Ok dc;
  rw_compress : compress_ready delta_create delta_apply dc e mg m ps;
  rw_delta : sc_wf (as_storage dc) e;
  rw_paths n n' : dc_container_path dc n <> container_path sc n';
  rw_writable q : writable e q = true
}.

Lemma main_rw_spec e sc dc mg m ps :
  rw_ready e sc dc mg m ps ->
  exists e' mg', main_rw delta_create delta_apply mem mem' config (S depth) e mg = Ok (e', mg') /\
    forall n, exists sc', new_sc n e' = Ok sc' /\ Repr sc' e' m.
Proof.
  intros [Hnew Hns Hdc Hcr Hdw Hpaths Hw]. unfold main_rw. rewrite Hnew. cbn [mbind outcome_bind].
  rewrite Hdc. cbn [mbind outcome_bind].
  assert (Hsc : dc_storageObj_ dc = sc).
  { unfold DeltaCompressor_new in Hdc. repeat case_match; by inv_run. }
  destruct (compress_spec delta_create delta_apply depth dc e mg m ps Hcr)
    as (dc' & mg' & Hrun & HR & _). rewrite Hrun. cbn [mbind outcome_bind].
  apply compress_cache in Hrun as (gs & sc2 & Hcache & ->). rewrite Hsc in Hcache.
  change (dc_storageObj_ (dc_with_groups gs (dc_with_storage sc2 dc))) with sc2 in *.
  set (dc' := dc_with_groups gs (dc_with_storage sc2 dc)) in *. set (e1 := remove_file similar_log e) in *.
  assert (Hdw1 : sc_wf (as_storage dc') e1).
  { apply (sc_wf_agree (as_storage dc) e); [|apply HR|exact Hdw]. split; [|apply HR].
    intros n. unfold e1, remove_file. cbn [files with_files]. apply lookup_delete_ne.
    exact (container_not_log (as_storage dc) e n Hdw). }
  rewrite (DeltaCompressor_delete_spec dc' e1 Hdw1) by apply Hw. cbn [mbind outcome_bind].
  set (e2 := with_files _ e1).
  assert (HR2 : Repr sc2 e2 m).
  { apply (Repr_agree sc2 e1); [|done|done]. split; [|apply HR]. intros n. cbn.
    assert (Hp : container_path sc2 n = container_path sc n) by by destruct Hcache as (? & ? & ->).
    rewrite !lookup_insert_ne; [done| |].
    - eapply ends_ne; [apply (ends_app "g"%char []); done|eapply ends_container, HR|done].
    - rewrite Hp. apply Hpaths. }
  assert (Hcg : configured sc2).
  { eapply configured_cache; [exact Hcache|].
    by destruct (new_storage_prefix _ _ _ _ _ _ Hnew) as (? & ? & _ & _ & ?). }
  destruct (restart_storage sc2 e2 m HR2 Hcg) as (e3 & -> & Hw3 & Hn3); [intros q; apply Hw|].
  cbn [mbind outcome_bind]. destruct (Hn3 3%nat) as (sc3 & -> & _).
  destruct (Hn3 4%nat) as (sc4 & -> & HR4 & Hcg4). cbn [mbind outcome_bind].
  destruct (restart_storage sc4 e3 m HR4 Hcg4) as (e4 & -> & _ & Hn4);
    [intros q; rewrite Hw3; apply Hw|].
  cbn [mbind outcome_bind]. exists e4, mg'. split; [done|]. intros n.
  destruct (Hn4 n) as (sc' & ? & ? & _). by exists sc'.
Qed.

(** Closing the databases changes nothing a storage object looks at. *)
Lemma new_storage_close n e sc m :
  new_sc n e = Ok sc -> Repr sc e m ->
  new_sc n (close_databases e) = Ok sc /\ Repr sc (close_databases e) m.
Proof.
  intros Hnew HR. split.
  - unfold new_storage. rewrite <- Hnew. apply StorageCore_new_files.
    + by eapply close_databases_files; [apply ends_config|].
    + intros x. by eapply (close_databases_files _ _ "r"%char); [do 2 apply ends_app|].
  - apply (Repr_agree sc e); [|done|done]. split; [|apply HR]. intros x.
    by eapply close_databases_files; [eapply ends_container, HR|].
Qed.
End MainRw.
