(* ===== verification/Versions.v ===== *)
(** * An archive of versions

    Processes that store the versions [name-0], [name-1], ... of a file, and
    processes that restore one of them, run one after the other.  [archive]
    is what holds between them: storage objects can be made, every version has
    its recipe, its index and its chunks.  The program takes two letters off
    the name of a version, so that this works for ten of them. *)

From S2P Require Import Prelude.
From S2P Require Import Bytes.
From S2P Require Import DataStructure.
From S2P Require Import Database.
From S2P Require Import Storage.
From S2P Require Import StorageSpec.
From S2P Require Import StorageRefine.
From S2P Require Import Recipe.
From S2P Require Import Crypto.
From S2P Require Import Config.
From S2P Require Import Chunking.
From S2P Require Import FileIndex.
From S2P Require Import Chunker.
From S2P Require Import ChunkerSpec.
From S2P Require Import IndexInv.
From S2P Require Import Backup.
From S2P Require Import DeltaStore.
From S2P Require Import Compress.
From S2P Require Import Dector.
From S2P Require Import Main.
From S2P Require Import Session.
From S2P Require Import MainRw.
From S2P Require Import DectorSpec.
From stdpp Require Import base tactics numbers list gmap strings.
From Stdlib Require Import Ascii ZArith Lia.

Open Scope Z_scope.

(** ** Names of versions *)

Definition digit (v : Z) : byte := chr (48 + v).

Lemma digit_not (v : Z) c : 0 <= v < 10 -> is_digit c = false -> digit v <> c.
Proof. intros Hv Hc <-. unfold digit in Hc. by rewrite is_digit_chr in Hc. Qed.

Lemma to_string_digit v : 0 <= v < 10 -> to_string v = [digit v].
Proof.
  intros Hv. unfold to_string. rewrite (proj2 (Z.ltb_ge _ _)) by lia. cbn [digits_acc].
  rewrite (proj2 (Z.ltb_lt v 10)) by lia. by rewrite Z.mod_small.
Qed.

Section Versions.
Context {db : Type} `{LevelDB db, !LevelDBReliable db} `{EVP_DigestReliable}.
Context (mem mem' : nat -> Z -> byte) (config : Configure) (name : bytes).
Implicit Types (e : env db) (sc : StorageCore) (m : chunk_store).

Abbreviation path := (version_name name).

Lemma path_digit v : 0 <= v < 10 -> path v = name ++ str "-" ++ [digit v].
Proof. intros Hv. unfold version_name. by rewrite to_string_digit. Qed.

Lemma path_ends v : 0 <= v < 10 -> ends (digit v) (path v).
Proof. intros Hv. rewrite path_digit by done. by do 2 apply ends_app. Qed.

Lemma path_length v : 0 <= v < 10 -> lengthZ (path v) = lengthZ name + 2.
Proof. intros Hv. rewrite path_digit by done. by rewrite lengthZ_app. Qed.

Lemma but_two_path v : 0 <= v < 10 -> lengthZ name < 2 ^ 63 -> but_two (path v) = name.
Proof.
  intros Hv Hn. pose proof (lengthZ_nonneg name). unfold but_two. rewrite path_length by done.
  rewrite Z.add_simpl_r, u64_small by lia. rewrite path_digit by done. by apply takeZ_app_exact.
Qed.

(** Files that end with different letters, or have different lengths. *)
Lemma path_ne v q c : 0 <= v < 10 -> ends c q -> is_digit c = false -> path v <> q.
Proof. intros Hv Hq Hc. eapply ends_ne; [by apply path_ends|done|by apply digit_not]. Qed.

Lemma index_ne v q c : 0 <= v < 10 -> ends c q -> is_digit c = false -> index_path (path v) <> q.
Proof. intros Hv Hq Hc. eapply ends_ne; [by apply ends_index, path_ends|done|by apply digit_not]. Qed.

Lemma index_length v : 0 <= v < 10 -> lengthZ (index_path (path v)) = lengthZ name + 10.
Proof. intros Hv. unfold index_path. rewrite lengthZ_app, path_length by done. cbn. lia. Qed.

Lemma path_index_ne u v : 0 <= u < 10 -> 0 <= v < 10 -> path u <> index_path (path v).
Proof.
  intros Hu Hv E. apply (f_equal lengthZ) in E. rewrite path_length, index_length in E by done. lia.
Qed.

(** ** The archive *)

Definition recipe_file (fh : bytes) : bytes := getRecipeRootPath config ++ hex fh ++ str ".recipe".

Definition stored_in m (cs : list bytes) : Prop :=
  Forall (fun c => exists r, m !! fp_of c = Some (masked c, r)) cs.

(** The version [v] consists of the chunks [cs]. *)
Record version_kept e m (v : Z) (cs : list bytes) : Prop := {
  vk_entry : contents (fileName2metaDB e) (file_path_hash (path v)) =
             Some (hex (file_path_hash (path v)));
  vk_recipe : exists head : Recipe_t, pod_valid head /\
    files e !! recipe_file (file_path_hash (path v)) = Some (rep head ++ reps (entries cs));
  vk_index : is_Some (files e !! index_path (path v)) /\
    exists i, loadIndex (path v) e = Ok i /\ fileNameHash i = file_path_hash (path v) /\
      chunknumber i = lengthZ cs;
  vk_input : is_Some (files e !! path v);
  vk_chunks : Forall chunk_ok cs;
  vk_number : lengthZ cs < 2 ^ 31;
  vk_stored : stored_in m cs
}.

Record archive e m (vs : list (list bytes)) : Prop := {
  ar_storage n : exists sc, new_storage mem mem' config n e = Ok sc /\ Repr sc e m /\
    configured config sc;
  ar_meta : is_open (fileName2metaDB e);
  ar_writable q : writable e q = true;
  ar_count : lengthZ vs <= 10;
  ar_versions v cs : nthZ vs v = Some cs -> version_kept e m v cs;
  ar_next v : lengthZ vs <= v < 10 -> files e !! index_path (path v) = None
}.

(** A version is kept when its own files and its entry are. *)
Lemma version_kept_step e e' m m' v cs :
  version_kept e m v cs ->
  contents (fileName2metaDB e') (file_path_hash (path v)) =
    contents (fileName2metaDB e) (file_path_hash (path v)) ->
  files e' !! recipe_file (file_path_hash (path v)) = files e !! recipe_file (file_path_hash (path v)) ->
  files e' !! index_path (path v) = files e !! index_path (path v) ->
  is_Some (files e' !! path v) -> stored_in m' cs -> version_kept e' m' v cs.
Proof.
  intros [H1' H2' [H3 (i & Hi & H4)] _ H6 H7 _] Em Er Ei Hin Hst. split; try done.
  - by rewrite Em.
  - by rewrite Er.
  - rewrite Ei. split; [done|]. exists i. split; [|done]. rewrite <- Hi. by apply loadIndex_files.
Qed.

Lemma recipe_file_ends fh : ends "e"%char (recipe_file fh).
Proof. unfold recipe_file. by do 2 apply ends_app. Qed.

Lemma configured_recipe sc e fh : sc_wf sc e -> configured config sc -> recipe_path sc (hex fh) = recipe_file fh.
Proof. intros Hwf [_ Hr _ _]. unfold recipe_path, recipe_file. by rewrite Hr, (wf_rtail _ _ Hwf). Qed.

Lemma configured_container sc e n : sc_wf sc e -> configured config sc ->
  container_path sc n = getContainerRootPath config ++ n ++ str ".container".
Proof. intros Hwf [Hc _ _ _]. unfold container_path. by rewrite Hc, (wf_tail _ _ Hwf). Qed.

(** A storage object is made from the files it reads only. *)
Lemma storage_agree n e e' m :
  files e' !! StorageConfig = files e !! StorageConfig ->
  (forall x, files e' !! (getContainerRootPath config ++ x ++ str ".container") =
             files e !! (getContainerRootPath config ++ x ++ str ".container")) ->
  fp2ChunkDB e' = fp2ChunkDB e -> containerDB e' = containerDB e ->
  (exists sc, new_storage mem mem' config n e = Ok sc /\ Repr sc e m /\ configured config sc) ->
  exists sc, new_storage mem mem' config n e' = Ok sc /\ Repr sc e' m /\ configured config sc.
Proof.
  intros Hc Hf Hfp Hcd (sc & Hnew & HR & Hcg). exists sc. split_and!; [| |done].
  - unfold new_storage in *. rewrite <- Hnew. by apply StorageCore_new_files.
  - apply (Repr_agree sc e); [|done|done]. split; [|rewrite Hcd; apply HR].
    intros x. rewrite (configured_container sc e x (proj1 HR) Hcg). apply Hf.
Qed.

(** What a step does that touches the log of a detection and lock files only. *)
Record quiet_step e e' : Prop := {
  qs_fp2 : fp2ChunkDB e' = fp2ChunkDB e;
  qs_meta : fileName2metaDB e' = fileName2metaDB e;
  qs_containers : containerDB e' = containerDB e;
  qs_writable : writable e' = writable e;
  qs_files q : q <> similar_log -> ~ ends "k"%char q -> files e' !! q = files e !! q
}.

Lemma nthZ_range (vs : list (list bytes)) v cs : nthZ vs v = Some cs -> 0 <= v < lengthZ vs.
Proof. apply nthZ_lt. Qed.

Lemma archive_quiet e e' m vs : quiet_step e e' -> archive e m vs -> archive e' m vs.
Proof.
  intros [Hfp Hme Hcd Hw Hf] [Hs Hm Hwr Hn Hv Hnx].
  assert (Hkeep : forall q c, ends c q -> c <> "g"%char -> c <> "k"%char -> files e' !! q = files e !! q).
  { intros q c Hq Hg Hk. apply Hf.
    - eapply ends_ne; [exact Hq|by apply (ends_app "g"%char [])|done].
    - intros E. unfold ends in *. congruence. }
  assert (Hpath : forall v, 0 <= v < 10 -> files e' !! path v = files e !! path v /\
    files e' !! index_path (path v) = files e !! index_path (path v)).
  { intros v Hb. split; apply (Hkeep _ (digit v)); try (by apply digit_not); [by apply path_ends|].
    by apply ends_index, path_ends. }
  split; try done.
  - intros n. apply (storage_agree n e); try done.
    + apply Hf; [done|]. by intros E.
    + intros x. by apply (Hkeep _ "r"%char); [do 2 apply ends_app|..].
  - by rewrite Hme.
  - intros q. by rewrite Hw.
  - intros v cs Hc. pose proof (nthZ_range _ _ _ Hc). pose proof (Hv v cs Hc) as Hk.
    destruct (Hpath v) as [Hp Hi]; [lia|].
    apply (version_kept_step e e' m m v cs Hk); [by rewrite Hme| |done|rewrite Hp; apply Hk|apply Hk].
    by eapply Hkeep; [apply recipe_file_ends|..].
  - intros v Hb. pose proof (lengthZ_nonneg vs). destruct (Hpath v) as [_ ->]; [lia|by apply Hnx].
Qed.

Lemma close_quiet e : quiet_step e (close_databases e).
Proof.
  split; try done. intros q _ Hq. unfold close_databases, Database_destructor. cbn [files with_files].
  assert (Hne : forall n, str "." ++ n ++ str ".lock" <> q).
  { intros n <-. apply Hq. by do 2 apply ends_app. }
  by rewrite !lookup_delete_ne by apply Hne.
Qed.

Lemma log_quiet e e' : log_written e e' -> quiet_step e e'.
Proof. intros []. split; try done. auto. Qed.

(** Deleting a storage object keeps the archive. *)
Lemma archive_restart e m vs sc :
  archive e m vs -> Repr sc e m -> configured config sc ->
  exists e', StorageCore_delete sc e = Ok e' /\ archive e' m vs.
Proof.
  intros [Hs Hm Hwr Hn Hv Hnx] HR Hcg.
  destruct (restart_storage mem mem' config sc e m HR Hcg Hwr) as (e' & Hdel & Hw' & Hnew).
  destruct (StorageCore_delete_spec sc e (proj1 HR)) as (e'' & Hdel' & _ & Hfp & Hme & _ & Hfiles); [auto..|].
  rewrite Hdel in Hdel'. injection Hdel' as <-.
  assert (Hkeep : forall q, StorageConfig <> q -> (forall x, container_path sc x <> q) ->
    files e' !! q = files e !! q).
  { intros q H1' H2'. by rewrite Hfiles, !lookup_insert_ne by auto. }
  assert (Hpath : forall v, 0 <= v < 10 -> files e' !! path v = files e !! path v /\
    files e' !! index_path (path v) = files e !! index_path (path v)).
  { intros v Hv'. pose proof (fun x => ends_container sc e x (proj1 HR)) as Hce.
    split; apply Hkeep.
    - exact (not_eq_sym (path_ne v _ _ Hv' ends_config eq_refl)).
    - intros x. exact (not_eq_sym (path_ne v _ _ Hv' (Hce x) eq_refl)).
    - exact (not_eq_sym (index_ne v _ _ Hv' ends_config eq_refl)).
    - intros x. exact (not_eq_sym (index_ne v _ _ Hv' (Hce x) eq_refl)). }
  exists e'. split; [done|]. split; try done.
  - by rewrite Hme.
  - intros q. by rewrite Hw'.
  - intros v cs Hc. pose proof (nthZ_range _ _ _ Hc). pose proof (Hv v cs Hc) as Hk.
    destruct (Hpath v) as [Hp Hi]; [lia|].
    apply (version_kept_step e e' m m v cs Hk); [by rewrite Hme| |done|rewrite Hp; apply Hk|apply Hk].
    apply Hkeep; [eapply ends_ne; [apply ends_config|apply recipe_file_ends|done]|].
    intros x. eapply ends_ne; [eapply ends_container, HR|apply recipe_file_ends|done].
  - intros v Hb. pose proof (lengthZ_nonneg vs). destruct (Hpath v) as [_ ->]; [lia|by apply Hnx].
Qed.
End Versions.

(** ** Storing the next version *)

Lemma next_version_at {db} fuel name u v (e : env db) :
  0 <= u <= v -> v - u <= Z.of_nat fuel -> (forall x, u <= x < v -> has_version e name x) ->
  ~ has_version e name v -> next_version fuel name u e = Ok v.
Proof.
  revert u. induction fuel as [|fuel IH]; intros u Hu Hf Hall Hn; cbn [next_version];
    destruct (decide (u = v)) as [->|Hne]; try lia;
    try (unfold has_version in Hn; by destruct (fstream_opens _ _)).
  rewrite Hall by lia. apply IH; [lia..| |done]. intros x Hx. apply Hall. lia.
Qed.

Lemma find_version_at {db} name v (e : env db) :
  0 <= v < 10 -> (forall q, writable e q = true) ->
  (forall u, 0 <= u < v -> is_Some (files e !! index_path (version_name name u))) ->
  files e !! index_path (version_name name v) = None -> find_version name e = Ok v.
Proof.
  intros Hv Hw Hall Hn.
  assert (Hhas : forall u, 0 <= u < v -> has_version e name u).
  { intros u Hu. unfold has_version, fstream_opens. rewrite Hw, andb_true_r.
    apply bool_decide_eq_true_2, Hall, Hu. }
  apply next_version_at; [lia| |done|].
  - pose proof (versions_size name v e ltac:(lia) Hhas). lia.
  - unfold has_version, fstream_opens. by rewrite Hn.
Qed.

Section Store.
Context {db : Type} `{LevelDB db, !LevelDBReliable db} `{EVP_DigestReliable}.
Context (MD5 : bytes -> bytes) (stack stack' : bytes) (mem mem' : nat -> Z -> byte).
Context (uninit_key : nat -> Z -> keyForChunkHashDB_t).
Context (uninit_recipe : nat -> Recipe_t) (uninit_index : nat -> Index) (winFp0 : nat -> Z).
Context (config : Configure) (p : ChunkerParams) (name file : bytes).
Implicit Types (e : env db) (sc : StorageCore) (m : chunk_store).

Abbreviation path := (version_name name).
Abbreviation archive := (archive mem mem' config name).
Let cs := chunks_of p (winFp0 0) file.

Lemma chunked_configured v e sc m ck sc1 e1 :
  sc_wf sc e -> configured config sc -> chunked winFp0 p (path v) file sc e m ck sc1 e1 ->
  configured config sc1.
Proof.
  intros Hwf [Cc Cr Cm Cn] [HR1 _ _ [Fp Fr Fm Fn _ _ _ _] _ _ _]. split.
  - by rewrite Fp.
  - specialize (Fr []). unfold recipe_path in Fr.
    rewrite (wf_rtail _ _ Hwf), (wf_rtail _ _ (proj1 HR1)), Cr in Fr. by apply app_inv_tail in Fr.
  - by rewrite Fm.
  - by rewrite Fn.
Qed.

(** What chunking, shutting down and saving the index write. *)
Record version_written (v : Z) e e1 e2 e3 : Prop := {
  vw_entry : contents (fileName2metaDB e3) (file_path_hash (path v)) =
             Some (hex (file_path_hash (path v)));
  vw_entries k : k <> file_path_hash (path v) ->
    contents (fileName2metaDB e3) k = contents (fileName2metaDB e) k;
  vw_recipe : files e3 !! recipe_file config (file_path_hash (path v)) =
              files e1 !! recipe_file config (file_path_hash (path v));
  vw_recipes fh : fh <> file_path_hash (path v) ->
    files e3 !! recipe_file config fh = files e !! recipe_file config fh;
  vw_input u : 0 <= u < 10 -> files e3 !! path u = files e !! path u;
  vw_searched u : 0 <= u < 10 -> files e2 !! index_path (path u) = files e !! index_path (path u);
  vw_indexes u : 0 <= u < 10 -> u <> v ->
    files e3 !! index_path (path u) = files e !! index_path (path u);
  vw_index : is_Some (files e3 !! index_path (path v))
}.

Lemma version_is_written v e sc sc1 e1 i e2 e3 :
  0 <= v < 10 -> sc_wf sc e -> sc_wf sc1 e1 -> configured config sc ->
  stored_frame sc e (file_path_hash (path v)) sc1 e1 -> (forall q, writable e1 q = true) ->
  StorageCore_delete sc1 e1 = Ok e2 -> saveToFile i (path v) e2 = Ok (true, e3) ->
  loadIndex (path v) e3 = Ok i -> version_written v e e1 e2 e3.
Proof.
  intros Hv Hwf Hwf1 Hcg Hfrm Hw1 Hdel Hsave Hload.
  destruct (StorageCore_delete_spec sc1 e1 Hwf1) as (e2' & Hdel' & _ & _ & Hm2 & _ & Hf2); [auto..|].
  rewrite Hdel in Hdel'. injection Hdel' as <-.
  destruct (saveToFile_dbs _ _ _ _ _ Hsave) as (_ & D2 & _).
  pose proof (fun q => saveToFile_files _ _ _ _ q Hsave) as Hf3.
  (* a file of its own kind is touched by nothing but its own step *)
  assert (H12 : forall q c, ends c q -> c <> "g"%char -> c <> "r"%char -> files e2 !! q = files e1 !! q).
  { intros q c Hq Hg Hr. rewrite Hf2, !lookup_insert_ne; [done| |]; apply not_eq_sym.
    - by eapply ends_ne; [exact Hq|apply ends_config|].
    - by eapply ends_ne; [exact Hq|by eapply ends_container|]. }
  assert (H01 : forall q c, ends c q -> c <> "r"%char -> q <> recipe_file config (file_path_hash (path v)) ->
    files e1 !! q = files e !! q).
  { intros q c Hq Hr Hne. rewrite (sf_files _ _ _ _ _ Hfrm); [done| |].
    - by rewrite (configured_recipe config sc e _ Hwf Hcg).
    - intros n. by eapply ends_ne; [exact Hq|by eapply ends_container|]. }
  assert (Hdig : forall u q, 0 <= u < 10 -> ends (digit u) q -> files e2 !! q = files e !! q).
  { intros u q Hu Hq. rewrite (H12 _ _ Hq) by (by apply digit_not).
    apply (H01 _ _ Hq); [by apply digit_not|].
    eapply ends_ne; [exact Hq|apply recipe_file_ends|by apply digit_not]. }
  assert (Hix : forall u, 0 <= u < 10 -> files e2 !! index_path (path u) = files e !! index_path (path u)).
  { intros u Hu. apply (Hdig u); [done|]. by apply ends_index, path_ends. }
  assert (Hrec : forall fh, files e3 !! recipe_file config fh = files e1 !! recipe_file config fh).
  { intros fh. rewrite Hf3 by (apply not_eq_sym; eapply index_ne; [done|apply recipe_file_ends|done]).
    by eapply H12; [apply recipe_file_ends|..]. }
  split; try done.
  - rewrite D2, Hm2. apply (sf_entry _ _ _ _ _ Hfrm).
  - intros k Hk. rewrite D2, Hm2. by apply (sf_meta _ _ _ _ _ Hfrm).
  - intros fh Hne. rewrite Hrec. eapply H01; [apply recipe_file_ends|done|]. intros E.
    unfold recipe_file in E. apply app_inv_head, app_inv_tail in E. by apply Hne, hex_inj.
  - intros u Hu. rewrite Hf3 by (by apply path_index_ne). apply (Hdig u); [done|by apply path_ends].
  - intros u Hu Hne. rewrite Hf3; [by apply Hix|]. intros E. apply version_path_inj in E; lia.
  - unfold loadIndex in Hload. by destruct (files e3 !! index_path (path v)).
Qed.

(** The versions of the archive then, the new one included. *)
Lemma written_versions e m vs sc ck sc1 e1 e2 e3 :
  let v := lengthZ vs in
  archive e m vs -> v < 10 -> sc_wf sc e -> configured config sc ->
  chunking_ready MD5 stack stack' uninit_key uninit_recipe winFp0 config p file ->
  file_ready winFp0 p (path v) file e sc m -> chunked winFp0 p (path v) file sc e m ck sc1 e1 ->
  version_written v e e1 e2 e3 -> loadIndex (path v) e3 = Ok (returnindex ck) ->
  forall u cs', nthZ (vs ++ [cs]) u = Some cs' -> version_kept config name e3 (put_all m cs) u cs'.
Proof.
  intros v Har Hv Hwf Hcg Hcr [_ Hfile _ _ _ Hfirst _ Hfree] Hcd Hvw Hload u cs' Hu.
  pose proof (lengthZ_nonneg vs) as Hv0. fold v in Hv0.
  pose proof Hcd as [_ (head & Hhv & x & Hx & Hxf) _ Hfrm _ Hh Hn].
  pose proof (nthZ_lt _ _ _ Hu) as Hr. rewrite lengthZ_app in Hr. cbn in Hr. fold v in Hr.
  destruct (decide (u = v)) as [->|Hne].
  - unfold v in Hu. rewrite nthZ_app_mid in Hu. injection Hu as <-.
    split; [apply Hvw| | | | |exact (cr_chunks Hcr)|by apply put_all_stored].
    + exists head. split; [exact Hhv|]. rewrite (vw_recipe _ _ _ _ _ Hvw).
      rewrite (sf_entry _ _ _ _ _ Hfrm) in Hx. injection Hx as <-.
      by rewrite (sf_recipe _ _ _ _ _ Hfrm), (configured_recipe config sc e _ Hwf Hcg) in Hxf.
    + split; [apply Hvw|]. exists (returnindex ck). by rewrite Hload.
    + rewrite (vw_input _ _ _ _ _ Hvw) by lia. by rewrite Hfile.
    + eapply chunks_of_ok; [..|apply (cr_file Hcr)]; apply Hcr.
  - rewrite nthZ_app_l in Hu by (fold v; lia).
    pose proof (ar_versions _ _ _ _ _ _ _ Har u cs' Hu) as Hk.
    assert (Hfh : file_path_hash (path u) <> file_path_hash (path v)).
    { intros E. pose proof (vk_entry _ _ _ _ _ _ Hk) as Hent. by rewrite E, Hfirst in Hent. }
    apply (version_kept_step config name e e3 m _ u cs' Hk).
    + by apply (vw_entries _ _ _ _ _ Hvw).
    + by apply (vw_recipes _ _ _ _ _ Hvw).
    + apply (vw_indexes _ _ _ _ _ Hvw); [lia|done].
    + rewrite (vw_input _ _ _ _ _ Hvw) by lia. apply Hk.
    + apply stored_mono, Hk.
Qed.

(** After chunking, shutting down and saving the index, the archive has the
    version. *)
Lemma store_version e m vs sc :
  let v := lengthZ vs in
  archive e m vs -> v < 10 -> new_storage mem mem' config 0 e = Ok sc ->
  chunking_ready MD5 stack stack' uninit_key uninit_recipe winFp0 config p file ->
  file_ready winFp0 p (path v) file e sc m ->
  exists ck sc1 e1 e2 e3,
    chunk_file MD5 stack stack' uninit_key uninit_recipe uninit_index winFp0 config 0 (path v) sc e =
      Ok (ck, sc1, e1) /\
    StorageCore_delete sc1 e1 = Ok e2 /\ find_version name e2 = Ok v /\
    saveToFile (returnindex ck) (path v) e2 = Ok (true, e3) /\
    archive e3 (put_all m cs) (vs ++ [cs]).
Proof.
  intros v Har Hv10 Hnew Hcr Hfr. pose proof (lengthZ_nonneg vs) as Hv0. fold v in Hv0.
  destruct (chunk_file_spec MD5 stack stack' uninit_key uninit_recipe uninit_index winFp0 config p (path v)
    file e sc m Hcr Hfr) as (ck & sc1 & e1 & Hck & Hcd).
  pose proof (proj1 (fr_repr _ _ _ _ _ _ _ Hfr)) as Hwf.
  assert (Hcg : configured config sc).
  { destruct (ar_storage _ _ _ _ _ _ _ Har 0%nat) as (sc' & Hnew' & _ & Hcg').
    rewrite Hnew in Hnew'. by injection Hnew' as <-. }
  pose proof (chunked_configured v e sc m ck sc1 e1 Hwf Hcg Hcd) as Hcg1.
  pose proof Hcd as [HR1 _ Hmeta1 Hfrm Hi _ _].
  assert (Hw1 : forall q, writable e1 q = true).
  { intros q. rewrite (sf_writable _ _ _ _ _ Hfrm). apply Hfr. }
  destruct (restart_storage mem mem' config sc1 e1 _ HR1 Hcg1 Hw1) as (e2 & Hdel & Hw2 & Hns2).
  destruct (StorageCore_delete_spec sc1 e1 (proj1 HR1)) as (e2' & Hdel' & _ & _ & Hm2 & _); [auto..|].
  rewrite Hdel in Hdel'. injection Hdel' as <-.
  destruct (loadIndex_saveToFile e2 (returnindex ck) (path v) Hi) as (e3 & Hsave & Hload);
    [by rewrite Hw2|].
  destruct (saveToFile_dbs _ _ _ _ _ Hsave) as (D1 & D2 & D3 & D4).
  pose proof (version_is_written v e sc sc1 e1 _ e2 e3 ltac:(lia) Hwf (proj1 HR1) Hcg Hfrm Hw1 Hdel Hsave Hload)
    as Hvw.
  exists ck, sc1, e1, e2, e3. do 2 (split; [done|]). split; [|split; [exact Hsave|]].
  - apply find_version_at; [lia|intros q; by rewrite Hw2| |].
    + intros u Hu. rewrite (vw_searched _ _ _ _ _ Hvw) by lia.
      destruct (nthZ_is_Some vs u) as [cs' Hcs']; [fold v; lia|].
      apply (vk_index _ _ _ _ _ _ (ar_versions _ _ _ _ _ _ _ Har u cs' Hcs')).
    + rewrite (vw_searched _ _ _ _ _ Hvw) by lia. apply (ar_next _ _ _ _ _ _ _ Har). fold v. lia.
  - pose proof (fun q => saveToFile_files _ _ _ _ q Hsave) as Hf3.
    assert (Hlast : lengthZ (vs ++ [cs]) = v + 1) by (by rewrite lengthZ_app).
    split; [|by rewrite D2, Hm2|intros q; by rewrite D4, Hw2|lia|by eapply written_versions|].
    + intros n. apply (storage_agree mem mem' config n e2); [..|apply Hns2]; try done.
      * apply Hf3, not_eq_sym. eapply index_ne; [lia|apply ends_config|done].
      * intros x. apply Hf3, not_eq_sym. eapply (index_ne _ _ _ "r"%char); [lia|by do 2 apply ends_app|done].
    + intros u Hu. rewrite Hlast in Hu. rewrite (vw_indexes _ _ _ _ _ Hvw) by lia.
      apply (ar_next _ _ _ _ _ _ _ Har). fold v. lia.
Qed.
End Store.

(** ** The commands *)

Section Commands.
Context {db : Type} `{LevelDB db, !LevelDBReliable db} `{EVP_DigestReliable}.
Context {mongo : Type} `{Mongo mongo}.
Context (delta_apply : bytes -> bytes -> bytes).
Context (extractSuperFeatures : bytes -> Z -> Z -> list bytes).
Context (MD5 : bytes -> bytes).
Context (mem mem' : nat -> Z -> byte) (indet : Z -> byte) (stack stack' : bytes).
Context (uninit_key : nat -> Z -> keyForChunkHashDB_t).
Context (uninit_recipe : nat -> Recipe_t) (uninit_index : nat -> Index) (winFp0 : nat -> Z).
Context (config : Configure) (depth : nat) (p : ChunkerParams) (name : bytes).
Implicit Types (e : env db) (sc : StorageCore) (mg : mongo) (m : chunk_store).

Abbreviation path := (version_name name).
Abbreviation archive := (archive mem mem' config name).

(** -c stores the next version; then it compares it with the one before. *)
Lemma main_c_next e m vs sc mg file :
  let cs := chunks_of p (winFp0 0%nat) file in
  archive e m vs -> lengthZ vs < 10 -> lengthZ name < 2 ^ 63 ->
  new_storage mem mem' config 0 e = Ok sc ->
  chunking_ready MD5 stack stack' uninit_key uninit_recipe winFp0 config p file ->
  file_ready winFp0 p (path (lengthZ vs)) file e sc m ->
  0 < i32 (getMinSlidingWinSize config) -> 0 < i32 (getMaxSlidingWinSize config) ->
  runs (main_c delta_apply extractSuperFeatures MD5 mem mem' indet stack stack' uninit_key
          uninit_recipe uninit_index winFp0 config (S depth) (path (lengthZ vs)) sc e mg)
    (fun x => archive x.1 (put_all m cs) (vs ++ [cs])).
Proof.
  intros cs Har Hv10 Hlen Hnew Hcr Hfr Hmin Hmax. pose proof (lengthZ_nonneg vs) as Hv0.
  destruct (store_version MD5 stack stack' mem mem' uninit_key uninit_recipe uninit_index winFp0 config p
    name file e m vs sc Har Hv10 Hnew Hcr Hfr) as (ck & sc1 & e1 & e2 & e3 & Hck & Hdel & Hfind & Hsave & Har3).
  fold cs in Har3. unfold main_c. rewrite Hck. cbn [mbind outcome_bind]. rewrite Hdel. cbn [mbind outcome_bind].
  rewrite but_two_path, Hfind by lia. cbn [mbind outcome_bind]. rewrite Hsave.
  cbn [mbind outcome_bind].
  destruct (Z.ltb_spec (lengthZ vs) 1) as [|Hv1]; [exact Har3|].
  destruct (ar_storage _ _ _ _ _ _ _ Har3 1%nat) as (sc2 & -> & HR2 & Hcg2). cbn [mbind outcome_bind].
  assert (Hold : exists i, loadIndex (path (lengthZ vs - 1)) e3 = Ok i).
  { destruct (nthZ_is_Some (vs ++ [cs]) (lengthZ vs - 1)) as [cs' Hcs']; [rewrite lengthZ_app; cbn; lia|].
    destruct (vk_index _ _ _ _ _ _ (ar_versions _ _ _ _ _ _ _ Har3 _ _ Hcs')) as (_ & i & ? & _). by exists i. }
  destruct Hold as (i & ->). cbn [mbind outcome_bind]. unfold new_dector.
  pose proof (Dector_new_runs delta_apply extractSuperFeatures indet _ _ (getSFNumber config) i (returnindex ck)
    depth (not_indexflag config) sc2 e3 mg _ HR2 Hmin Hmax) as Hr.
  destruct (Dector_new _ _ _ _ _ _ _ _ _ _ _ _ _) as [[[r e4] mg4]| | |] eqn:Hd; try done.
  cbn [mbind outcome_bind runs fst snd] in *. destruct Hr as [HR4 Hlw].
  apply Dector_new_cache in Hd. pose proof (archive_quiet _ _ _ _ _ _ _ _ (log_quiet _ _ Hlw) Har3) as Har4.
  destruct (archive_restart mem mem' config name e4 _ _ _ Har4 HR4 (configured_cache config _ _ Hd Hcg2))
    as (e5 & -> & Har5). exact Har5.
Qed.

(** The file a version is restored to is none of the archive's. *)
Record output_free : Prop := {
  of_config : name <> StorageConfig;
  of_recipe fh : name <> recipe_file config fh;
  of_container n : name <> getContainerRootPath config ++ n ++ str ".container";
  of_length : lengthZ name < 2 ^ 63
}.

Lemma archive_output e m vs d :
  output_free -> archive e m vs -> archive (with_files (<[name := d]> (files e)) e) m vs.
Proof.
  intros [Hc Hr Hn _] [Hs Hm Hwr Hct Hv Hnx]. set (e' := with_files _ e). pose proof (lengthZ_nonneg name).
  assert (Hfile : forall q, name <> q -> files e' !! q = files e !! q).
  { intros q Hq. by apply lookup_insert_ne. }
  assert (Hpath : forall v, 0 <= v < 10 -> files e' !! path v = files e !! path v /\
    files e' !! index_path (path v) = files e !! index_path (path v)).
  { intros v Hb. split; apply Hfile; intros E; apply (f_equal lengthZ) in E.
    - rewrite path_length in E by done. lia.
    - rewrite index_length in E by done. lia. }
  split; try done.
  - intros n. apply (storage_agree mem mem' config n e); try done; [by apply Hfile|].
    intros x. apply Hfile, Hn.
  - intros v cs Hcs. pose proof (nthZ_lt _ _ _ Hcs). pose proof (Hv v cs Hcs) as Hk.
    destruct (Hpath v) as [Hp Hi]; [lia|].
    apply (version_kept_step config name e e' m m v cs Hk); [done| |done|rewrite Hp; apply Hk|apply Hk].
    apply Hfile, Hr.
  - intros v Hb. pose proof (lengthZ_nonneg vs). destruct (Hpath v) as [_ ->]; [lia|by apply Hnx].
Qed.

(** -rs restores any version. *)
Lemma main_rs_version e m vs v cs mg :
  archive e m vs -> nthZ vs v = Some cs -> output_free -> ChunkerInit config = Ok p ->
  exists e', main_rs delta_apply mem mem' indet uninit_recipe uninit_index config (S depth) (path v) e mg =
      Ok (e', mg) /\
    files e' !! name = Some (concat (masked <$> cs)) /\ archive e' m vs.
Proof.
  intros Har Hcs Hof Hinit. pose proof (nthZ_lt _ _ _ Hcs) as Hb. pose proof (ar_count _ _ _ _ _ _ _ Har).
  pose proof (ar_versions _ _ _ _ _ _ _ Har v cs Hcs) as [Hen (head & Hhv & Hhf) (_ & i & Hi & Hh & Hn) [x Hin] Hok Hnum Hst].
  unfold main_rs. destruct (ar_storage _ _ _ _ _ _ _ Har 1%nat) as (sc & -> & HR & Hcg).
  cbn [mbind outcome_bind]. unfold Chunker_new. rewrite Hin, Hinit. cbn [mbind outcome_bind].
  rewrite Hi. cbn [mbind outcome_bind]. rewrite but_two_path by (lia || apply Hof).
  unfold write_file. rewrite (ar_writable _ _ _ _ _ _ _ Har). rewrite Hh, Hn.
  pose proof (lengthZ_nonneg cs). rewrite u32_small by lia.
  pose proof (archive_output e m vs [] Hof Har) as Har1. set (e1 := with_files _ e) in *.
  assert (HR1 : Repr sc e1 m).
  { apply (Repr_agree sc e); [|done|done]. split; [|apply HR]. intros n.
    rewrite (configured_container config sc e n (proj1 HR) Hcg). apply lookup_insert_ne, Hof. }
  assert (Hst1 : recipe_stored sc e1 (file_path_hash (path v)) head (entries cs)).
  { exists (hex (file_path_hash (path v))). split; [exact Hen|].
    rewrite (configured_recipe config sc e _ (proj1 HR) Hcg), <- Hhf. apply lookup_insert_ne, Hof. }
  destruct (restore_stored delta_apply indet sc e1 m _ head cs depth Hok Hst ltac:(lia) HR1
    (ar_meta _ _ _ _ _ _ _ Har1) (path_hash_length _) Hst1 Hhv) as (l & sc2 & -> & _ & Hwl).
  cbn [mbind outcome_bind]. rewrite (ar_writable _ _ _ _ _ _ _ Har1), Hwl.
  eexists. split; [done|]. split; [by cbn; rewrite lookup_insert_eq|]. by apply archive_output.
Qed.
End Commands.

(** ** Processes *)

Section Processes.
Context {db : Type} `{LevelDB db, !LevelDBReliable db} `{EVP_DigestReliable}.
Context {mongo : Type} `{Mongo mongo}.
Context (delta_create delta_apply : bytes -> bytes -> bytes).
Context (extractSuperFeatures : bytes -> Z -> Z -> list bytes).
Context (MD5 : bytes -> bytes) (rm_Delta : gmap bytes bytes -> gmap bytes bytes).
Context (mem mem' : nat -> Z -> byte) (indet : Z -> byte) (stack stack' : bytes).
Context (uninit_key : nat -> Z -> keyForChunkHashDB_t).
Context (uninit_recipe : nat -> Recipe_t) (uninit_index : nat -> Index) (winFp0 : nat -> Z).
Context (config : Configure) (depth : nat) (p : ChunkerParams) (name : bytes).
Implicit Types (e : env db) (sc : StorageCore) (mg : mongo) (m : chunk_store).

Abbreviation run open := (main delta_create delta_apply extractSuperFeatures MD5 rm_Delta mem mem'
  indet stack stack' uninit_key uninit_recipe uninit_index winFp0 open config (S depth)).
Abbreviation path := (version_name name).
Abbreviation archive := (archive mem mem' config name).

(** What a process that stores a version finds: the archive, in databases it
    opens, and the file. *)
Record next_ready (open : bytes -> option db) e0 e sc m (vs : list (list bytes)) file : Prop := {
  nr_open : open_databases open config e0 = Ok e;
  nr_new : new_storage mem mem' config 0 e0 = Ok sc;
  nr_archive : archive e m vs;
  nr_count : lengthZ vs < 10;
  nr_length : lengthZ name < 2 ^ 63;
  nr_chunking : chunking_ready MD5 stack stack' uninit_key uninit_recipe winFp0 config p file;
  nr_file : file_ready winFp0 p (path (lengthZ vs)) file e sc m;
  nr_windows : 0 < i32 (getMinSlidingWinSize config) /\ 0 < i32 (getMaxSlidingWinSize config)
}.

Lemma main_stores_next open e0 e sc m vs file prog mg :
  let cs := chunks_of p (winFp0 0%nat) file in
  next_ready open e0 e sc m vs file ->
  runs (run open [prog; str "-c"; path (lengthZ vs)] e0 mg)
    (fun x => archive x.1 (put_all m cs) (vs ++ [cs])).
Proof.
  intros cs [Ho Hn Har Hc Hl Hcr Hfr [Hmin Hmax]]. unfold main. rewrite Hn. cbn [mbind outcome_bind].
  rewrite Ho. cbn [mbind outcome_bind].
  change (nthZ [prog; str "-c"; path (lengthZ vs)] 1) with (Some (str "-c")).
  change (nthZ [prog; str "-c"; path (lengthZ vs)] 2) with (Some (path (lengthZ vs))).
  cbn [in_bounds mbind outcome_bind]. rewrite bool_decide_eq_true_2 by done.
  assert (Hn' : new_storage mem mem' config 0 e = Ok sc).
  { destruct (open_databases_files _ _ _ _ Ho) as [Hf _]. rewrite <- Hn. unfold new_storage.
    by apply StorageCore_new_files; intros; rewrite Hf. }
  eapply runs_bind; [by apply (main_c_next delta_apply extractSuperFeatures MD5 mem mem' indet stack stack'
    uninit_key uninit_recipe uninit_index winFp0 config depth p name e m vs sc mg file)|].
  intros [e1 mg1] Har1. cbn [fst snd] in *. exact (archive_quiet _ _ _ _ _ _ _ _ (close_quiet e1) Har1).
Qed.

(** The user writes the file of a version. *)
Lemma archive_input e m vs v d :
  0 <= v < 10 -> archive e m vs -> archive (with_files (<[path v := d]> (files e)) e) m vs.
Proof.
  intros Hv [Hs Hm Hwr Hct Hvs Hnx]. set (e' := with_files _ e).
  assert (Hfile : forall q c, ends c q -> is_digit c = false -> files e' !! q = files e !! q).
  { intros q c Hq Hc. apply lookup_insert_ne. by eapply path_ne. }
  assert (Hix : forall u, 0 <= u < 10 -> files e' !! index_path (path u) = files e !! index_path (path u)).
  { intros u Hu. apply lookup_insert_ne. by apply path_index_ne. }
  split; try done.
  - intros n. apply (storage_agree mem mem' config n e); try done; [by eapply Hfile; [apply ends_config|]|].
    intros x. by eapply (Hfile _ "r"%char); [do 2 apply ends_app|].
  - intros u cs Hcs. pose proof (nthZ_lt _ _ _ Hcs). pose proof (Hvs u cs Hcs) as Hk.
    apply (version_kept_step config name e e' m m u cs Hk); [done| |apply Hix; lia| |apply Hk].
    + by eapply Hfile; [apply recipe_file_ends|].
    + unfold e'. cbn. destruct (decide (path u = path v)) as [->|Hne].
      * by rewrite lookup_insert_eq.
      * rewrite lookup_insert_ne by (by apply not_eq_sym). apply Hk.
  - intros u Hu. pose proof (lengthZ_nonneg vs). rewrite Hix by lia. by apply Hnx.
Qed.
End Processes.
