(* ===== verification/Fixtures.v ===== *)
(** * Concrete instances

    A small world the theorems are instantiated in: finite maps for LevelDB, a
    digest and a cipher that can be computed, an empty store, a chunker with
    chunks of a few bytes. *)

From S2P Require Import Prelude.
From S2P Require Import Bytes.
From S2P Require Import DataStructure.
From S2P Require Import Database.
From S2P Require Import Storage.
From S2P Require Import Recipe.
From S2P Require Import StorageSpec.
From S2P Require Import StorageRefine.
From S2P Require Import Crypto.
From S2P Require Import Config.
From S2P Require Import Chunking.
From S2P Require Import FileIndex.
From S2P Require Import Chunker.
From S2P Require Import DeltaStore.
From S2P Require Import Compress.
From S2P Require Import CompressRefine.
From stdpp Require Import base tactics numbers list gmap strings.
From Stdlib Require Import Ascii ZArith Lia.

Open Scope Z_scope.

(** ** A digest: the length and the first bytes of the data *)

Definition toy_sha256 (d : bytes) : bytes :=
  chr (lengthZ d) :: takeZ 31 (d ++ replicate 31 (chr 46)).

Lemma toy_sha256_length d : lengthZ (toy_sha256 d) = 32.
Proof.
  unfold toy_sha256. cbn [lengthZ]. pose proof (lengthZ_nonneg d).
  rewrite lengthZ_takeZ, lengthZ_app, (lengthZ_length (replicate _ _)), length_replicate by lia. lia.
Qed.

#[global, program] Instance toy_digest : EVP_Digest := {|
  MD_CTX := bytes;
  EVP_MD_CTX_new := Some [];
  EVP_DigestInit_ex c := Some [];
  EVP_DigestUpdate c d := Some (c ++ d);
  EVP_DigestFinal_ex c := Some (toy_sha256 c);
  sha256 := toy_sha256
|}.
Next Obligation. apply toy_sha256_length. Qed.
Next Obligation. simpl. intros c0 c1 c2 d h [= <-] [= <-] [= <-] [= <-]. done. Qed.

#[global] Instance toy_digest_reliable : EVP_DigestReliable.
Proof. split. intros d. exists [], [], d. split_and!; try done. Qed.

Definition toy_MD5 (d : bytes) : bytes := takeZ 16 (toy_sha256 d).

(** ** A cipher that leaves the data as they are *)

#[global, program] Instance toy_cipher : EVP_Cipher := {|
  CIPHER_CTX := unit;
  EVP_CIPHER_CTX_new := Some ();
  EVP_EncryptInit_ex _ _ _ := Some ();
  EVP_EncryptUpdate _ d := Some ((), d);
  EVP_EncryptFinal_ex _ := Some [];
  EVP_DecryptInit_ex _ _ _ := Some ();
  EVP_DecryptUpdate _ d := Some ((), d);
  EVP_DecryptFinal_ex _ := Some []
|}.
Next Obligation.
  simpl. intros. simplify_eq. by rewrite !app_nil_r.
Qed.

#[global] Instance toy_cipher_reliable : EVP_CipherReliable.
Proof.
  split; simpl; [by exists ()| |]; intros c key iv d.
  - exists (), (), d, []. by rewrite app_nil_r.
  - exists (), (), d, []. by rewrite app_nil_r.
Qed.

(** ** An empty store *)

Definition no_db : Database (gmap bytes bytes) := mkDatabase None [].
Definition empty_db : Database (gmap bytes bytes) := mkDatabase (Some ∅) [].
Definition empty_env : env (gmap bytes bytes) :=
  mkEnv empty_db empty_db empty_db empty_db ∅ (fun _ => true).

Definition zero_body : Z -> byte := fun _ => NUL.
Definition empty_storage : StorageCore :=
  mkStorageCore first_container_name [] (str "Containers/") (str ".container")
    (str "Recipes/") (str ".recipe") (mkContainer 0 zero_body) (mkContainer 0 zero_body)
    8388608.

Definition zero_key : keyForChunkHashDB_t := mkKey (replicate 16 NUL) 0 0 0 0.

(** A store without chunks represents the empty map. *)
Lemma Repr_fresh {db} `{LevelDB db} sc (e : env db) :
  sc_wf sc e -> (forall h, contents (fp2ChunkDB e) h = None) -> Repr sc e ∅.
Proof. intros Hwf He. split; [done|]. intros h _. unfold entry_ok. by rewrite lookup_empty. Qed.

Lemma empty_Repr : Repr empty_storage empty_env ∅.
Proof. apply Repr_fresh; [|done]. split; (done || by left || by eexists). Qed.

(** A database with one entry. *)
Lemma one_entry_db (k v k' v' n : bytes) :
  contents (mkDatabase (Some ({[ k := v ]} : gmap bytes bytes)) n) k' = Some v' -> k' = k /\ v' = v.
Proof.
  unfold contents. cbn [levelDBObj_ mbind option_bind Get gmap_LevelDB].
  by intros [<- <-]%lookup_singleton_Some.
Qed.

Lemma one_entry_iterator (k v n : bytes) l :
  db_iterator (mkDatabase (Some ({[ k := v ]} : gmap bytes bytes)) n) = Ok l -> length l = 1%nat.
Proof.
  unfold db_iterator. cbn [levelDBObj_ in_bounds mbind outcome_bind NewIterator gmap_LevelDB].
  intros [= <-]. by rewrite map_to_list_singleton.
Qed.

(** A store with one chunk. *)
Definition one_hash : bytes := fp_of (str "hello").
Definition one_key : keyForChunkHashDB_t :=
  mkKey (first_container_name ++ [NUL]) 0 5 1 0.
Definition one_env : env (gmap bytes bytes) :=
  mkEnv (mkDatabase (Some {[ one_hash := rep one_key ]}) []) empty_db empty_db empty_db ∅
    (fun _ => true).
Definition one_storage : StorageCore :=
  with_current first_container_name
    (mkContainer 5 (write_mem zero_body 0 (str "hello"))) empty_storage.

Lemma one_Repr : Repr one_storage one_env {[ one_hash := (str "hello", 1) ]}.
Proof.
  split; [split; (done || by left || by eexists)|]. intros h Hh. unfold entry_ok.
  destruct (decide (h = one_hash)) as [->|Hne].
  - rewrite lookup_singleton_eq. exists one_key. unfold contents. cbn [one_env fp2ChunkDB levelDBObj_].
    split_and!; [exact (lookup_singleton_eq one_hash _)| | | |]; try done.
    split_and!; [done|done|done|left]. done.
  - rewrite lookup_singleton_ne by done. unfold contents. by apply lookup_singleton_ne, not_eq_sym.
Qed.

(** ** A small chunker *)

Definition small_win : Z := 2.
Definition small_params : ChunkerParams :=
  mkParams CHUNKER_VAR_SIZE_TYPE 4 3 8 small_win 5 (make_powerLUT small_win)
    match make_removeLUT small_win (make_powerLUT small_win) with Ok l => l | _ => [] end 3 0.

Lemma small_params_ok : params_ok small_params.
Proof. split; try done. Qed.

Definition small_index : Index := mkIndex (replicate 32 (chr 65)) 0 0 0 [] [] [].
Definition small_recipe : Recipe_t :=
  mkRecipe (mkFileRecipeHead 0 (replicate 32 (chr 65)) 0)
    (mkKeyRecipeHead 0 (replicate 32 (chr 65)) 0).
Definition small_file : bytes := str "the quick brown fox the quick brown fox".

(** The store with one chunk and a recipe that lists it twice. *)
Definition one_entry (id : Z) : RecipeEntry_t := mkRecipeEntry id 5 one_hash.
Definition one_file_hash : bytes := replicate 32 (chr 65).
Definition one_recipe_env : env (gmap bytes bytes) :=
  with_fileName2metaDB (mkDatabase (Some {[ one_file_hash := str "r" ]}) [])
    (with_files {[ str "Recipes/r.recipe" := rep small_recipe ++ reps [one_entry 0; one_entry 1] ]}
       one_env).

Lemma one_recipe_Repr : Repr one_storage one_recipe_env {[ one_hash := (str "hello", 1) ]}.
Proof.
  apply (Repr_agree one_storage one_env); [|done|exact one_Repr]. split; [|by eexists].
  intros n. cbn [files one_recipe_env with_files with_fileName2metaDB one_env]. rewrite lookup_empty.
  apply lookup_singleton_ne. exact (recipe_path_ne _ one_env (str "r") n (proj1 one_Repr)).
Qed.

Lemma one_recipe_stored :
  recipe_stored one_storage one_recipe_env one_file_hash small_recipe [one_entry 0; one_entry 1].
Proof. exists (str "r"). split; [exact (lookup_singleton_eq _ _)|exact (lookup_singleton_eq _ _)]. Qed.

Lemma one_entry_valid id : 0 <= id < 2 ^ 32 -> pod_valid (one_entry id).
Proof. by intros. Qed.

Lemma one_entry_in id :
  0 <= id < 2 ^ 32 -> entry_in {[ one_hash := (str "hello", 1) ]} (one_entry id) (str "hello").
Proof.
  intros Hid. split_and!; [by apply one_entry_valid|done|done|]. exists 1. apply lookup_singleton_eq.
Qed.

Lemma small_recipe_valid : pod_valid small_recipe.
Proof. by repeat split. Qed.

Lemma one_entries_in :
  Forall2 (entry_in {[ one_hash := (str "hello", 1) ]}) [one_entry 0; one_entry 1]
    [str "hello"; str "hello"].
Proof. do 2 (apply Forall2_cons_2; [apply one_entry_in; lia|]). constructor. Qed.

Lemma first_name_no_space : Forall (fun b => is_space b = false) first_container_name.
Proof. repeat constructor. Qed.

(** * Concrete instances for the compressor

    A compressor with an empty delta store, and a store with two chunks whose
    documents share a super-feature. *)

(** An empty delta store beside the store with one chunk. *)
Definition small_compressor (sc : StorageCore) : DeltaCompressor :=
  mkDeltaCompressor sc first_container_name [] (str "Delta/") (str ".container") 8388608
    (mkContainer 0 zero_body) (mkContainer 0 zero_body) [].

Lemma small_DRepr : DRepr (small_compressor one_storage) one_env ∅.
Proof.
  split_and!; [|by eexists|].
  - split; (done || by left || by eexists).
  - intros h _. unfold delta_entry_ok. by rewrite lookup_empty.
Qed.

(** Two chunks of sixty bytes that share a super-feature. *)
Definition hash_a : bytes := replicate 32 (chr 65).
Definition hash_b : bytes := replicate 32 (chr 66).
Definition chunk_a : bytes := replicate 60 (chr 97).
Definition chunk_b : bytes := replicate 60 (chr 98).
Definition pair_key (o : Z) : keyForChunkHashDB_t := mkKey (first_container_name ++ [NUL]) o 60 1 0.
Definition pair_map : chunk_store := {[ hash_a := (chunk_a, 1); hash_b := (chunk_b, 1) ]}.
Definition pair_env : env (gmap bytes bytes) :=
  mkEnv (mkDatabase (Some {[ hash_a := rep (pair_key 0); hash_b := rep (pair_key 60) ]}) [])
    empty_db empty_db empty_db {[ similar_log := log_bytes [(hash_a, hash_b)] ]} (fun _ => true).
Definition pair_storage : StorageCore :=
  with_current first_container_name
    (mkContainer 120 (write_mem zero_body 0 (chunk_a ++ chunk_b))) empty_storage.

Lemma pair_Repr : Repr pair_storage pair_env pair_map.
Proof.
  split; [split; (done || by left || by eexists)|]. intros h Hh. unfold entry_ok, pair_map, contents.
  cbn [pair_env fp2ChunkDB levelDBObj_ mbind option_bind Get gmap_LevelDB].
  destruct (decide (hash_a = h)) as [<-|Ha]; [|destruct (decide (hash_b = h)) as [<-|Hb]].
  - rewrite !lookup_insert_eq. exists (pair_key 0). split_and!; try done.
    split_and!; [done|done|done|left]. done.
  - rewrite !(lookup_insert_ne _ hash_a), !lookup_singleton_eq by done. exists (pair_key 60).
    split_and!; try done. split_and!; [done|done|done|left]. done.
  - by rewrite !lookup_insert_ne, !lookup_singleton_ne by done.
Qed.

Definition pair_docs : list document :=
  [chunk_doc (SF_doc (str "f") (str "s")) (str "0") hash_a (str "-1");
   chunk_doc (SF_doc (str "f") (str "t")) (str "0") hash_b (str "-1");
   group_number_doc (str "0") (str "0")].

Definition toy_create (base new : bytes) : bytes := str "abc".
Definition toy_apply (base z : bytes) : bytes := str "x".

Lemma pair_ready :
  compress_ready toy_create toy_apply (small_compressor pair_storage) pair_env pair_docs pair_map
    [(hash_a, hash_b)].
Proof.
  split.
  - done.
  - done.
  - exact pair_Repr.
  - reflexivity.
  - repeat constructor.
  - reflexivity.
  - repeat constructor.
  - exact (lookup_singleton_eq _ _).
  - reflexivity.
Qed.
