(* ===== verification/StoreTheorems.v ===== *)
(** * Storing chunks and files: the theorems

    The theorems about the storage operations, then those about storing and
    restoring whole files. *)

From S2P Require Import Prelude.
From S2P Require Import Bytes.
From S2P Require Import DataStructure.
From S2P Require Import Database.
From S2P Require Import Storage.
From S2P Require Import Recipe.
From S2P Require Import StorageSpec.
From S2P Require Import StorageRefine.
From S2P Require Import Crypto.
From S2P Require Import Config.
From S2P Require Import Chunking.
From S2P Require Import FileIndex.
From S2P Require Import Chunker.
From S2P Require Import ChunkerSpec.
From S2P Require Import Backup.
From S2P Require Import Fixtures.
From stdpp Require Import base tactics numbers list gmap strings.
From Stdlib Require Import Ascii ZArith Lia.

Open Scope Z_scope.

(** * StorageCore: the theorems

    The storage operations against the chunk store of [StorageSpec], the
    recipes, the restart, and the places where an operation is not defined. *)

Section store.
Context {db : Type} `{LevelDB db}.
Context (delta_apply : bytes -> bytes -> bytes) (indet : Z -> byte).
Implicit Types (sc : StorageCore) (e : env db) (m : chunk_store).

(** C8: storing a new chunk of at least two bytes succeeds, whether it fits
    the current container or a new one is begun, and adds exactly this chunk
    with one reference to the represented map; nothing but container files and
    the chunk and container databases changes. *)
Theorem saveChunk_refines `{!LevelDBReliable db} sc e m key0 h data size :
  Repr sc e m -> lengthZ h = CHUNK_HASH_SIZE -> m !! h = None ->
  lengthZ (containerName key0) = 16 -> 2 <= size <= lengthZ data -> size <= BODY_SIZE ->
  has_room sc e size ->
  exists sc' e', saveChunk key0 h data size sc e = Ok (true, sc', e') /\
    Repr sc' e' (<[h := (masked (takeZ size data), 1)]> m) /\ frame sc e sc' e'.
Proof.
  intros HR Hh Hm Hk Hs Hb Hroom. assert (HB : BODY_SIZE = 16777216) by reflexivity.
  destruct (saveChunk_spec sc e m key0 h data size) as (sc' & e' & Hr & HR' & Hf);
    unfold save_length in *; rewrite ?Hm in *; try done; try lia.
  exists sc', e'. split; [done|]. unfold save_count in HR'. by rewrite Hm in HR'.
Qed.

(** C22: a chunk that is in the store is restored, with the bytes it was stored
    with; a hash that is not gives the failure value and changes nothing. *)
Theorem restoreChunk_refines sc e m h fuel :
  Repr sc e m -> lengthZ h = CHUNK_HASH_SIZE ->
  match m !! h with
  | Some (d, _) => exists sc', restoreChunk delta_apply (S fuel) h sc e = Ok (Some d, sc') /\
                     Repr sc' e m
  | None => restoreChunk delta_apply (S fuel) h sc e = Ok (None, sc)
  end.
Proof.
  intros HR Hh. destruct (m !! h) as [[d r]|] eqn:Hm.
  - destruct (restoreChunk_found delta_apply sc e m h d r fuel HR Hh Hm) as (sc' & ? & ? & _). eauto.
  - by eapply restoreChunk_missing.
Qed.

(** Deleting a known chunk takes one reference and keeps the data, also
    when the count was 0, where it wraps around to [2^32 - 1]; an unknown hash
    is reported. *)
Theorem deleteChunk_refines `{!LevelDBReliable db} sc e m h :
  Repr sc e m -> lengthZ h = CHUNK_HASH_SIZE ->
  match m !! h with
  | Some (d, r) => exists e', deleteChunk h e = Ok (None, e') /\
                     Repr sc e' (<[h := (d, if r =? 0 then 2 ^ 32 - 1 else r - 1)]> m)
  | None => deleteChunk h e = Ok (Some false, e)
  end.
Proof.
  intros HR Hh. destruct (m !! h) as [[d r]|] eqn:Hm; [|by eapply deleteChunk_missing].
  destruct (deleteChunk_found sc e m h d r HR Hh Hm) as (e' & ? & HR' & _). exists e'. split; [done|].
  destruct (Repr_lookup _ _ _ _ _ _ HR Hh Hm) as (key & _ & (_&_&_&Hc&_) & _ & Hr & _).
  replace (if r =? 0 then 2 ^ 32 - 1 else r - 1) with (u32 (r - 1)); [done|].
  subst r. destruct (Z.eqb_spec (key_count key) 0) as [->|]; [done|]. apply u32_small. lia.
Qed.

(** C12: a container that is full is written to its file, and the next one gets
    a name that is greater than every earlier one, so that no file of an
    earlier container is overwritten and every stored chunk stays in place. *)
Theorem roll_container_fresh sc e :
  sc_wf sc e -> can_roll sc e ->
  exists sc' e', roll_container sc e = Ok (sc', e') /\
    lexlt (lastContainerFileName_ sc) (lastContainerFileName_ sc') = true /\
    lastContainerFileName_ sc ≡ₚ lastContainerFileName_ sc' /\
    used_ (currentContainer_ sc') = 0 /\
    files e' !! container_path sc (lastContainerFileName_ sc) =
      Some (read_mem (body_ (currentContainer_ sc)) 0 (used_ (currentContainer_ sc))) /\
    (forall n, n <> lastContainerFileName_ sc ->
       files e' !! container_path sc n = files e !! container_path sc n) /\
    (forall key d, 0 <= key_length key -> located sc e key d -> located sc' e' key d).
Proof.
  intros Hwf Hroll. destruct (roll_container_spec sc e Hwf Hroll) as (sc' & e' & Hr & _ & Hu & _ & _ & Hl).
  exists sc', e'. split; [done|]. unfold roll_container, saveTOFile, write_file in Hr.
  destruct Hroll as [Hn Hw]. rewrite Hw in Hr. inv_run.
  pose proof (next_permutation_lexlt _ Hn). pose proof (next_permutation_Permutation (lastContainerFileName_ sc)).
  destruct (next_permutation _) as [more name]. simplify_eq. cbn in *.
  split_and!; try done; [by rewrite lookup_insert_eq|].
  intros n Hne. rewrite lookup_insert_ne; [done|]. by intros E%container_path_inj.
Qed.

(** Shutting down and starting again with the same configuration gives
    back a store that represents the same chunks, whatever the memory of the
    new object held. *)
Theorem restart_keeps_chunks sc e m e' mem mem' :
  Repr sc e m -> writable e StorageConfig = true ->
  writable e (container_path sc (lastContainerFileName_ sc)) = true ->
  Forall (fun b => is_space b = false) (lastContainerFileName_ sc) ->
  StorageCore_delete sc e = Ok e' ->
  exists sc', StorageCore_new (containerNamePrefix_ sc) (RecipeNamePrefix_ sc)
      (maxContainerSize_ sc) mem mem' e' = Ok sc' /\ Repr sc' e' m.
Proof.
  intros HR Hw1 Hw2 Hs Hd. destruct (restart_Repr sc e m e' mem mem' HR Hw1 Hw2 Hs Hd)
    as (sc' & ? & ? & _). eauto.
Qed.

(** Any range of entries of a stored recipe is restored: exactly the
    chunks it lists, in order, each with its identifier, size, hash and data. *)
Theorem restore_range fuel sc e m fh head l ds s t :
  Repr sc e m -> is_open (fileName2metaDB e) -> lengthZ fh = FILE_NAME_HASH_SIZE ->
  recipe_stored sc e fh head l -> pod_valid head -> Forall2 (entry_in m) l ds ->
  (s <= t <= length l)%nat -> Z.of_nat t < 2 ^ 32 ->
  exists sc', restoreRecipeAndChunk delta_apply indet (S fuel) fh (Z.of_nat s) (Z.of_nat t) sc e =
    Ok (true, zip_with (restored_chunk indet) (take (t - s) (drop s l)) (take (t - s) (drop s ds)),
        sc').
Proof.
  intros HR Ho Hfh Hst Hv Hl Hb Ht.
  destruct (restoreRecipeAndChunk_spec delta_apply indet fuel sc e m fh head l ds s t)
    as (sc' & ? & _); eauto.
Qed.

(** Storing the recipe of a path that has one appends the new entries to
    the old recipe: restoring from 0 still gives the first version. *)
Theorem second_version_is_appended fuel sc e m head head0 l0 l ds0 :
  let fh := frh_fileNameHash (fileRecipeHead head) in
  Repr sc e m -> is_open (fileName2metaDB e) -> lengthZ fh = FILE_NAME_HASH_SIZE ->
  recipe_stored sc e fh head0 l0 -> pod_valid head0 -> (forall n, writable e (recipe_path sc n) = true) ->
  Forall pod_valid l -> Forall2 (entry_in m) l0 ds0 -> Z.of_nat (length l0) < 2 ^ 32 ->
  exists e', checkRecipeStatus head l sc e = Ok (true, e') /\
    recipe_stored sc e' fh head0 (l0 ++ l) /\
    exists sc', restoreRecipeAndChunk delta_apply indet (S fuel) fh 0 (Z.of_nat (length l0)) sc e' =
      Ok (true, zip_with (restored_chunk indet) l0 ds0, sc').
Proof.
  intros fh HR Ho Hfh Hst Hv Hw Hlv Hl Hb. pose proof Hst as (name & Hname & Hfile).
  unfold checkRecipeStatus. fold fh.
  rewrite string_of_exact by done. cbn [mbind outcome_bind].
  rewrite query_open, Hname by done. cbn [mbind outcome_bind].
  unfold saveRecipe, append_file. rewrite Hw, Hfile. cbn [default from_option id].
  eexists. split; [done|]. set (e' := with_files _ e).
  assert (Hag : agree sc e e').
  { split; [|apply HR]. intros n. cbn. rewrite lookup_insert_ne; [done|]. eapply recipe_path_ne, HR. }
  pose proof (Repr_agree sc e e' m Hag eq_refl HR) as HR'.
  assert (Hl0v : Forall pod_valid l0) by (eapply Forall2_Forall_l; [exact Hl|]; apply Forall_forall; by intros ? _ ? (?&_)).
  split.
  { exists name. split; [done|]. cbn. by rewrite lookup_insert_eq, ?app_nil_l, reps_app, app_assoc. }
  unfold restoreRecipeAndChunk. rewrite string_of_exact by done. cbn [mbind outcome_bind].
  rewrite query_open by done. cbn [mbind outcome_bind]. change (contents _ fh) with (contents (fileName2metaDB e) fh).
  rewrite Hname. cbn [e' files with_files]. rewrite lookup_insert_eq, app_nil_l, <- app_assoc, <- reps_app.
  rewrite Z.sub_0_r, u32_small by lia. rewrite Nat2Z.id.
  change 0 with (Z.of_nat 0) at 1.
  rewrite (read_entries_spec indet head0 (l0 ++ l) 0 (length l0));
    [|done|by apply Forall_app|rewrite length_app; lia].
  rewrite drop_0, take_app_length.
  destruct (restore_loop_spec delta_apply indet fuel sc e' m l0 ds0 [] HR' Hl) as (sc' & Hr & _).
  rewrite app_nil_r in Hr. by exists sc'.
Qed.

(** A new chunk of a single byte cannot be stored: the loop bound
    [key.length - 2] wraps around and the loop leaves the buffer. *)
Theorem saveChunk_one_byte sc e m key0 h data :
  Repr sc e m -> lengthZ h = CHUNK_HASH_SIZE -> m !! h = None -> lengthZ data <= MAX_CHUNK_SIZE ->
  saveChunk key0 h data 1 sc e = UB.
Proof.
  intros HR Hh Hm Hd. unfold saveChunk. rewrite string_of_exact by done. cbn [mbind outcome_bind].
  pose proof HR as [[] _]. rewrite query_open by done. cbn [mbind outcome_bind].
  rewrite (Repr_lookup_None sc e m) by done. cbn [mbind outcome_bind key_length].
  change (u32 1) with 1. unfold mask_chunk. change (u32 (1 - 2)) with (2 ^ 32 - 1).
  unfold MAX_CHUNK_SIZE in Hd. by rewrite (proj2 (Z.leb_gt _ _)) by lia.
Qed.
End store.

(** ** Witnesses *)

Lemma saveChunk_refines_witness :
  exists sc' e', saveChunk zero_key (replicate 32 (chr 66)) (str "hello") 5 empty_storage empty_env =
      Ok (true, sc', e') /\
    Repr sc' e' {[ replicate 32 (chr 66) := (str "hello", 1) ]}.
Proof.
  destruct (saveChunk_refines empty_storage empty_env ∅ zero_key (replicate 32 (chr 66))
    (str "hello") 5 empty_Repr eq_refl eq_refl eq_refl) as (sc' & e' & H1 & H2 & _).
  - cbn. lia.
  - vm_compute. discriminate.
  - left. cbn. lia.
  - exists sc', e'. split; [exact H1|exact H2].
Defined.

Lemma restoreChunk_refines_witness :
  (exists sc', restoreChunk (fun _ d => d) 1 one_hash one_storage one_env = Ok (Some (str "hello"), sc'))
  /\ restoreChunk (fun _ d => d) 1 (replicate 32 (chr 66)) one_storage one_env = Ok (None, one_storage).
Proof.
  split.
  - pose proof (restoreChunk_refines (fun _ d => d) one_storage one_env _ one_hash 0 one_Repr eq_refl) as Hr.
    rewrite lookup_singleton_eq in Hr. destruct Hr as (sc' & Hr & _). exists sc'. exact Hr.
  - exact (restoreChunk_refines (fun _ d => d) one_storage one_env _ (replicate 32 (chr 66)) 0
             one_Repr eq_refl).
Defined.

Lemma deleteChunk_refines_witness :
  exists e', deleteChunk one_hash one_env = Ok (None, e') /\
    Repr one_storage e' {[ one_hash := (str "hello", 0) ]}.
Proof.
  pose proof (deleteChunk_refines one_storage one_env _ one_hash one_Repr eq_refl) as Hr.
  rewrite lookup_singleton_eq in Hr. destruct Hr as (e' & H1 & H2). exists e'.
  split; [exact H1|]. rewrite insert_singleton_eq in H2. exact H2.
Defined.

Lemma roll_container_fresh_witness :
  exists sc' e', roll_container one_storage one_env = Ok (sc', e') /\
    lexlt (str "abcdefghijklmno") (lastContainerFileName_ sc') = true.
Proof.
  destruct (roll_container_fresh one_storage one_env (proj1 one_Repr)) as (sc' & e' & H1 & H2 & _).
  - split; reflexivity.
  - exists sc', e'. split; [exact H1|exact H2].
Defined.

Lemma restart_keeps_chunks_witness :
  exists e' sc', StorageCore_delete one_storage one_env = Ok e' /\
    StorageCore_new (str "Containers/") (str "Recipes/") 8388608 zero_body zero_body e' = Ok sc' /\
    Repr sc' e' {[ one_hash := (str "hello", 1) ]}.
Proof.
  destruct (StorageCore_delete_spec one_storage one_env (proj1 one_Repr) eq_refl eq_refl) as (e' & Hd & _).
  exists e'. destruct (restart_keeps_chunks one_storage one_env _ e' zero_body zero_body one_Repr
    eq_refl eq_refl) as (sc' & H1 & H2); [exact first_name_no_space| |].
  - exact Hd.
  - exists sc'. split; [exact Hd|]. split; [exact H1|exact H2].
Defined.

Lemma saveChunk_one_byte_witness :
  saveChunk zero_key (replicate 32 (chr 66)) (str "x") 1 empty_storage empty_env = UB.
Proof.
  apply (saveChunk_one_byte empty_storage empty_env ∅); [exact empty_Repr|reflexivity|reflexivity|].
  vm_compute. discriminate.
Defined.

Lemma restore_range_witness :
  exists l sc', restoreRecipeAndChunk (fun _ d => d) zero_body 1 one_file_hash 1 2 one_storage
    one_recipe_env = Ok (true, l, sc') /\ length l = 1%nat.
Proof.
  destruct (restore_range (fun _ d => d) zero_body 0 one_storage one_recipe_env _ one_file_hash
    small_recipe [one_entry 0; one_entry 1] [str "hello"; str "hello"] 1 2 one_recipe_Repr)
    as (sc' & Hr).
  - by eexists.
  - reflexivity.
  - exact one_recipe_stored.
  - exact small_recipe_valid.
  - exact one_entries_in.
  - cbn. lia.
  - lia.
  - eexists _, sc'. split; [exact Hr|reflexivity].
Defined.

Lemma second_version_is_appended_witness :
  exists e' l sc', checkRecipeStatus small_recipe [one_entry 0] one_storage one_recipe_env = Ok (true, e') /\
    restoreRecipeAndChunk (fun _ d => d) zero_body 1 one_file_hash 0 2 one_storage e' = Ok (true, l, sc') /\
    length l = 2%nat.
Proof.
  destruct (second_version_is_appended (fun _ d => d) zero_body 0 one_storage one_recipe_env _
    small_recipe small_recipe [one_entry 0; one_entry 1] [one_entry 0] [str "hello"; str "hello"]
    one_recipe_Repr) as (e' & H1 & _ & sc' & H2).
  - by eexists.
  - reflexivity.
  - exact one_recipe_stored.
  - exact small_recipe_valid.
  - reflexivity.
  - constructor; [apply one_entry_valid; lia|constructor].
  - exact one_entries_in.
  - cbn. lia.
  - eexists e', _, sc'. split; [exact H1|]. split; [exact H2|reflexivity].
Defined.

(** * Storing and restoring files: the theorems

    What [varSizeChunking] does as a whole, and that
    [restoreRecipeAndChunk] gives the file back. *)

(** ** The size of the blocks a file is read in *)

Definition with_ReadSize (r : Z) (p : ChunkerParams) : ChunkerParams :=
  mkParams (ChunkerType p) (avgChunkSize p) (minChunkSize p) (maxChunkSize p) (slidingWinSize p)
    r (powerLUT p) (removeLUT p) (anchorMask p) (anchorValue p).

Section blocks.
Context {db : Type} `{LevelDB db} `{EVP_Digest}.
Context (uninit_key : Z -> keyForChunkHashDB_t) (p : ChunkerParams) (flag : Z).
Implicit Types s : chunking db.

Lemma block_loop_app l1 l2 s :
  block_loop uninit_key p flag (l1 ++ l2) s =
  ('(ok, s1) ← block_loop uninit_key p flag l1 s;
   if (ok : bool) then block_loop uninit_key p flag l2 s1 else Ok (false, s1)).
Proof.
  revert s; induction l1 as [|b l1 IH]; intros s; cbn [app block_loop]; [done|].
  destruct (byte_step _ _ _ _ _) as [[[|] s1]| | |]; cbn [mbind outcome_bind]; try done.
Qed.

Lemma block_loop_ReadSize r l s :
  block_loop uninit_key (with_ReadSize r p) flag l s = block_loop uninit_key p flag l s.
Proof.
  revert s; induction l as [|b l IH]; intros s; cbn [block_loop]; [done|].
  change (byte_step uninit_key (with_ReadSize r p) flag b s) with (byte_step uninit_key p flag b s).
  destruct (byte_step _ _ _ _ _) as [[[|] s1]| | |]; cbn [mbind outcome_bind]; try done.
Qed.

(** What [varSizeChunking] uses of the result of [read_loop]. *)
Definition read_result (x : outcome (bool * Z * chunking db)) : outcome (bool * Z * chunking db) :=
  '(ok, n, s) ← x; Ok (ok, if (ok : bool) then n else 0, s).

Lemma read_loop_blocks fuel rest n s :
  0 < ReadSize p < 2 ^ 31 -> lengthZ rest < ReadSize p * Z.of_nat fuel ->
  read_result (read_loop uninit_key p flag fuel rest n s) =
  ('(ok, s1) ← block_loop uninit_key p flag rest s;
   Ok (ok, if (ok : bool) then u64 (n + lengthZ rest) else 0, s1)).
Proof.
  intros HR. revert rest n s; induction fuel as [|fuel IH]; intros rest n s Hf.
  { pose proof (lengthZ_nonneg rest). lia. }
  cbn [read_loop]. set (block := takeZ (ReadSize p) rest). set (rest' := dropZ (ReadSize p) rest).
  assert (Hrest : rest = block ++ rest') by (symmetry; apply takeZ_dropZ).
  assert (Hblock : lengthZ block = Z.min (ReadSize p) (lengthZ rest)) by (apply lengthZ_takeZ; lia).
  assert (Hrest' : lengthZ rest' = Z.max 0 (lengthZ rest - ReadSize p)) by (apply lengthZ_dropZ; lia).
  pose proof (lengthZ_nonneg rest). rewrite i32_small by lia. rewrite (takeZ_ge _ block) by lia.
  rewrite Hrest, block_loop_app, lengthZ_app.
  destruct (block_loop uninit_key p flag block s) as [[[|] s1]| | |]; try done.
  cbn [mbind outcome_bind negb]. destruct (Z.ltb_spec (lengthZ block) (ReadSize p)).
  - assert (rest' = []) as -> by (unfold rest'; apply dropZ_ge; lia). simpl. by rewrite Z.add_0_r.
  - rewrite IH by lia. unfold u64. by rewrite Zplus_mod_idemp_l, Z.add_assoc.
Qed.
End blocks.

(** C9: the block size a file is read in has no influence on anything
    [varSizeChunking] computes, for any two block sizes below 2 GB: chunks,
    recipe, index, store, and also errors are the same. *)
Theorem block_size_irrelevant {db} `{LevelDB db} `{EVP_Digest} MD5 st st' uninit_key p flag r
    fuel fuel' winFp0 file i recipe (sc : StorageCore) (e : env db) :
  0 < ReadSize p < 2 ^ 31 -> 0 < r < 2 ^ 31 ->
  lengthZ file < ReadSize p * Z.of_nat fuel -> lengthZ file < r * Z.of_nat fuel' ->
  varSizeChunking MD5 st st' uninit_key (with_ReadSize r p) flag fuel' winFp0 file i recipe sc e =
  varSizeChunking MD5 st st' uninit_key p flag fuel winFp0 file i recipe sc e.
Proof.
  intros HR Hr Hf Hf'. unfold varSizeChunking.
  set (s0 := mkChunking [] _ 0 0 _ sc e).
  change (mkChunking [] _ 0 0 (mkWindow (replicate (Z.to_nat (maxChunkSize (with_ReadSize r p))) NUL) 0 winFp0) sc e) with s0.
  pose proof (read_loop_blocks uninit_key p flag fuel file 0 s0 HR Hf) as E1.
  pose proof (read_loop_blocks uninit_key (with_ReadSize r p) flag fuel' file 0 s0 Hr Hf') as E2.
  rewrite block_loop_ReadSize, <- E1 in E2. clear E1.
  destruct (read_loop uninit_key p flag fuel file 0 s0) as [[[[|] n] s]| | |],
    (read_loop uninit_key (with_ReadSize r p) flag fuel' file 0 s0) as [[[[|] n'] s']| | |];
    cbn in E2; simplify_eq; done.
Qed.

(** ** A whole file *)

Section file.
Context {db : Type} `{LevelDB db, !LevelDBReliable db} `{EVP_DigestReliable}.
Context (MD5 : bytes -> bytes) (stack stack' : bytes).
Context (uninit_key : Z -> keyForChunkHashDB_t).
Context (p : ChunkerParams).

(** The conditions the theorems about a whole file share. *)
Record run_ok (winFp0 : Z) (file : bytes) (flag : Z) (fuel : nat) (i : Index) (recipe : Recipe_t)
    (sc : StorageCore) (e : env db) (m : chunk_store) : Prop := {
  ro_key n : lengthZ (containerName (uninit_key n)) = 16;
  ro_params : params_ok p;
  ro_win : slidingWinSize p < maxChunkSize p;
  ro_max : maxChunkSize p <= MAX_CHUNK_SIZE;
  ro_read : 0 < ReadSize p < 2 ^ 31;
  ro_flag : flag = 0 \/ flag = 1;
  ro_stack : NUL ∈ stack;
  ro_winFp : winFp0 = u16 winFp0;
  ro_file : file_ok p winFp0 file;
  ro_fuel : lengthZ file < ReadSize p * Z.of_nat fuel;
  ro_index : idx_chunk i = [] /\ idx_segment i = [] /\ idx_container i = [];
  ro_repr : Repr sc e m;
  ro_ready : store_ready sc e (frh_fileNameHash (fileRecipeHead recipe))
               (length (cut p winFp0 [] file).1)
}.

Context (winFp0 : Z) (file : bytes) (flag : Z) (fuel : nat) (i : Index) (recipe : Recipe_t).
Context (sc : StorageCore) (e : env db) (m : chunk_store).
Let cs := chunks_of p winFp0 file.
Let fh := frh_fileNameHash (fileRecipeHead recipe).
Let run := varSizeChunking MD5 stack stack' uninit_key p flag fuel winFp0 file i recipe sc e.

Lemma run_spec :
  run_ok winFp0 file flag fuel i recipe sc e m ->
  exists s, run = Ok (true, s) /\
    Repr (cs_storage s) (cs_env s) (put_all m cs) /\
    recipe_stored (cs_storage s) (cs_env s) fh
      (finish_recipe recipe (lengthZ cs) (lengthZ file)) (entries cs) /\
    is_open (fileName2metaDB (cs_env s)) /\ index_done m cs (cs_index s) /\
    cs_totalSize s = u64 (stored_size m cs) /\ cs_recipeList s = entries cs.
Proof.
  intros []. destruct ro_index0 as (? & ? & ?).
  edestruct varSizeChunking_spec as (s & ? & ? & ? & ? & ? & ? & ? & _); try done. by exists s.
Qed.

(** C4: a new file that is chunked and stored can be restored from its recipe:
    the bytes written back are those of its chunks as [saveChunk] masks them,
    so exactly the file when it holds no NUL byte.  Chunks that are already
    stored, within the file or from earlier files, may be shared, as long as
    no two different chunks have the same hash. *)
Theorem backup_roundtrip delta_apply indet fuel' :
  run_ok winFp0 file flag fuel i recipe sc e m -> collision_free m cs -> pod_valid recipe ->
  lengthZ cs < 2 ^ 32 ->
  exists s l sc', run = Ok (true, s) /\
    restoreRecipeAndChunk delta_apply indet (S fuel') fh 0 (lengthZ cs) (cs_storage s) (cs_env s) =
      Ok (true, l, sc') /\
    written l = concat (masked <$> cs) /\ lengthZ (written l) = lengthZ file /\
    (no_nul file -> written l = file).
Proof.
  intros Hok Hcf ((_ & Hh & _) & (_ & Hh' & Ht)) Hn. pose proof Hok as [].
  destruct (run_spec Hok) as (s & Hrun & HR & Hst & Ho & _ & _).
  assert (Hcs : Forall chunk_ok cs) by (by apply chunks_of_ok).
  assert (Hcat : concat cs = file) by apply chunks_of_concat.
  pose proof (lengthZ_nonneg cs). pose proof (lengthZ_nonneg file). destruct ro_file0 as [? _].
  destruct (restore_stored delta_apply indet (cs_storage s) (cs_env s) (put_all m cs) fh _ cs fuel' Hcs
              (put_all_stored _ _ Hcf) Hn HR Ho Hh Hst) as (l & sc' & Hl & _ & Hw).
  { cbn [pod_valid recipe_pod]. unfold recipe_valid. cbn. fold fh. split_and!; done || lia. }
  exists s, l, sc'. split; [done|]. split; [done|]. rewrite Hw. split; [done|].
  rewrite concat_masked_length, Hcat. split; [done|]. intros Hnn.
  rewrite masked_all_no_nul; by rewrite Hcat.
Qed.

(** C7: chunking a file puts its chunks, in order, into the chunk store, and
    nothing else; the recipe lists all of them, and the index has an entry per
    chunk with its hash and whether it was new; [totalSize] is the size of the
    new ones. *)
Theorem varSizeChunking_refines :
  run_ok winFp0 file flag fuel i recipe sc e m ->
  exists s, run = Ok (true, s) /\ Repr (cs_storage s) (cs_env s) (put_all m cs) /\
    recipe_stored (cs_storage s) (cs_env s) fh
      (finish_recipe recipe (lengthZ cs) (lengthZ file)) (entries cs) /\
    fingerprint <$> idx_chunk (fileindex (cs_index s)) = fp_of <$> cs /\
    unique <$> idx_chunk (fileindex (cs_index s)) = novelties m cs /\
    cs_totalSize s = u64 (stored_size m cs).
Proof. intros Hok. destruct (run_spec Hok) as (s & ? & ? & ? & _ & [] & ? & _). by exists s. Qed.

(** C11: after a file is chunked, the reference count in the database of every
    chunk hash is the one before plus the number of its occurrences in the
    file, modulo [2^32]. *)
Theorem reference_counts h :
  run_ok winFp0 file flag fuel i recipe sc e m -> lengthZ h = CHUNK_HASH_SIZE ->
  0 <= refs m h < 2 ^ 32 -> 0 < occurrences h cs ->
  exists s key, run = Ok (true, s) /\ contents (fp2ChunkDB (cs_env s)) h = Some (rep key) /\
    pod_valid key /\ key_count key = u32 (refs m h + occurrences h cs).
Proof.
  intros Hok Hh Hr Hocc. destruct (run_spec Hok) as (s & Hrun & HR & _).
  pose proof (put_all_refs m cs h Hr) as Hp.
  assert (exists d r, put_all m cs !! h = Some (d, r)) as (d & r & Hl).
  { unfold occurrences in Hocc. destruct (filter _ cs) as [|c l] eqn:E; [cbn in Hocc; lia|].
    assert (Hc : c ∈ filter (fun c => fp_of c = h) cs) by (rewrite E; by left).
    apply list_elem_of_filter in Hc as [<- Hc].
    by apply put_all_dom. }
  destruct (Repr_lookup _ _ _ _ _ _ HR Hh Hl) as (key & Hg & Hv & _ & Hc & _).
  exists s, key. split_and!; try done. rewrite Hc, <- Hp. unfold refs. by rewrite Hl.
Qed.

(** The sizes in the recipe add up to the size of the file, and each is
    within the limits of the chunker, except that the last one can be short. *)
Theorem recipe_sizes :
  run_ok winFp0 file flag fuel i recipe sc e m ->
  exists s, run = Ok (true, s) /\
    foldr Z.add 0 (re_chunkSize <$> cs_recipeList s) = lengthZ file /\
    re_chunkID <$> cs_recipeList s = u32 <$> seqZ 0 (lengthZ (cs_recipeList s)) /\
    Forall (fun en => 2 <= re_chunkSize en <= maxChunkSize p) (cs_recipeList s) /\
    Forall (fun en => minChunkSize p <= re_chunkSize en /\ slidingWinSize p < re_chunkSize en)
      (take (length (cs_recipeList s) - 1) (cs_recipeList s)).
Proof.
  intros Hok. destruct (run_spec Hok) as (s & Hrun & _ & _ & _ & _ & _ & Hrec). exists s.
  split; [done|]. rewrite Hrec. pose proof Hok as [].
  assert (Hcs : Forall chunk_ok cs) by (by apply chunks_of_ok).
  pose proof (entries_sizes 0 cs Hcs) as Hsz. unfold entries.
  assert (Hall : Forall (fun c => lengthZ c <= maxChunkSize p) cs /\
                 Forall (fun c => minChunkSize p <= lengthZ c /\ slidingWinSize p < lengthZ c)
                   (take (length cs - 1) cs)) by (by apply chunks_of_bounds).
  destruct Hall as [Hle Hmin]. split_and!.
  - rewrite Hsz, <- (chunks_of_concat p winFp0 file). fold cs. clear. generalize cs.
    induction cs0 as [|c l IH]; csimpl; [done|]. by rewrite lengthZ_app, IH.
  - rewrite entries_ids. do 2 f_equal. by rewrite !lengthZ_length, entries_length.
  - apply (Forall_fmap re_chunkSize (fun z => 2 <= z <= maxChunkSize p)).
    rewrite Hsz, Forall_fmap. apply Forall_and. split; [|done]. eapply Forall_impl; [exact Hcs|]. by intros c [? _].
  - apply (Forall_fmap re_chunkSize (fun z => minChunkSize p <= z /\ slidingWinSize p < z)).
    rewrite fmap_take, Hsz, entries_length, <- fmap_take.
    by rewrite Forall_fmap.
Qed.
End file.

(** ** Witnesses: a file of 39 bytes in the empty store, read in blocks of 5 *)

Lemma small_run_ok :
  run_ok [NUL] (fun _ => zero_key) small_params 0 small_file 1 9 small_index small_recipe
    empty_storage empty_env ∅.
Proof.
  split; try done; try exact empty_Repr.
  - by right.
  - by left.
  - split; [done|]. right. vm_compute. split; discriminate.
  - split; try done; first [by eexists|by vm_compute].
Qed.

Lemma small_collision_free : collision_free ∅ (chunks_of small_params 0 small_file).
Proof. apply collision_free_empty, (bool_decide_eq_true_1 _). vm_compute. reflexivity. Qed.

Lemma block_size_irrelevant_witness :
  varSizeChunking toy_MD5 [NUL] [] (fun _ => zero_key) (with_ReadSize 64 small_params) 1 1 0
    small_file small_index small_recipe empty_storage empty_env =
  varSizeChunking toy_MD5 [NUL] [] (fun _ => zero_key) small_params 1 9 0
    small_file small_index small_recipe empty_storage empty_env.
Proof. apply block_size_irrelevant; vm_compute; split || reflexivity; discriminate || reflexivity. Defined.

Lemma backup_roundtrip_witness :
  exists s l sc', varSizeChunking toy_MD5 [NUL] [] (fun _ => zero_key) small_params 1 9 0
      small_file small_index small_recipe empty_storage empty_env = Ok (true, s) /\
    restoreRecipeAndChunk (fun _ d => d) zero_body 1 (replicate 32 (chr 65)) 0 6
      (cs_storage s) (cs_env s) = Ok (true, l, sc') /\ written l = small_file.
Proof.
  destruct (backup_roundtrip toy_MD5 [NUL] [] (fun _ => zero_key) small_params 0 small_file 1 9
    small_index small_recipe empty_storage empty_env ∅ (fun _ d => d) zero_body 0 small_run_ok
    small_collision_free small_recipe_valid eq_refl) as (s & l & sc' & H1 & H2 & _ & _ & H3).
  exists s, l, sc'. split; [exact H1|]. split; [exact H2|]. apply H3.
  apply (bool_decide_eq_true_1 _). vm_compute. reflexivity.
Defined.

Lemma varSizeChunking_refines_witness :
  exists s, varSizeChunking toy_MD5 [NUL] [] (fun _ => zero_key) small_params 1 9 0
      small_file small_index small_recipe empty_storage empty_env = Ok (true, s) /\
    unique <$> idx_chunk (fileindex (cs_index s)) = [1; 1; 1; 0; 0; 1].
Proof.
  destruct (varSizeChunking_refines toy_MD5 [NUL] [] (fun _ => zero_key) small_params 0 small_file 1 9
    small_index small_recipe empty_storage empty_env ∅ small_run_ok) as (s & H1 & _ & _ & _ & H2 & _).
  exists s. split; [exact H1|]. rewrite H2. vm_compute. reflexivity.
Defined.

Lemma reference_counts_witness :
  exists s key, varSizeChunking toy_MD5 [NUL] [] (fun _ => zero_key) small_params 1 9 0
      small_file small_index small_recipe empty_storage empty_env = Ok (true, s) /\
    contents (fp2ChunkDB (cs_env s)) (fp_of (str "the quic")) = Some (rep key) /\ key_count key = 2.
Proof.
  destruct (reference_counts toy_MD5 [NUL] [] (fun _ => zero_key) small_params 0 small_file 1 9
    small_index small_recipe empty_storage empty_env ∅ (fp_of (str "the quic")) small_run_ok)
    as (s & key & H1 & H2 & _ & H3).
  - reflexivity.
  - split; [discriminate|reflexivity].
  - vm_compute. reflexivity.
  - exists s, key. split; [exact H1|]. split; [exact H2|]. rewrite H3. vm_compute. reflexivity.
Defined.

Lemma recipe_sizes_witness :
  exists s, varSizeChunking toy_MD5 [NUL] [] (fun _ => zero_key) small_params 1 9 0
      small_file small_index small_recipe empty_storage empty_env = Ok (true, s) /\
    foldr Z.add 0 (re_chunkSize <$> cs_recipeList s) = 39.
Proof.
  destruct (recipe_sizes toy_MD5 [NUL] [] (fun _ => zero_key) small_params 0 small_file 1 9
    small_index small_recipe empty_storage empty_env ∅ small_run_ok) as (s & H1 & H2 & _).
  exists s. split; [exact H1|exact H2].
Defined.
