(* ===== verification/ChunkTheorems.v ===== *)
(** * Chunker: the theorems on its parts

    The rolling fingerprint, the parameters, the index of a file and its file
    format, fixed-size chunks. *)

From S2P Require Import Prelude.
From S2P Require Import Bytes.
From S2P Require Import DataStructure.
From S2P Require Import Database.
From S2P Require Import Storage.
From S2P Require Import Crypto.
From S2P Require Import Config.
From S2P Require Import Chunking.
From S2P Require Import FileIndex.
From S2P Require Import Chunker.
From S2P Require Import Fixtures.
From stdpp Require Import base tactics numbers list gmap strings.
From Stdlib Require Import Ascii ZArith Lia.

Open Scope Z_scope.

(** ** The fingerprint *)

(** C10: the value the loop keeps in [winFp] is the polynomial of the last
    [slidingWinSize] bytes, although the tables are reduced with a mask for
    [2^23], the products wrap at 32 bits and the variable has 16: with the
    window [c], one more byte gives the fingerprint of the shifted window,
    and the boundary tests are reached exactly for long enough chunks.  [d] is
    what [winFp] held before the chunk. *)
Theorem feed_rolls p d c s b :
  params_ok p -> slidingWinSize p < maxChunkSize p -> win_repr p d c s ->
  slidingWinSize p <= lengthZ c ->
  exists s', feed p b s = Ok (minChunkSize p <=? lengthZ c + 1, s') /\
    chunk_bytes s' = c ++ [b] /\
    winFp s' = u16 (poly (lastZ (slidingWinSize p) (c ++ [b])) +
                    d * polyBase ^ (lengthZ c + 1 - slidingWinSize p)).
Proof.
  intros Hp Hw Hs Hc. destruct (feed_spec p Hp d c s b Hs) as (s' & Hf & _ & _ & Hb & Hfp).
  assert (Hl : lengthZ (c ++ [b]) = lengthZ c + 1) by (rewrite lengthZ_app; simpl; lia).
  rewrite Hl in Hf, Hfp. rewrite (proj2 (Z.ltb_ge _ (slidingWinSize p))) in Hfp by lia.
  rewrite (proj2 (Z.ltb_lt (slidingWinSize p) _)) in Hf by lia.
  exists s'. split; [exact Hf|]. split; [done|]. rewrite Hfp. unfold fingerprint_of. by rewrite Hl.
Qed.

(** The tables: [powerLUT[i]] is the power and [removeLUT[v]] undoes the
    byte [v] that leaves the window, both modulo [2^23] (the comments in the
    source say modulo [2^23 - 1]). *)
Theorem tables_correct w l v i :
  0 < w -> make_removeLUT w (make_powerLUT w) = Ok l -> 0 <= v < 256 -> 0 <= i < w ->
  nthZ (make_powerLUT w) i = Some (polyBase ^ i mod 2 ^ 23) /\
  exists r, nthZ l v = Some r /\ u16 (r + v * polyBase ^ (w - 1)) = 0.
Proof.
  intros Hw Hl Hv Hi. split; [by apply powerLUT_spec|].
  destruct (removeLUT_spec w l v Hw Hl Hv) as (r & Hr & E). exists r. split; [done|].
  change 0 with (u16 0). apply u16_proper. rewrite E. apply eq_subrelation; [apply _|]. lia.
Qed.

(** With sizes that fit an [int], [ChunkerInit] ends the program exactly
    when the sizes are not increasing, and otherwise sets up parameters the
    loop can run with; the search for the anchor mask ends. *)
Theorem ChunkerInit_var config :
  i32 (getChunkingType config) = CHUNKER_VAR_SIZE_TYPE ->
  1 <= i32 (getMinChunkSize config) -> 0 < i32 (getSlidingWinSize config) ->
  let avg := i32 (getAverageChunkSize config) in
  if (avg <=? i32 (getMinChunkSize config)) || (i32 (getMaxChunkSize config) <=? avg)
  then ChunkerInit config = Throw process_exit
  else exists p, ChunkerInit config = Ok p /\ params_ok p /\
    minChunkSize p = i32 (getMinChunkSize config) /\ avgChunkSize p = avg /\
    maxChunkSize p = i32 (getMaxChunkSize config) /\
    slidingWinSize p = i32 (getSlidingWinSize config) /\
    ReadSize p = u64 (getReadSize config * 1024 * 1024).
Proof.
  intros Ht Hmin Hwin avg. unfold ChunkerInit. rewrite Ht. change (1 =? 1) with true.
  change (CHUNKER_VAR_SIZE_TYPE =? CHUNKER_VAR_SIZE_TYPE) with true. cbv iota zeta. fold avg.
  destruct (Z.leb_spec avg (i32 (getMinChunkSize config))); [done|]. cbn [orb].
  destruct (Z.leb_spec (i32 (getMaxChunkSize config)) avg); [done|].
  pose proof (i32_range (getSlidingWinSize config)). pose proof (i32_range (getMaxChunkSize config)).
  destruct (make_removeLUT_ok (i32 (getSlidingWinSize config)) Hwin) as (l & Hl). rewrite Hl.
  cbn [mbind outcome_bind]. rewrite make_anchorMask_spec by lia. cbn [mbind outcome_bind].
  eexists. split; [done|]. split; [split; cbn; done || lia|done].
Qed.

(** ** The index *)

(** C34: with a three-level index, a chunk cut inside the file always gets its
    entry, and the invariant of the index is kept: counters are lengths,
    identifiers are positions, segments tile the chunks before the open
    segment, containers tile the segments, and the [int] sizes stay far from
    overflow. *)
Theorem index_cut_keeps_wf `{EVP_DigestReliable} ix h uniq cnt :
  ix_wf ix -> lengthZ h = CHUNK_HASH_SIZE -> no_nul h -> 0 <= cnt <= MAX_CHUNK_SIZE ->
  exists ix', index_cut 1 (h ++ [NUL]) uniq cnt ix = Ok (true, ix') /\ ix_wf ix' /\
    idx_chunk (fileindex ix') =
      idx_chunk (fileindex ix) ++ [mkL0 (lengthZ (idx_chunk (fileindex ix))) CHUNK_HASH_SIZE uniq h].
Proof.
  intros Hwf Hh Hn Hc. destruct (index_cut_wf ix h uniq cnt Hwf Hh Hn Hc) as (ix' & ? & ? & Hi).
  exists ix'. split; [done|]. split; [done|]. rewrite Hi. unfold chunk_entry.
  by rewrite (iw_chunks _ Hwf).
Qed.

(** Every chunk before the open segment lies in exactly one segment. *)
Theorem segments_partition ix x :
  ix_wf ix -> 0 <= x < ix_startChunkID ix ->
  exists! k, exists s, idx_segment (fileindex ix) !! k = Some s /\
    startChunkID s <= x <= endChunkID s.
Proof.
  intros Hwf Hx. pose proof (iw_tile _ Hwf) as Ht.
  destruct (tiled_covers _ _ _ x Ht Hx) as (k & a & b & Hk & Hab).
  rewrite list_lookup_fmap in Hk. apply fmap_Some in Hk as (s & Hs & E). injection E as -> ->.
  exists k. split; [by exists s|]. intros k' (s' & Hs' & Hr').
  eapply (tiled_disjoint 0 (seg_range <$> idx_segment (fileindex ix)) _ x k _ _ k' _ _ Ht);
    [by rewrite list_lookup_fmap, Hs|by rewrite list_lookup_fmap, Hs'|done|done].
Qed.

(** The last chunk closes the open segment and container, so that the
    counters are the lengths of the lists and the containers tile all
    segments; but the last segment ends one past the last chunk, while every
    other [endChunkID] is that of a chunk. *)
Theorem index_final_closes `{EVP_Digest} MD5 st st' ix h uniq ix' :
  ix_wf ix -> index_final MD5 st st' 1 (h ++ [NUL]) uniq ix = Ok ix' ->
  chunknumber (fileindex ix') = lengthZ (idx_chunk (fileindex ix')) /\
  segmentnumber (fileindex ix') = lengthZ (idx_segment (fileindex ix')) /\
  containernumber (fileindex ix') = lengthZ (idx_container (fileindex ix')) /\
  tiled 0 (con_range <$> idx_container (fileindex ix')) (lengthZ (idx_segment (fileindex ix'))) /\
  exists s, last (idx_segment (fileindex ix')) = Some s /\
    startChunkID s = ix_startChunkID ix /\ endChunkID s = lengthZ (idx_chunk (fileindex ix')).
Proof.
  intros Hwf Hf. destruct (index_final_ranges MD5 st st' ix h uniq ix' Hwf Hf)
    as (_ & ? & ? & ? & Hseg & ?). split_and!; try done.
  apply (f_equal last) in Hseg. rewrite last_snoc, fmap_last in Hseg.
  apply fmap_Some in Hseg as (s & Hs & E). injection E as E1 E2. exists s. by rewrite <- E1, <- E2.
Qed.

(** A container of the index ends exactly when its size reaches the
    minimum, whatever the hash: [MAX_CONTAINER_SIZE] overflows [int], so every
    size that is not too small is too large and the hash test is dead code. *)
Theorem container_end_ignores_hash hash size :
  - 2 ^ 31 <= size < 2 ^ 31 -> EndOfSegment hash size 1 = Ok (MIN_CONTAINER_SIZE <=? size).
Proof. apply end_of_container. Qed.

(** [loadIndex] reads back the index [saveToFile] wrote. *)
Theorem index_file_roundtrip {db} (e : env db) i name :
  index_valid i -> writable e (index_path name) = true ->
  exists e', saveToFile i name e = Ok (true, e') /\ loadIndex name e' = Ok i.
Proof. apply loadIndex_saveToFile. Qed.

(** ** Fixed-size chunks *)

Section fixed.
Context `{EVP_DigestReliable}.
Context (p : ChunkerParams) (Havg : 0 < avgChunkSize p <= MAX_CHUNK_SIZE).

(** A chunk of [size] bytes with its hash. *)
Definition fix_chunk_ok (size : Z) (c : Chunk_t) : Prop :=
  logicDataSize c = size /\ lengthZ (logicData c) = size /\ chunkHash c = fp_of (logicData c).

Lemma fix_chunk_spec id size hash buf :
  0 <= size <= avgChunkSize p -> size <= lengthZ buf ->
  exists c hash', fix_chunk p id size hash buf = Ok (c, hash') /\ fix_chunk_ok size c /\
    logicData c = takeZ size buf.
Proof.
  intros Hs Hb. unfold fix_chunk. unfold MAX_CHUNK_SIZE in *.
  rewrite !(proj2 (Z.leb_le _ _)) by lia. cbn [andb mbind outcome_bind require].
  eexists _, _. split; [done|]. split; [|done]. unfold fix_chunk_ok.
  cbn [logicDataSize logicData chunkHash]. rewrite i32_small, lengthZ_takeZ by lia.
  split; [done|]. split; [lia|]. rewrite generateHash_ok, takeZ_takeZ by lia. cbn [default from_option].
  apply takeZ_app_exact. by rewrite fp_of_length.
Qed.

Lemma fix_full_spec fuel n id chunked total hash buf :
  lengthZ buf = avgChunkSize p * Z.of_nat n -> chunked + lengthZ buf = total ->
  0 <= chunked -> total < 2 ^ 63 -> 0 <= id -> id + Z.of_nat n < 2 ^ 64 -> (n < fuel)%nat ->
  exists cs hash', fix_full p fuel id chunked total hash buf = Ok (cs, id + Z.of_nat n, hash') /\
    concat (logicData <$> cs) = buf /\ Forall (fix_chunk_ok (avgChunkSize p)) cs /\ length cs = n.
Proof.
  unfold MAX_CHUNK_SIZE in *.
  revert n id chunked hash buf; induction fuel as [|fuel IH]; intros n id chunked hash buf Hl Ht Hc0 Hb Hid Hid2 Hf;
    [lia|]. cbn [fix_full]. destruct n as [|n].
  - rewrite (proj2 (Z.ltb_ge _ _)) by lia. exists [], hash. split; [by rewrite Z.add_0_r|].
    rewrite lengthZ_length in Hl. destruct buf; [done|cbn in Hl; lia].
  - rewrite (proj2 (Z.ltb_lt _ _)) by lia.
    destruct (fix_chunk_spec id (avgChunkSize p) hash buf) as (c & h1 & -> & Hok & Hd); [lia|lia|].
    cbn [mbind outcome_bind]. rewrite !u64_small by lia.
    destruct (IH n (id + 1) (chunked + avgChunkSize p) h1 (dropZ (avgChunkSize p) buf))
      as (cs & h2 & -> & Hc & Hall & Hlen); rewrite ?lengthZ_dropZ; try lia.
    cbn [mbind outcome_bind]. exists (c :: cs), h2. split_and!.
    + do 2 f_equal. f_equal. lia.
    + csimpl. rewrite Hc, Hd. apply takeZ_dropZ.
    + by constructor.
    + cbn. by rewrite Hlen.
Qed.

Lemma fix_blocks_full fuel k n rest id fileSize hash :
  0 < ReadSize p -> ReadSize p = avgChunkSize p * Z.of_nat n ->
  lengthZ rest = ReadSize p * Z.of_nat k -> (k < fuel)%nat -> (n < fuel - k)%nat ->
  fileSize + lengthZ rest < 2 ^ 63 -> 0 <= id -> 0 <= fileSize ->
  id + Z.of_nat (k * n) < 2 ^ 64 ->
  exists cs, fix_blocks p fuel rest id fileSize hash =
      Ok (cs, id + Z.of_nat (k * n), fileSize + lengthZ rest) /\
    concat (logicData <$> cs) = rest /\ Forall (fix_chunk_ok (avgChunkSize p)) cs /\
    length cs = (k * n)%nat.
Proof.
  intros HR Hn. revert fuel rest id fileSize hash; induction k as [|k IH];
    intros fuel rest id fileSize hash Hl Hf Hf2 Hs Hid Hfs Hb; (destruct fuel as [|fuel]; [lia|]);
    cbn [fix_blocks].
  - assert (rest = []) as -> by (rewrite lengthZ_length in Hl; destruct rest; [done|cbn in Hl; lia]).
    cbn [takeZ lengthZ]. rewrite (proj2 (Z.eqb_neq _ _)) by lia. cbn [fix_partial].
    rewrite (proj2 (Z.ltb_ge _ _)) by lia. cbn [mbind outcome_bind]. exists [].
    rewrite u64_small, !Z.add_0_r by lia. done.
  - assert (Hblk : lengthZ (takeZ (ReadSize p) rest) = ReadSize p) by (rewrite lengthZ_takeZ; lia).
    rewrite Hblk, Z.eqb_refl, Z.sub_diag. cbn [Z.to_nat replicate]. rewrite app_nil_r.
    destruct (fix_full_spec (S fuel) n id 0 (ReadSize p) hash (takeZ (ReadSize p) rest))
      as (cs & h1 & -> & Hc & Hall & Hlen); try lia.
    cbn [mbind outcome_bind].
    destruct (IH fuel (dropZ (ReadSize p) rest) (id + Z.of_nat n) (u64 (fileSize + ReadSize p)) h1)
      as (cs' & -> & Hc' & Hall' & Hlen'); rewrite ?u64_small, ?lengthZ_dropZ by lia; try lia.
    cbn [mbind outcome_bind]. exists (cs ++ cs'). split_and!.
    + do 2 f_equal; [f_equal|]; lia.
    + rewrite fmap_app, concat_app, Hc, Hc'. apply takeZ_dropZ.
    + by apply Forall_app.
    + rewrite length_app, Hlen, Hlen'. lia.
Qed.

(** In fixed-size mode a file that is a multiple of the block size is cut
    into chunks of the given size that make up the file, each with its hash,
    and the recipe counts them. *)
Theorem fixSizeChunking_full fuel k n file recipe :
  0 < ReadSize p -> ReadSize p = avgChunkSize p * Z.of_nat n ->
  lengthZ file = ReadSize p * Z.of_nat k -> (k + n < fuel)%nat -> lengthZ file < 2 ^ 63 ->
  exists cs r, fixSizeChunking p fuel file recipe = Ok (r, cs) /\
    concat (logicData <$> cs) = file /\ Forall (fix_chunk_ok (avgChunkSize p)) cs /\
    frh_fileSize (fileRecipeHead r) = lengthZ file /\
    totalChunkNumber (fileRecipeHead r) = lengthZ cs.
Proof.
  intros HR Hn Hl Hf Hs. unfold fixSizeChunking.
  assert (Z.of_nat (k * n) <= lengthZ file) by (rewrite Nat2Z.inj_mul; nia).
  destruct (fix_blocks_full fuel k n file 0 0 (replicate 32 NUL)) as (cs & -> & Hc & Hall & Hlen);
    try done; try lia.
  cbn [mbind outcome_bind]. eexists cs, _. split; [done|]. split_and!; try done. cbn.
  by rewrite lengthZ_length, Hlen.
Qed.

(** But a file of at most one chunk that does not fill a block is lost: a
    single chunk of size 0 is made of it, since [retSize] is 0 when it is first
    used. *)
Theorem fixSizeChunking_short fuel file recipe :
  0 < lengthZ file <= avgChunkSize p -> lengthZ file < ReadSize p -> (2 <= fuel)%nat ->
  exists c r, fixSizeChunking p fuel file recipe = Ok (r, [c]) /\
    logicDataSize c = 0 /\ logicData c = [] /\ frh_fileSize (fileRecipeHead r) = lengthZ file.
Proof.
  intros Hl HR Hf. unfold fixSizeChunking. destruct fuel as [|[|fuel]]; [lia|lia|].
  unfold MAX_CHUNK_SIZE in *. cbn [fix_blocks]. rewrite (takeZ_ge _ file) by lia.
  rewrite (proj2 (Z.eqb_neq _ _)) by lia. cbn [fix_partial].
  rewrite (proj2 (Z.ltb_lt _ _)) by lia. rewrite (proj2 (Z.ltb_ge _ 0)) by (apply u64_range).
  set (buf := file ++ _). pose proof (lengthZ_nonneg buf).
  destruct (fix_chunk_spec 0 0 (replicate 32 NUL) buf) as (c & h1 & -> & (Hs & _ & _) & Hd); [lia|lia|].
  cbn [mbind outcome_bind]. rewrite !u64_small by lia. rewrite (proj2 (Z.ltb_ge _ _)) by lia.
  cbn [mbind outcome_bind]. eexists c, _. split; [done|]. split_and!; try done.
  rewrite Hd. by apply takeZ_nonpos.
Qed.
End fixed.

(** ** Witnesses *)

Lemma small_window c : lengthZ c < 8 -> win_repr small_params 0 c
  (mkWindow (c ++ replicate (8 - length c) NUL) (lengthZ c)
     (if lengthZ c <? 2 then u16 (poly c * polyBase ^ (2 - lengthZ c) + 0)
      else fingerprint_of small_params 0 c)).
Proof.
  intros Hc. rewrite lengthZ_length in Hc.
  split_and!; try done; cbn [chunkBuffer chunkBufferCnt]; unfold chunk_bytes; cbn.
  - rewrite lengthZ_length, length_app, length_replicate. lia.
  - rewrite lengthZ_length. lia.
  - by apply takeZ_app_exact.
Qed.

Lemma feed_rolls_witness :
  exists s', feed small_params (chr 99) (mkWindow (str "ab" ++ replicate 6 NUL) 2 (97 * 257 + 98)) =
      Ok (true, s') /\ chunk_bytes s' = str "abc" /\ winFp s' = 98 * 257 + 99.
Proof.
  destruct (feed_rolls small_params 0 (str "ab") _ (chr 99) small_params_ok eq_refl
    (small_window (str "ab") eq_refl)) as (s' & H1 & H2 & H3); [vm_compute; discriminate|].
  exists s'. split; [exact H1|]. split; [exact H2|]. rewrite H3. vm_compute. reflexivity.
Defined.

Lemma tables_correct_witness :
  nthZ (make_powerLUT 2) 1 = Some 257 /\
  exists r, nthZ (removeLUT small_params) 65 = Some r /\ u16 (r + 65 * 257) = 0.
Proof.
  destruct (tables_correct 2 (removeLUT small_params) 65 1) as [H1 H2];
    [lia|vm_compute; reflexivity|lia|lia|].
  split; [exact H1|exact H2].
Defined.

Definition small_config (avg max : Z) : Configure :=
  mkConfigure 0 1 max 3 2 0 0 0 avg 1 1 0 0 [] [] [] [] [] [] 0 [].

Lemma ChunkerInit_var_witness :
  (exists p, ChunkerInit (small_config 4 8) = Ok p /\ params_ok p) /\
  ChunkerInit (small_config 4 4) = Throw process_exit.
Proof.
  split.
  - destruct (ChunkerInit_var (small_config 4 8)) as (p & H1 & H2 & _);
      [reflexivity|discriminate|reflexivity|]. exists p. split; [exact H1|exact H2].
  - exact (ChunkerInit_var (small_config 4 4) eq_refl ltac:(discriminate) eq_refl).
Defined.

Lemma index_cut_keeps_wf_witness :
  exists ix', index_cut 1 (fp_of (str "hello") ++ [NUL]) 1 5 (indexer_start small_index) =
    Ok (true, ix') /\ ix_wf ix'.
Proof.
  destruct (index_cut_keeps_wf (indexer_start small_index) (fp_of (str "hello")) 1 5)
    as (ix' & H1 & H2 & _).
  - by apply indexer_start_wf.
  - reflexivity.
  - apply fp_of_no_nul.
  - split; discriminate.
  - exists ix'. split; [exact H1|exact H2].
Defined.

(** An index with one segment of two chunks. *)
Definition two_chunks : indexer :=
  mkIndexer (mkIndex [] 1 0 2 [mkL0 0 32 1 []; mkL0 1 32 1 []] [mkLP 0 0 1 []] []) 2 0 [] [] 0 0.

Lemma two_chunks_wf : ix_wf two_chunks.
Proof. by split. Qed.

Lemma segments_partition_witness :
  exists! k, exists s, idx_segment (fileindex two_chunks) !! k = Some s /\
    startChunkID s <= 1 <= endChunkID s.
Proof. apply segments_partition; [exact two_chunks_wf|]. split; [discriminate|reflexivity]. Defined.

Lemma index_final_closes_witness :
  exists ix' s, index_final toy_MD5 [NUL] [] 1 (one_hash ++ [NUL]) 1 two_chunks = Ok ix' /\
    last (idx_segment (fileindex ix')) = Some s /\ startChunkID s = 2 /\ endChunkID s = 3 /\
    lengthZ (idx_chunk (fileindex ix')) = 3.
Proof.
  destruct (index_final toy_MD5 [NUL] [] 1 (one_hash ++ [NUL]) 1 two_chunks) as [ix'| | |] eqn:E;
    [|vm_compute in E; discriminate..].
  destruct (index_final_closes toy_MD5 [NUL] [] two_chunks one_hash 1 ix' two_chunks_wf E)
    as (_ & _ & _ & _ & s & H1 & H2 & H3).
  assert (H4 : lengthZ (idx_chunk (fileindex ix')) = 3)
    by (vm_compute in E; injection E as <-; reflexivity).
  exists ix', s. rewrite H4 in H3. split; [reflexivity|]. split; [exact H1|]. split; [exact H2|].
  split; [exact H3|exact H4].
Defined.

Lemma container_end_ignores_hash_witness : EndOfSegment [] 536870912 1 = Ok true.
Proof. apply (container_end_ignores_hash [] 536870912). split; [discriminate|reflexivity]. Defined.

Definition stored_index : Index :=
  mkIndex (replicate 32 (chr 65)) 1 1 1 [mkL0 0 32 1 one_hash] [mkLP 0 0 1 one_hash]
    [mkL6 0 0 0 one_hash].

Lemma index_file_roundtrip_witness :
  exists e', saveToFile stored_index (str "f-0") empty_env = Ok (true, e') /\
    loadIndex (str "f-0") e' = Ok stored_index.
Proof.
  apply index_file_roundtrip; [|reflexivity].
  split_and!; try reflexivity; (constructor; [|constructor]); by split_and!.
Defined.

Definition fixed_params : ChunkerParams := mkParams 0 4 4 4 0 8 [] [] 0 0.

Lemma fixSizeChunking_full_witness :
  exists cs r, fixSizeChunking fixed_params 5 (str "abcdefghijklmnop") small_recipe = Ok (r, cs) /\
    concat (logicData <$> cs) = str "abcdefghijklmnop" /\ totalChunkNumber (fileRecipeHead r) = lengthZ cs.
Proof.
  destruct (fixSizeChunking_full fixed_params ltac:(split; [reflexivity|discriminate]) 5 2 2
    (str "abcdefghijklmnop") small_recipe) as (cs & r & H1 & H2 & _ & _ & H3);
    [reflexivity|reflexivity|reflexivity|lia|reflexivity|].
  exists cs, r. split; [exact H1|]. split; [exact H2|exact H3].
Defined.

Lemma fixSizeChunking_short_witness :
  exists c r, fixSizeChunking fixed_params 5 (str "abc") small_recipe = Ok (r, [c]) /\
    logicDataSize c = 0.
Proof.
  destruct (fixSizeChunking_short fixed_params ltac:(split; [reflexivity|discriminate]) 5
    (str "abc") small_recipe) as (c & r & H1 & H2 & _);
    [split; [reflexivity|discriminate]|reflexivity|lia|].
  exists c, r. split; [exact H1|exact H2].
Defined.
