(* ===== verification/BaseTheorems.v ===== *)
(** * Hashing, encryption, configuration, batches of chunks: the theorems *)

From S2P Require Import Prelude.
From S2P Require Import Bytes.
From S2P Require Import DataStructure.
From S2P Require Import Database.
From S2P Require Import Storage.
From S2P Require Import StorageSpec.
From S2P Require Import StorageRefine.
From S2P Require Import Recipe.
From S2P Require Import Crypto.
From S2P Require Import Config.
From S2P Require Import ChunkerSpec.
From S2P Require Import Fixtures.
From stdpp Require Import base tactics numbers list gmap strings.
From Stdlib Require Import Ascii ZArith Lia.

Open Scope Z_scope.

(** ** Hashing and encryption *)

(** A hash from [generateHash] denotes the same database key whether it is
    passed as a C string (as [varSizeChunking] does) or as 32 bytes (as
    [saveChunk] does): the masking of NUL bytes makes the two agree. *)
Theorem hash_is_one_key {db} `{LevelDB db} `{EVP_Digest} (d : Database db) data n h k :
  generateHash data n = Some h -> cstr h = Some k ->
  db_query d k = db_query d (takeZ CHUNK_HASH_SIZE h) /\ lengthZ k = CHUNK_HASH_SIZE.
Proof.
  intros Hg Hk. destruct (generateHash_cstr _ _ _ Hg) as [E1 E2]. rewrite E1 in Hk.
  injection Hk as <-. split; [done|]. rewrite E2. apply fp_of_length.
Qed.

(** Decrypting an encrypted chunk gives back its data and leaves the rest
    of the buffer and the other fields alone; the key stays encrypted. *)
Theorem decryptChunk_encryptChunk `{EVP_CipherReliable} c c' :
  encryptChunk c = (true, c') -> 0 <= logicDataSize c <= lengthZ (logicData c) ->
  lengthZ (encryptKey c) = CHUNK_ENCRYPT_KEY_SIZE ->
  exists c'', decryptChunk c' = (true, c'') /\ logicData c'' = logicData c /\
    encryptKey c'' = encryptKey c' /\ chunkHash c'' = chunkHash c.
Proof.
  intros He Hs Hk. unfold encryptChunk in He.
  destruct (encryptWithKey (logicData c) _ _) as [ct|] eqn:E1; [|done].
  cbn [encryptKey logicDataSize] in He.
  destruct (encryptWithKey (encryptKey c) _ _) as [ck|] eqn:E2; [|done]. injection He as <-.
  unfold decryptChunk. cbn [encryptKey logicData logicDataSize chunk_ID chunkHash]. unfold overwrite.
  rewrite (decrypt_encrypt _ _ _ _ _ E2) by lia. rewrite (takeZ_ge _ (encryptKey c)) by lia.
  rewrite (decrypt_encrypt _ _ _ _ _ E1) by lia. eexists. split; [done|].
  cbn [logicData encryptKey chunkHash]. split; [|done].
  rewrite lengthZ_takeZ, Z.min_l by lia.
  pose proof (encryptWithKey_length _ _ _ _ E1) as Hl.
  rewrite dropZ_app_exact by done. rewrite Hl. apply takeZ_dropZ.
Qed.

(** ** Configuration *)

(** [readConf] succeeds exactly when every key it asks for has a value of
    the right type; otherwise the exception of [ptree::get] escapes. *)
Theorem readConf_decides root :
  ((Forall (has_u64 root) u64_keys /\ Forall (has_str root) str_keys) /\
   exists c, readConf root = Ok c) \/
  ((exists k, (k ∈ u64_keys /\ ptree_u64 root k = None) \/
              (k ∈ str_keys /\ ptree_str root k = None)) /\
   readConf root = Throw ptree_bad_path).
Proof.
  assert (Hd : forall (f : string -> option Z) l,
    Forall (fun k => is_Some (f k)) l \/ exists k, k ∈ l /\ f k = None).
  { intros f l. induction l as [|k l [IH|(k' & ? & ?)]]; [by left| |right; exists k'; set_solver].
    destruct (f k) eqn:E; [left; constructor; [by eexists|done]|right; exists k; set_solver]. }
  assert (Hd' : forall (f : string -> option bytes) l,
    Forall (fun k => is_Some (f k)) l \/ exists k, k ∈ l /\ f k = None).
  { intros f l. induction l as [|k l [IH|(k' & ? & ?)]]; [by left| |right; exists k'; set_solver].
    destruct (f k) eqn:E; [left; constructor; [by eexists|done]|right; exists k; set_solver]. }
  destruct (Hd (ptree_u64 root) u64_keys) as [Hu|(k & ? & ?)];
    [destruct (Hd' (ptree_str root) str_keys) as [Hs|(k & ? & ?)]|].
  - left. split; [done|]. by apply readConf_total.
  - right. split; [eauto|]. eapply readConf_missing; eauto.
  - right. split; [eauto|]. eapply readConf_missing; eauto.
Qed.

(** The configuration file of the repository lacks keys that [readConf]
    asks for, so that the program ends with an exception when it is used as
    shipped. *)
Theorem shipped_config_throws : readConf shipped_config = Throw ptree_bad_path.
Proof.
  apply (readConf_missing _ "ChunkerConfig._slidingWinSize"). left. split; [|by vm_compute].
  apply (bool_decide_eq_true_1 _). by vm_compute.
Qed.

(** ** saveChunks *)

(** A batch as its sender lays it out: the number of chunks, then hash, size
    and data of each. *)
Definition batch_item (x : bytes * bytes) : bytes := x.1 ++ rep_int (lengthZ x.2) ++ x.2.
Definition batch (l : list (bytes * bytes)) : bytes :=
  rep_int (lengthZ l) ++ concat (batch_item <$> l).

Definition item_ok (x : bytes * bytes) : Prop :=
  lengthZ x.1 = CHUNK_HASH_SIZE /\ 2 <= lengthZ x.2 <= MAX_CHUNK_SIZE.

(** The store after the chunks of a batch are added. *)
Definition add_all (m : chunk_store) (l : list (bytes * bytes)) : chunk_store :=
  foldl (fun m x => <[x.1 := (masked x.2, 1)]> m) m l.

Section batch.
Context {db : Type} `{LevelDB db, !LevelDBReliable db}.
Implicit Types (sc : StorageCore) (e : env db) (m : chunk_store).

Lemma saveChunks_loop_spec key0 m sc e pre l rest :
  Repr sc e m -> lengthZ (containerName key0) = 16 -> Forall item_ok l -> NoDup l.*1 ->
  Forall (fun x => m !! x.1 = None) l ->
  names_left (length l) (lastContainerFileName_ sc) ->
  (forall n, writable e (container_path sc n) = true) ->
  exists sc' e', saveChunks_loop key0 (length l) (pre ++ concat (batch_item <$> l) ++ rest)
      (lengthZ pre) sc e = Ok (true, sc', e') /\ Repr sc' e' (add_all m l).
Proof.
  intros HR Hk Hok. revert m sc e pre HR.
  induction Hok as [|[h c] l [Hh [Hc2 Hc]] _ IH]; intros m sc e pre HR Hnd Hnew Hn Hw.
  { exists sc, e. done. }
  apply NoDup_cons in Hnd as [Hnin Hnd]. inversion_clear Hnew as [|?? Hm Hnew'].
  cbn [fst snd] in Hh, Hc2, Hc, Hm, Hnin. unfold MAX_CHUNK_SIZE in Hc.
  assert (HB : BODY_SIZE = 16777216) by reflexivity.
  cbn [length saveChunks_loop]. csimpl.
  set (tl := concat (batch_item <$> l) ++ rest).
  assert (E : pre ++ (batch_item (h, c) ++ concat (batch_item <$> l)) ++ rest =
              pre ++ h ++ rep_int (lengthZ c) ++ c ++ tl).
  { unfold tl. unfold batch_item at 1. by rewrite <- !app_assoc. }
  rewrite E. rewrite (dropZ_app_exact (lengthZ pre) pre) by done. pose proof (lengthZ_nonneg tl).
  rewrite (string_of_le (h ++ _)) by (rewrite lengthZ_app; pose proof (lengthZ_nonneg (rep_int (lengthZ c) ++ c ++ tl)); lia).
  cbn [mbind outcome_bind]. rewrite (takeZ_app_exact _ h) by done.
  replace (lengthZ pre + CHUNK_HASH_SIZE) with (lengthZ (pre ++ h)) by (rewrite lengthZ_app; lia).
  rewrite (app_assoc pre h). rewrite (dropZ_app_exact (lengthZ (pre ++ h)) (pre ++ h)) by done.
  rewrite (string_of_le (rep_int _ ++ _)) by (rewrite lengthZ_app, rep_int_length; pose proof (lengthZ_nonneg (c ++ tl)); lia).
  cbn [mbind outcome_bind]. rewrite (takeZ_app_exact _ (rep_int _)) by (by rewrite rep_int_length).
  rewrite unrep_rep_int by lia. rewrite query_open by apply HR. cbn [mbind outcome_bind].
  rewrite (Repr_lookup_None sc e m) by done.
  replace (lengthZ (pre ++ h) + 4) with (lengthZ ((pre ++ h) ++ rep_int (lengthZ c)))
    by (rewrite (lengthZ_app (pre ++ h)), rep_int_length; lia).
  rewrite (app_assoc (pre ++ h)). rewrite (dropZ_app_exact (lengthZ ((pre ++ h) ++ rep_int (lengthZ c))) ((pre ++ h) ++ rep_int (lengthZ c))) by done.
  destruct (saveChunk_spec sc e m key0 h (c ++ tl) (lengthZ c)) as (sc1 & e1 & Hs & HR1 & Hf);
    unfold save_length, save_count in *; rewrite ?Hm in *; rewrite ?lengthZ_app; try done; try lia.
  { right. split; [apply Hn|apply Hw]. }
  rewrite Hs. cbn [mbind outcome_bind negb]. rewrite takeZ_app_exact in HR1 by done.
  destruct (IH (<[h := (masked c, 1)]> m) sc1 e1 (((pre ++ h) ++ rep_int (lengthZ c)) ++ c) HR1 Hnd)
    as (sc' & e' & Hr & HR').
  - apply Forall_forall. intros x Hx. rewrite lookup_insert_ne.
    + rewrite Forall_forall in Hnew'. by apply Hnew'.
    + intros ->. apply Hnin. apply list_elem_of_fmap. by exists x.
  - apply saveChunk_name in Hs as [->| ->]; [|apply Hn].
    eapply (names_left_le (S (length l))); [lia|done].
  - intros n. rewrite (frame_writable _ _ _ _ Hf), (frame_path _ _ _ _ n Hf). apply Hw.
  - exists sc', e'. split; [|done]. rewrite <- Hr. fold tl. f_equal; [by rewrite <- !app_assoc|].
    rewrite !lengthZ_app, !rep_int_length. lia.
Qed.

(** A batch of new and pairwise different chunks is stored completely. *)
Theorem saveChunks_stores_batch key0 m sc e l :
  Repr sc e m -> lengthZ (containerName key0) = 16 -> Forall item_ok l -> NoDup l.*1 ->
  Forall (fun x => m !! x.1 = None) l -> lengthZ l < 2 ^ 31 ->
  names_left (length l) (lastContainerFileName_ sc) ->
  (forall n, writable e (container_path sc n) = true) ->
  exists sc' e', saveChunks key0 (batch l) sc e = Ok (true, sc', e') /\ Repr sc' e' (add_all m l).
Proof.
  intros HR Hk Hok Hnd Hnew Hl Hn Hw. unfold saveChunks, batch. pose proof (lengthZ_nonneg l).
  rewrite string_of_le by (rewrite lengthZ_app, rep_int_length; pose proof (lengthZ_nonneg (concat (batch_item <$> l))); lia).
  cbn [mbind outcome_bind]. rewrite takeZ_app_exact by (by rewrite rep_int_length).
  rewrite unrep_rep_int by lia. replace (Z.to_nat (lengthZ l)) with (length l) by (rewrite lengthZ_length; lia).
  destruct (saveChunks_loop_spec key0 m sc e (rep_int (lengthZ l)) l [] HR Hk Hok Hnd Hnew Hn Hw)
    as (sc' & e' & Hr & HR'). rewrite rep_int_length, app_nil_r in Hr. eauto.
Qed.

(** But when a chunk of the batch is already stored, the read position
    stays at its data: the next chunk's hash and size are taken from there. *)
Theorem saveChunks_duplicate_desync key0 m sc e h c h' c' d r :
  Repr sc e m -> item_ok (h, c) -> m !! h = Some (d, r) -> 36 <= lengthZ c ->
  m !! takeZ CHUNK_HASH_SIZE c = None ->
  saveChunks key0 (batch [(h, c); (h', c')]) sc e =
  ('(ok, sc1, e1) ← saveChunk key0 (takeZ CHUNK_HASH_SIZE c)
     (dropZ 36 c ++ batch_item (h', c')) (unrep_int (slice 32 4 c)) sc e;
   Ok (ok, sc1, e1)).
Proof.
  intros HR [Hh _] Hm Hc Hnew. cbn [fst] in Hh. unfold saveChunks, batch.
  change (concat (batch_item <$> [(h, c); (h', c')])) with (batch_item (h, c) ++ batch_item (h', c') ++ []).
  rewrite app_nil_r. change (lengthZ [(h, c); (h', c')]) with 2.
  set (x := batch_item (h', c')). pose proof (lengthZ_nonneg x).
  assert (Hhead : string_of (rep_int 2 ++ batch_item (h, c) ++ x) 4 = Ok (rep_int 2)).
  { rewrite string_of_le.
    - by rewrite takeZ_app_exact by (by rewrite rep_int_length).
    - rewrite lengthZ_app, rep_int_length. pose proof (lengthZ_nonneg (batch_item (h, c) ++ x)). lia. }
  rewrite Hhead. cbn [mbind outcome_bind]. change (Z.to_nat (unrep_int (rep_int 2))) with 2%nat.
  cbn [saveChunks_loop]. unfold batch_item. cbn [fst snd].
  rewrite (dropZ_app_exact 4) by (by rewrite rep_int_length). rewrite <- !app_assoc.
  pose proof (lengthZ_nonneg c). unfold CHUNK_HASH_SIZE in *.
  rewrite (string_of_le (h ++ _)) by (rewrite !lengthZ_app, rep_int_length; lia).
  cbn [mbind outcome_bind]. rewrite (takeZ_app_exact _ h) by done.
  rewrite (app_assoc (rep_int 2) h).
  rewrite (dropZ_app_exact (4 + 32) (rep_int 2 ++ h)) by (rewrite lengthZ_app, rep_int_length; lia).
  rewrite (string_of_le (rep_int _ ++ _)) by (rewrite !lengthZ_app, rep_int_length; lia).
  cbn [mbind outcome_bind]. rewrite (takeZ_app_exact 4) by (by rewrite rep_int_length).
  rewrite query_open by apply HR. cbn [mbind outcome_bind].
  destruct (Repr_lookup _ _ _ _ _ _ HR Hh Hm) as (key & -> & _).
  rewrite (app_assoc (rep_int 2 ++ h)).
  assert (Hpos : 4 + 32 + 4 = lengthZ ((rep_int 2 ++ h) ++ rep_int (lengthZ c)))
    by (rewrite !lengthZ_app, !rep_int_length; lia).
  rewrite !(dropZ_app_exact (4 + 32 + 4)) by done.
  rewrite (string_of_le (c ++ _)) by (rewrite lengthZ_app; unfold CHUNK_HASH_SIZE; lia). cbn [mbind outcome_bind].
  rewrite (takeZ_app_le _ c) by lia.
  assert (Hd32 : dropZ (4 + 32 + 4 + 32) (((rep_int 2 ++ h) ++ rep_int (lengthZ c)) ++ c ++ x) =
                 dropZ 32 (c ++ x)).
  { rewrite <- (dropZ_dropZ 32 (4 + 32 + 4)) by lia. by rewrite dropZ_app_exact. }
  assert (Hd36 : dropZ (4 + 32 + 4 + 32 + 4) (((rep_int 2 ++ h) ++ rep_int (lengthZ c)) ++ c ++ x) =
                 dropZ 36 c ++ x).
  { rewrite <- (dropZ_dropZ (32 + 4) (4 + 32 + 4)) by lia. rewrite dropZ_app_exact by done.
    by rewrite dropZ_app_le by lia. }
  rewrite Hd32, Hd36, dropZ_app_le by lia.
  assert (lengthZ (dropZ 32 c) = lengthZ c - 32) by (rewrite lengthZ_dropZ; lia).
  rewrite (string_of_le (dropZ 32 c ++ _)) by (rewrite lengthZ_app; lia). cbn [mbind outcome_bind].
  rewrite (takeZ_app_le _ (dropZ 32 c)) by lia.
  rewrite query_open by apply HR. cbn [mbind outcome_bind].
  rewrite (Repr_lookup_None sc e m) by (done || (rewrite lengthZ_takeZ by lia; unfold CHUNK_HASH_SIZE; lia)).
  fold (slice 32 4 c). destruct (saveChunk _ _ _ _ _ _) as [[[[|] sc1] e1]| | |]; done.
Qed.
End batch.

(** ** Witnesses *)

Lemma hash_is_one_key_witness :
  exists h k, generateHash (str "hello") 5 = Some h /\ cstr h = Some k /\
    db_query (fp2ChunkDB one_env) k = db_query (fp2ChunkDB one_env) (takeZ CHUNK_HASH_SIZE h).
Proof.
  exists (fp_of (str "hello") ++ [NUL]), (fp_of (str "hello")).
  split; [vm_compute; reflexivity|]. split; [vm_compute; reflexivity|].
  apply (hash_is_one_key (fp2ChunkDB one_env) (str "hello") 5); vm_compute; reflexivity.
Defined.

Definition plain_chunk : Chunk_t :=
  mkChunk 0 5 (str "hello, world") one_hash (replicate 32 (chr 75)).

Lemma decryptChunk_encryptChunk_witness :
  exists c' c'', encryptChunk plain_chunk = (true, c') /\ decryptChunk c' = (true, c'') /\
    logicData c'' = str "hello, world".
Proof.
  eexists. destruct (decryptChunk_encryptChunk plain_chunk (encryptChunk plain_chunk).2)
    as (c'' & H1 & H2 & _); [vm_compute; reflexivity|split; discriminate|reflexivity|].
  exists c''. split; [vm_compute; reflexivity|]. split; [exact H1|exact H2].
Defined.

Definition two_items : list (bytes * bytes) :=
  [(replicate 32 (chr 66), str "first"); (replicate 32 (chr 67), str "second")].

Lemma saveChunks_stores_batch_witness :
  exists sc' e', saveChunks zero_key (batch two_items) empty_storage empty_env = Ok (true, sc', e') /\
    Repr sc' e' (add_all ∅ two_items).
Proof.
  apply saveChunks_stores_batch.
  - exact empty_Repr.
  - reflexivity.
  - do 2 (constructor; [split; [reflexivity|split; discriminate]|]). constructor.
  - apply (bool_decide_eq_true_1 _). vm_compute. reflexivity.
  - do 2 (constructor; [reflexivity|]). constructor.
  - reflexivity.
  - vm_compute. auto.
  - reflexivity.
Defined.

Lemma saveChunks_duplicate_desync_witness :
  saveChunks zero_key (batch [(one_hash, str "0123456789abcdefghijklmnopqrstuvwxyzABCD"); (one_hash, [])])
    one_storage one_env =
  ('(ok, sc1, e1) ← saveChunk zero_key (str "0123456789abcdefghijklmnopqrstuv")
     (str "ABCD" ++ batch_item (one_hash, [])) (unrep_int (str "wxyz")) one_storage one_env;
   Ok (ok, sc1, e1)).
Proof.
  apply (saveChunks_duplicate_desync zero_key _ one_storage one_env one_hash
    (str "0123456789abcdefghijklmnopqrstuvwxyzABCD") one_hash [] (str "hello") 1 one_Repr).
  - split; [reflexivity|split; discriminate].
  - apply lookup_singleton_eq.
  - discriminate.
  - apply lookup_singleton_ne. discriminate.
Defined.
