(* ===== verification/ManagerTheorems.v ===== *)
(** * Garbage collection, rewriting and delta replacement

    The theorems about the Manager, each with an instance. *)

From S2P Require Import Prelude.
From S2P Require Import Bytes.
From S2P Require Import DataStructure.
From S2P Require Import Database.
From S2P Require Import Storage.
From S2P Require Import StorageSpec.
From S2P Require Import StorageRefine.
From S2P Require Import Recipe.
From S2P Require Import ChunkerSpec.
From S2P Require Import Manager.
From S2P Require Import RewriteRefine.
From S2P Require Import UpdateRefine.
From S2P Require Import Fixtures.
From stdpp Require Import base tactics numbers list gmap strings.
From Stdlib Require Import Ascii ZArith Lia.

Open Scope Z_scope.

(** ** Worlds: a chunk without references, a chunk in a container file *)

Definition dead_env : env (gmap bytes bytes) :=
  mkEnv (mkDatabase (Some {[ one_hash := rep (key_with_count 0 one_key) ]}) [])
    empty_db empty_db empty_db ∅ (fun _ => true).

Lemma dead_Repr : Repr one_storage dead_env {[ one_hash := (str "hello", 0) ]}.
Proof.
  split; [split; (done || by left || by eexists)|]. intros h Hh. unfold entry_ok.
  destruct (decide (h = one_hash)) as [->|Hne].
  - rewrite lookup_singleton_eq. exists (key_with_count 0 one_key). unfold contents.
    cbn [dead_env fp2ChunkDB levelDBObj_].
    split_and!; [exact (lookup_singleton_eq one_hash _)| | | |]; try done.
    split_and!; [done|done|done|left]. done.
  - rewrite lookup_singleton_ne by done. unfold contents. by apply lookup_singleton_ne, not_eq_sym.
Qed.

Lemma one_hashes (e : env (gmap bytes bytes)) (key : keyForChunkHashDB_t) :
  fp2ChunkDB e = mkDatabase (Some {[ one_hash := rep key ]}) [] -> only_hashes e.
Proof.
  intros He k v. rewrite He. by intros [-> _]%one_entry_db.
Qed.

Definition second_name : bytes := str "abcdefghijklmon".
Definition full_path : bytes := str "Containers/abcdefghijklmno.container".
Definition full_storage : StorageCore :=
  with_current second_name (mkContainer 0 zero_body) empty_storage.
Definition full_env : env (gmap bytes bytes) :=
  mkEnv (mkDatabase (Some {[ one_hash := rep one_key ]}) []) empty_db empty_db
    (mkDatabase (Some {[ full_path := str "5" ]}) []) {[ full_path := str "hello" ]} (fun _ => true).
Definition full_manager : Manager :=
  mkManager (mkContainer 0 zero_body) second_name [] (str "Containers/") (str "Delta/")
    (str ".container") full_storage 8388608.

Lemma full_Repr : Repr full_storage full_env {[ one_hash := (str "hello", 1) ]}.
Proof.
  split; [split; (done || by left || by eexists)|]. intros h Hh. unfold entry_ok.
  destruct (decide (h = one_hash)) as [->|Hne].
  - rewrite lookup_singleton_eq. exists one_key. unfold contents. cbn [full_env fp2ChunkDB levelDBObj_].
    split_and!; [exact (lookup_singleton_eq one_hash _)| | | |]; try done.
    split_and!; [done|done|done|right]. exists (str "hello").
    split; [|done]. split_and!; [done|exact (lookup_singleton_eq full_path _)|done].
  - rewrite lookup_singleton_ne by done. unfold contents. by apply lookup_singleton_ne, not_eq_sym.
Qed.

Lemma full_lookup h key :
  contents (fp2ChunkDB full_env) h = Some (rep key) -> pod_valid key -> key = one_key.
Proof.
  intros [_ Hk]%one_entry_db Hv. by apply rep_key_inj.
Qed.

Lemma full_stable : chunks_stable {[ one_hash := (str "hello", 1) ]}.
Proof. intros h d r [_ E]%lookup_singleton_Some. injection E as <- <-. done. Qed.

Lemma full_recorded : containers_recorded full_storage full_env.
Proof.
  intros p v Hp. unfold full_env in Hp. cbn [containerDB] in Hp.
  apply one_entry_db in Hp as [-> ->]. split; [|by exists 5].
  exists first_container_name. split; [done|]. by right.
Qed.

Lemma full_left l :
  db_iterator (fp2ChunkDB full_env) = Ok l -> names_left (length l) second_name.
Proof.
  intros ->%one_entry_iterator. by split.
Qed.

Lemma full_ready : rewrite_ready full_storage full_manager full_env {[ one_hash := (str "hello", 1) ]}.
Proof.
  split.
  - reflexivity.
  - exact full_Repr.
  - exact (one_hashes full_env one_key eq_refl).
  - exact full_stable.
  - intros h key Hk Hv. by rewrite (full_lookup h key Hk Hv).
  - by split.
  - reflexivity.
  - split; [|done]. by apply (bool_decide_unpack _).
  - exact full_left.
  - intros n. reflexivity.
  - exact full_recorded.
Qed.

(** ** Properties *)

Section props.
Context {db : Type} `{LevelDB db, !LevelDBReliable db}.

(** C28: [GC] succeeds and removes from the represented map exactly the chunks
    without references; no file changes. *)
Theorem GC_refines (sc : StorageCore) (e : env db) (m : chunk_store) :
  Repr sc e m -> only_hashes e ->
  exists e', GC e = Ok (true, e') /\ Repr sc e' (filter (fun x => x.2.2 <> 0) m) /\
    files e' = files e.
Proof. apply GC_spec. Qed.

(** C26: [rewriteContainer] succeeds and keeps the represented map; the files
    of the small containers are gone and no entry of the database points into
    one of them. *)
Theorem rewriteContainer_refines (uninit_key : Z -> keyForChunkHashDB_t) (sc : StorageCore)
    (g : Manager) (e : env db) (m : chunk_store) :
  rewrite_ready sc g e m ->
  (forall n, terminates (lengthZ (lastContainerFileName_ sc)) (uninit_key n)) ->
  exists g' e', rewriteContainer uninit_key g e = Ok (true, g', e') /\
    Repr (mg_storageObj_ g') e' m /\
    (forall p, collected g e p -> files e' !! p = None) /\
    forall h key, contents (fp2ChunkDB e') h = Some (rep key) -> pod_valid key ->
      ~ collected g e (container_path sc (key_container (mg_storageObj_ g') key)).
Proof. apply rewriteContainer_spec. Qed.

(** C29: An applicable update puts the delta where the chunk was, records its
    length and the smaller container size, and drops the entry from the delta
    database; every chunk whose bytes do not overlap stays located. *)
Theorem update_chunk_replaces (h : bytes) (key ukey : keyForChunkHashDB_t)
    (name dname v content dcontent : bytes) (size : Z) (g : Manager) (e : env db) :
  can_update h key ukey name dname v content dcontent size g e ->
  let delta := slice (key_offset ukey) (key_length ukey) dcontent in
  let content' := write_at (key_offset key) delta content in
  exists g' e', update_chunk h key g e = Ok (g', e') /\
    contents (fp2ChunkDB e') h =
      Some (rep (mkKey (containerName key) (key_offset key) (key_length ukey) (key_count key)
                   (deltaCount ukey))) /\
    files e' = <[mg_path g name := content']> (files e) /\
    slice (key_offset key) (key_length ukey) content' = delta /\
    contents (containerDB e') (mg_path g name) =
      Some (to_string (size - (key_length key - key_length ukey))) /\
    contents (deltaChunkDB e') h = None /\
    forall sc k d, 0 <= key_length k ->
      (container_path sc (key_container sc k) = mg_path g name ->
         key_offset k + key_length k <= key_offset key \/
         key_offset key + key_length key <= key_offset k) ->
      located sc e k d -> located sc e' k d.
Proof.
  intros Hc delta content'. destruct (update_chunk_spec _ _ _ _ _ _ _ _ _ _ _ Hc)
    as (g' & e' & Hu & Hk & _ & Hs & Hd & Hf). exists g', e'.
  destruct (ic_valid _ _ _ (cu_key _ _ _ _ _ _ _ _ _ _ _ Hc)) as (_ & ? & ? & _).
  destruct (ic_valid _ _ _ (cu_ukey _ _ _ _ _ _ _ _ _ _ _ Hc)) as (_ & ? & ? & _).
  pose proof (cu_inside _ _ _ _ _ _ _ _ _ _ _ Hc). pose proof (cu_shorter _ _ _ _ _ _ _ _ _ _ _ Hc).
  pose proof (cu_dinside _ _ _ _ _ _ _ _ _ _ _ Hc).
  assert (lengthZ delta = key_length ukey) as Hl by (apply lengthZ_slice; lia).
  split_and!; try done.
  - rewrite <- Hl. apply write_at_slice; lia.
  - rewrite Hs. do 2 f_equal. lia.
  - intros sc k d ? Hdis Hloc. apply (located_write_at sc e e' k d (mg_path g name) (key_offset key) delta content);
      [lia|lia|apply Hc|exact Hf| |done|done].
    intros E. destruct (Hdis E); lia.
Qed.
End props.

(** ** Instances *)

(** A chunk without references is dropped. *)
Lemma GC_refines_witness :
  exists e', GC dead_env = Ok (true, e') /\
    Repr one_storage e' (filter (fun x => x.2.2 <> 0) {[ one_hash := (str "hello", 0) ]}) /\
    files e' = files dead_env.
Proof.
  apply (GC_refines one_storage dead_env); [exact dead_Repr|].
  by apply (one_hashes _ (key_with_count 0 one_key)).
Defined.

Lemma rewriteContainer_refines_witness :
  collected full_manager full_env full_path /\
  exists g' e', rewriteContainer (fun _ => zero_key) full_manager full_env = Ok (true, g', e') /\
    Repr (mg_storageObj_ g') e' {[ one_hash := (str "hello", 1) ]} /\
    (forall p, collected full_manager full_env p -> files e' !! p = None) /\
    forall h key, contents (fp2ChunkDB e') h = Some (rep key) -> pod_valid key ->
      ~ collected full_manager full_env
          (container_path full_storage (key_container (mg_storageObj_ g') key)).
Proof.
  split.
  - exists (str "5"), 5. split_and!; [exact (lookup_singleton_eq full_path _)|done|lia|done].
  - apply (rewriteContainer_refines (fun _ => zero_key) full_storage); [exact full_ready|].
    intros n. by split.
Defined.

(** "hello" is replaced by a delta of three bytes. *)
Definition delta_key : keyForChunkHashDB_t := mkKey (first_container_name ++ [NUL]) 1 3 1 1.
Definition delta_file : bytes := str "Delta/abcdefghijklmno.container".
Definition update_env : env (gmap bytes bytes) :=
  with_files (<[delta_file := str "_abc_"]> (files full_env))
    (with_deltaChunkDB (mkDatabase (Some {[ one_hash := rep delta_key ]}) []) full_env).

Lemma update_ready :
  can_update one_hash one_key delta_key first_container_name first_container_name (str "5")
    (str "hello") (str "_abc_") 5 full_manager update_env.
Proof.
  split; try done; try (by eexists); try (by split);
    exact (lookup_singleton_eq _ _) || exact (lookup_insert_eq _ _ _).
Qed.

Lemma update_chunk_replaces_witness :
  exists g' e', update_chunk one_hash one_key full_manager update_env = Ok (g', e') /\
    files e' = <[full_path := str "abclo"]> (files update_env).
Proof.
  destruct (update_chunk_replaces _ _ _ _ _ _ _ _ _ _ _ update_ready)
    as (g' & e' & Hu & _ & Hf & _). exists g', e'. split; [exact Hu|exact Hf].
Defined.
