(* ===== verification/DeltaTheorems.v ===== *)
(** * Delta compression and transfer detection: the theorems

    The theorems about deltas and compress, then those about the detection. *)

From S2P Require Import Prelude.
From S2P Require Import Bytes.
From S2P Require Import DataStructure.
From S2P Require Import Database.
From S2P Require Import Storage.
From S2P Require Import Recipe.
From S2P Require Import StorageSpec.
From S2P Require Import StorageRefine.
From S2P Require Import DeltaStore.
From S2P Require Import Compress.
From S2P Require Import CompressRefine.
From S2P Require Import Dector.
From S2P Require Import DectorSpec.
From S2P Require Import DectorWalk.
From S2P Require Import MainRw.
From S2P Require Import Fixtures.
From stdpp Require Import base tactics numbers list gmap strings.
From Stdlib Require Import Ascii ZArith Lia.

Open Scope Z_scope.

(** * Delta containers and compress

    The theorems about the DeltaCompressor, and about restoring a chunk that
    was replaced by a delta, each with an instance. *)

(** ** Properties *)

Lemma cstr_no_nul (d : bytes) : no_nul d -> cstr d = None.
Proof.
  induction 1 as [|b d Hb _ IH]; [done|]. cbn [cstr]. by rewrite bool_decide_eq_false_2, IH by done.
Qed.

Section props.
Context {db : Type} `{LevelDB db, !LevelDBReliable db} {mongo : Type} `{Mongo mongo}.
Context (delta_create delta_apply : bytes -> bytes -> bytes).
Implicit Types (sc : StorageCore) (dc : DeltaCompressor) (e : env db) (mg : mongo).


(** Destructor and constructor of the compressor keep the deltas. *)
Theorem restart_keeps_deltas dc e (m : gmap bytes bytes) e' mem mem' sc :
  DRepr dc e m -> writable e DeltaConfig = true ->
  writable e (dc_container_path dc (dc_lastContainerFileName_ dc)) = true ->
  Forall (fun b => is_space b = false) (dc_lastContainerFileName_ dc) ->
  DeltaCompressor_delete dc e = Ok e' ->
  exists dc', DeltaCompressor_new (dc_containerNamePrefix_ dc) (dc_maxContainerSize_ dc) mem mem' sc e'
      = Ok dc' /\ DRepr dc' e' m.
Proof. apply restart_DRepr. Qed.

(** On a log of hash pairs and documents with two super-features,
    [compress] ends, its groups are the hashes of at least two documents that
    agree on a super-feature, its four sizes are the sums over the pairs and
    the group members as [int]s, and the chunk store is as before: the log is
    removed and no delta is stored. *)
Theorem compress_measures depth dc e mg m ps :
  compress_ready delta_create delta_apply dc e mg m ps ->
  exists dc' mg',
    compress delta_create delta_apply (S depth) dc e mg =
      Ok (true, sizes_of (omap (pair_size delta_create m) ps)
                  (concat (group_size delta_create m <$> groupList dc')),
          dc', remove_file similar_log e, mg') /\
    Repr (dc_storageObj_ dc') (remove_file similar_log e) m /\
    Forall (is_group mg) (groupList dc') /\ regrouped mg mg'.
Proof. apply compress_spec. Qed.

(** While the sizes fit an [int], the delta sizes [compress] reports are
    at most the chunk sizes, and both pairs of counters give the same saving. *)
Theorem compress_saves depth dc e mg m ps z dc' e' mg' :
  compress_ready delta_create delta_apply dc e mg m ps ->
  compress delta_create delta_apply (S depth) dc e mg = Ok (true, z, dc', e', mg') ->
  sumZ (omap (pair_size delta_create m) ps).*1 +
    sumZ (concat (group_size delta_create m <$> groupList dc')).*1 < 2 ^ 31 ->
  0 <= deltaSize z <= totalSize z /\ 0 <= deltaSize_ z <= totalSize_ z /\
  totalSize z - deltaSize z = totalSize_ z - deltaSize_ z.
Proof.
  intros Hr Hc Hlt. destruct (compress_spec delta_create delta_apply depth dc e mg m ps Hr)
    as (dc1 & mg1 & Hc' & _). rewrite Hc in Hc'. simplify_eq.
  pose proof (sums_le _ (pair_sizes_le delta_create m ps)) as (? & _).
  pose proof (sums_le _ (group_sizes_le delta_create m (groupList dc1))) as (? & ? & ? & ?).
  unfold sizes_of. cbn [totalSize deltaSize totalSize_ deltaSize_]. rewrite !i32_small by lia. lia.
Qed.

(** With documents whose super-features are an array, as inserted when the
    configured number is four, [compress] throws as soon as two of them are
    ungrouped: the identifier of their group is no string. *)
Theorem compress_throws_on_arrays depth dc e mg r :
  similar_pairs delta_create delta_apply depth (dc_storageObj_ dc) e = Ok r ->
  1 < count_id SF_F None (documents mg) ->
  compress delta_create delta_apply depth dc e mg = Throw bson_type_error.
Proof.
  intros Hs Hn. unfold compress. rewrite Hs. destruct r as [[t d] sc1]. cbn [mbind outcome_bind].
  unfold make_groups. rewrite (group_loop_throws SF_F _ _ _ (count_id SF_F None (documents mg)));
    [done| |done]. apply aggregate_elem. split; [done|lia].
Qed.

(** A chunk that was replaced by a delta without a NUL byte, as
    [delta_create] makes them, cannot be restored: its buffer is read as a C
    string past its end. *)
Theorem restoreChunk_delta_unterminated sc e h (key : keyForChunkHashDB_t) d fuel :
  sc_wf sc e -> lengthZ h = CHUNK_HASH_SIZE -> contents (fp2ChunkDB e) h = Some (rep key) ->
  pod_valid key -> 0 < deltaCount key -> located sc e key d -> no_nul d ->
  restoreChunk delta_apply (S fuel) h sc e = UB.
Proof.
  intros Hwf Hh Hk Hv Hd Hl Hn. cbn [restoreChunk]. rewrite string_of_exact by done.
  cbn [mbind outcome_bind]. rewrite query_open, Hk by apply Hwf. cbn [mbind outcome_bind].
  rewrite load_rep by done. cbn [mbind outcome_bind].
  destruct (readContainer_located sc e key d Hwf Hl) as (sc' & -> & _);
    [by destruct Hv as (_&_&?&_); lia|].
  cbn [mbind outcome_bind]. rewrite (proj2 (Z.ltb_lt _ _)) by lia. by rewrite cstr_no_nul.
Qed.
End props.

(** ** Instances *)


Lemma restart_keeps_deltas_witness :
  exists e' dc', DeltaCompressor_delete (small_compressor one_storage) one_env = Ok e' /\
    DeltaCompressor_new (str "Delta/") 8388608 zero_body zero_body one_storage e' = Ok dc' /\
    DRepr dc' e' ∅.
Proof.
  pose proof (DeltaCompressor_delete_spec (small_compressor one_storage) one_env (proj1 small_DRepr)
    eq_refl eq_refl) as Hd. eexists.
  destruct (restart_keeps_deltas (small_compressor one_storage) one_env ∅ _ zero_body zero_body
    one_storage small_DRepr eq_refl eq_refl first_name_no_space Hd) as (dc' & H1 & H2).
  exists dc'. split; [exact Hd|]. split; [exact H1|exact H2].
Defined.

Lemma compress_measures_witness :
  exists dc' mg',
    compress toy_create toy_apply 1 (small_compressor pair_storage) pair_env pair_docs =
      Ok (true, sizes_of (omap (pair_size toy_create pair_map) [(hash_a, hash_b)])
                  (concat (group_size toy_create pair_map <$> groupList dc')),
          dc', remove_file similar_log pair_env, mg') /\
    omap (pair_size toy_create pair_map) [(hash_a, hash_b)] = [(60, 35)].
Proof.
  destruct (compress_measures toy_create toy_apply 0 _ _ _ _ _ pair_ready) as (dc' & mg' & H1 & _).
  exists dc', mg'. split; [exact H1|reflexivity].
Defined.

Definition pair_run :=
  compress toy_create toy_apply 1 (small_compressor pair_storage) pair_env pair_docs.

(** 60 bytes for the pair of the log, then the base and the other member of
    the group. *)
Lemma pair_run_sizes :
  match pair_run with
  | Ok (ok, z, dc, _, _) =>
      ok = true /\ z = mkSizes 180 130 120 70 /\ groupList dc = [[hash_a; hash_b]]
  | _ => False
  end.
Proof. vm_compute. by split_and!. Qed.

Lemma compress_saves_witness :
  exists z dc' e' mg', pair_run = Ok (true, z, dc', e', mg') /\
    z = mkSizes 180 130 120 70 /\ 0 <= deltaSize z <= totalSize z.
Proof.
  pose proof pair_run_sizes as Hz. destruct pair_run as [[[[[ok z] dc'] e'] mg']| | |] eqn:Hr; try done.
  destruct Hz as (-> & Hz & Hg). exists z, dc', e', mg'. split; [done|]. split; [exact Hz|].
  destruct (compress_saves toy_create toy_apply 0 _ _ _ _ _ z dc' e' mg' pair_ready Hr) as [H4 _].
  - rewrite Hg. reflexivity.
  - exact H4.
Defined.

Definition array_docs : list document :=
  [chunk_doc (SF_array [str "a"]) (str "0") hash_a (str "-1");
   chunk_doc (SF_array [str "b"]) (str "0") hash_b (str "-1")].

Lemma compress_throws_on_arrays_witness :
  compress toy_create toy_apply 1 (small_compressor empty_storage) empty_env array_docs =
    Throw bson_type_error.
Proof.
  apply (compress_throws_on_arrays toy_create toy_apply 1 (small_compressor empty_storage) empty_env
    array_docs (0, 0, empty_storage)); reflexivity.
Defined.

(** The chunk "hello" marked as a delta. *)
Definition delta_one_key : keyForChunkHashDB_t := mkKey (first_container_name ++ [NUL]) 0 5 1 1.
Definition delta_one_env : env (gmap bytes bytes) :=
  mkEnv (mkDatabase (Some {[ one_hash := rep delta_one_key ]}) []) empty_db empty_db empty_db ∅
    (fun _ => true).

Lemma restoreChunk_delta_unterminated_witness :
  restoreChunk toy_apply 1 one_hash one_storage delta_one_env = UB.
Proof.
  apply (restoreChunk_delta_unterminated toy_apply one_storage delta_one_env one_hash delta_one_key
    (str "hello")).
  - split; (done || by left || by eexists).
  - reflexivity.
  - exact (lookup_singleton_eq one_hash _).
  - done.
  - reflexivity.
  - split_and!; [done|done|done|left]. done.
  - by apply (bool_decide_unpack _).
Defined.

(** * Transfer detection: the theorems

    About the log of the detection, its end, and what it finds in versions
    that are equal, that were shortened, and that differ in one chunk. *)

Section props.
Context {db : Type} `{LevelDB db} {mongo : Type} `{Mongo mongo}.
Context (delta_apply : bytes -> bytes -> bytes).
Context (extractSuperFeatures : bytes -> Z -> Z -> list bytes).
Context (indet : Z -> byte).
Context (minWin maxWin SFNumber : Z).
Context (fi1 fi2 : Index).
Implicit Types (e : env db) (sc : StorageCore) (mg : mongo).

Abbreviation Dector_new :=
  (Dector_new delta_apply extractSuperFeatures indet minWin maxWin SFNumber fi1 fi2).
Abbreviation truetransferDector :=
  (truetransferDector delta_apply extractSuperFeatures indet minWin maxWin SFNumber fi1 fi2).

(** A fingerprint of a valid index is a hash. *)
Lemma fps_valid fi h : Forall L0_valid (idx_chunk fi) -> h ∈ fps fi -> lengthZ h = CHUNK_HASH_SIZE.
Proof.
  intros Hv (x & -> & Hx)%list_elem_of_fmap. eapply Forall_forall in Hv; [|exact Hx]. apply Hv.
Qed.

(** C30: the log a detection leaves is what [compress] reads: whole pairs of
    hashes, each of a chunk of the old and a chunk of the new version, at most
    one per transfer; the number of transfers counts the list. *)
Theorem dector_log_is_pairs depth sc e mg r e' mg' :
  Dector_new depth 0 sc e mg = Ok (r, e', mg') -> writable e similar_log = true ->
  Forall L0_valid (idx_chunk fi1) -> Forall L0_valid (idx_chunk fi2) ->
  gettransfercount r = i32 (lengthZ (gettransfers r)) /\
  exists ps, files e' !! similar_log = Some (log_bytes ps) /\ Forall is_pair ps /\
    Forall (fun p => p.1 ∈ fps fi1 /\ p.2 ∈ fps fi2) ps /\ lengthZ ps <= lengthZ (gettransfers r).
Proof.
  intros Hr Hw H1 H2. unfold Dector.Dector_new, write_file in Hr. rewrite Hw in Hr.
  change (0 =? 1) with false in Hr. cbn match in Hr. inv_run.
  unfold write_file in *. cbn [writable with_files] in *. rewrite Hw in *. simplify_eq.
  unfold Dector.truetransferDector in *. inv_run.
  select (walk _ _ _ _ _ _ _ _ _ _ _ = _) (fun Hk =>
    pose proof (walk_ok _ _ _ _ _ _ _ _ _ _ _ _ _ Hk (first_findings_ok _ _ _)) as Hok).
  destruct Hok as (Hn & ps & Hl & Hps & Hle).
  split; [done|]. exists ps. cbn [files with_files]. rewrite lookup_insert_eq, Hl. split_and!; try done.
  eapply Forall_impl; [exact Hps|]. intros [h1 h2] [??]. split; [by apply (fps_valid fi1)|by apply (fps_valid fi2)].
Qed.


(** A new version that begins like the old one has no transfer, an empty
    log and nothing to insert but the group document. *)
Theorem same_version_no_transfer depth sc e mg k :
  counted fi1 -> counted fi2 -> fps fi2 = fps fi1 ++ k ->
  truetransferDector depth sc e mg = Ok (first_findings sc, (0, 0, 0), insert_group_number mg).
Proof. intros. by eapply no_transfer. Qed.

(** C33: when the new version is a proper beginning of the old one, the
    detection reads a chunk behind the end of the new index. *)
Theorem shorter_version_out_of_bounds depth sc e mg h k :
  counted fi1 -> counted fi2 -> fps fi1 = fps fi2 ++ h :: k ->
  truetransferDector depth sc e mg = UB.
Proof. intros. by eapply prefix_out_of_bounds. Qed.

(** A single replaced chunk is found: one transfer, whose two positions
    are that of the chunk, and its two fingerprints in the log when the new
    chunk was not a duplicate. *)
Theorem replaced_chunk_is_found depth sc e mg A1 A2 B1 B2 x y b1 b2 :
  counted fi1 -> counted fi2 -> replaced minWin fi1 fi2 A1 A2 B1 B2 x y b1 b2 ->
  exists r, truetransferDector depth sc e mg = Ok (r, (0, 0, 0), insert_group_number mg) /\
    gettransfers r = [mkPair (lengthZ A1) (lengthZ A1)] /\ gettransfercount r = 1 /\
    dt_log r = (if unique y =? 0 then [] else fingerprint x ++ fingerprint y).
Proof.
  intros H1 H2 Hrep. eexists. split; [by eapply one_transfer|]. done.
Qed.
End props.

(** ** Instances *)

Definition fp_chunk (c : Z) : L0 := mkL0 0 10 1 (replicate 32 (chr c)).
Definition version (l : list Z) : Index :=
  mkIndex (replicate 32 (chr 65)) 0 0 (lengthZ l) (fp_chunk <$> l) [] [].
Definition no_features (d : bytes) (n k : Z) : list bytes := [].
Abbreviation run_dector := (truetransferDector (fun _ d => d) no_features zero_body 2 4 2).

Lemma version_counted l : counted (version l).
Proof. unfold counted. cbn. rewrite !lengthZ_length. by rewrite length_fmap. Qed.

Lemma version_valid l : Forall L0_valid (idx_chunk (version l)).
Proof. apply Forall_fmap, Forall_true. intros c. by repeat split. Qed.

Lemma dector_log_is_pairs_witness :
  exists r e' mg' ps,
    Dector_new (fun _ d => d) no_features zero_body 2 4 2 (version [1; 2; 3; 4]) (version [1; 9; 3; 4])
      1 0 empty_storage empty_env ([] : list document) = Ok (r, e', mg') /\
    files e' !! similar_log = Some (log_bytes ps) /\ Forall is_pair ps /\ gettransfercount r = 1.
Proof.
  assert (match Dector_new (fun _ d => d) no_features zero_body 2 4 2 (version [1; 2; 3; 4])
            (version [1; 9; 3; 4]) 1 0 empty_storage empty_env ([] : list document) with
          | Ok (r, _, _) => gettransfercount r = 1 | _ => False end) as Hn by (vm_compute; reflexivity).
  destruct (Dector_new _ _ _ _ _ _ _ _ _ _ _ _ _) as [[[r e'] mg']| | |] eqn:Hr; try done.
  destruct (dector_log_is_pairs (fun _ d => d) no_features zero_body 2 4 2 (version [1; 2; 3; 4])
    (version [1; 9; 3; 4]) 1 empty_storage empty_env [] r e' mg' Hr eq_refl
    (version_valid _) (version_valid _)) as (_ & ps & H1 & H2 & _).
  exists r, e', mg', ps. split; [done|]. split; [exact H1|]. split; [exact H2|exact Hn].
Defined.


Lemma same_version_no_transfer_witness :
  run_dector (version [1; 2; 3]) (version [1; 2; 3; 4]) 1 empty_storage empty_env ([] : list document) =
  Ok (first_findings empty_storage, (0, 0, 0), insert_group_number []).
Proof.
  apply (same_version_no_transfer (fun _ d => d) no_features zero_body 2 4 2 (version [1; 2; 3])
    (version [1; 2; 3; 4]) 1 empty_storage empty_env [] [replicate 32 (chr 4)]);
    [apply version_counted|apply version_counted|reflexivity].
Defined.

Lemma shorter_version_out_of_bounds_witness :
  run_dector (version [1; 2; 3]) (version [1; 2]) 1 empty_storage empty_env ([] : list document) = UB.
Proof.
  apply (shorter_version_out_of_bounds (fun _ d => d) no_features zero_body 2 4 2 (version [1; 2; 3])
    (version [1; 2]) 1 empty_storage empty_env [] (replicate 32 (chr 3)) []);
    [apply version_counted|apply version_counted|reflexivity].
Defined.

Lemma replaced_chunk_is_found_witness :
  exists r, run_dector (version [1; 2; 3; 4]) (version [1; 9; 3; 4]) 1 empty_storage empty_env
      ([] : list document) = Ok (r, (0, 0, 0), insert_group_number []) /\
    gettransfers r = [mkPair 1 1] /\ lengthZ (dt_log r) = 64.
Proof.
  destruct (replaced_chunk_is_found (fun _ d => d) no_features zero_body 2 4 2 (version [1; 2; 3; 4])
    (version [1; 9; 3; 4]) 1 empty_storage empty_env ([] : list document) [fp_chunk 1] [fp_chunk 1]
    [fp_chunk 4] [fp_chunk 4] (fp_chunk 2) (fp_chunk 9) (fp_chunk 3) (fp_chunk 3))
    as (r & H1 & H2 & _ & H4); [apply version_counted|apply version_counted| |].
  - split; try done. intros z Hz. repeat (apply elem_of_cons in Hz as [->|Hz]; [done|]).
    by apply elem_of_nil in Hz.
  - exists r. split; [exact H1|]. split; [exact H2|]. rewrite H4. reflexivity.
Defined.
