(* ===== verification/MainTheorems.v ===== *)
(** * The program as a whole: theorems

    The search for a version, the commands [-c] and [-rs] one after the other,
    [-rs] without the file, and [-rw]. *)

From S2P Require Import Prelude.
From S2P Require Import Bytes.
From S2P Require Import DataStructure.
From S2P Require Import Database.
From S2P Require Import Storage.
From S2P Require Import StorageSpec.
From S2P Require Import StorageRefine.
From S2P Require Import Recipe.
From S2P Require Import Crypto.
From S2P Require Import Config.
From S2P Require Import Chunking.
From S2P Require Import FileIndex.
From S2P Require Import Chunker.
From S2P Require Import ChunkerSpec.
From S2P Require Import Backup.
From S2P Require Import DeltaStore.
From S2P Require Import Compress.
From S2P Require Import CompressRefine.
From S2P Require Import Main.
From S2P Require Import Session.
From S2P Require Import MainRw.
From S2P Require Import Fixtures.
From stdpp Require Import base tactics numbers list gmap strings.
From Stdlib Require Import Ascii ZArith Lia.

Open Scope Z_scope.

(** C31: the search for a version ends whatever files there are, and gives the
    least version that has no index file: every smaller one has. *)
Theorem version_search_ends {db} (name : bytes) (e : env db) :
  Z.of_nat (size (files e)) < 2 ^ 31 ->
  exists w, find_version name e = Ok w /\ 0 <= w < 2 ^ 31 /\
    fstream_opens (index_path (version_name name w)) e = false /\
    forall u, 0 <= u < w -> fstream_opens (index_path (version_name name u)) e = true.
Proof.
  intros Hs. destruct (find_version_spec name e Hs) as (w & ? & ? & Hn & ?). exists w.
  split_and!; try done; try lia. unfold has_version in Hn. by destruct (fstream_opens _ _).
Qed.

Section Commands.
Context {db : Type} `{LevelDB db, !LevelDBReliable db} `{EVP_DigestReliable}.
Context {mongo : Type} `{Mongo mongo}.
Context (delta_create delta_apply : bytes -> bytes -> bytes).
Context (extractSuperFeatures : bytes -> Z -> Z -> list bytes).
Context (MD5 : bytes -> bytes) (rm_Delta : gmap bytes bytes -> gmap bytes bytes).
Context (mem mem' : nat -> Z -> byte) (indet : Z -> byte) (stack stack' : bytes).
Context (uninit_key : nat -> Z -> keyForChunkHashDB_t).
Context (uninit_recipe : nat -> Recipe_t) (uninit_index : nat -> Index) (winFp0 : nat -> Z).
Context (config : Configure) (depth : nat).
Implicit Types (e : env db) (sc : StorageCore) (mg : mongo) (m : chunk_store).

Abbreviation run open := (main delta_create delta_apply extractSuperFeatures MD5 rm_Delta mem mem'
  indet stack stack' uninit_key uninit_recipe uninit_index winFp0 open config (S depth)).

(** C1: one process stores the first version [name-0] of a file; the next one,
    whose databases hold what the first one left, restores it to the file
    [name]: the bytes are those of the file with NUL masked, hence the file
    when it has no NUL byte. *)
Theorem store_then_restore (p : ChunkerParams) (name file prog : bytes)
    (open : bytes -> option db) e0 e sc m mg :
  let f := version_name name 0 in
  let cs := chunks_of p (winFp0 0) file in
  chunking_ready MD5 stack stack' uninit_key uninit_recipe winFp0 config p file ->
  session_ready mem mem' winFp0 config p name file open e0 e sc m ->
  exists e1, run open [prog; str "-c"; f] e0 mg = Ok (e1, mg) /\
    forall open2 mg2, open_databases open2 config (next_process e1) = Ok e1 ->
    exists e2, run open2 [prog; str "-rs"; f] (next_process e1) mg2 = Ok (e2, mg2) /\
      files e2 !! name = Some (concat (masked <$> cs)) /\
      (no_nul file -> files e2 !! name = Some file).
Proof.
  intros f cs Hcr Hse. pose proof Hse as [].
  destruct (main_c_spec delta_apply extractSuperFeatures MD5 mem mem' indet stack stack' uninit_key
    uninit_recipe uninit_index winFp0 config depth p name file open e0 e sc m mg Hcr Hse)
    as (sc1 & e1 & i & e3 & Hc & Hsd & Hh & Hn).
  eapply (shut_down_found mem mem' winFp0 config p name file 0 e0) in Hsd;
    [|exact se_new].
  exists (close_databases e3). split.
  { unfold main. rewrite se_new. cbn [mbind outcome_bind].
    rewrite se_open.
    cbn [mbind outcome_bind]. change (nthZ [prog; str "-c"; f] 1) with (Some (str "-c")).
    change (nthZ [prog; str "-c"; f] 2) with (Some f). cbn [in_bounds mbind outcome_bind].
    rewrite bool_decide_eq_true_2 by done.
    fold f in Hc. by rewrite Hc. }
  intros open2 mg2 Hopen2. set (e4 := close_databases e3) in *.
  destruct (main_rs_spec delta_apply MD5 mem mem' indet stack stack' uninit_key uninit_recipe
    uninit_index winFp0 config depth p name file sc m i e4 mg2 Hcr Hsd Hh Hn) as (e5 & Hrs & Hout);
    try done.
  assert (Hcat : concat cs = file) by apply chunks_of_concat.
  assert (Hname : files (close_databases e5) !! name = Some (concat (masked <$> cs))).
  { etransitivity; [|exact Hout]. unfold close_databases, Database_destructor. cbn [files with_files].
    rewrite !lookup_delete_ne; [done|by apply not_eq_sym..]. }
  exists (close_databases e5). split; [|split; [done|]].
  - unfold main. destruct (fd_storage mem mem' winFp0 config p name file sc m i e4 Hsd 0%nat) as (sc' & Hnew & _).
    change (new_storage mem mem' config 0 e4) with (new_storage mem mem' config 0 (next_process e4))
      in Hnew. rewrite Hnew. cbn [mbind outcome_bind]. rewrite Hopen2.
    cbn [mbind outcome_bind]. change (nthZ [prog; str "-rs"; f] 1) with (Some (str "-rs")).
    change (nthZ [prog; str "-rs"; f] 2) with (Some f). cbn [in_bounds mbind outcome_bind].
    do 2 (rewrite bool_decide_eq_false_2 by done). rewrite bool_decide_eq_true_2 by done.
    fold f in Hrs. by rewrite Hrs.
  - intros Hnn. rewrite Hname. rewrite masked_all_no_nul; by rewrite Hcat.
Qed.

(** [-rs] of a name that no file in the working directory has, although
    there may be an index and a recipe, ends the program: the [Chunker] that
    is made to read the index opens the file first. *)
Theorem restore_needs_the_file (prog f : bytes) (open : bytes -> option db) e0 e sc sc1 mg :
  new_storage mem mem' config 0 e0 = Ok sc -> open_databases open config e0 = Ok e ->
  new_storage mem mem' config 1 e = Ok sc1 -> files e0 !! f = None ->
  run open [prog; str "-rs"; f] e0 mg = Throw process_exit.
Proof.
  intros Hn0 Ho Hn1 Hf. unfold main. rewrite Hn0. cbn [mbind outcome_bind]. rewrite Ho.
  cbn [mbind outcome_bind]. change (nthZ [prog; str "-rs"; f] 1) with (Some (str "-rs")).
  change (nthZ [prog; str "-rs"; f] 2) with (Some f). cbn [in_bounds mbind outcome_bind].
  do 2 (rewrite bool_decide_eq_false_2 by done). rewrite bool_decide_eq_true_2 by done.
  unfold main_rs. rewrite Hn1. cbn [mbind outcome_bind]. unfold Chunker_new.
  destruct (open_databases_files _ _ _ _ Ho) as [-> _]. by rewrite Hf.
Qed.

End Commands.

(** ** Instances *)

Definition toy_config : Configure :=
  mkConfigure 0 CHUNKER_VAR_SIZE_TYPE 8 3 2 4 2 0 4 1 1 2 8388608 (str "Recipes/")
    (str "Containers/") (str "db1") (str "db2") (str "db3") (str "db4") 8388608 (str "Delta/").

Definition toy_params : ChunkerParams :=
  mkParams CHUNKER_VAR_SIZE_TYPE 4 3 8 2 1048576 (make_powerLUT 2)
    match make_removeLUT 2 (make_powerLUT 2) with Ok l => l | _ => [] end 3 0.

(** Two versions have an index. *)
Definition indexed_env : env (gmap bytes bytes) :=
  with_files {[ str "./Index/foo-0" := []; str "./Index/foo-1" := [] ]} empty_env.

Lemma version_search_ends_witness :
  Z.of_nat (size (files indexed_env)) < 2 ^ 31 /\ find_version (str "foo") indexed_env = Ok 2.
Proof.
  assert (Hs : Z.of_nat (size (files indexed_env)) < 2 ^ 31) by (vm_compute; reflexivity).
  split; [exact Hs|].
  destruct (version_search_ends (str "foo") indexed_env Hs) as (w & Hw & _). rewrite Hw.
  rewrite <- Hw. vm_compute. reflexivity.
Defined.

Lemma toy_init : ChunkerInit toy_config = Ok toy_params.
Proof. vm_compute. reflexivity. Qed.

Definition zero_mem (_ : nat) : Z -> byte := zero_body.
Definition toy_open (_ : bytes) : option (gmap bytes bytes) := Some ∅.

(** A process that finds the file [foo-0] and nothing else. *)
Definition first_env : env (gmap bytes bytes) :=
  mkEnv no_db no_db no_db no_db {[ str "foo-0" := small_file ]} (fun _ => true).
Definition first_opened : env (gmap bytes bytes) :=
  let d n := mkDatabase (Some ∅) (str n) in
  mkEnv (d "db1"%string) (d "db2"%string) (d "db3"%string) (d "db4"%string)
    {[ str "foo-0" := small_file ]} (fun _ => true).

Lemma toy_chunking_ready :
  chunking_ready toy_MD5 [NUL] [] (fun _ _ => zero_key) (fun _ => small_recipe) (fun _ => 0)
    toy_config toy_params small_file.
Proof.
  split; try done.
  - by left.
  - by left.
  - split; [done|]. right. vm_compute. split; discriminate.
Qed.

Lemma toy_session_ready :
  session_ready zero_mem zero_mem (fun _ => 0) toy_config toy_params (str "foo") small_file toy_open
    first_env first_opened empty_storage ∅.
Proof.
  split.
  - reflexivity.
  - reflexivity.
  - apply Repr_fresh; [|done]. split; (done || by left || by eexists).
  - exact (lookup_singleton_eq _ _).
  - vm_compute. reflexivity.
  - done.
  - vm_compute. by eexists.
  - exact first_name_no_space.
  - by eexists.
  - done.
  - vm_compute. reflexivity.
  - apply collision_free_empty, (bool_decide_eq_true_1 _). vm_compute. reflexivity.
  - done.
  - done.
  - intros n E. discriminate E.
Qed.

Definition toy_main (open : bytes -> option (gmap bytes bytes)) (argv : list bytes)
    (e : env (gmap bytes bytes)) : outcome (env (gmap bytes bytes) * list document) :=
  main toy_create toy_apply (fun _ _ _ => []) toy_MD5 (fun f => f) zero_mem zero_mem zero_body [NUL] []
    (fun _ _ => zero_key) (fun _ => small_recipe) (fun _ => small_index) (fun _ => 0) open toy_config 1
    argv e [].

(** The databases a process leaves, opened again by their names. *)
Definition reopen (e : env (gmap bytes bytes)) (n : bytes) : option (gmap bytes bytes) :=
  if bool_decide (n = str "db1") then levelDBObj_ (fp2ChunkDB e)
  else if bool_decide (n = str "db2") then levelDBObj_ (fileName2metaDB e)
  else if bool_decide (n = str "db3") then levelDBObj_ (deltaChunkDB e)
  else levelDBObj_ (containerDB e).

Definition opened_as (d : Database (gmap bytes bytes)) (n : string) : bool :=
  bool_decide (dbName_ d = str n) && match levelDBObj_ d with Some _ => true | None => false end.

Definition unlocked (e : env (gmap bytes bytes)) (n : string) : bool :=
  bool_decide (files e !! (str "." ++ str n ++ str ".lock") = None).

Definition reopenable (e : env (gmap bytes bytes)) : bool :=
  opened_as (fp2ChunkDB e) "db1" && opened_as (fileName2metaDB e) "db2" &&
  opened_as (deltaChunkDB e) "db3" && opened_as (containerDB e) "db4" &&
  unlocked e "db1" && unlocked e "db2" && unlocked e "db3" && unlocked e "db4".

Lemma reopen_ok e : reopenable e = true ->
  open_databases (reopen e) toy_config (next_process e) = Ok e.
Proof.
  unfold reopenable. intros Hr. bools. unfold opened_as, unlocked in *. bools.
  destruct e as [[[o1|] n1] [[o2|] n2] [[o3|] n3] [[o4|] n4] f w]; try done.
  cbn [fp2ChunkDB fileName2metaDB deltaChunkDB containerDB dbName_ levelDBObj_ files] in *. subst.
  unfold open_databases, openDB. cbn [files next_process].
  change (getFp2ChunkDBName toy_config) with (str "db1").
  change (getFp2MetaDBame toy_config) with (str "db2").
  change (getdeltaChunkDBame toy_config) with (str "db3").
  change (getcontainerDBame toy_config) with (str "db4").
  repeat match goal with H : f !! _ = None |- _ => rewrite H; clear H end. reflexivity.
Qed.

Lemma toy_run_reopenable :
  match toy_main toy_open [[]; str "-c"; str "foo-0"] first_env with
  | Ok (e, _) => reopenable e = true
  | _ => False
  end.
Proof. vm_compute. reflexivity. Qed.

Lemma store_then_restore_witness :
  exists e1 e2, toy_main toy_open [[]; str "-c"; str "foo-0"] first_env = Ok (e1, []) /\
    toy_main (reopen e1) [[]; str "-rs"; str "foo-0"] (next_process e1) = Ok (e2, []) /\
    files e2 !! str "foo" = Some small_file.
Proof.
  destruct (store_then_restore toy_create toy_apply (fun _ _ _ => []) toy_MD5 (fun f => f) zero_mem
    zero_mem zero_body [NUL] [] (fun _ _ => zero_key) (fun _ => small_recipe) (fun _ => small_index)
    (fun _ => 0) toy_config 0 toy_params (str "foo") small_file [] toy_open first_env first_opened
    empty_storage ∅ [] toy_chunking_ready toy_session_ready) as (e1 & H1 & H2).
  pose proof toy_run_reopenable as Hre. exists e1.
  change (toy_main toy_open [[]; str "-c"; str "foo-0"] first_env = Ok (e1, [])) in H1.
  rewrite H1 in Hre. destruct (H2 (reopen e1) [] (reopen_ok e1 Hre)) as (e2 & H3 & _ & H4).
  exists e2. split; [exact H1|]. split; [exact H3|]. apply H4.
  apply (bool_decide_eq_true_1 _). vm_compute. reflexivity.
Defined.

Lemma restore_needs_the_file_witness :
  toy_main toy_open [[]; str "-rs"; str "bar-0"] first_env = Throw process_exit.
Proof.
  apply (restore_needs_the_file toy_create toy_apply (fun _ _ _ => []) toy_MD5 (fun f => f) zero_mem
    zero_mem zero_body [NUL] [] (fun _ _ => zero_key) (fun _ => small_recipe) (fun _ => small_index)
    (fun _ => 0) toy_config 0 [] (str "bar-0") toy_open first_env first_opened empty_storage
    empty_storage); reflexivity.
Defined.




