(* ===== verification/VersionTheorems.v ===== *)
(** * An archive of versions: the theorems

    What one process stores another restores, however many versions were
    stored in between; with two versions of a small file as the instance. *)

From S2P Require Import Prelude.
From S2P Require Import Bytes.
From S2P Require Import DataStructure.
From S2P Require Import Database.
From S2P Require Import Storage.
From S2P Require Import StorageSpec.
From S2P Require Import StorageRefine.
From S2P Require Import Recipe.
From S2P Require Import Crypto.
From S2P Require Import Config.
From S2P Require Import Chunking.
From S2P Require Import FileIndex.
From S2P Require Import Chunker.
From S2P Require Import ChunkerSpec.
From S2P Require Import Backup.
From S2P Require Import DeltaStore.
From S2P Require Import Compress.
From S2P Require Import CompressRefine.
From S2P Require Import Main.
From S2P Require Import Session.
From S2P Require Import MainRw.
From S2P Require Import Fixtures.
From S2P Require Import Versions.
From S2P Require Import MainTheorems.
From stdpp Require Import base tactics numbers list gmap strings.
From Stdlib Require Import Ascii ZArith Lia.

Open Scope Z_scope.

Section Archive.
Context {db : Type} `{LevelDB db, !LevelDBReliable db} `{EVP_DigestReliable}.
Context {mongo : Type} `{Mongo mongo}.
Context (delta_create delta_apply : bytes -> bytes -> bytes).
Context (extractSuperFeatures : bytes -> Z -> Z -> list bytes).
Context (MD5 : bytes -> bytes) (rm_Delta : gmap bytes bytes -> gmap bytes bytes).
Context (mem mem' : nat -> Z -> byte) (indet : Z -> byte) (stack stack' : bytes).
Context (uninit_key : nat -> Z -> keyForChunkHashDB_t).
Context (uninit_recipe : nat -> Recipe_t) (uninit_index : nat -> Index) (winFp0 : nat -> Z).
Context (config : Configure) (depth : nat) (p : ChunkerParams) (name : bytes).
Implicit Types (e : env db) (sc : StorageCore) (mg : mongo) (m : chunk_store).

Abbreviation run open := (main delta_create delta_apply extractSuperFeatures MD5 rm_Delta mem mem'
  indet stack stack' uninit_key uninit_recipe uninit_index winFp0 open config (S depth)).
Abbreviation path := (version_name name).
Abbreviation archive := (archive mem mem' config name).

(** C3: a process that stores the next version of a file with -c ends, and
    when it succeeds every version stored before is still in the archive, and
    the new one with the chunks of its file. *)
Theorem next_version_joins_archive (open : bytes -> option db) e0 e sc m (vs : list (list bytes))
    (file prog : bytes) mg :
  let cs := chunks_of p (winFp0 0%nat) file in
  next_ready MD5 mem mem' stack stack' uninit_key uninit_recipe winFp0 config p name open e0 e sc m vs file ->
  run open [prog; str "-c"; path (lengthZ vs)] e0 mg <> NoFuel /\
  forall e1 mg1, run open [prog; str "-c"; path (lengthZ vs)] e0 mg = Ok (e1, mg1) ->
    archive e1 (put_all m cs) (vs ++ [cs]).
Proof.
  intros cs Hr. pose proof (main_stores_next delta_create delta_apply extractSuperFeatures MD5 rm_Delta mem
    mem' indet stack stack' uninit_key uninit_recipe uninit_index winFp0 config depth p name open e0 e sc m
    vs file prog mg Hr) as Hruns.
  split; [intros E; by rewrite E in Hruns|]. intros e1 mg1 E. by rewrite E in Hruns.
Qed.

(** C2: from an archive -rs restores any of its versions, byte for byte when
    the version has no NUL, and leaves an archive with the same versions. *)
Theorem any_version_is_restored (open : bytes -> option db) e0 e m (vs : list (list bytes)) v cs
    (prog : bytes) mg :
  open_databases open config e0 = Ok e -> archive e m vs -> nthZ vs v = Some cs ->
  output_free config name -> (forall n, name <> str "." ++ n ++ str ".lock") ->
  ChunkerInit config = Ok p ->
  exists e1, run open [prog; str "-rs"; path v] e0 mg = Ok (e1, mg) /\
    files e1 !! name = Some (concat (masked <$> cs)) /\
    (no_nul (concat cs) -> files e1 !! name = Some (concat cs)) /\
    archive e1 m vs.
Proof.
  intros Ho Har Hcs Hof Hlock Hinit.
  destruct (main_rs_version delta_apply mem mem' indet uninit_recipe uninit_index config depth p name
    e m vs v cs mg Har Hcs Hof Hinit) as (e1 & Hrs & Hout & Har1).
  assert (Hname : files (close_databases e1) !! name = Some (concat (masked <$> cs))).
  { rewrite <- Hout. unfold close_databases, Database_destructor. cbn [files with_files].
    by rewrite !lookup_delete_ne by apply not_eq_sym, Hlock. }
  exists (close_databases e1). split; [|split; [exact Hname|split]].
  - destruct (ar_storage _ _ _ _ _ _ _ Har 0%nat) as (sc & Hn & _).
    assert (Hn' : new_storage mem mem' config 0 e0 = Ok sc).
    { destruct (open_databases_files _ _ _ _ Ho) as [Hf _]. rewrite <- Hn. unfold new_storage.
      apply StorageCore_new_files; intros; by rewrite Hf. }
    unfold main. rewrite Hn'. cbn [mbind outcome_bind]. rewrite Ho.
    cbn [mbind outcome_bind]. change (nthZ [prog; str "-rs"; path v] 1) with (Some (str "-rs")).
    change (nthZ [prog; str "-rs"; path v] 2) with (Some (path v)). cbn [in_bounds mbind outcome_bind].
    do 2 (rewrite bool_decide_eq_false_2 by done). rewrite bool_decide_eq_true_2 by done.
    by rewrite Hrs.
  - intros Hnn. by rewrite Hname, masked_all_no_nul.
  - exact (archive_quiet _ _ _ _ _ _ _ _ (close_quiet e1) Har1).
Qed.
End Archive.

(** ** Two versions of a small file *)

Definition second_file : bytes := str "the quick green fox the quick brown fox".
Definition first_chunks : list bytes := chunks_of toy_params 0 small_file.
Definition second_chunks : list bytes := chunks_of toy_params 0 second_file.

Abbreviation toy_archive := (archive zero_mem zero_mem toy_config (str "foo")).

Lemma empty_archive : toy_archive first_opened ∅ [].
Proof.
  split.
  - intros n. exists empty_storage. split; [reflexivity|]. split.
    + apply Repr_fresh; [|done]. split; (done || by left || by eexists).
    + split; try reflexivity. exact first_name_no_space.
  - by eexists.
  - done.
  - done.
  - intros v cs Hv. apply nthZ_lt in Hv. cbn in Hv. lia.
  - intros v Hv. apply lookup_singleton_ne. intros E. apply (f_equal lengthZ) in E.
    rewrite index_length in E by (cbn in Hv; lia). discriminate E.
Qed.

Lemma toy_chunking_ok file : file_ok toy_params 0 file -> lengthZ (chunks_of toy_params 0 file) < 2 ^ 31 ->
  chunking_ready toy_MD5 [NUL] [] (fun _ _ => zero_key) (fun _ => small_recipe) (fun _ => 0)
    toy_config toy_params file.
Proof. intros Hf Hn. split; try done; by left. Qed.

(** The first process. *)
Definition toy_c (open : bytes -> option (gmap bytes bytes)) (v : bytes) (e0 : env (gmap bytes bytes)) :
    outcome (env (gmap bytes bytes) * list document) := toy_main open [[]; str "-c"; v] e0.

Lemma first_ready :
  next_ready toy_MD5 zero_mem zero_mem [NUL] [] (fun _ _ => zero_key) (fun _ => small_recipe) (fun _ => 0)
    toy_config toy_params (str "foo") toy_open first_env first_opened empty_storage ∅ [] small_file.
Proof.
  split; try done; [exact empty_archive|exact toy_chunking_ready|].
  pose proof toy_session_ready as Hs.
  exact (session_file_ready _ _ _ _ _ _ _ _ _ _ _ _ Hs).
Qed.

(** The environments between the processes, by evaluation. *)
Definition result (r : outcome (env (gmap bytes bytes) * list document)) : env (gmap bytes bytes) :=
  match r with Ok (e, _) => e | _ => first_env end.
Definition after_first : env (gmap bytes bytes) := result (toy_c toy_open (str "foo-0") first_env).
Definition with_second : env (gmap bytes bytes) :=
  with_files (<[str "foo-1" := second_file]> (files after_first)) after_first.
Definition after_second : env (gmap bytes bytes) :=
  result (toy_c (reopen with_second) (str "foo-1") (next_process with_second)).

Definition succeeds (r : outcome (env (gmap bytes bytes) * list document)) : bool :=
  match r with Ok _ => true | _ => false end.

Lemma result_Ok r : succeeds r = true -> exists mg, r = Ok (result r, mg).
Proof. destruct r as [[e mg]| | |]; try done. intros _. by exists mg. Qed.

Lemma first_succeeds : succeeds (toy_c toy_open (str "foo-0") first_env) = true.
Proof. vm_cast_no_check (eq_refl true). Qed.
Lemma second_succeeds :
  succeeds (toy_c (reopen with_second) (str "foo-1") (next_process with_second)) = true.
Proof. vm_cast_no_check (eq_refl true). Qed.

(** A collision is looked for among the chunks and in the store. *)
Lemma collision_free_check m cs :
  Forall (fun c => Forall (fun c' => fp_of c = fp_of c' -> c = c') cs) cs ->
  forallb (fun c => match m !! fp_of c with Some (d, _) => bool_decide (d = masked c) | None => true end)
    cs = true ->
  collision_free m cs.
Proof.
  intros Hcs Hm. split; [by apply (collision_free_empty cs Hcs)|].
  intros c d r Hc Hd. rewrite forallb_forall in Hm. specialize (Hm c (proj1 (list_elem_of_In _ _) Hc)).
  rewrite Hd in Hm. by bools.
Qed.

Definition first_store : chunk_store := put_all ∅ first_chunks.
Definition second_store : chunk_store := put_all first_store second_chunks.

Lemma foo_0 : version_name (str "foo") (lengthZ (@nil (list bytes))) = str "foo-0".
Proof. reflexivity. Qed.
Lemma foo_1 : version_name (str "foo") (lengthZ [first_chunks]) = str "foo-1".
Proof. reflexivity. Qed.

Lemma first_archive : toy_archive after_first first_store [first_chunks].
Proof.
  destruct (result_Ok _ first_succeeds) as (mg & E). pose proof (main_stores_next toy_create toy_apply
    (fun _ _ _ => []) toy_MD5 (fun f => f) zero_mem zero_mem zero_body [NUL] [] (fun _ _ => zero_key)
    (fun _ => small_recipe) (fun _ => small_index) (fun _ => 0) toy_config 0 toy_params (str "foo")
    toy_open first_env first_opened empty_storage ∅ [] small_file [] ([] : list document) first_ready) as Hr.
  rewrite foo_0 in Hr. unfold toy_c, toy_main in E. rewrite E in Hr. exact Hr.
Qed.

Definition second_storage : StorageCore :=
  match new_storage zero_mem zero_mem toy_config 0 (next_process with_second) with
  | Ok sc => sc | _ => empty_storage end.

Lemma second_archive_input : toy_archive with_second first_store [first_chunks].
Proof. exact (archive_input zero_mem zero_mem toy_config (str "foo") after_first _ _ 1 second_file
         ltac:(lia) first_archive). Qed.

Lemma new_storage_next (mem mem' : nat -> Z -> byte) (config : Configure) (n : nat) (e : env (gmap bytes bytes)) :
  new_storage mem mem' config n (next_process e) = new_storage mem mem' config n e.
Proof. reflexivity. Qed.

Lemma second_new : new_storage zero_mem zero_mem toy_config 0 (next_process with_second) = Ok second_storage.
Proof.
  unfold second_storage. destruct (ar_storage _ _ _ _ _ _ _ second_archive_input 0%nat) as (sc & E & _).
  by rewrite new_storage_next, E.
Qed.

Lemma second_file_ready : file_ready (fun _ => 0) toy_params (str "foo-1") second_file with_second second_storage first_store.
Proof.
  split.
  - destruct (ar_storage _ _ _ _ _ _ _ second_archive_input 0%nat) as (sc & E & HR & _).
    rewrite <- new_storage_next, second_new in E.
    assert (second_storage = sc) as -> by congruence. exact HR.
  - apply (bool_decide_eq_true_1 _). vm_compute. reflexivity.
  - apply (ar_writable _ _ _ _ _ _ _ second_archive_input).
  - vm_compute. repeat split.
  - exact (ar_meta _ _ _ _ _ _ _ second_archive_input).
  - apply (bool_decide_eq_true_1 _). vm_compute. reflexivity.
  - apply (bool_decide_eq_true_1 _). vm_compute. reflexivity.
  - apply collision_free_check; [apply (bool_decide_eq_true_1 _)|]; vm_compute; reflexivity.
Qed.

Lemma second_ready :
  next_ready toy_MD5 zero_mem zero_mem [NUL] [] (fun _ _ => zero_key) (fun _ => small_recipe) (fun _ => 0)
    toy_config toy_params (str "foo") (reopen with_second) (next_process with_second) with_second
    second_storage first_store [first_chunks] second_file.
Proof.
  split.
  - apply reopen_ok. vm_cast_no_check (eq_refl true).
  - exact second_new.
  - exact second_archive_input.
  - vm_compute. reflexivity.
  - vm_compute. reflexivity.
  - apply toy_chunking_ok; [|vm_compute; reflexivity].
    split; [vm_compute; reflexivity|]. right. vm_compute. split; discriminate.
  - rewrite foo_1. exact second_file_ready.
  - vm_compute. split; reflexivity.
Qed.

Lemma next_version_joins_archive_witness :
  exists mg, toy_c (reopen with_second) (str "foo-1") (next_process with_second) = Ok (after_second, mg) /\
    toy_archive after_second second_store [first_chunks; second_chunks].
Proof.
  destruct (result_Ok _ second_succeeds) as (mg & E). exists mg. split; [exact E|].
  destruct (next_version_joins_archive toy_create toy_apply (fun _ _ _ => []) toy_MD5 (fun f => f) zero_mem
    zero_mem zero_body [NUL] [] (fun _ _ => zero_key) (fun _ => small_recipe) (fun _ => small_index)
    (fun _ => 0) toy_config 0 toy_params (str "foo") (reopen with_second) (next_process with_second)
    with_second second_storage first_store [first_chunks] second_file [] ([] : list document) second_ready)
    as [_ Hkept].
  rewrite foo_1 in Hkept. unfold toy_c, toy_main in E. exact (Hkept _ _ E).
Defined.

Lemma second_archive : toy_archive after_second second_store [first_chunks; second_chunks].
Proof.
  destruct (result_Ok _ second_succeeds) as (mg & E). pose proof (main_stores_next toy_create toy_apply
    (fun _ _ _ => []) toy_MD5 (fun f => f) zero_mem zero_mem zero_body [NUL] [] (fun _ _ => zero_key)
    (fun _ => small_recipe) (fun _ => small_index) (fun _ => 0) toy_config 0 toy_params (str "foo")
    (reopen with_second) (next_process with_second) with_second second_storage first_store [first_chunks]
    second_file [] ([] : list document) second_ready) as Hr.
  rewrite foo_1 in Hr. unfold toy_c, toy_main in E. rewrite E in Hr. exact Hr.
Qed.

Lemma foo_free : output_free toy_config (str "foo").
Proof.
  split; try done.
Qed.

(** The first version, after the second was stored. *)
Lemma any_version_is_restored_witness :
  exists e1, toy_main (reopen after_second) [[]; str "-rs"; str "foo-0"] (next_process after_second) =
      Ok (e1, []) /\ files e1 !! str "foo" = Some small_file.
Proof.
  assert (Hre : reopenable after_second = true) by (vm_cast_no_check (eq_refl true)).
  assert (Hcat : concat first_chunks = small_file) by (vm_compute; reflexivity).
  destruct (any_version_is_restored toy_create toy_apply (fun _ _ _ => []) toy_MD5 (fun f => f) zero_mem
    zero_mem zero_body [NUL] [] (fun _ _ => zero_key) (fun _ => small_recipe) (fun _ => small_index)
    (fun _ => 0) toy_config 0 toy_params (str "foo") (reopen after_second) (next_process after_second)
    after_second second_store [first_chunks; second_chunks] 0 first_chunks [] ([] : list document)
    (reopen_ok _ Hre) second_archive eq_refl foo_free) as (e1 & E & _ & Hout & _).
  - intros n E. discriminate E.
  - exact toy_init.
  - exists e1. split; [exact E|]. rewrite Hcat in Hout. apply Hout.
    apply (bool_decide_eq_true_1 _). vm_compute. reflexivity.
Defined.
