(* ===== verification/Coding.v ===== *)
(** * LevelDB: bits, integers in strings, status

    What the codecs need of bit operations, the integer encodings of
    util/coding.cc, and the status of util/status.cc. *)

From S2P Require Import Prelude.
From S2P Require Import Bytes.
From stdpp Require Import base tactics numbers list.
From Stdlib Require Import ZArith Lia.
From stdpp Require Import base tactics numbers list strings.
From Stdlib Require Import Ascii ZArith Lia.

Open Scope Z_scope.

(** * Bit operations as arithmetic

    Shifts, masks and disjoint [or]s on non-negative integers, as the codecs
    of LevelDB use them. *)

(** Bits that do not overlap are added. *)
Lemma land_disjoint a b n : 0 <= n -> 0 <= a < 2 ^ n -> Z.land a (b * 2 ^ n) = 0.
Proof.
  intros Hn Ha. apply Z.bits_inj'. intros i Hi.
  rewrite Z.land_spec, Z.bits_0, <- (Z.mod_small a (2 ^ n)) by done.
  destruct (Z.lt_ge_cases i n).
  - rewrite Z.mul_pow2_bits_low by lia. apply andb_false_r.
  - rewrite Z.mod_pow2_bits_high by lia. done.
Qed.

Lemma lxor_add a b n : 0 <= n -> 0 <= a < 2 ^ n -> Z.lxor a (b * 2 ^ n) = a + b * 2 ^ n.
Proof. intros. symmetry. by apply Z.add_nocarry_lxor, land_disjoint. Qed.

Lemma lor_add a b n : 0 <= n -> 0 <= a < 2 ^ n -> Z.lor a (b * 2 ^ n) = a + b * 2 ^ n.
Proof. intros. rewrite <- Z.lxor_lor by by apply land_disjoint. by apply lxor_add. Qed.

(** Exclusive or of numbers of [n] bits. *)
Lemma lxor_range a b n : 0 <= n -> 0 <= a < 2 ^ n -> 0 <= b < 2 ^ n -> 0 <= Z.lxor a b < 2 ^ n.
Proof.
  intros Hn Ha Hb. replace (Z.lxor a b) with (Z.lxor a b mod 2 ^ n);
    [apply Z.mod_pos_bound; lia|].
  apply Z.bits_inj'. intros i Hi. destruct (Z.lt_ge_cases i n).
  - by rewrite Z.mod_pow2_bits_low by lia.
  - rewrite Z.mod_pow2_bits_high, Z.lxor_spec by lia.
    rewrite <- (Z.mod_small a (2 ^ n)), <- (Z.mod_small b (2 ^ n)) by done.
    by rewrite !Z.mod_pow2_bits_high by lia.
Qed.

(** Equations between exclusive ors, bit by bit. *)
Ltac lxor_solve :=
  apply Z.bits_inj'; intros ? _; rewrite ?Z.lxor_spec, ?Z.bits_0;
  repeat match goal with |- context [Z.testbit ?x ?i] => destruct (Z.testbit x i) end; reflexivity.

Lemma lor_shiftl_add a b n : 0 <= n -> 0 <= a < 2 ^ n -> Z.lor a (Z.shiftl b n) = a + b * 2 ^ n.
Proof. intros. rewrite Z.shiftl_mul_pow2 by done. by apply lor_add. Qed.

Lemma lor_lt a b n : 0 <= n -> 0 <= a -> 0 <= b -> (Z.lor a b < 2 ^ n <-> a < 2 ^ n /\ b < 2 ^ n).
Proof.
  intros Hn Ha Hb. assert (Hs : forall x, 0 <= x -> (x < 2 ^ n <-> Z.shiftr x n = 0)).
  { intros x Hx. rewrite Z.shiftr_div_pow2 by done. symmetry. rewrite Z.div_small_iff by lia. lia. }
  rewrite !Hs by (done || by apply Z.lor_nonneg). by rewrite Z.shiftr_lor, Z.lor_eq_0_iff.
Qed.

(** The low bits of an [or] with the bit above them. *)
Lemma lor_bit_mod z n : 0 <= n -> Z.lor z (2 ^ n) mod 2 ^ (n + 1) = z mod 2 ^ n + 2 ^ n.
Proof.
  intros Hn. rewrite <- (Z.mul_1_l (2 ^ n)) at 3. rewrite <- lor_add; [|done|apply Z.mod_pos_bound; lia].
  apply Z.bits_inj'. intros i Hi. rewrite Z.mul_1_l, Z.lor_spec.
  destruct (Z.lt_ge_cases i (n + 1)).
  - rewrite Z.mod_pow2_bits_low, Z.lor_spec by lia. destruct (Z.eq_dec i n) as [->|].
    + by rewrite Z.pow2_bits_true, !orb_true_r by lia.
    + by rewrite Z.mod_pow2_bits_low by lia.
  - rewrite !Z.mod_pow2_bits_high by lia. by rewrite Z.pow2_bits_false by lia.
Qed.

Lemma lor_128_mod z : Z.lor z 128 mod 256 = z mod 128 + 128.
Proof. exact (lor_bit_mod z 7 ltac:(lia)). Qed.

Lemma land_127 z : Z.land z 127 = z mod 128.
Proof. exact (land_ones_mod z 7 ltac:(lia)). Qed.
Lemma land_255 z : Z.land z 255 = z mod 256.
Proof. exact (land_ones_mod z 8 ltac:(lia)). Qed.

(** The eighth bit of a byte. *)
Lemma land_128 z : 0 <= z < 256 -> (Z.land z 128 =? 0) = (z <? 128).
Proof.
  intros Hz. assert (Hb : Z.testbit z 7 = negb (z <? 128)).
  { rewrite Z.testbit_eqb by lia. change (2 ^ 7) with 128. destruct (Z.ltb_spec z 128).
    - by rewrite Z.div_small by lia.
    - replace (z / 128) with 1; [done|]. apply (Z.div_unique z 128 1 (z - 128)); lia. }
  assert (Hl : Z.land z 128 = if Z.testbit z 7 then 128 else 0).
  { change 128 with (2 ^ 7). apply Z.bits_inj'. intros i Hi. rewrite Z.land_spec.
    destruct (Z.eq_dec i 7) as [->|].
    - rewrite Z.pow2_bits_true, andb_true_r by lia. by destruct (Z.testbit z 7).
    - rewrite Z.pow2_bits_false, andb_false_r by lia.
      destruct (Z.testbit z 7); [by rewrite Z.pow2_bits_false by lia|by rewrite Z.bits_0]. }
  rewrite Hl, Hb. by destruct (z <? 128).
Qed.

(** * LevelDB: integers in strings (lib/leveldb/util/coding.h, coding.cc)

    Fixed-width and variable-width integers and length-prefixed slices.  A
    range [p, limit) and a [Slice] are the list of their bytes; a decoder gives
    the value and what is left, or [None] for its NULL or false. *)

(** ** Fixed width; [kLittleEndian] is the platform's *)

Section fixed.
Context (kLittleEndian : bool).

Definition EncodeFixed32 (value : Z) : bytes :=
  if kLittleEndian then le_bytes 4 value
  else [chr (Z.land value 255); chr (Z.land (Z.shiftr value 8) 255);
        chr (Z.land (Z.shiftr value 16) 255); chr (Z.land (Z.shiftr value 24) 255)].

Definition EncodeFixed64 (value : Z) : bytes :=
  if kLittleEndian then le_bytes 8 value
  else [chr (Z.land value 255); chr (Z.land (Z.shiftr value 8) 255);
        chr (Z.land (Z.shiftr value 16) 255); chr (Z.land (Z.shiftr value 24) 255);
        chr (Z.land (Z.shiftr value 32) 255); chr (Z.land (Z.shiftr value 40) 255);
        chr (Z.land (Z.shiftr value 48) 255); chr (Z.land (Z.shiftr value 56) 255)].

Definition PutFixed32 (dst : bytes) (value : Z) : bytes := dst ++ EncodeFixed32 value.
Definition PutFixed64 (dst : bytes) (value : Z) : bytes := dst ++ EncodeFixed64 value.

(** Without bounds checking: too short a buffer is read past its end. *)
Definition DecodeFixed32 (ptr : bytes) : outcome Z :=
  match ptr with
  | b0 :: b1 :: b2 :: b3 :: _ =>
      Ok (if kLittleEndian then le_value [b0; b1; b2; b3]
          else Z.lor (Z.lor (Z.lor (u8 b0) (u32 (Z.shiftl (u8 b1) 8)))
                 (u32 (Z.shiftl (u8 b2) 16))) (u32 (Z.shiftl (u8 b3) 24)))
  | _ => UB
  end.

Definition DecodeFixed64 (ptr : bytes) : outcome Z :=
  if kLittleEndian then
    _ ← require (8 <=? lengthZ ptr); Ok (le_value (takeZ 8 ptr))
  else
    lo ← DecodeFixed32 ptr;
    hi ← DecodeFixed32 (dropZ 4 ptr);
    Ok (Z.lor (u64 (Z.shiftl hi 32)) lo).
End fixed.

(** ** Variable width: seven bits a byte, the eighth says that more follow *)

Definition EncodeVarint32 (v : Z) : bytes :=
  let B := 128 in
  if v <? Z.shiftl 1 7 then [chr v]
  else if v <? Z.shiftl 1 14 then [chr (Z.lor v B); chr (Z.shiftr v 7)]
  else if v <? Z.shiftl 1 21 then
    [chr (Z.lor v B); chr (Z.lor (Z.shiftr v 7) B); chr (Z.shiftr v 14)]
  else if v <? Z.shiftl 1 28 then
    [chr (Z.lor v B); chr (Z.lor (Z.shiftr v 7) B); chr (Z.lor (Z.shiftr v 14) B);
     chr (Z.shiftr v 21)]
  else
    [chr (Z.lor v B); chr (Z.lor (Z.shiftr v 7) B); chr (Z.lor (Z.shiftr v 14) B);
     chr (Z.lor (Z.shiftr v 21) B); chr (Z.shiftr v 28)].

Definition PutVarint32 (dst : bytes) (v : Z) : bytes := dst ++ EncodeVarint32 v.

(** The loop of [EncodeVarint64]: ten bytes are enough for 64 bits. *)
Fixpoint varint64_loop (fuel : nat) (v : Z) : outcome bytes :=
  let B := 128 in
  match fuel with
  | O => NoFuel
  | S fuel' =>
      if B <=? v then
        rest ← varint64_loop fuel' (Z.shiftr v 7);
        Ok (chr (Z.lor (Z.land v (B - 1)) B) :: rest)
      else Ok [chr v]
  end.

Definition EncodeVarint64 (v : Z) : outcome bytes := varint64_loop 10 v.
Definition PutVarint64 (dst : bytes) (v : Z) : outcome bytes :=
  l ← EncodeVarint64 v; Ok (dst ++ l).

Definition PutLengthPrefixedSlice (dst value : bytes) : bytes :=
  PutVarint32 dst (u32 (lengthZ value)) ++ value.

Fixpoint varint_length_loop (fuel : nat) (v len : Z) : outcome Z :=
  match fuel with
  | O => NoFuel
  | S fuel' => if 128 <=? v then varint_length_loop fuel' (Z.shiftr v 7) (len + 1) else Ok len
  end.

Definition VarintLength (v : Z) : outcome Z := varint_length_loop 10 v 1.

(** The loop of the two decoders, for unsigned integers of [w] bits and a
    greatest shift of [last]. *)
Fixpoint varint_loop (w last shift result : Z) (p : bytes) : option (Z * bytes) :=
  match p with
  | [] => None
  | c :: p' =>
      if shift <=? last then
        let byte := u8 c in
        if negb (Z.land byte 128 =? 0) then
          varint_loop w last (shift + 7)
            (Z.lor result (Z.shiftl (Z.land byte 127) shift mod 2 ^ w)) p'
        else Some (Z.lor result (Z.shiftl byte shift mod 2 ^ w), p')
      else None
  end.

Definition GetVarint32PtrFallback (p : bytes) : option (Z * bytes) := varint_loop 32 28 0 0 p.

Definition GetVarint32Ptr (p : bytes) : option (Z * bytes) :=
  match p with
  | c :: p' =>
      let result := u8 c in
      if Z.land result 128 =? 0 then Some (result, p') else GetVarint32PtrFallback p
  | [] => GetVarint32PtrFallback p
  end.

Definition GetVarint32 (input : bytes) : option (Z * bytes) := GetVarint32Ptr input.
Definition GetVarint64Ptr (p : bytes) : option (Z * bytes) := varint_loop 64 63 0 0 p.
Definition GetVarint64 (input : bytes) : option (Z * bytes) := GetVarint64Ptr input.

(** [GetLengthPrefixedSlice], on pointers and on a [Slice]; the second returns
    the slice's new value too, which has lost the length when too little
    follows. *)
Definition GetLengthPrefixedSlicePtr (p : bytes) : option (bytes * bytes) :=
  '(len, q) ← GetVarint32Ptr p;
  if lengthZ q <? len then None else Some (takeZ len q, dropZ len q).

Definition GetLengthPrefixedSlice (input : bytes) : option bytes * bytes :=
  match GetVarint32 input with
  | Some (len, q) => if len <=? lengthZ q then (Some (takeZ len q), dropZ len q) else (None, q)
  | None => (None, input)
  end.

(** ** Correctness *)

(** Both byte orders give the same bytes. *)
Lemma EncodeFixed32_le le v : EncodeFixed32 le v = le_bytes 4 v.
Proof.
  destruct le; [done|]. unfold EncodeFixed32. rewrite !land_255, !Z.shiftr_div_pow2 by lia.
  cbn [le_bytes]. rewrite !Z.div_div by lia.
  assert (E : forall z, chr (z mod 256) = chr z).
  { intros z. unfold chr. by rewrite Z.mod_mod. }
  by rewrite !E.
Qed.

Lemma EncodeFixed64_le le v : EncodeFixed64 le v = le_bytes 8 v.
Proof.
  destruct le; [done|]. unfold EncodeFixed64. rewrite !land_255, !Z.shiftr_div_pow2 by lia.
  cbn [le_bytes]. rewrite !Z.div_div by lia.
  assert (E : forall z, chr (z mod 256) = chr z).
  { intros z. unfold chr. by rewrite Z.mod_mod. }
  by rewrite !E.
Qed.

Lemma DecodeFixed32_le le b0 b1 b2 b3 l :
  DecodeFixed32 le (b0 :: b1 :: b2 :: b3 :: l) = Ok (le_value [b0; b1; b2; b3]).
Proof.
  destruct le; [done|]. cbn [DecodeFixed32 le_value]. f_equal.
  pose proof (u8_range b0). pose proof (u8_range b1). pose proof (u8_range b2).
  pose proof (u8_range b3). rewrite !u32_small by (rewrite Z.shiftl_mul_pow2; lia).
  rewrite (lor_shiftl_add (u8 b0)), (lor_shiftl_add (u8 b0 + _)), lor_shiftl_add by lia. lia.
Qed.

Lemma DecodeFixed32_Encode le v l :
  0 <= v < 2 ^ 32 -> DecodeFixed32 le (EncodeFixed32 le v ++ l) = Ok v.
Proof.
  intros Hv. rewrite EncodeFixed32_le. cbn [le_bytes app]. rewrite DecodeFixed32_le. f_equal.
  exact (le_value_bytes_small 4 v Hv).
Qed.

Lemma DecodeFixed64_Encode le v l :
  0 <= v < 2 ^ 64 -> DecodeFixed64 le (EncodeFixed64 le v ++ l) = Ok v.
Proof.
  intros Hv. rewrite EncodeFixed64_le. destruct le.
  - unfold DecodeFixed64. rewrite lengthZ_app, le_bytes_lengthZ. pose proof (lengthZ_nonneg l).
    rewrite (proj2 (Z.leb_le _ _)) by lia. cbn [mbind outcome_bind require].
    rewrite takeZ_app_exact by done. f_equal. exact (le_value_bytes_small 8 v Hv).
  - unfold DecodeFixed64. change (le_bytes 8 v) with (le_bytes 4 v ++ le_bytes 4 (v / 256 / 256 / 256 / 256)).
    rewrite <- app_assoc, dropZ_app_exact by done.
    change (DecodeFixed32 false (le_bytes 4 v ++ le_bytes 4 (v / 256 / 256 / 256 / 256) ++ l))
      with (DecodeFixed32 false (chr v :: chr (v / 256) :: chr (v / 256 / 256) ::
              chr (v / 256 / 256 / 256) :: le_bytes 4 (v / 256 / 256 / 256 / 256) ++ l)).
    rewrite DecodeFixed32_le. cbn [mbind outcome_bind].
    change (le_value [chr v; chr (v / 256); chr (v / 256 / 256); chr (v / 256 / 256 / 256)])
      with (le_value (le_bytes 4 v)). rewrite le_value_bytes.
    rewrite !Z.div_div by lia. change (256 * (256 * (256 * 256))) with (2 ^ 32).
    set (w := v / 2 ^ 32). assert (0 <= w < 2 ^ 32).
    { split; [apply Z.div_pos; lia|apply Z.div_lt_upper_bound; lia]. }
    change (le_bytes 4 w ++ l) with (chr w :: chr (w / 256) :: chr (w / 256 / 256) ::
      chr (w / 256 / 256 / 256) :: l).
    rewrite DecodeFixed32_le. cbn [mbind outcome_bind]. f_equal.
    change (le_value _) with (le_value (le_bytes 4 w)). rewrite le_value_bytes_small by done.
    change (256 ^ Z.of_nat 4) with (2 ^ 32). rewrite u64_small by (rewrite Z.shiftl_mul_pow2; lia).
    rewrite Z.lor_comm, lor_shiftl_add by (try apply Z.mod_pos_bound; lia). unfold w.
    pose proof (Z.div_mod v (2 ^ 32)). lia.
Qed.

(** Seven bits a byte, written as arithmetic; [n] bytes may follow. *)
Fixpoint varint (n : nat) (v : Z) : bytes :=
  match n with
  | O => [chr v]
  | S n' => if v <? 128 then [chr v] else chr (v mod 128 + 128) :: varint n' (v / 128)
  end.

Lemma chr_mod a b : a mod 256 = b mod 256 -> chr a = chr b.
Proof. unfold chr. by intros ->. Qed.

Lemma chr_lor_128 v : chr (Z.lor v 128) = chr (v mod 128 + 128).
Proof.
  apply chr_mod. rewrite lor_128_mod. pose proof (Z.mod_pos_bound v 128).
  by rewrite (Z.mod_small (v mod 128 + 128)) by lia.
Qed.

Lemma EncodeVarint32_varint v : 0 <= v < 2 ^ 32 -> EncodeVarint32 v = varint 4 v.
Proof.
  intros Hv. unfold EncodeVarint32. cbn [varint]. rewrite !chr_lor_128, !Z.shiftr_div_pow2 by lia.
  rewrite !Z.div_div by lia.
  change (Z.shiftl 1 7) with 128. change (Z.shiftl 1 14) with (128 * 128).
  change (Z.shiftl 1 21) with (128 * (128 * 128)). change (Z.shiftl 1 28) with (128 * (128 * (128 * 128))).
  change (2 ^ 7) with 128. change (2 ^ 14) with (128 * 128). change (2 ^ 21) with (128 * (128 * 128)).
  change (2 ^ 28) with (128 * (128 * (128 * 128))).
  assert (E : forall d, 0 < d -> (v / d <? 128) = (v <? d * 128)).
  { intros d Hd. destruct (Z.ltb_spec v (d * 128)) as [H|H].
    - apply Z.ltb_lt, Z.div_lt_upper_bound; lia.
    - apply Z.ltb_ge, Z.div_le_lower_bound; lia. }
  rewrite !E by lia. change (128 * 128 * 128) with (128 * (128 * 128)).
  change (128 * (128 * 128) * 128) with (128 * (128 * (128 * 128))).
  by repeat (destruct (_ <? _)).
Qed.

Lemma varint64_loop_S fuel v :
  varint64_loop (S fuel) v =
    if 128 <=? v then
      rest ← varint64_loop fuel (Z.shiftr v 7); Ok (chr (Z.lor (Z.land v (128 - 1)) 128) :: rest)
    else Ok [chr v].
Proof. done. Qed.

Lemma varint64_loop_varint n v :
  0 <= v < 128 ^ (Z.of_nat n + 1) -> varint64_loop (S n) v = Ok (varint n v).
Proof.
  revert v. induction n as [|n IH]; intros v Hv; rewrite varint64_loop_S; cbn [varint].
  - change (128 ^ (Z.of_nat 0 + 1)) with 128 in Hv. by rewrite (proj2 (Z.leb_gt 128 v)) by lia.
  - destruct (Z.ltb_spec v 128); [by rewrite (proj2 (Z.leb_gt 128 v)) by lia|].
    rewrite (proj2 (Z.leb_le 128 v)) by lia. rewrite Z.shiftr_div_pow2 by lia. change (2 ^ 7) with 128.
    rewrite IH.
    + cbn [mbind outcome_bind]. do 2 f_equal. change (128 - 1) with 127.
      rewrite land_127, chr_lor_128. by rewrite Z.mod_mod.
    + rewrite Nat2Z.inj_succ, <- Z.add_1_r, (Z.pow_add_r 128 (Z.of_nat n + 1)) in Hv by lia.
      split; [apply Z.div_pos; lia|apply Z.div_lt_upper_bound; lia].
Qed.

Lemma varint_loop_varint n w last v shift result l :
  0 <= shift < w -> shift mod 7 = 0 -> (forall s, 0 <= s < w -> s mod 7 = 0 -> s <= last) ->
  0 <= result < 2 ^ shift -> 0 <= v < 2 ^ (w - shift) -> v < 128 ^ (Z.of_nat n + 1) ->
  varint_loop w last shift result (varint n v ++ l) = Some (result + v * 2 ^ shift, l).
Proof.
  intros Hs Hm Hlast Hr Hv Hn. revert v shift result Hs Hm Hr Hv Hn.
  assert (Hone : forall v shift result, 0 <= shift < w -> shift mod 7 = 0 -> 0 <= result < 2 ^ shift ->
    0 <= v < 2 ^ (w - shift) -> v < 128 ->
    varint_loop w last shift result (chr v :: l) = Some (result + v * 2 ^ shift, l)).
  { intros v shift result Hs Hm Hr Hv H7. cbn [varint_loop]. pose proof (Hlast shift Hs Hm).
    rewrite (proj2 (Z.leb_le _ _)) by lia. rewrite u8_chr, Z.mod_small by lia.
    rewrite land_128, (proj2 (Z.ltb_lt v 128)) by lia. cbn [negb].
    rewrite Z.mod_small; [by rewrite lor_shiftl_add by lia|]. rewrite Z.shiftl_mul_pow2 by lia.
    assert (2 ^ w = 2 ^ (w - shift) * 2 ^ shift) by (rewrite <- Z.pow_add_r by lia; f_equal; lia).
    nia. }
  induction n as [|n IH]; intros v shift result Hs Hm Hr Hv Hn; cbn [varint].
  { apply Hone; try done. }
  destruct (Z.ltb_spec v 128) as [|H7]; [by apply Hone|]. cbn [app varint_loop].
  pose proof (Hlast shift Hs Hm). pose proof (Z.mod_pos_bound v 128).
  rewrite (proj2 (Z.leb_le shift last)) by lia. rewrite u8_chr, Z.mod_small by lia.
  rewrite land_128, (proj2 (Z.ltb_ge (v mod 128 + 128) 128)) by lia. cbn [negb].
  rewrite land_127. replace ((v mod 128 + 128) mod 128) with (v mod 128)
    by (rewrite <- (Z.mul_1_l 128) at 3; by rewrite Z.mod_add, Z.mod_mod).
  assert (Hw : shift + 7 < w).
  { apply Z.nle_gt. intros Hle. assert (2 ^ (w - shift) <= 2 ^ 7); [apply Z.pow_le_mono_r; lia|lia]. }
  assert (Hsplit : 2 ^ (shift + 7) = 2 ^ shift * 128) by (rewrite Z.pow_add_r by lia; done).
  assert (2 ^ (shift + 7) <= 2 ^ w) by (apply Z.pow_le_mono_r; lia).
  rewrite (Z.mod_small (Z.shiftl _ _)) by (rewrite Z.shiftl_mul_pow2 by lia; nia).
  rewrite lor_shiftl_add by lia. rewrite IH.
  - f_equal. f_equal. rewrite Hsplit. pose proof (Z.div_mod v 128). nia.
  - lia.
  - rewrite <- (Z.mul_1_l 7) at 1. by rewrite Z.mod_add by lia.
  - rewrite Hsplit. nia.
  - split; [apply Z.div_pos; lia|]. apply Z.div_lt_upper_bound; [lia|].
    replace (w - (shift + 7)) with (w - shift - 7) by lia. change 128 with (2 ^ 7).
    rewrite <- Z.pow_add_r by lia. replace (7 + (w - shift - 7)) with (w - shift) by lia. lia.
  - rewrite Nat2Z.inj_succ, <- Z.add_1_r, (Z.pow_add_r 128 (Z.of_nat n + 1)) in Hn by lia.
    apply Z.div_lt_upper_bound; lia.
Qed.

(** ** Round trips *)

Lemma GetVarint32_Put v l :
  0 <= v < 2 ^ 32 -> GetVarint32 (EncodeVarint32 v ++ l) = Some (v, l).
Proof.
  intros Hv. rewrite EncodeVarint32_varint by done. unfold GetVarint32, GetVarint32Ptr.
  assert (Hfall : GetVarint32PtrFallback (varint 4 v ++ l) = Some (v, l)).
  { unfold GetVarint32PtrFallback. rewrite varint_loop_varint; [do 2 f_equal; lia|done|done|intros s ??; pose proof (Z.div_mod s 7); lia|done|done|].
    change (128 ^ (Z.of_nat 4 + 1)) with (2 ^ 35). lia. }
  cbn [varint] in *. destruct (Z.ltb_spec v 128); cbn [app].
  - rewrite u8_chr, Z.mod_small by lia. rewrite land_128, (proj2 (Z.ltb_lt v 128)) by lia. done.
  - rewrite u8_chr. pose proof (Z.mod_pos_bound v 128). rewrite (Z.mod_small (_ + _)) by lia.
    rewrite land_128, (proj2 (Z.ltb_ge _ 128)) by lia. exact Hfall.
Qed.

Lemma EncodeVarint64_varint v : 0 <= v < 2 ^ 64 -> EncodeVarint64 v = Ok (varint 9 v).
Proof.
  intros Hv. apply varint64_loop_varint. change (128 ^ (Z.of_nat 9 + 1)) with (2 ^ 70). lia.
Qed.

Lemma GetVarint64_Put v l :
  0 <= v < 2 ^ 64 -> exists b, EncodeVarint64 v = Ok b /\ GetVarint64 (b ++ l) = Some (v, l).
Proof.
  intros Hv. exists (varint 9 v). split; [by apply EncodeVarint64_varint|].
  unfold GetVarint64, GetVarint64Ptr. rewrite varint_loop_varint;
    [do 2 f_equal; lia|done|done|intros s ??; pose proof (Z.div_mod s 7); lia|done|done|].
  change (128 ^ (Z.of_nat 9 + 1)) with (2 ^ 70). lia.
Qed.

(** The length computed without encoding. *)
Lemma varint_length_spec n v len :
  0 <= v < 128 ^ (Z.of_nat n + 1) ->
  varint_length_loop (S n) v len = Ok (len + lengthZ (varint n v) - 1).
Proof.
  assert (E : forall f v len, varint_length_loop (S f) v len =
    if 128 <=? v then varint_length_loop f (Z.shiftr v 7) (len + 1) else Ok len) by done.
  revert v len. induction n as [|n IH]; intros v len Hv; rewrite E; cbn [varint].
  - change (128 ^ (Z.of_nat 0 + 1)) with 128 in Hv. rewrite (proj2 (Z.leb_gt 128 v)) by lia.
    f_equal. cbn [lengthZ]. lia.
  - destruct (Z.ltb_spec v 128).
    + rewrite (proj2 (Z.leb_gt 128 v)) by lia. f_equal. cbn [lengthZ]. lia.
    + rewrite (proj2 (Z.leb_le 128 v)), Z.shiftr_div_pow2 by lia. change (2 ^ 7) with 128.
      rewrite IH; [f_equal; cbn [lengthZ]; lia|].
      rewrite Nat2Z.inj_succ, <- Z.add_1_r, (Z.pow_add_r 128 (Z.of_nat n + 1)) in Hv by lia.
      split; [apply Z.div_pos; lia|apply Z.div_lt_upper_bound; lia].
Qed.

Lemma VarintLength_Encode v b :
  0 <= v < 2 ^ 64 -> EncodeVarint64 v = Ok b -> VarintLength v = Ok (lengthZ b).
Proof.
  intros Hv. rewrite EncodeVarint64_varint by done. intros Eb.
  assert (b = varint 9 v) as -> by congruence. unfold VarintLength.
  rewrite (varint_length_spec 9); [f_equal; lia|]. change (128 ^ (Z.of_nat 9 + 1)) with (2 ^ 70). lia.
Qed.

Lemma GetLengthPrefixedSlice_Put s l :
  lengthZ s < 2 ^ 32 ->
  GetLengthPrefixedSlice (PutLengthPrefixedSlice [] s ++ l) = (Some s, l) /\
  GetLengthPrefixedSlicePtr (PutLengthPrefixedSlice [] s ++ l) = Some (s, l).
Proof.
  intros Hs. pose proof (lengthZ_nonneg s). pose proof (lengthZ_nonneg l).
  unfold GetLengthPrefixedSlice, GetLengthPrefixedSlicePtr, PutLengthPrefixedSlice, PutVarint32.
  change (GetVarint32Ptr ?x) with (GetVarint32 x). rewrite u32_small by lia. cbn [app].
  rewrite <- app_assoc, GetVarint32_Put by lia. cbn [mbind option_bind].
  rewrite lengthZ_app, (proj2 (Z.leb_le _ _)), (proj2 (Z.ltb_ge _ _)) by lia.
  by rewrite takeZ_app_exact, dropZ_app_exact by done.
Qed.

(** ** Lengths *)

Lemma varint_lengthZ n v : 1 <= lengthZ (varint n v) <= Z.of_nat n + 1.
Proof.
  revert v. induction n as [|n IH]; intros v; cbn [varint]; [cbn; lia|].
  case_match; cbn [lengthZ]; [lia|]. specialize (IH (v / 128)). lia.
Qed.

Lemma EncodeVarint32_lengthZ v : 0 <= v < 2 ^ 32 -> 1 <= lengthZ (EncodeVarint32 v) <= 5.
Proof. intros Hv. rewrite EncodeVarint32_varint by done. apply (varint_lengthZ 4). Qed.

(** The first byte says whether it is the only one. *)
Lemma EncodeVarint32_first v :
  0 <= v < 2 ^ 32 -> exists b l, EncodeVarint32 v = b :: l /\ (v < 128 /\ u8 b = v /\ l = [] \/ 128 <= v /\ 128 <= u8 b).
Proof.
  intros Hv. rewrite EncodeVarint32_varint by done. cbn [varint]. pose proof (Z.mod_pos_bound v 128).
  destruct (Z.ltb_spec v 128); do 2 eexists; (split; [done|]); rewrite u8_chr, (Z.mod_small _ 256) by lia; [left; split_and!; (done || lia)|right; lia].
Qed.

(** * LevelDB: the result of an operation (lib/leveldb/include/leveldb/status.h, util/status.cc) *)

(** [state_]: NULL, or a code and a message. *)
Inductive Status : Type :=
  | Status_ok
  | NotFound (msg : bytes)
  | Corruption (msg : bytes)
  | NotSupported (msg : bytes)
  | InvalidArgument (msg : bytes)
  | IOError (msg : bytes).

#[export] Instance Status_eq_dec : EqDecision Status.
Proof. solve_decision. Defined.

(** The message of two parts. *)
Definition Status_message (msg msg2 : bytes) : bytes :=
  if negb (lengthZ msg2 =? 0) then msg ++ str ": " ++ msg2 else msg.

Definition ok (s : Status) : bool := match s with Status_ok => true | _ => false end.
Definition IsNotFound (s : Status) : bool := match s with NotFound _ => true | _ => false end.
Definition IsCorruption (s : Status) : bool := match s with Corruption _ => true | _ => false end.
Definition IsIOError (s : Status) : bool := match s with IOError _ => true | _ => false end.

Definition Status_ToString (s : Status) : bytes :=
  match s with
  | Status_ok => str "OK"
  | NotFound msg => str "NotFound: " ++ msg
  | Corruption msg => str "Corruption: " ++ msg
  | NotSupported msg => str "Not implemented: " ++ msg
  | InvalidArgument msg => str "Invalid argument: " ++ msg
  | IOError msg => str "IO error: " ++ msg
  end.

(** An error of the environment; its message is not modelled. *)
Definition env_error : Status := IOError [].

Lemma ok_spec s : ok s = true <-> s = Status_ok.
Proof. by destruct s. Qed.
