(* ===== verification/Comparator.v ===== *)
(** * LevelDB: slices and the order of keys (lib/leveldb/include/leveldb/slice.h,
      include/leveldb/comparator.h, util/comparator.cc)

    The class [Comparator] has the calls of the interface, the class
    [ComparatorLaws] what its header promises; tables and the memory table are
    proved against it.  [BytewiseComparator] is the instance LevelDB uses when
    it is not told another. *)

From S2P Require Import Prelude.
From S2P Require Import Bytes.
From stdpp Require Import base tactics numbers list strings.
From Stdlib Require Import Ascii ZArith Lia.

Open Scope Z_scope.

(** ** Three-way orders *)

(** Results of a comparison of which only the sign matters. *)
Class ThreeWay {K : Type} (cmp : K -> K -> Z) : Prop := {
  cmp_opp a b : Z.sgn (cmp b a) = - Z.sgn (cmp a b);
  cmp_trans a b c : cmp a b <= 0 -> cmp b c <= 0 -> cmp a c <= 0
}.

Section order.
Context {K : Type} {cmp : K -> K -> Z} `{!ThreeWay cmp}.

Lemma cmp_refl a : cmp a a = 0.
Proof. pose proof (cmp_opp a a). lia. Qed.
Lemma cmp_lt_gt a b : cmp a b < 0 <-> 0 < cmp b a.
Proof. pose proof (cmp_opp a b). lia. Qed.
Lemma cmp_le_ge a b : cmp a b <= 0 <-> 0 <= cmp b a.
Proof. pose proof (cmp_opp a b). lia. Qed.
Lemma cmp_eq_sym a b : cmp a b = 0 <-> cmp b a = 0.
Proof. pose proof (cmp_opp a b). lia. Qed.
Lemma cmp_le_lt_trans a b c : cmp a b <= 0 -> cmp b c < 0 -> cmp a c < 0.
Proof.
  intros Hab Hbc. pose proof (cmp_trans a b c). pose proof (cmp_trans c a b).
  pose proof (cmp_opp b c). pose proof (cmp_opp a c). lia.
Qed.
Lemma cmp_lt_le_trans a b c : cmp a b < 0 -> cmp b c <= 0 -> cmp a c < 0.
Proof.
  intros Hab Hbc. pose proof (cmp_trans a b c). pose proof (cmp_trans b c a).
  pose proof (cmp_opp a b). pose proof (cmp_opp a c). lia.
Qed.
Lemma cmp_lt_trans a b c : cmp a b < 0 -> cmp b c < 0 -> cmp a c < 0.
Proof. intros. eapply cmp_lt_le_trans; [done|lia]. Qed.
Lemma cmp_eq_l a b c : cmp a b = 0 -> Z.sgn (cmp a c) = Z.sgn (cmp b c).
Proof.
  intros E. pose proof (proj1 (cmp_eq_sym a b) E). pose proof (cmp_opp a c). pose proof (cmp_opp b c).
  pose proof (cmp_trans a b c). pose proof (cmp_trans b a c).
  pose proof (cmp_trans c a b). pose proof (cmp_trans c b a). lia.
Qed.
Lemma cmp_eq_r a b c : cmp a b = 0 -> Z.sgn (cmp c a) = Z.sgn (cmp c b).
Proof.
  intros E. pose proof (cmp_eq_l a b c E). pose proof (cmp_opp a c). pose proof (cmp_opp b c). lia.
Qed.
End order.

(** ** Slices *)

(** [memcmp]: the difference of the first bytes that differ. *)
Fixpoint memcmp_bytes (a b : bytes) : Z :=
  match a, b with
  | x :: a', y :: b' => if u8 x =? u8 y then memcmp_bytes a' b' else u8 x - u8 y
  | _, _ => 0
  end.

Definition memcmp (a b : bytes) (n : Z) : outcome Z :=
  _ ← require ((n <=? lengthZ a) && (n <=? lengthZ b));
  Ok (memcmp_bytes (takeZ n a) (takeZ n b)).

(** The length that is compared is an [int], which [memcmp] takes as a
    [size_t]. *)
Definition slice_compare (a b : bytes) : outcome Z :=
  let min_len := i32 (Z.min (lengthZ a) (lengthZ b)) in
  r ← memcmp a b (u64 min_len);
  if r =? 0 then
    if lengthZ a <? lengthZ b then Ok (-1)
    else if lengthZ b <? lengthZ a then Ok 1 else Ok r
  else Ok r.

Definition starts_with (a x : bytes) : outcome bool :=
  if lengthZ x <=? lengthZ a then r ← memcmp a x (lengthZ x); Ok (r =? 0) else Ok false.

Lemma memcmp_refl l : memcmp_bytes l l = 0.
Proof. induction l as [|x l IH]; [done|]. cbn [memcmp_bytes]. by rewrite Z.eqb_refl. Qed.

Lemma starts_with_app (x l : bytes) : starts_with (x ++ l) x = Ok true.
Proof.
  unfold starts_with. rewrite lengthZ_app. pose proof (lengthZ_nonneg l). rewrite (proj2 (Z.leb_le _ _)) by lia.
  unfold memcmp. rewrite bind_require by (rewrite (proj2 (Z.leb_le _ _)), Z.leb_refl by (rewrite lengthZ_app; lia); done).
  by rewrite takeZ_app_exact, takeZ_ge, memcmp_refl by (done || lia).
Qed.

(** ** The interface *)

Class Comparator (C : Type) := {
  comparator_Name : C -> bytes;
  Compare : C -> bytes -> bytes -> outcome Z;
  FindShortestSeparator : C -> bytes -> bytes -> outcome bytes;
  FindShortSuccessor : C -> bytes -> outcome bytes
}.

(** [key_valid]: the keys the comparator can be given.  A separator of two
    keys in order lies between them, the second excluded; of others it leaves
    the first alone. *)
Class ComparatorLaws (C : Type) `{Comparator C} (c : C) := {
  key_valid : bytes -> Prop;
  key_order : bytes -> bytes -> Z;
  key_order_ThreeWay :: ThreeWay key_order;
  Compare_valid a b : key_valid a -> key_valid b -> Compare c a b = Ok (key_order a b);
  separator_lt a b : key_valid a -> key_valid b -> key_order a b < 0 ->
    exists s, FindShortestSeparator c a b = Ok s /\ key_valid s /\ lengthZ s <= lengthZ a /\
      key_order a s <= 0 /\ key_order s b < 0;
  separator_ge a b : key_valid a -> key_valid b -> 0 <= key_order a b ->
    FindShortestSeparator c a b = Ok a;
  successor_ge a : key_valid a ->
    exists s, FindShortSuccessor c a = Ok s /\ key_valid s /\ lengthZ s <= lengthZ a /\ key_order a s <= 0
}.

(** ** BytewiseComparator *)

(** The length of the common prefix. *)
Fixpoint shared_prefix (a b : bytes) : Z :=
  match a, b with
  | x :: a', y :: b' => if u8 x =? u8 y then 1 + shared_prefix a' b' else 0
  | _, _ => 0
  end.

Definition bytewise_separator (start limit : bytes) : outcome bytes :=
  let min_length := Z.min (lengthZ start) (lengthZ limit) in
  let diff_index := shared_prefix start limit in
  if min_length <=? diff_index then Ok start
  else
    x ← in_bounds (nthZ start diff_index);
    y ← in_bounds (nthZ limit diff_index);
    if (u8 x <? 255) && (u8 x + 1 <? u8 y) then
      let start' := takeZ diff_index start ++ [chr (u8 x + 1)] in
      r ← slice_compare start' limit;
      _ ← assert_ (r <? 0);
      Ok start'
    else Ok start.

Fixpoint bytewise_successor (key : bytes) : bytes :=
  match key with
  | [] => []
  | b :: key' => if negb (u8 b =? 255) then [chr (u8 b + 1)] else b :: bytewise_successor key'
  end.

Inductive BytewiseComparatorImpl : Type := BytewiseComparator.

#[export] Instance bytewise_Comparator : Comparator BytewiseComparatorImpl := {
  comparator_Name _ := str "leveldb.BytewiseComparator";
  Compare _ := slice_compare;
  FindShortestSeparator _ := bytewise_separator;
  FindShortSuccessor _ key := Ok (bytewise_successor key)
}.

(** ** The lexicographic order of unsigned bytes *)

Fixpoint lex (a b : bytes) : Z :=
  match a, b with
  | [], [] => 0
  | [], _ :: _ => -1
  | _ :: _, [] => 1
  | x :: a', y :: b' => if u8 x =? u8 y then lex a' b' else u8 x - u8 y
  end.

#[export] Instance lex_ThreeWay : ThreeWay lex.
Proof.
  split.
  - induction a as [|x a IH]; intros [|y b]; cbn [lex]; [done..|].
    destruct (Z.eqb_spec (u8 x) (u8 y)) as [E|], (Z.eqb_spec (u8 y) (u8 x)); try lia. apply IH.
  - induction a as [|x a IH]; intros [|y b] [|z c]; cbn [lex]; try lia.
    destruct (Z.eqb_spec (u8 x) (u8 y)), (Z.eqb_spec (u8 y) (u8 z)), (Z.eqb_spec (u8 x) (u8 z));
      try lia. apply IH.
Qed.

Lemma lex_eq a b : lex a b = 0 <-> a = b.
Proof.
  revert b. induction a as [|x a IH]; intros [|y b]; cbn [lex]; try done.
  destruct (Z.eqb_spec (u8 x) (u8 y)) as [E|E].
  - rewrite IH, (u8_inj _ _ E). split; congruence.
  - split; [lia|]. intros [= -> ->]. lia.
Qed.

Lemma lex_app p a b : lex (p ++ a) (p ++ b) = lex a b.
Proof. induction p as [|x p IH]; cbn [lex app]; [done|]. by rewrite Z.eqb_refl. Qed.

(** The comparison of slices is the lexicographic one. *)
Lemma memcmp_lex a b :
  let n := Z.min (lengthZ a) (lengthZ b) in
  let r := memcmp_bytes (takeZ n a) (takeZ n b) in
  lex a b = (if r =? 0 then if lengthZ a <? lengthZ b then -1
    else if lengthZ b <? lengthZ a then 1 else r else r).
Proof.
  revert b. induction a as [|x a IH]; intros [|y b].
  - done.
  - cbn [lengthZ lex]. pose proof (lengthZ_nonneg b). rewrite (Z.min_l 0) by lia.
    cbn. by rewrite (proj2 (Z.ltb_lt 0 _)) by lia.
  - cbn [lengthZ lex]. pose proof (lengthZ_nonneg a). rewrite Z.min_r by lia.
    rewrite !takeZ_nonpos by lia. cbn [memcmp_bytes Z.eqb].
    rewrite (proj2 (Z.ltb_ge _ _)), (proj2 (Z.ltb_lt 0 _)) by lia. done.
  - cbn [lengthZ lex]. pose proof (lengthZ_nonneg a). pose proof (lengthZ_nonneg b).
    rewrite !takeZ_cons, Z.add_min_distr_l, Z.add_simpl_l by lia. cbn [memcmp_bytes].
    destruct (Z.eqb_spec (u8 x) (u8 y)).
    + assert (Hs : forall m n, (1 + m <? 1 + n) = (m <? n)).
      { intros m n. destruct (Z.ltb_spec m n), (Z.ltb_spec (1 + m) (1 + n)); (done || lia). }
      rewrite !Hs. apply IH.
    + by rewrite (proj2 (Z.eqb_neq _ 0)) by lia.
Qed.

Lemma slice_compare_lex a b :
  Z.min (lengthZ a) (lengthZ b) < 2 ^ 31 -> slice_compare a b = Ok (lex a b).
Proof.
  intros Hlen. pose proof (lengthZ_nonneg a). pose proof (lengthZ_nonneg b).
  unfold slice_compare, memcmp. rewrite i32_small, u64_small by lia.
  rewrite bind_require by (apply andb_true_iff; split; apply Z.leb_le; lia).
  cbn [mbind outcome_bind]. rewrite memcmp_lex. by repeat case_match.
Qed.

(** Where two strings part. *)
Lemma shared_prefix_spec a b :
  exists p a' b', a = p ++ a' /\ b = p ++ b' /\ lengthZ p = shared_prefix a b /\
    match a', b' with x :: _, y :: _ => u8 x <> u8 y | _, _ => True end.
Proof.
  revert b. induction a as [|x a IH]; intros b; [by exists [], [], b|].
  destruct b as [|y b]; [by exists [], (x :: a), []|]. cbn [shared_prefix].
  destruct (Z.eqb_spec (u8 x) (u8 y)) as [E|E]; [|by exists [], (x :: a), (y :: b)].
  destruct (IH b) as (p & a' & b' & -> & -> & Hp & Hne). apply u8_inj in E as <-.
  exists (x :: p), a', b'. cbn [lengthZ]. by rewrite Hp.
Qed.

Lemma shared_prefix_bounds a b :
  0 <= shared_prefix a b <= Z.min (lengthZ a) (lengthZ b).
Proof.
  destruct (shared_prefix_spec a b) as (p & a' & b' & Ha & Hb & <- & _).
  rewrite Ha, Hb, !lengthZ_app. pose proof (lengthZ_nonneg p). pose proof (lengthZ_nonneg a').
  pose proof (lengthZ_nonneg b'). lia.
Qed.

(** The separator is the first string, or the common prefix with the next byte
    of the first raised by one. *)
Lemma bytewise_separator_cases a b :
  lengthZ a < 2 ^ 31 ->
  (bytewise_separator a b = Ok a) \/
  (exists p x y a' b', a = p ++ x :: a' /\ b = p ++ y :: b' /\ u8 x + 1 < u8 y /\
     bytewise_separator a b = Ok (p ++ [chr (u8 x + 1)])).
Proof.
  intros Hlen. unfold bytewise_separator.
  destruct (shared_prefix_spec a b) as (p & a' & b' & -> & -> & <- & Hne).
  rewrite !lengthZ_app in *. pose proof (lengthZ_nonneg p).
  destruct (Z.leb_spec (Z.min (lengthZ p + lengthZ a') (lengthZ p + lengthZ b')) (lengthZ p)) as [|Hlt]; [by left|].
  destruct a' as [|x a']; [cbn [lengthZ] in Hlt; pose proof (lengthZ_nonneg b'); lia|].
  destruct b' as [|y b']; [cbn [lengthZ] in *; pose proof (lengthZ_nonneg a'); lia|].
  rewrite !nthZ_app_mid. cbn [in_bounds mbind outcome_bind].
  destruct ((u8 x <? 255) && (u8 x + 1 <? u8 y)) eqn:Eb; [bools|by left].
  right. exists p, x, y, a', b'. do 3 (split; [done|]).
  rewrite takeZ_app_exact by done.
  rewrite slice_compare_lex by (rewrite !lengthZ_app; cbn [lengthZ] in *; pose proof (lengthZ_nonneg a'); lia).
  cbn [mbind outcome_bind]. rewrite lex_app. cbn [lex]. pose proof (u8_range x). rewrite u8_chr, Z.mod_small by lia.
  rewrite (proj2 (Z.eqb_neq _ _)) by lia. rewrite bind_assert; [done|]. apply Z.ltb_lt. lia.
Qed.

Lemma lex_raised p x a' : u8 x < 255 -> lex (p ++ x :: a') (p ++ [chr (u8 x + 1)]) < 0.
Proof.
  intros. pose proof (u8_range x). rewrite lex_app. cbn [lex]. rewrite u8_chr, Z.mod_small by lia.
  rewrite (proj2 (Z.eqb_neq _ _)) by lia. lia.
Qed.

Lemma bytewise_successor_spec a :
  lengthZ (bytewise_successor a) <= lengthZ a /\ lex a (bytewise_successor a) <= 0.
Proof.
  induction a as [|b a [IH1 IH2]]; [done|]. cbn [bytewise_successor].
  destruct (Z.eqb_spec (u8 b) 255) as [E|E]; cbn [negb lengthZ lex].
  - rewrite Z.eqb_refl. split; [lia|done].
  - pose proof (u8_range b). pose proof (lengthZ_nonneg a). rewrite u8_chr, Z.mod_small by lia.
    rewrite (proj2 (Z.eqb_neq _ _)) by lia. lia.
Qed.

#[export, refine] Instance bytewise_laws (c : BytewiseComparatorImpl) :
  ComparatorLaws BytewiseComparatorImpl c := {
  key_valid a := lengthZ a < 2 ^ 31;
  key_order := lex
}.
Proof.
  - intros a b Ha Hb. apply slice_compare_lex. lia.
  - intros a b Ha Hb Hlt. cbn [FindShortestSeparator bytewise_Comparator].
    destruct (bytewise_separator_cases a b Ha) as [->|(p & x & y & a' & b' & -> & -> & Hxy & ->)].
    + exists a. rewrite cmp_refl. split_and!; (done || lia).
    + pose proof (u8_range y). pose proof (u8_range x). pose proof (lengthZ_nonneg a').
      exists (p ++ [chr (u8 x + 1)]). rewrite !lengthZ_app in *. cbn [lengthZ] in *.
      split; [done|]. split; [lia|]. split; [lia|].
      split; [apply Z.lt_le_incl, lex_raised; lia|].
      rewrite lex_app. cbn [lex]. rewrite u8_chr, Z.mod_small by lia.
      rewrite (proj2 (Z.eqb_neq _ _)); lia.
  - intros a b Ha Hb Hge. cbn [FindShortestSeparator bytewise_Comparator].
    destruct (bytewise_separator_cases a b Ha) as [->|(p & x & y & a' & b' & -> & -> & Hxy & ->)]; [done|].
    rewrite lex_app in Hge. cbn [lex] in Hge.
    rewrite (proj2 (Z.eqb_neq _ _)) in Hge by lia. lia.
  - intros a Ha. cbn [FindShortSuccessor bytewise_Comparator]. destruct (bytewise_successor_spec a).
    exists (bytewise_successor a). split_and!; (done || lia).
Defined.
