(* ===== verification/DbFormat.v ===== *)
(** * LevelDB: internal keys (lib/leveldb/db/dbformat.h, dbformat.cc)

    An internal key is a user key followed by a 64-bit tag, the sequence number
    of the write and its type.  Internal keys are ordered by user key, then from
    the newest to the oldest. *)

From S2P Require Import Prelude.
From S2P Require Import Bytes.
From S2P Require Import Coding.
From S2P Require Import Comparator.
From stdpp Require Import base tactics numbers list strings.
From Stdlib Require Import Ascii ZArith Lia.

Open Scope Z_scope.

(** Whether the machine is little endian. *)
Class Platform := kLittleEndian : bool.

Inductive ValueType : Type := kTypeDeletion | kTypeValue.

#[export] Instance ValueType_eq_dec : EqDecision ValueType.
Proof. solve_decision. Defined.

Definition value_type (t : ValueType) : Z :=
  match t with kTypeDeletion => 0 | kTypeValue => 1 end.

(** [static_cast<ValueType>(c)] for the values of the type. *)
Definition value_type_of (c : Z) : option ValueType :=
  if c =? 0 then Some kTypeDeletion else if c =? 1 then Some kTypeValue else None.

Definition kValueTypeForSeek : ValueType := kTypeValue.
Definition kMaxSequenceNumber : Z := Z.shiftl 1 56 - 1.

Record ParsedInternalKey : Type := mkParsed
  { pk_user_key : bytes; pk_sequence : Z; pk_type : ValueType }.

Definition PackSequenceAndType (seq : Z) (t : ValueType) : outcome Z :=
  _ ← assert_ (seq <=? kMaxSequenceNumber);
  _ ← assert_ (value_type t <=? value_type kValueTypeForSeek);
  Ok (Z.lor (u64 (Z.shiftl seq 8)) (value_type t)).

Section format.
Context {platform : Platform}.

Definition AppendInternalKey (result : bytes) (key : ParsedInternalKey) : outcome bytes :=
  tag ← PackSequenceAndType (pk_sequence key) (pk_type key);
  Ok (PutFixed64 kLittleEndian (result ++ pk_user_key key) tag).

Definition ExtractUserKey (internal_key : bytes) : outcome bytes :=
  _ ← assert_ (8 <=? lengthZ internal_key);
  Ok (takeZ (lengthZ internal_key - 8) internal_key).

(** The tag at the end of an internal key. *)
Definition internal_tag (internal_key : bytes) : outcome Z :=
  DecodeFixed64 kLittleEndian (dropZ (lengthZ internal_key - 8) internal_key).

Definition ExtractValueType (internal_key : bytes) : outcome (option ValueType) :=
  _ ← assert_ (8 <=? lengthZ internal_key);
  num ← internal_tag internal_key;
  Ok (value_type_of (Z.land num 255)).

Definition ParseInternalKey (internal_key : bytes) : outcome (option ParsedInternalKey) :=
  let n := lengthZ internal_key in
  if n <? 8 then Ok None
  else
    num ← internal_tag internal_key;
    Ok (t ← value_type_of (Z.land num 255);
        Some (mkParsed (takeZ (n - 8) internal_key) (Z.shiftr num 8) t)).

(** ** InternalKeyComparator *)

Record InternalKeyComparator (C : Type) : Type := mkInternalKeyComparator { user_comparator : C }.
Arguments mkInternalKeyComparator {C} _.
Arguments user_comparator {C} _.

Section comparator.
Context {C : Type} `{Comparator C}.
Implicit Types c : InternalKeyComparator C.

Definition internal_Compare c (akey bkey : bytes) : outcome Z :=
  ua ← ExtractUserKey akey;
  ub ← ExtractUserKey bkey;
  r ← Compare (user_comparator c) ua ub;
  if r =? 0 then
    anum ← internal_tag akey;
    bnum ← internal_tag bkey;
    Ok (if bnum <? anum then -1 else if anum <? bnum then 1 else r)
  else Ok r.

Definition internal_separator c (start limit : bytes) : outcome bytes :=
  user_start ← ExtractUserKey start;
  user_limit ← ExtractUserKey limit;
  tmp ← FindShortestSeparator (user_comparator c) user_start user_limit;
  r ← (if lengthZ tmp <? lengthZ user_start then Compare (user_comparator c) user_start tmp else Ok 0);
  if r <? 0 then
    tag ← PackSequenceAndType kMaxSequenceNumber kValueTypeForSeek;
    let tmp := PutFixed64 kLittleEndian tmp tag in
    r1 ← internal_Compare c start tmp;
    _ ← assert_ (r1 <? 0);
    r2 ← internal_Compare c tmp limit;
    _ ← assert_ (r2 <? 0);
    Ok tmp
  else Ok start.

Definition internal_successor c (key : bytes) : outcome bytes :=
  user_key ← ExtractUserKey key;
  tmp ← FindShortSuccessor (user_comparator c) user_key;
  r ← (if lengthZ tmp <? lengthZ user_key then Compare (user_comparator c) user_key tmp else Ok 0);
  if r <? 0 then
    tag ← PackSequenceAndType kMaxSequenceNumber kValueTypeForSeek;
    let tmp := PutFixed64 kLittleEndian tmp tag in
    r1 ← internal_Compare c key tmp;
    _ ← assert_ (r1 <? 0);
    Ok tmp
  else Ok key.

#[export] Instance internal_Comparator : Comparator (InternalKeyComparator C) := {
  comparator_Name _ := str "leveldb.InternalKeyComparator";
  Compare := internal_Compare;
  FindShortestSeparator := internal_separator;
  FindShortSuccessor := internal_successor
}.
End comparator.

(** ** LookupKey

    The array is of the form [klength userkey tag]; [kstart_] is where the
    user key starts in it. *)

Record LookupKey : Type := mkLookupKey { lk_start : bytes; lk_kstart : Z }.

Definition LookupKey_new (user_key : bytes) (s : Z) : outcome LookupKey :=
  let usize := lengthZ user_key in
  let klength := EncodeVarint32 (u32 (usize + 8)) in
  tag ← PackSequenceAndType s kValueTypeForSeek;
  Ok (mkLookupKey (klength ++ user_key ++ EncodeFixed64 kLittleEndian tag) (lengthZ klength)).

Definition memtable_key (k : LookupKey) : bytes := lk_start k.
Definition lookup_internal_key (k : LookupKey) : bytes := dropZ (lk_kstart k) (lk_start k).
Definition lookup_user_key (k : LookupKey) : bytes :=
  takeZ (lengthZ (lookup_internal_key k) - 8) (lookup_internal_key k).
End format.

Arguments mkInternalKeyComparator {C} _.
Arguments user_comparator {C} _.

(** ** Correctness *)

Definition user_part (k : bytes) : bytes := takeZ (lengthZ k - 8) k.
Definition tag_part (k : bytes) : Z := le_value (dropZ (lengthZ k - 8) k).

(** The internal key of a write. *)
Definition pack_tag (seq : Z) (t : ValueType) : Z := 256 * seq + value_type t.
Definition internal_key (user_key : bytes) (seq : Z) (t : ValueType) : bytes :=
  user_key ++ le_bytes 8 (pack_tag seq t).

Definition sequence_ok (seq : Z) : Prop := 0 <= seq < 2 ^ 56.

Lemma value_type_range t : 0 <= value_type t <= 1.
Proof. by destruct t. Qed.

Lemma value_type_of_value t : value_type_of (value_type t) = Some t.
Proof. by destruct t. Qed.

Lemma pack_tag_range seq t : sequence_ok seq -> 0 <= pack_tag seq t < 2 ^ 64.
Proof. unfold sequence_ok, pack_tag. pose proof (value_type_range t). lia. Qed.

Lemma pack_tag_inv seq t : pack_tag seq t mod 256 = value_type t /\ pack_tag seq t / 256 = seq.
Proof.
  unfold pack_tag. pose proof (value_type_range t).
  rewrite (Z.add_comm (256 * seq)), (Z.mul_comm 256), Z.mod_add, Z.div_add by lia.
  rewrite Z.mod_small, Z.div_small by lia. lia.
Qed.

Lemma PackSequenceAndType_ok seq t :
  sequence_ok seq -> PackSequenceAndType seq t = Ok (pack_tag seq t).
Proof.
  intros [Hs Hs']. unfold PackSequenceAndType. change kMaxSequenceNumber with (2 ^ 56 - 1).
  pose proof (value_type_range t).
  rewrite !bind_assert by (apply Z.leb_le; (done || change (value_type kValueTypeForSeek) with 1; lia)).
  rewrite u64_small by (rewrite Z.shiftl_mul_pow2; lia).
  rewrite Z.lor_comm, lor_shiftl_add by lia. unfold pack_tag. f_equal. lia.
Qed.

Lemma lengthZ_internal_key u seq t : lengthZ (internal_key u seq t) = lengthZ u + 8.
Proof. unfold internal_key. by rewrite lengthZ_app. Qed.

Lemma user_part_app u r : lengthZ r = 8 -> user_part (u ++ r) = u.
Proof. intros E. unfold user_part. rewrite lengthZ_app, E. apply takeZ_app_exact. lia. Qed.

Lemma tag_part_app u r : lengthZ r = 8 -> tag_part (u ++ r) = le_value r.
Proof. intros E. unfold tag_part. rewrite lengthZ_app, E, dropZ_app_exact; [done|lia]. Qed.

Lemma user_part_key u seq t : user_part (internal_key u seq t) = u.
Proof. by apply user_part_app. Qed.

Lemma tag_part_key u seq t : sequence_ok seq -> tag_part (internal_key u seq t) = pack_tag seq t.
Proof.
  intros Hs. unfold internal_key. rewrite tag_part_app by done.
  apply le_value_bytes_small, pack_tag_range, Hs.
Qed.

Lemma internal_key_split k : 8 <= lengthZ k -> k = user_part k ++ le_bytes 8 (tag_part k).
Proof.
  intros Hk. unfold user_part, tag_part.
  rewrite <- (takeZ_dropZ (lengthZ k - 8) k) at 1. f_equal.
  replace 8%nat with (length (dropZ (lengthZ k - 8) k)) at 1; [by rewrite le_bytes_value|].
  apply Nat2Z.inj. rewrite <- lengthZ_length, lengthZ_dropZ; lia.
Qed.

(** A string of at least eight bytes is the key its parts say. *)
Lemma tag_part_range k : 8 <= lengthZ k -> 0 <= tag_part k < 2 ^ 64.
Proof.
  intros Hk. unfold tag_part. pose proof (le_value_range (dropZ (lengthZ k - 8) k)) as Hr.
  rewrite lengthZ_dropZ in Hr by lia. replace (Z.max 0 _) with 8 in Hr by lia. exact Hr.
Qed.

(** The order of internal keys. *)
Definition internal_order (uo : bytes -> bytes -> Z) (a b : bytes) : Z :=
  let r := uo (user_part a) (user_part b) in
  if r =? 0 then
    if tag_part b <? tag_part a then -1 else if tag_part a <? tag_part b then 1 else 0
  else r.

#[export] Instance internal_order_ThreeWay uo : ThreeWay uo -> ThreeWay (internal_order uo).
Proof.
  intros Hu. split.
  - intros a b. unfold internal_order.
    pose proof (cmp_opp (cmp := uo) (user_part a) (user_part b)).
    destruct (Z.eqb_spec (uo (user_part a) (user_part b)) 0), (Z.eqb_spec (uo (user_part b) (user_part a)) 0); try lia.
    destruct (Z.ltb_spec (tag_part a) (tag_part b)), (Z.ltb_spec (tag_part b) (tag_part a)); lia.
  - intros a b c. unfold internal_order.
    set (x := user_part a). set (y := user_part b). set (z := user_part c).
    pose proof (cmp_trans (cmp := uo) x y z). pose proof (cmp_trans (cmp := uo) y z x).
    pose proof (cmp_trans (cmp := uo) z x y).
    pose proof (cmp_opp (cmp := uo) x y). pose proof (cmp_opp (cmp := uo) y z). pose proof (cmp_opp (cmp := uo) x z).
    destruct (Z.eqb_spec (uo x y) 0), (Z.eqb_spec (uo y z) 0), (Z.eqb_spec (uo x z) 0);
      repeat match goal with |- context [?m <? ?n] => destruct (Z.ltb_spec m n) end; lia.
Qed.

Lemma internal_tag_ok {platform : Platform} k :
  8 <= lengthZ k -> internal_tag k = Ok (tag_part k).
Proof.
  intros Hk. unfold internal_tag. pose proof (tag_part_range k Hk).
  rewrite (internal_key_split k Hk) at 2. rewrite dropZ_app_exact.
  - rewrite <- (EncodeFixed64_le kLittleEndian), <- (app_nil_r (EncodeFixed64 _ _)).
    by apply DecodeFixed64_Encode.
  - unfold user_part. rewrite lengthZ_takeZ; lia.
Qed.

Lemma ExtractUserKey_ok k : 8 <= lengthZ k -> ExtractUserKey k = Ok (user_part k).
Proof. intros Hk. unfold ExtractUserKey. by rewrite bind_assert by by apply Z.leb_le. Qed.

Section keys.
Context {platform : Platform}.

Lemma AppendInternalKey_ok r u seq t :
  sequence_ok seq -> AppendInternalKey r (mkParsed u seq t) = Ok (r ++ internal_key u seq t).
Proof.
  intros Hs. unfold AppendInternalKey, PutFixed64. cbn [pk_sequence pk_type pk_user_key].
  rewrite PackSequenceAndType_ok by done. cbn [mbind outcome_bind].
  by rewrite EncodeFixed64_le, <- app_assoc.
Qed.

Lemma ParseInternalKey_key u seq t :
  sequence_ok seq -> ParseInternalKey (internal_key u seq t) = Ok (Some (mkParsed u seq t)).
Proof.
  intros Hs. unfold ParseInternalKey. pose proof (lengthZ_internal_key u seq t) as Hl.
  pose proof (lengthZ_nonneg u). rewrite (proj2 (Z.ltb_ge _ _)) by lia.
  rewrite internal_tag_ok, tag_part_key by (done || lia). cbn [mbind outcome_bind].
  rewrite land_255, (proj1 (pack_tag_inv seq t)), value_type_of_value. cbn [mbind option_bind].
  rewrite Z.shiftr_div_pow2 by lia. change (2 ^ 8) with 256. rewrite (proj2 (pack_tag_inv seq t)).
  change (takeZ _ _) with (user_part (internal_key u seq t)). by rewrite user_part_key.
Qed.

Lemma LookupKey_new_ok u s :
  sequence_ok s -> lengthZ u + 8 < 2 ^ 32 ->
  exists k, LookupKey_new u s = Ok k /\
    memtable_key k = PutLengthPrefixedSlice [] (internal_key u s kValueTypeForSeek) /\
    lookup_internal_key k = internal_key u s kValueTypeForSeek /\ lookup_user_key k = u.
Proof.
  intros Hs Hlen. unfold LookupKey_new. rewrite PackSequenceAndType_ok by done. cbn [mbind outcome_bind].
  rewrite EncodeFixed64_le. eexists. split; [done|]. unfold memtable_key, lookup_user_key, lookup_internal_key.
  cbn [lk_start lk_kstart]. rewrite dropZ_app_exact by done.
  change (u ++ le_bytes 8 _) with (internal_key u s kValueTypeForSeek).
  split; [|split; [done|exact (user_part_key u s kValueTypeForSeek)]].
  unfold PutLengthPrefixedSlice, PutVarint32. cbn [app]. by rewrite lengthZ_internal_key.
Qed.
End keys.

(** ** The internal comparator keeps the promises of the interface

    provided the user's comparator does. *)

Section laws.
Context {platform : Platform} {C : Type} `{Comparator C} (c : C) `{!ComparatorLaws C c}.
Notation ikc := (mkInternalKeyComparator c).
Notation uorder := (key_order (c := c)).
Notation uvalid := (key_valid (c := c)).

Definition internal_valid (k : bytes) : Prop := 8 <= lengthZ k /\ uvalid (user_part k).

Lemma internal_key_valid u seq t : uvalid u -> internal_valid (internal_key u seq t).
Proof.
  intros Hu. split; [rewrite lengthZ_internal_key; pose proof (lengthZ_nonneg u); lia|].
  by rewrite user_part_key.
Qed.

Lemma internal_Compare_ok a b :
  internal_valid a -> internal_valid b -> internal_Compare ikc a b = Ok (internal_order uorder a b).
Proof.
  intros [Ha Hua] [Hb Hub]. unfold internal_Compare, internal_order.
  rewrite !ExtractUserKey_ok by done. cbn [mbind outcome_bind user_comparator].
  rewrite Compare_valid by done. cbn [mbind outcome_bind].
  destruct (Z.eqb_spec (uorder (user_part a) (user_part b)) 0) as [E|]; [|done].
  rewrite !internal_tag_ok by done. cbn [mbind outcome_bind]. rewrite E. by repeat case_match.
Qed.

(** A key with a shorter user key of which the order is settled by it. *)
Lemma shortened_key u :
  uvalid u ->
  exists k, PackSequenceAndType kMaxSequenceNumber kValueTypeForSeek = Ok k /\
    internal_valid (PutFixed64 kLittleEndian u k) /\
    lengthZ (PutFixed64 kLittleEndian u k) = lengthZ u + 8 /\
    forall a, (uorder (user_part a) u < 0 -> internal_order uorder a (PutFixed64 kLittleEndian u k) < 0) /\
      (uorder u (user_part a) < 0 -> internal_order uorder (PutFixed64 kLittleEndian u k) a < 0).
Proof.
  intros Hu. eexists. split; [by apply PackSequenceAndType_ok|].
  unfold PutFixed64. rewrite EncodeFixed64_le.
  change (u ++ le_bytes 8 _) with (internal_key u kMaxSequenceNumber kValueTypeForSeek).
  split; [by apply internal_key_valid|]. split; [apply lengthZ_internal_key|].
  intros a. unfold internal_order. rewrite user_part_key.
  split; intros Hlt; (rewrite (proj2 (Z.eqb_neq _ 0)) by lia; exact Hlt).
Qed.

Lemma user_part_length a : 8 <= lengthZ a -> lengthZ (user_part a) = lengthZ a - 8.
Proof. intros Ha. unfold user_part. rewrite lengthZ_takeZ; lia. Qed.

Lemma internal_separator_lt a b :
  internal_valid a -> internal_valid b -> internal_order uorder a b < 0 ->
  exists s, internal_separator ikc a b = Ok s /\ internal_valid s /\ lengthZ s <= lengthZ a /\
    internal_order uorder a s <= 0 /\ internal_order uorder s b < 0.
Proof.
  intros Va Vb Hlt. pose proof Va as [Ha Hua]. pose proof Vb as [Hb Hub].
  assert (Hself : exists s, Ok a = Ok s /\ internal_valid s /\ lengthZ s <= lengthZ a /\
    internal_order uorder a s <= 0 /\ internal_order uorder s b < 0).
  { exists a. rewrite cmp_refl. split_and!; (done || lia). }
  unfold internal_separator. rewrite !ExtractUserKey_ok by done. cbn [mbind outcome_bind user_comparator].
  assert (Hle : uorder (user_part a) (user_part b) <= 0).
  { unfold internal_order in Hlt. destruct (Z.eqb_spec (uorder (user_part a) (user_part b)) 0); lia. }
  destruct (Z.eq_dec (uorder (user_part a) (user_part b)) 0) as [E|E].
  - rewrite separator_ge by (done || lia). cbn [mbind outcome_bind].
    by rewrite (proj2 (Z.ltb_ge _ _)) by lia.
  - destruct (separator_lt (c := c) (user_part a) (user_part b)) as (tmp & -> & Vt & _ & Hge & Hlim); [done|done|lia|].
    cbn [mbind outcome_bind].
    destruct (Z.ltb_spec (lengthZ tmp) (lengthZ (user_part a))) as [Hshort|]; [|done].
    rewrite Compare_valid by done. cbn [mbind outcome_bind].
    destruct (Z.ltb_spec (uorder (user_part a) tmp) 0) as [Hgt|]; [|done].
    destruct (shortened_key tmp Vt) as (k & -> & Vk & Hk & Hord). cbn [mbind outcome_bind].
    rewrite !internal_Compare_ok by done. cbn [mbind outcome_bind].
    rewrite !bind_assert by (apply Z.ltb_lt; by apply Hord).
    eexists. split; [done|]. split; [done|]. rewrite user_part_length in Hshort by done.
    split; [lia|]. split; [apply Z.lt_le_incl|]; by apply Hord.
Qed.

Lemma internal_separator_ge a b :
  internal_valid a -> internal_valid b -> 0 <= internal_order uorder a b ->
  internal_separator ikc a b = Ok a.
Proof.
  intros [Ha Hua] [Hb Hub] Hge. unfold internal_separator.
  rewrite !ExtractUserKey_ok by done. cbn [mbind outcome_bind user_comparator].
  rewrite separator_ge; [|done|done|].
  - cbn [mbind outcome_bind]. by rewrite (proj2 (Z.ltb_ge _ _)) by lia.
  - unfold internal_order in Hge. destruct (Z.eqb_spec (uorder (user_part a) (user_part b)) 0); lia.
Qed.

Lemma internal_successor_ge a :
  internal_valid a ->
  exists s, internal_successor ikc a = Ok s /\ internal_valid s /\ lengthZ s <= lengthZ a /\
    internal_order uorder a s <= 0.
Proof.
  intros Va. pose proof Va as [Ha Hua].
  assert (Hself : exists s, Ok a = Ok s /\ internal_valid s /\ lengthZ s <= lengthZ a /\
    internal_order uorder a s <= 0).
  { exists a. rewrite cmp_refl. split_and!; (done || lia). }
  unfold internal_successor. rewrite !ExtractUserKey_ok by done. cbn [mbind outcome_bind user_comparator].
  destruct (successor_ge (c := c) (user_part a)) as (tmp & -> & Vt & _ & Hge); [done|].
  cbn [mbind outcome_bind].
  destruct (Z.ltb_spec (lengthZ tmp) (lengthZ (user_part a))) as [Hshort|]; [|done].
  rewrite Compare_valid by done. cbn [mbind outcome_bind].
  destruct (Z.ltb_spec (uorder (user_part a) tmp) 0) as [Hgt|]; [|done].
  destruct (shortened_key tmp Vt) as (k & -> & Vk & Hk & Hord). cbn [mbind outcome_bind].
  rewrite !internal_Compare_ok by done. cbn [mbind outcome_bind].
  rewrite !bind_assert by (apply Z.ltb_lt; by apply Hord).
  eexists. split; [done|]. split; [done|]. rewrite user_part_length in Hshort by done.
  split; [lia|]. apply Z.lt_le_incl. by apply Hord.
Qed.

#[export] Instance internal_laws : ComparatorLaws (InternalKeyComparator C) ikc := {
  key_valid := internal_valid;
  key_order := internal_order uorder;
  Compare_valid := internal_Compare_ok;
  separator_lt := internal_separator_lt;
  separator_ge := internal_separator_ge;
  successor_ge := internal_successor_ge
}.
End laws.
