(* ===== verification/Filename.v ===== *)
(** * LevelDB: the names of the files of a database (lib/leveldb/db/filename.h,
      filename.cc, and the numbers of util/logging.cc) *)

From S2P Require Import Prelude.
From S2P Require Import Bytes.
From S2P Require Import Comparator.
From stdpp Require Import base tactics numbers list strings.
From Stdlib Require Import Ascii ZArith Lia.

Open Scope Z_scope.

(** ** Decimal numbers *)

Definition NumberToString (num : Z) : bytes := to_string num.

Definition ConsumeChar (input : bytes) (c : byte) : bool * bytes :=
  match input with
  | b :: rest => if bool_decide (b = c) then (true, rest) else (false, input)
  | [] => (false, input)
  end.

Definition kMaxUint64 : Z := 2 ^ 64 - 1.

(** [None]: the number does not fit.  The value, how many digits, the rest. *)
Fixpoint consume_loop (v digits : Z) (input : bytes) : option (Z * Z * bytes) :=
  match input with
  | c :: rest =>
      if is_digit c then
        let delta := u8 c - 48 in
        if (kMaxUint64 / 10 <? v) || ((v =? kMaxUint64 / 10) && (kMaxUint64 mod 10 <? delta)) then None
        else consume_loop (v * 10 + delta) (digits + 1) rest
      else Some (v, digits, input)
  | [] => Some (v, digits, input)
  end.

(** [None]: false. *)
Definition ConsumeDecimalNumber (input : bytes) : option (Z * bytes) :=
  '(v, digits, rest) ← consume_loop 0 0 input;
  if 0 <? digits then Some (v, rest) else None.

(** ** Names *)

Inductive FileType : Type :=
  | kLogFile | kDBLockFile | kTableFile | kDescriptorFile | kCurrentFile | kTempFile | kInfoLogFile.

(** ["%06llu"] *)
Definition pad6 (number : Z) : bytes :=
  let digits := NumberToString number in replicate (6 - length digits) (chr 48) ++ digits.

Definition MakeFileName (name : bytes) (number : Z) (suffix : bytes) : bytes :=
  name ++ str "/" ++ pad6 number ++ str "." ++ suffix.

Definition LogFileName (name : bytes) (number : Z) : outcome bytes :=
  _ ← assert_ (0 <? number); Ok (MakeFileName name number (str "log")).
Definition TableFileName (name : bytes) (number : Z) : outcome bytes :=
  _ ← assert_ (0 <? number); Ok (MakeFileName name number (str "ldb")).
Definition SSTTableFileName (name : bytes) (number : Z) : outcome bytes :=
  _ ← assert_ (0 <? number); Ok (MakeFileName name number (str "sst")).
Definition DescriptorFileName (dbname : bytes) (number : Z) : outcome bytes :=
  _ ← assert_ (0 <? number); Ok (dbname ++ str "/MANIFEST-" ++ pad6 number).
Definition CurrentFileName (dbname : bytes) : bytes := dbname ++ str "/CURRENT".
Definition LockFileName (dbname : bytes) : bytes := dbname ++ str "/LOCK".
Definition TempFileName (dbname : bytes) (number : Z) : outcome bytes :=
  _ ← assert_ (0 <? number); Ok (MakeFileName dbname number (str "dbtmp")).
Definition InfoLogFileName (dbname : bytes) : bytes := dbname ++ str "/LOG".
Definition OldInfoLogFileName (dbname : bytes) : bytes := dbname ++ str "/LOG.old".

(** [None]: false. *)
Definition ParseFileName (fname : bytes) : outcome (option (Z * FileType)) :=
  if bool_decide (fname = str "CURRENT") then Ok (Some (0, kCurrentFile))
  else if bool_decide (fname = str "LOCK") then Ok (Some (0, kDBLockFile))
  else if bool_decide (fname = str "LOG") || bool_decide (fname = str "LOG.old") then Ok (Some (0, kInfoLogFile))
  else
    manifest ← starts_with fname (str "MANIFEST-");
    if manifest : bool then
      match ConsumeDecimalNumber (dropZ (lengthZ (str "MANIFEST-")) fname) with
      | Some (num, rest) => Ok (if bool_decide (rest = []) then Some (num, kDescriptorFile) else None)
      | None => Ok None
      end
    else
      match ConsumeDecimalNumber fname with
      | Some (num, suffix) =>
          Ok (if bool_decide (suffix = str ".log") then Some (num, kLogFile)
              else if bool_decide (suffix = str ".sst") || bool_decide (suffix = str ".ldb") then Some (num, kTableFile)
              else if bool_decide (suffix = str ".dbtmp") then Some (num, kTempFile)
              else None)
      | None => Ok None
      end.

(** ** Names are parsed *)

#[local] Arguments Z.mul : simpl never.
#[local] Arguments Z.pow : simpl never.

Definition all_digits (l : bytes) : Prop := Forall (fun b => is_digit b = true) l.
Definition no_digit_first (l : bytes) : Prop := match l with b :: _ => is_digit b = false | [] => True end.

Lemma digit_range b : is_digit b = true -> 0 <= u8 b - 48 < 10.
Proof. unfold is_digit. intros. bools. lia. Qed.

Lemma parse_digits_ge ds v : all_digits ds -> 0 <= v -> v <= parse_digits v ds.
Proof.
  intros Hd. revert v. induction Hd as [|b ds Hb _ IH]; intros v Hv; [done|]. cbn [parse_digits]. rewrite Hb.
  pose proof (digit_range b Hb). specialize (IH (10 * v + (u8 b - 48)) ltac:(lia)). lia.
Qed.

Lemma consume_loop_ok ds rest : forall v k,
  all_digits ds -> no_digit_first rest -> 0 <= v -> parse_digits v ds < 2 ^ 64 ->
  consume_loop v k (ds ++ rest) = Some (parse_digits v ds, k + lengthZ ds, rest).
Proof.
  induction ds as [|b ds IH]; intros v k Hd Hr Hv Hlt.
  - cbn [app parse_digits lengthZ]. rewrite Z.add_0_r. destruct rest as [|b rest]; [done|]. cbn [consume_loop]. cbn in Hr. by rewrite Hr.
  - apply Forall_cons in Hd as [Hb Hd]. cbn [app parse_digits lengthZ consume_loop] in *. rewrite Hb in Hlt |- *.
    pose proof (digit_range b Hb). pose proof (parse_digits_ge ds (10 * v + (u8 b - 48)) Hd ltac:(lia)).
    unfold kMaxUint64. change ((2 ^ 64 - 1) / 10) with 1844674407370955161. change ((2 ^ 64 - 1) mod 10) with 5.
    rewrite (proj2 (Z.ltb_ge _ _)) by lia. cbn [orb].
    destruct (Z.eqb_spec v 1844674407370955161); cbn [andb]; [rewrite (proj2 (Z.ltb_ge _ _)) by lia|].
    all: rewrite (Z.mul_comm v 10), IH by (done || lia); do 3 f_equal; lia.
Qed.

Lemma digits_acc_all fuel n acc : 0 <= n -> all_digits acc -> all_digits (digits_acc fuel n acc).
Proof.
  revert n acc. induction fuel as [|f IH]; intros n acc Hn Ha; [done|]. cbn [digits_acc].
  assert (Ha' : all_digits (chr (48 + n mod 10) :: acc)).
  { constructor; [|done]. apply is_digit_chr. apply Z.mod_pos_bound. lia. }
  destruct (n <? 10); [done|]. apply IH; [apply Z.div_pos; lia|done].
Qed.

Lemma NumberToString_digits n : 0 <= n < 2 ^ 64 ->
  all_digits (NumberToString n) /\ NumberToString n <> [] /\ parse_digits 0 (NumberToString n) = n.
Proof.
  intros Hn. unfold NumberToString, to_string. rewrite (proj2 (Z.ltb_ge n 0)) by lia.
  split; [apply digits_acc_all; [lia|constructor]|].
  pose proof (parse_unsigned_to_string n [] Hn (or_introl eq_refl)) as Hp.
  destruct (digits_acc_cons 20 n []) as (d & l & E & Hd); [lia|]. unfold parse_unsigned in Hp. rewrite E in *. rewrite Hd in Hp.
  split; [done|]. by injection Hp.
Qed.

Lemma pad6_digits n : 0 <= n < 2 ^ 64 -> all_digits (pad6 n) /\ pad6 n <> [] /\ parse_digits 0 (pad6 n) = n.
Proof.
  intros Hn. destruct (NumberToString_digits n Hn) as (Hd & Hne & Hv). unfold pad6.
  assert (Hz : forall k, parse_digits 0 (replicate k (chr 48) ++ NumberToString n) = n).
  { induction k as [|k IH]; [done|]. cbn [replicate app parse_digits].
    change (is_digit (chr 48)) with true. cbn iota. change (10 * 0 + (u8 (chr 48) - 48)) with 0. exact IH. }
  split; [|split; [by intros [_ ?]%app_eq_nil|apply Hz]].
  apply Forall_app. split; [|done]. apply Forall_forall. by intros b [-> _]%elem_of_replicate.
Qed.

Lemma ConsumeDecimalNumber_pad6 n rest :
  0 <= n < 2 ^ 64 -> no_digit_first rest -> ConsumeDecimalNumber (pad6 n ++ rest) = Some (n, rest).
Proof.
  intros Hn Hr. destruct (pad6_digits n Hn) as (Hd & Hne & Hv). unfold ConsumeDecimalNumber.
  rewrite consume_loop_ok by (done || lia). cbn [mbind option_bind]. rewrite Hv.
  rewrite (proj2 (Z.ltb_lt _ _)); [done|]. destruct (pad6 n); [done|]. cbn [lengthZ]. pose proof (lengthZ_nonneg l). lia.
Qed.

(** A name that begins with a digit is none of the others. *)
Lemma parse_numbered d l :
  is_digit d = true ->
  ParseFileName (d :: l) =
    match ConsumeDecimalNumber (d :: l) with
    | Some (num, suffix) =>
        Ok (if bool_decide (suffix = str ".log") then Some (num, kLogFile)
            else if bool_decide (suffix = str ".sst") || bool_decide (suffix = str ".ldb") then Some (num, kTableFile)
            else if bool_decide (suffix = str ".dbtmp") then Some (num, kTempFile)
            else None)
    | None => Ok None
    end.
Proof.
  intros Hd. assert (Hne : forall x s, is_digit x = false -> d :: l <> x :: s) by (intros x s Hx [= -> _]; congruence).
  unfold ParseFileName. rewrite !bool_decide_eq_false_2 by (apply Hne; done). cbn [orb].
  assert (E : starts_with (d :: l) (str "MANIFEST-") = Ok false); [|by rewrite E].
  unfold starts_with. destruct (Z.leb_spec (lengthZ (str "MANIFEST-")) (lengthZ (d :: l))) as [Hl|]; [|done].
  change (str "MANIFEST-") with (chr 77 :: str "ANIFEST-") in *. unfold memcmp.
  rewrite bind_require by (rewrite (proj2 (Z.leb_le _ _) Hl), Z.leb_refl; done). rewrite !takeZ_cons by (cbn; lia). cbn [memcmp_bytes].
  assert (Hx : u8 d <> u8 (chr 77)) by (intros ->%u8_inj; done).
  destruct (Z.eqb_spec (u8 d) (u8 (chr 77))); [done|]. cbn [mbind outcome_bind].
  by rewrite (proj2 (Z.eqb_neq _ 0)) by lia.
Qed.

Lemma numbered_cons n rest : 0 <= n < 2 ^ 64 -> exists d l, pad6 n ++ rest = d :: l /\ is_digit d = true.
Proof.
  intros Hn. destruct (pad6_digits n Hn) as (Hd & Hne & _). destruct (pad6 n) as [|d l]; [done|].
  apply Forall_cons in Hd as [Hd _]. by exists d, (l ++ rest).
Qed.

(** The name without the directory: of a numbered file of some kind. *)
Lemma ParseFileName_numbered n suffix t :
  0 <= n < 2 ^ 64 ->
  (suffix, t) ∈ [(str "log", kLogFile); (str "ldb", kTableFile); (str "sst", kTableFile); (str "dbtmp", kTempFile)] ->
  ParseFileName (pad6 n ++ str "." ++ suffix) = Ok (Some (n, t)).
Proof.
  intros Hn Hs. destruct (numbered_cons n (str "." ++ suffix) Hn) as (d & l & E & Hd).
  rewrite E, parse_numbered, <- E, ConsumeDecimalNumber_pad6 by done.
  repeat (apply elem_of_cons in Hs as [[= -> ->]|Hs]; [done|]). by apply elem_of_nil in Hs.
Qed.

Lemma ParseFileName_manifest n : 0 <= n < 2 ^ 64 -> ParseFileName (str "MANIFEST-" ++ pad6 n) = Ok (Some (n, kDescriptorFile)).
Proof.
  intros Hn. unfold ParseFileName. rewrite !bool_decide_eq_false_2 by done. cbn [orb].
  rewrite starts_with_app. cbn [mbind outcome_bind]. rewrite dropZ_app_exact by done.
  rewrite <- (app_nil_r (pad6 n)), ConsumeDecimalNumber_pad6 by done. done.
Qed.
