(* ===== verification/VersionEdit.v ===== *)
(** * LevelDB: version edits (lib/leveldb/db/version_edit.h, version_edit.cc)

    What the manifest records of a change of the set of files.  An edit is
    encoded as a sequence of tagged fields; decoding gives it back. *)

From S2P Require Import Prelude.
From S2P Require Import Bytes.
From S2P Require Import Coding.
From S2P Require Import DbFormat.
From stdpp Require Import base tactics numbers list sorting strings.
From Stdlib Require Import Ascii ZArith Lia.

Open Scope Z_scope.

(** [InternalKey]: its representation; empty when it is not valid. *)
Definition InternalKey_Encode (rep : bytes) : outcome bytes := _ ← assert_ (negb (lengthZ rep =? 0)); Ok rep.

Record FileMetaData : Type := mkFile
  { f_refs : Z; f_allowed_seeks : Z; f_number : Z; f_file_size : Z; f_smallest : bytes; f_largest : bytes }.

#[export] Instance FileMetaData_eq_dec : EqDecision FileMetaData.
Proof. solve_decision. Defined.

(** [FileMetaData()] with the fields that have no default. *)
Definition new_file (number file_size : Z) (smallest largest : bytes) : FileMetaData :=
  mkFile 0 (2 ^ 30) number file_size smallest largest.

Definition kNumLevels : Z := 7.

Inductive Tag : Type :=
  | kComparator | kLogNumber | kNextFileNumber | kLastSequence | kCompactPointer | kDeletedFile | kNewFile | kPrevLogNumber.

Definition tag_value (t : Tag) : Z :=
  match t with
  | kComparator => 1 | kLogNumber => 2 | kNextFileNumber => 3 | kLastSequence => 4
  | kCompactPointer => 5 | kDeletedFile => 6 | kNewFile => 7 | kPrevLogNumber => 9
  end.

(** [deleted_files_] is a set of pairs of a level and a number in ascending
    order. *)
Record VersionEdit : Type := mkEdit
  { comparator_ : bytes; log_number_ : Z; ve_prev_log_number : Z; ve_next_file_number : Z; ve_last_sequence : Z;
    has_comparator_ : bool; has_log_number_ : bool; has_prev_log_number_ : bool; has_next_file_number_ : bool;
    has_last_sequence_ : bool;
    compact_pointers_ : list (Z * bytes); deleted_files_ : list (Z * Z); new_files_ : list (Z * FileMetaData) }.
Implicit Types e : VersionEdit.

(** [Clear] keeps the compaction pointers. *)
Definition Clear_edit e : VersionEdit :=
  mkEdit [] 0 0 0 0 false false false false false (compact_pointers_ e) [] [].
Definition VersionEdit_new : VersionEdit := mkEdit [] 0 0 0 0 false false false false false [] [] [].

Definition SetComparatorName (name : bytes) e : VersionEdit :=
  mkEdit name (log_number_ e) (ve_prev_log_number e) (ve_next_file_number e) (ve_last_sequence e)
    true (has_log_number_ e) (has_prev_log_number_ e) (has_next_file_number_ e) (has_last_sequence_ e)
    (compact_pointers_ e) (deleted_files_ e) (new_files_ e).
Definition SetLogNumber (num : Z) e : VersionEdit :=
  mkEdit (comparator_ e) num (ve_prev_log_number e) (ve_next_file_number e) (ve_last_sequence e)
    (has_comparator_ e) true (has_prev_log_number_ e) (has_next_file_number_ e) (has_last_sequence_ e)
    (compact_pointers_ e) (deleted_files_ e) (new_files_ e).
Definition SetPrevLogNumber (num : Z) e : VersionEdit :=
  mkEdit (comparator_ e) (log_number_ e) num (ve_next_file_number e) (ve_last_sequence e)
    (has_comparator_ e) (has_log_number_ e) true (has_next_file_number_ e) (has_last_sequence_ e)
    (compact_pointers_ e) (deleted_files_ e) (new_files_ e).
Definition SetNextFile (num : Z) e : VersionEdit :=
  mkEdit (comparator_ e) (log_number_ e) (ve_prev_log_number e) num (ve_last_sequence e)
    (has_comparator_ e) (has_log_number_ e) (has_prev_log_number_ e) true (has_last_sequence_ e)
    (compact_pointers_ e) (deleted_files_ e) (new_files_ e).
Definition edit_SetLastSequence (seq : Z) e : VersionEdit :=
  mkEdit (comparator_ e) (log_number_ e) (ve_prev_log_number e) (ve_next_file_number e) seq
    (has_comparator_ e) (has_log_number_ e) (has_prev_log_number_ e) (has_next_file_number_ e) true
    (compact_pointers_ e) (deleted_files_ e) (new_files_ e).
Definition SetCompactPointer (level : Z) (key : bytes) e : VersionEdit :=
  mkEdit (comparator_ e) (log_number_ e) (ve_prev_log_number e) (ve_next_file_number e) (ve_last_sequence e)
    (has_comparator_ e) (has_log_number_ e) (has_prev_log_number_ e) (has_next_file_number_ e) (has_last_sequence_ e)
    (compact_pointers_ e ++ [(level, key)]) (deleted_files_ e) (new_files_ e).

Definition add_new_file (level : Z) (f : FileMetaData) e : VersionEdit :=
  mkEdit (comparator_ e) (log_number_ e) (ve_prev_log_number e) (ve_next_file_number e) (ve_last_sequence e)
    (has_comparator_ e) (has_log_number_ e) (has_prev_log_number_ e) (has_next_file_number_ e) (has_last_sequence_ e)
    (compact_pointers_ e) (deleted_files_ e) (new_files_ e ++ [(level, f)]).
Definition AddFile (level file file_size : Z) (smallest largest : bytes) e : VersionEdit :=
  add_new_file level (new_file file file_size smallest largest) e.

(** [std::set::insert], in the order of pairs. *)
Definition pair_lt (x y : Z * Z) : bool := (x.1 <? y.1) || ((x.1 =? y.1) && (x.2 <? y.2)).
Fixpoint set_insert (x : Z * Z) (l : list (Z * Z)) : list (Z * Z) :=
  match l with
  | [] => [x]
  | y :: l' => if pair_lt x y then x :: l else if pair_lt y x then y :: set_insert x l' else l
  end.

Definition DeleteFile (level file : Z) e : VersionEdit :=
  mkEdit (comparator_ e) (log_number_ e) (ve_prev_log_number e) (ve_next_file_number e) (ve_last_sequence e)
    (has_comparator_ e) (has_log_number_ e) (has_prev_log_number_ e) (has_next_file_number_ e) (has_last_sequence_ e)
    (compact_pointers_ e) (set_insert (level, file) (deleted_files_ e)) (new_files_ e).

(** ** EncodeTo *)

Definition put_tag (dst : bytes) (t : Tag) : bytes := PutVarint32 dst (tag_value t).

(** [for (...) dst = f(dst, x)] *)
Fixpoint put_each {A} (f : bytes -> A -> outcome bytes) (l : list A) (dst : bytes) : outcome bytes :=
  match l with [] => Ok dst | x :: l' => dst ← f dst x; put_each f l' dst end.

Definition put_pointer (dst : bytes) (p : Z * bytes) : outcome bytes :=
  key ← InternalKey_Encode p.2;
  Ok (PutLengthPrefixedSlice (PutVarint32 (put_tag dst kCompactPointer) (u32 p.1)) key).
Definition put_deleted (dst : bytes) (p : Z * Z) : outcome bytes :=
  PutVarint64 (PutVarint32 (put_tag dst kDeletedFile) (u32 p.1)) p.2.
Definition put_new_file (dst : bytes) (p : Z * FileMetaData) : outcome bytes :=
  let f := p.2 in
  dst ← PutVarint64 (PutVarint32 (put_tag dst kNewFile) (u32 p.1)) (f_number f);
  dst ← PutVarint64 dst (f_file_size f);
  smallest ← InternalKey_Encode (f_smallest f);
  largest ← InternalKey_Encode (f_largest f);
  Ok (PutLengthPrefixedSlice (PutLengthPrefixedSlice dst smallest) largest).

Definition VersionEdit_EncodeTo e (dst : bytes) : outcome bytes :=
  let dst := if has_comparator_ e then PutLengthPrefixedSlice (put_tag dst kComparator) (comparator_ e) else dst in
  dst ← (if has_log_number_ e then PutVarint64 (put_tag dst kLogNumber) (log_number_ e) else Ok dst);
  dst ← (if has_prev_log_number_ e then PutVarint64 (put_tag dst kPrevLogNumber) (ve_prev_log_number e) else Ok dst);
  dst ← (if has_next_file_number_ e then PutVarint64 (put_tag dst kNextFileNumber) (ve_next_file_number e) else Ok dst);
  dst ← (if has_last_sequence_ e then PutVarint64 (put_tag dst kLastSequence) (ve_last_sequence e) else Ok dst);
  dst ← put_each put_pointer (compact_pointers_ e) dst;
  dst ← put_each put_deleted (deleted_files_ e) dst;
  put_each put_new_file (new_files_ e) dst.

(** ** DecodeFrom *)

(** [GetLengthPrefixedSlice] of a [Slice], with what is left. *)
Definition get_slice (input : bytes) : option (bytes * bytes) :=
  let '(s, input) := GetLengthPrefixedSlice input in s ← s; Some (s, input).

Definition GetInternalKey (input : bytes) : option (bytes * bytes) := get_slice input.

Definition GetLevel (input : bytes) : option (Z * bytes) :=
  '(v, input) ← GetVarint32 input; if v <? kNumLevels then Some (v, input) else None.

(** The rest and the edit, or the message. *)
Definition decode_field (tag : Z) (input : bytes) e : bytes + (bytes * VersionEdit) :=
  let field (r : option (bytes * VersionEdit)) (msg : string) : bytes + (bytes * VersionEdit) :=
    match r with Some x => inr x | None => inl (str msg) end in
  if tag =? tag_value kComparator then
    field ('(s, input) ← get_slice input; Some (input, SetComparatorName s e)) "comparator name"
  else if tag =? tag_value kLogNumber then
    field ('(n, input) ← GetVarint64 input; Some (input, SetLogNumber n e)) "log number"
  else if tag =? tag_value kPrevLogNumber then
    field ('(n, input) ← GetVarint64 input; Some (input, SetPrevLogNumber n e)) "previous log number"
  else if tag =? tag_value kNextFileNumber then
    field ('(n, input) ← GetVarint64 input; Some (input, SetNextFile n e)) "next file number"
  else if tag =? tag_value kLastSequence then
    field ('(n, input) ← GetVarint64 input; Some (input, edit_SetLastSequence n e)) "last sequence number"
  else if tag =? tag_value kCompactPointer then
    field ('(level, input) ← GetLevel input; '(key, input) ← GetInternalKey input;
           Some (input, SetCompactPointer level key e)) "compaction pointer"
  else if tag =? tag_value kDeletedFile then
    field ('(level, input) ← GetLevel input; '(number, input) ← GetVarint64 input;
           Some (input, DeleteFile level number e)) "deleted file"
  else if tag =? tag_value kNewFile then
    field ('(level, input) ← GetLevel input; '(number, input) ← GetVarint64 input;
           '(file_size, input) ← GetVarint64 input; '(smallest, input) ← GetInternalKey input;
           '(largest, input) ← GetInternalKey input;
           Some (input, add_new_file level (new_file number file_size smallest largest) e)) "new-file entry"
  else inl (str "unknown tag").

Fixpoint decode_loop (fuel : nat) (input : bytes) e : outcome (option bytes * VersionEdit) :=
  match fuel with
  | O => NoFuel
  | S fuel' =>
      match GetVarint32 input with
      | Some (tag, input) =>
          match decode_field tag input e with
          | inr (input, e) => decode_loop fuel' input e
          | inl msg => Ok (Some msg, e)
          end
      | None => Ok (if lengthZ input =? 0 then None else Some (str "invalid tag"), e)
      end
  end.

(** The status and the edit; on an error it has the fields read before.  A
    field has at least a byte. *)
Definition VersionEdit_DecodeFrom (src : bytes) e : outcome (Status * VersionEdit) :=
  '(msg, e) ← decode_loop (S (length src)) src (Clear_edit e);
  Ok (match msg with Some msg => Corruption (Status_message (str "VersionEdit") msg) | None => Status_ok end, e).

(** ** The encoding is a sequence of fields *)

Inductive field : Type :=
  | FComparator (name : bytes) | FLogNumber (n : Z) | FPrevLogNumber (n : Z) | FNextFile (n : Z) | FLastSequence (n : Z)
  | FPointer (level : Z) (key : bytes) | FDeleted (level n : Z) | FNew (level : Z) (f : FileMetaData).

Definition level_bytes (level : Z) : bytes := EncodeVarint32 level.
Definition number_bytes (n : Z) : bytes := varint 9 n.
Definition key_bytes (key : bytes) : bytes := PutLengthPrefixedSlice [] key.

Definition field_tag (x : field) : Tag :=
  match x with
  | FComparator _ => kComparator | FLogNumber _ => kLogNumber | FPrevLogNumber _ => kPrevLogNumber
  | FNextFile _ => kNextFileNumber | FLastSequence _ => kLastSequence | FPointer _ _ => kCompactPointer
  | FDeleted _ _ => kDeletedFile | FNew _ _ => kNewFile
  end.

Definition field_body (x : field) : bytes :=
  match x with
  | FComparator name => key_bytes name
  | FLogNumber n | FPrevLogNumber n | FNextFile n | FLastSequence n => number_bytes n
  | FPointer level key => level_bytes level ++ key_bytes key
  | FDeleted level n => level_bytes level ++ number_bytes n
  | FNew level f => level_bytes level ++ number_bytes (f_number f) ++ number_bytes (f_file_size f) ++
      key_bytes (f_smallest f) ++ key_bytes (f_largest f)
  end.

Definition field_bytes (x : field) : bytes := EncodeVarint32 (tag_value (field_tag x)) ++ field_body x.

Definition apply_field e (x : field) : VersionEdit :=
  match x with
  | FComparator name => SetComparatorName name e
  | FLogNumber n => SetLogNumber n e
  | FPrevLogNumber n => SetPrevLogNumber n e
  | FNextFile n => SetNextFile n e
  | FLastSequence n => edit_SetLastSequence n e
  | FPointer level key => SetCompactPointer level key e
  | FDeleted level n => DeleteFile level n e
  | FNew level f => add_new_file level f e
  end.

Definition optional (b : bool) (x : field) : list field := if b then [x] else [].

Definition fields e : list field :=
  optional (has_comparator_ e) (FComparator (comparator_ e)) ++
  optional (has_log_number_ e) (FLogNumber (log_number_ e)) ++
  optional (has_prev_log_number_ e) (FPrevLogNumber (ve_prev_log_number e)) ++
  optional (has_next_file_number_ e) (FNextFile (ve_next_file_number e)) ++
  optional (has_last_sequence_ e) (FLastSequence (ve_last_sequence e)) ++
  ((fun p => FPointer p.1 p.2) <$> compact_pointers_ e) ++
  ((fun p => FDeleted p.1 p.2) <$> deleted_files_ e) ++
  ((fun p => FNew p.1 p.2) <$> new_files_ e).

Definition number_ok (n : Z) : Prop := 0 <= n < 2 ^ 64.
Definition level_ok (level : Z) : Prop := 0 <= level < kNumLevels.
Definition ikey_ok (key : bytes) : Prop := 0 < lengthZ key < 2 ^ 32.

Definition field_ok (x : field) : Prop :=
  match x with
  | FComparator name => lengthZ name < 2 ^ 32
  | FLogNumber n | FPrevLogNumber n | FNextFile n | FLastSequence n => number_ok n
  | FPointer level key => level_ok level /\ ikey_ok key
  | FDeleted level n => level_ok level /\ number_ok n
  | FNew level f => level_ok level /\ number_ok (f_number f) /\ number_ok (f_file_size f) /\
      ikey_ok (f_smallest f) /\ ikey_ok (f_largest f) /\ f = new_file (f_number f) (f_file_size f) (f_smallest f) (f_largest f)
  end.

(** ** Decoding *)

Lemma get_slice_Put s rest : lengthZ s < 2 ^ 32 -> get_slice (key_bytes s ++ rest) = Some (s, rest).
Proof. intros Hs. unfold get_slice, key_bytes. by rewrite (proj1 (GetLengthPrefixedSlice_Put s rest Hs)). Qed.

Lemma get_number n rest : number_ok n -> GetVarint64 (number_bytes n ++ rest) = Some (n, rest).
Proof.
  intros Hn. destruct (GetVarint64_Put n rest Hn) as (b & Eb & E). rewrite EncodeVarint64_varint in Eb by done. by injection Eb as <-.
Qed.

Lemma GetLevel_Put level rest : level_ok level -> GetLevel (level_bytes level ++ rest) = Some (level, rest).
Proof.
  unfold level_ok, kNumLevels. intros Hl. unfold GetLevel, level_bytes. rewrite GetVarint32_Put by lia. cbn [mbind option_bind].
  unfold kNumLevels. by rewrite (proj2 (Z.ltb_lt _ _)) by lia.
Qed.

Lemma decode_field_ok x rest e :
  field_ok x -> decode_field (tag_value (field_tag x)) (field_body x ++ rest) e = inr (rest, apply_field e x).
Proof.
  destruct x as [name|n|n|n|n|level key|level n|level f]; cbn [field_tag field_body field_ok apply_field];
    unfold decode_field; cbn [tag_value Z.eqb Pos.eqb]; intros Hx.
  - by rewrite get_slice_Put.
  - by rewrite get_number.
  - by rewrite get_number.
  - by rewrite get_number.
  - by rewrite get_number.
  - destruct Hx as [Hl [_ Hk]]. rewrite <- app_assoc, GetLevel_Put by done. cbn [mbind option_bind]. unfold GetInternalKey. by rewrite get_slice_Put.
  - destruct Hx as [Hl Hn]. rewrite <- app_assoc, GetLevel_Put by done. cbn [mbind option_bind]. by rewrite get_number.
  - destruct Hx as (Hl & Hn & Hsz & [_ Hs] & [_ Hb] & Ef). rewrite <- !app_assoc, GetLevel_Put by done. cbn [mbind option_bind].
    rewrite get_number by done. cbn [mbind option_bind]. rewrite get_number by done. cbn [mbind option_bind]. unfold GetInternalKey.
    rewrite get_slice_Put by done. cbn [mbind option_bind]. rewrite get_slice_Put by done. cbn [mbind option_bind]. by rewrite <- Ef.
Qed.

Lemma decode_fields xs fuel e :
  Forall field_ok xs -> (length xs < fuel)%nat -> decode_loop fuel (concat (field_bytes <$> xs)) e = Ok (None, foldl apply_field e xs).
Proof.
  intros Hx. revert fuel e. induction Hx as [|x xs Hx _ IH]; intros [|fuel] e Hf; cbn [length] in Hf; try lia; [done|].
  cbn [fmap list_fmap concat decode_loop foldl]. unfold field_bytes at 1. rewrite <- app_assoc, GetVarint32_Put by (by destruct x).
  rewrite decode_field_ok by done. by apply IH; lia.
Qed.

Lemma fields_length xs : (length xs <= length (concat (field_bytes <$> xs)))%nat.
Proof.
  induction xs as [|x xs IH]; [done|]. cbn [fmap list_fmap concat length]. rewrite length_app.
  assert (1 <= length (field_bytes x))%nat; [|lia]. unfold field_bytes. rewrite length_app.
  pose proof (EncodeVarint32_lengthZ (tag_value (field_tag x)) ltac:(by destruct x)) as Hl. rewrite lengthZ_length in Hl. lia.
Qed.

(** ** Encoding *)

Lemma PutVarint64_ok dst n : number_ok n -> PutVarint64 dst n = Ok (dst ++ number_bytes n).
Proof. intros Hn. unfold PutVarint64. by rewrite EncodeVarint64_varint. Qed.

Lemma PutLengthPrefixedSlice_key dst s : PutLengthPrefixedSlice dst s = dst ++ key_bytes s.
Proof. unfold key_bytes, PutLengthPrefixedSlice, PutVarint32. by rewrite <- app_assoc. Qed.

Lemma put_level dst t level : level_ok level -> PutVarint32 (put_tag dst t) (u32 level) = dst ++ EncodeVarint32 (tag_value t) ++ level_bytes level.
Proof. unfold level_ok, kNumLevels. intros Hl. rewrite u32_small by lia. unfold put_tag, PutVarint32. by rewrite <- app_assoc. Qed.

Lemma Encode_ok key : ikey_ok key -> InternalKey_Encode key = Ok key.
Proof.
  intros [Hk _]. unfold InternalKey_Encode. rewrite bind_assert; [done|]. by rewrite (proj2 (Z.eqb_neq _ 0)) by lia.
Qed.

Lemma put_each_ok {A} (f : bytes -> A -> outcome bytes) (g : A -> field) l :
  (forall dst x, x ∈ l -> f dst x = Ok (dst ++ field_bytes (g x))) ->
  forall dst, put_each f l dst = Ok (dst ++ concat (field_bytes <$> (g <$> l))).
Proof.
  induction l as [|x l IH]; intros Hf dst; cbn [put_each fmap list_fmap concat]; [by rewrite app_nil_r|].
  rewrite Hf by left. cbn [mbind outcome_bind]. rewrite IH by (intros; apply Hf; by right). by rewrite <- app_assoc.
Qed.

Lemma put_pointer_ok dst p : field_ok (FPointer p.1 p.2) -> put_pointer dst p = Ok (dst ++ field_bytes (FPointer p.1 p.2)).
Proof.
  intros [Hl Hk]. unfold put_pointer. rewrite Encode_ok by done. cbn [mbind outcome_bind].
  rewrite PutLengthPrefixedSlice_key, put_level by done. unfold field_bytes. cbn [field_tag field_body]. by rewrite <- !app_assoc.
Qed.

Lemma put_deleted_ok dst p : field_ok (FDeleted p.1 p.2) -> put_deleted dst p = Ok (dst ++ field_bytes (FDeleted p.1 p.2)).
Proof.
  intros [Hl Hn]. unfold put_deleted. rewrite PutVarint64_ok, put_level by done. unfold field_bytes.
  cbn [field_tag field_body]. by rewrite <- !app_assoc.
Qed.

Lemma put_new_file_ok dst p : field_ok (FNew p.1 p.2) -> put_new_file dst p = Ok (dst ++ field_bytes (FNew p.1 p.2)).
Proof.
  intros (Hl & Hn & Hsz & Hs & Hb & _). unfold put_new_file. rewrite PutVarint64_ok by done. cbn [mbind outcome_bind].
  rewrite PutVarint64_ok by done. cbn [mbind outcome_bind]. rewrite !Encode_ok by done. cbn [mbind outcome_bind].
  rewrite !PutLengthPrefixedSlice_key, put_level by done. unfold field_bytes. cbn [field_tag field_body]. by rewrite <- !app_assoc.
Qed.

(** A field that may be there. *)
Lemma put_optional (b : bool) dst t n x :
  field_bytes x = EncodeVarint32 (tag_value t) ++ number_bytes n -> (b = true -> number_ok n) ->
  (if b then PutVarint64 (put_tag dst t) n else Ok dst) = Ok (dst ++ concat (field_bytes <$> optional b x)).
Proof.
  intros E Hn. destruct b; cbn [optional fmap list_fmap concat]; [|by rewrite app_nil_r].
  rewrite PutVarint64_ok by by apply Hn. rewrite E, app_nil_r. unfold put_tag, PutVarint32. by rewrite <- app_assoc.
Qed.

Definition edit_ok e : Prop := Forall field_ok (fields e).

Lemma optional_ok (b : bool) x : Forall field_ok (optional b x) -> b = true -> field_ok x.
Proof. intros Hx ->. by apply Forall_cons in Hx as [Hx _]. Qed.

Lemma fields_in {A} (g : A -> field) l : Forall field_ok (g <$> l) -> forall x, x ∈ l -> field_ok (g x).
Proof. rewrite Forall_fmap, Forall_forall. auto. Qed.

Lemma VersionEdit_EncodeTo_ok e dst : edit_ok e -> VersionEdit_EncodeTo e dst = Ok (dst ++ concat (field_bytes <$> fields e)).
Proof.
  unfold edit_ok, fields. rewrite !Forall_app. intros (Hc & Hl & Hp & Hn & Hs & Hcp & Hdf & Hnf).
  unfold VersionEdit_EncodeTo. rewrite !fmap_app, !concat_app.
  assert (E1 : (if has_comparator_ e then PutLengthPrefixedSlice (put_tag dst kComparator) (comparator_ e) else dst) =
    dst ++ concat (field_bytes <$> optional (has_comparator_ e) (FComparator (comparator_ e)))).
  { destruct (has_comparator_ e); cbn [optional fmap list_fmap concat]; [|by rewrite app_nil_r].
    rewrite PutLengthPrefixedSlice_key, app_nil_r. unfold put_tag, PutVarint32, field_bytes. by rewrite <- app_assoc. }
  cbv zeta. rewrite E1.
  rewrite (put_optional _ _ kLogNumber _ (FLogNumber (log_number_ e)) eq_refl (optional_ok _ _ Hl)). cbn [mbind outcome_bind].
  rewrite (put_optional _ _ kPrevLogNumber _ (FPrevLogNumber (ve_prev_log_number e)) eq_refl (optional_ok _ _ Hp)). cbn [mbind outcome_bind].
  rewrite (put_optional _ _ kNextFileNumber _ (FNextFile (ve_next_file_number e)) eq_refl (optional_ok _ _ Hn)). cbn [mbind outcome_bind].
  rewrite (put_optional _ _ kLastSequence _ (FLastSequence (ve_last_sequence e)) eq_refl (optional_ok _ _ Hs)). cbn [mbind outcome_bind].
  rewrite (put_each_ok put_pointer (fun p => FPointer p.1 p.2)) by (intros; apply put_pointer_ok; by apply (fields_in _ _ Hcp)). cbn [mbind outcome_bind].
  rewrite (put_each_ok put_deleted (fun p => FDeleted p.1 p.2)) by (intros; apply put_deleted_ok; by apply (fields_in _ _ Hdf)). cbn [mbind outcome_bind].
  rewrite (put_each_ok put_new_file (fun p => FNew p.1 p.2)) by (intros; apply put_new_file_ok; by apply (fields_in _ _ Hnf)).
  by rewrite <- !app_assoc.
Qed.

(** ** The round trip *)

(** What is not set is as [Clear] left it, and the set is ordered. *)
Record edit_wf e : Prop := {
  ew_comparator : has_comparator_ e = false -> comparator_ e = [];
  ew_log : has_log_number_ e = false -> log_number_ e = 0;
  ew_prev : has_prev_log_number_ e = false -> ve_prev_log_number e = 0;
  ew_next : has_next_file_number_ e = false -> ve_next_file_number e = 0;
  ew_last : has_last_sequence_ e = false -> ve_last_sequence e = 0;
  ew_deleted : StronglySorted (fun x y => pair_lt x y = true) (deleted_files_ e)
}.

Lemma pair_lt_asym x y : pair_lt x y = true -> pair_lt y x = false.
Proof.
  unfold pair_lt. destruct x as [a b], y as [a' b']. cbn. destruct (Z.ltb_spec a a'), (Z.ltb_spec a' a), (Z.eqb_spec a a'), (Z.eqb_spec a' a),
    (Z.ltb_spec b b'), (Z.ltb_spec b' b); cbn; intros; (done || lia).
Qed.

Lemma set_insert_last l x : Forall (fun y => pair_lt y x = true) l -> set_insert x l = l ++ [x].
Proof.
  induction 1 as [|y l Hy _ IH]; [done|]. cbn [set_insert app]. rewrite (pair_lt_asym _ _ Hy), Hy. by rewrite IH.
Qed.

Lemma pair_lt_trans x y z : pair_lt x y = true -> pair_lt y z = true -> pair_lt x z = true.
Proof.
  unfold pair_lt. destruct x as [a b], y as [a' b'], z as [a'' b'']. cbn. rewrite !orb_true_iff, !andb_true_iff, !Z.ltb_lt, !Z.eqb_eq. lia.
Qed.

Definition with_lists (cp : list (Z * bytes)) (df : list (Z * Z)) (nf : list (Z * FileMetaData)) e : VersionEdit :=
  mkEdit (comparator_ e) (log_number_ e) (ve_prev_log_number e) (ve_next_file_number e) (ve_last_sequence e)
    (has_comparator_ e) (has_log_number_ e) (has_prev_log_number_ e) (has_next_file_number_ e) (has_last_sequence_ e) cp df nf.

Lemma apply_pointers l e :
  foldl apply_field e ((fun p => FPointer p.1 p.2) <$> l) = with_lists (compact_pointers_ e ++ l) (deleted_files_ e) (new_files_ e) e.
Proof.
  revert e. induction l as [|[level key] l IH]; intros e; cbn [fmap list_fmap foldl]; [rewrite app_nil_r; by destruct e|].
  rewrite IH. cbn. unfold with_lists. cbn. by rewrite <- app_assoc.
Qed.

Lemma apply_deleted l e :
  StronglySorted (fun x y => pair_lt x y = true) (deleted_files_ e ++ l) ->
  foldl apply_field e ((fun p => FDeleted p.1 p.2) <$> l) = with_lists (compact_pointers_ e) (deleted_files_ e ++ l) (new_files_ e) e.
Proof.
  revert e. induction l as [|[level n] l IH]; intros e Hs; cbn [fmap list_fmap foldl]; [rewrite app_nil_r; by destruct e|].
  assert (E : set_insert (level, n) (deleted_files_ e) = deleted_files_ e ++ [(level, n)]).
  { apply set_insert_last. apply StronglySorted_app in Hs as (Hs & _ & _). apply Forall_forall. intros y Hy. apply Hs; [done|by left]. }
  rewrite IH; cbn; rewrite E, <- app_assoc; done.
Qed.

Lemma apply_new l e :
  foldl apply_field e ((fun p => FNew p.1 p.2) <$> l) = with_lists (compact_pointers_ e) (deleted_files_ e) (new_files_ e ++ l) e.
Proof.
  revert e. induction l as [|[level f] l IH]; intros e; cbn [fmap list_fmap foldl]; [rewrite app_nil_r; by destruct e|].
  rewrite IH. cbn. unfold with_lists. cbn. by rewrite <- app_assoc.
Qed.

Lemma apply_fields e e0 :
  edit_wf e -> foldl apply_field (Clear_edit e0) (fields e) =
    with_lists (compact_pointers_ e0 ++ compact_pointers_ e) (deleted_files_ e) (new_files_ e) e.
Proof.
  intros [Hc Hl Hp Hn Hs Hd]. unfold fields. rewrite !foldl_app, apply_pointers, apply_deleted, apply_new.
  - destruct e as [cmp lg pl nf ls [] [] [] [] [] cp df nfs]; cbn in *; unfold with_lists; cbn; repeat f_equal;
      (done || by symmetry; auto).
  - destruct (has_comparator_ e), (has_log_number_ e), (has_prev_log_number_ e), (has_next_file_number_ e), (has_last_sequence_ e); exact Hd.
Qed.

Lemma VersionEdit_round_trip e e0 dst :
  edit_ok e -> edit_wf e ->
  exists b, VersionEdit_EncodeTo e dst = Ok (dst ++ b) /\
    VersionEdit_DecodeFrom b e0 =
      Ok (Status_ok, with_lists (compact_pointers_ e0 ++ compact_pointers_ e) (deleted_files_ e) (new_files_ e) e).
Proof.
  intros Hok Hwf. exists (concat (field_bytes <$> fields e)). split; [by apply VersionEdit_EncodeTo_ok|].
  unfold VersionEdit_DecodeFrom. rewrite decode_fields; [|done|pose proof (fields_length (fields e)); lia].
  cbn [mbind outcome_bind]. by rewrite apply_fields.
Qed.
