(* ===== verification/Log.v ===== *)
(** * LevelDB: the log (lib/leveldb/db/log_format.h, log_writer.cc, log_reader.cc)

    Records are cut into fragments that do not cross a block of 32 KB; each
    has a header with a masked checksum, a length and a type.  The files are
    the two interfaces [WritableFile] and [SequentialFile] of LevelDB; a
    status is a Boolean.  Addresses matter to the checksum's alignment only:
    [addr] gives that of a buffer. *)

From S2P Require Import Prelude.
From S2P Require Import Bytes.
From S2P Require Import Coding.
From S2P Require Import Crc32c.
From stdpp Require Import base tactics numbers list strings.
From Stdlib Require Import Ascii ZArith Lia.

Open Scope Z_scope.

(** ** Format *)

Inductive RecordType : Type := kZeroType | kFullType | kFirstType | kMiddleType | kLastType.

Definition type_value (t : RecordType) : Z :=
  match t with
  | kZeroType => 0 | kFullType => 1 | kFirstType => 2 | kMiddleType => 3 | kLastType => 4
  end.

#[export] Instance RecordType_eq_dec : EqDecision RecordType.
Proof. solve_decision. Defined.

Definition kMaxRecordType : Z := type_value kLastType.
Definition kBlockSize : Z := 32768.
Definition kHeaderSize : Z := 4 + 1 + 2.

(** ** Files *)

Class WritableFile (F : Type) := {
  Append : F -> bytes -> bool * F;
  Flush : F -> bool * F
}.

Class SequentialFile (G : Type) := {
  Read : G -> Z -> bool * bytes * G;
  Skip : G -> Z -> bool * G
}.

(** ** Writer *)

Section Writer.
Context (kLittleEndian : bool) (addr : bytes -> Z).
Context {F : Type} `{WritableFile F}.

Record Writer : Type := mkWriter { dest_ : F; block_offset_ : Z; type_crc_ : list Z }.
Implicit Types w : Writer.

Definition Writer_new (dest : F) : Writer :=
  mkWriter dest 0 ((fun i => let t := [chr i] in Value (addr t) t) <$> seqZ 0 (kMaxRecordType + 1)).

Definition EmitPhysicalRecord (t : RecordType) (ptr : bytes) w : outcome (bool * Writer) :=
  let n := lengthZ ptr in
  _ ← assert_ (n <=? 65535);
  _ ← assert_ (block_offset_ w + kHeaderSize + n <=? kBlockSize);
  tcrc ← in_bounds (nthZ (type_crc_ w) (type_value t));
  let crc := Mask (Extend (addr ptr) tcrc ptr) in
  let buf := EncodeFixed32 kLittleEndian crc ++
    [chr (Z.land n 255); chr (Z.shiftr n 8); chr (type_value t)] in
  let '(s, d1) := Append (dest_ w) buf in
  let '(s, d2) :=
    if (s : bool) then
      let '(s, d2) := Append d1 ptr in
      if (s : bool) then Flush d2 else (s, d2)
    else (s, d1) in
  Ok (s, mkWriter d2 (block_offset_ w + (kHeaderSize + n)) (type_crc_ w)).

(** Switch to a new block when there is no room for a header; the status of
    the trailer is not looked at. *)
Definition fill_trailer w : outcome Writer :=
  let leftover := kBlockSize - block_offset_ w in
  _ ← assert_ (0 <=? leftover);
  if leftover <? kHeaderSize then
    let d := if 0 <? leftover then (Append (dest_ w) (takeZ leftover (replicate 6 NUL))).2
             else dest_ w in
    Ok (mkWriter d 0 (type_crc_ w))
  else Ok w.

Definition fragment_type (begin end_ : bool) : RecordType :=
  if begin && end_ then kFullType
  else if begin then kFirstType
  else if end_ then kLastType
  else kMiddleType.

(** The loop of [AddRecord]: a turn emits at least one byte, unless only a
    header fits in the block of the first turn. *)
Fixpoint add_loop (fuel : nat) (ptr : bytes) (begin : bool) w : outcome (bool * Writer) :=
  match fuel with
  | O => NoFuel
  | S fuel' =>
      w1 ← fill_trailer w;
      _ ← assert_ (0 <=? kBlockSize - block_offset_ w1 - kHeaderSize);
      let left := lengthZ ptr in
      let avail := kBlockSize - block_offset_ w1 - kHeaderSize in
      let fragment_length := if left <? avail then left else avail in
      let end_ := left =? fragment_length in
      '(s, w2) ← EmitPhysicalRecord (fragment_type begin end_) (takeZ fragment_length ptr) w1;
      let rest := dropZ fragment_length ptr in
      if (s : bool) && (0 <? lengthZ rest) then add_loop fuel' rest false w2 else Ok (s, w2)
  end.

Definition AddRecord (slice : bytes) w : outcome (bool * Writer) :=
  add_loop (2 + length slice) slice true w.
End Writer.
Arguments Writer F : clear implicits.
Arguments mkWriter {F} _ _ _.

(** ** Reader *)

Definition kEof : Z := kMaxRecordType + 1.
Definition kBadRecord : Z := kMaxRecordType + 2.

Section Reader.
Context (kLittleEndian : bool) (addr : bytes -> Z).
Context {G : Type} `{SequentialFile G}.

(** [dropped] is what the reporter, when there is one, was told. *)
Record Reader : Type := mkReader
  { file_ : G; reporter_ : bool; checksum_ : bool; buffer_ : bytes; eof_ : bool;
    last_record_offset_ : Z; end_of_buffer_offset_ : Z; initial_offset_ : Z;
    dropped : list (Z * bytes) }.
Implicit Types r : Reader.

Definition Reader_new (file : G) (reporter checksum : bool) (initial_offset : Z) : Reader :=
  mkReader file reporter checksum [] false 0 0 initial_offset [].

Definition with_buffer (b : bytes) r : Reader :=
  mkReader (file_ r) (reporter_ r) (checksum_ r) b (eof_ r) (last_record_offset_ r)
    (end_of_buffer_offset_ r) (initial_offset_ r) (dropped r).
Definition with_eof (b : bool) r : Reader :=
  mkReader (file_ r) (reporter_ r) (checksum_ r) (buffer_ r) b (last_record_offset_ r)
    (end_of_buffer_offset_ r) (initial_offset_ r) (dropped r).
Definition with_last (o : Z) r : Reader :=
  mkReader (file_ r) (reporter_ r) (checksum_ r) (buffer_ r) (eof_ r) o
    (end_of_buffer_offset_ r) (initial_offset_ r) (dropped r).
Definition with_file (f : G) (o : Z) r : Reader :=
  mkReader f (reporter_ r) (checksum_ r) (buffer_ r) (eof_ r) (last_record_offset_ r)
    o (initial_offset_ r) (dropped r).

(** Unsigned 64-bit: the difference wraps. *)
Definition ReportDrop (n : Z) (reason : bytes) r : Reader :=
  if reporter_ r && (initial_offset_ r <=? u64 (end_of_buffer_offset_ r - lengthZ (buffer_ r) - n))
  then mkReader (file_ r) (reporter_ r) (checksum_ r) (buffer_ r) (eof_ r) (last_record_offset_ r)
         (end_of_buffer_offset_ r) (initial_offset_ r) (dropped r ++ [(n, reason)])
  else r.
Definition ReportCorruption (n : Z) (reason : bytes) r : Reader := ReportDrop n reason r.

Definition io_error : bytes := str "IO error".

Definition SkipToInitialBlock r : bool * Reader :=
  let offset_in_block := initial_offset_ r mod kBlockSize in
  let block_start_location := u64 (initial_offset_ r - offset_in_block) in
  let block_start_location :=
    if kBlockSize - 6 <? offset_in_block then u64 (block_start_location + kBlockSize)
    else block_start_location in
  let r1 := with_file (file_ r) block_start_location r in
  if 0 <? block_start_location then
    let '(ok, f) := Skip (file_ r1) block_start_location in
    let r2 := with_file f block_start_location r1 in
    if (ok : bool) then (true, r2) else (false, ReportDrop block_start_location io_error r2)
  else (true, r1).

(** The type and the fragment; [None] when the result is not written.  A
    buffer that is used up is filled at most twice. *)
Fixpoint read_physical (fuel : nat) r : outcome (Z * option bytes * Reader) :=
  match fuel with
  | O => NoFuel
  | S fuel' =>
      if lengthZ (buffer_ r) <? kHeaderSize then
        if negb (eof_ r) then
          let '(ok, b, f) := Read (file_ r) kBlockSize in
          let r1 := with_file f (u64 (end_of_buffer_offset_ r + lengthZ b)) (with_buffer b r) in
          if negb ok then
            Ok (kEof, None, with_eof true (ReportDrop kBlockSize io_error (with_buffer [] r1)))
          else read_physical fuel' (if lengthZ b <? kBlockSize then with_eof true r1 else r1)
        else if lengthZ (buffer_ r) =? 0 then Ok (kEof, None, r)
        else Ok (kEof, None,
               ReportCorruption (lengthZ (buffer_ r)) (str "truncated record at end of file")
                 (with_buffer [] r))
      else
        let header := buffer_ r in
        h4 ← in_bounds (nthZ header 4);
        h5 ← in_bounds (nthZ header 5);
        h6 ← in_bounds (nthZ header 6);
        let a := Z.land (u8 h4) 255 in
        let b := Z.land (u8 h5) 255 in
        let type := u32 (schar h6) in
        let length := Z.lor a (Z.shiftl b 8) in
        let drop_size := lengthZ header in
        if drop_size <? kHeaderSize + length then
          Ok (kBadRecord, None, ReportCorruption drop_size (str "bad record length") (with_buffer [] r))
        else if (type =? type_value kZeroType) && (length =? 0) then
          Ok (kBadRecord, None, with_buffer [] r)
        else
          expected_crc ← DecodeFixed32 kLittleEndian header;
          let body := slice 6 (1 + length) header in
          if checksum_ r && negb (Value (addr body) body =? Unmask expected_crc) then
            Ok (kBadRecord, None, ReportCorruption drop_size (str "checksum mismatch") (with_buffer [] r))
          else
            let r1 := with_buffer (dropZ (kHeaderSize + length) header) r in
            if u64 (end_of_buffer_offset_ r1 - lengthZ (buffer_ r1) - kHeaderSize - length)
                 <? initial_offset_ r1
            then Ok (kBadRecord, Some [], r1)
            else Ok (type, Some (slice kHeaderSize length header), r1)
  end.

Definition ReadPhysicalRecord r : outcome (Z * option bytes * Reader) := read_physical 3 r.

(** The loop of [ReadRecord]; [None] is false. *)
Fixpoint read_loop (fuel : nat) (fragment : bytes) (in_fragmented_record : bool)
    (prospective_record_offset : Z) (scratch : bytes) r : outcome (option bytes * Reader) :=
  match fuel with
  | O => NoFuel
  | S fuel' =>
      let physical_record_offset := u64 (end_of_buffer_offset_ r - lengthZ (buffer_ r)) in
      '(record_type, res, r1) ← ReadPhysicalRecord r;
      let fragment := default fragment res in
      let size := lengthZ scratch in
      (* a fragmented record that begins again *)
      let restart reason :=
        if in_fragmented_record && negb (size =? 0) then ReportCorruption size reason r1 else r1 in
      if record_type =? type_value kFullType then
        let r2 := restart (str "partial record without end(1)") in
        Ok (Some fragment, with_last physical_record_offset r2)
      else if record_type =? type_value kFirstType then
        let r2 := restart (str "partial record without end(2)") in
        read_loop fuel' fragment true physical_record_offset fragment r2
      else if record_type =? type_value kMiddleType then
        if in_fragmented_record then
          read_loop fuel' fragment true prospective_record_offset (scratch ++ fragment) r1
        else read_loop fuel' fragment false prospective_record_offset scratch
               (ReportCorruption (lengthZ fragment) (str "missing start of fragmented record(1)") r1)
      else if record_type =? type_value kLastType then
        if in_fragmented_record then
          Ok (Some (scratch ++ fragment), with_last prospective_record_offset r1)
        else read_loop fuel' fragment false prospective_record_offset scratch
               (ReportCorruption (lengthZ fragment) (str "missing start of fragmented record(2)") r1)
      else if record_type =? kEof then
        Ok (None, if in_fragmented_record
                  then ReportCorruption size (str "partial record without end(3)") r1 else r1)
      else if record_type =? kBadRecord then
        if in_fragmented_record then
          read_loop fuel' fragment false prospective_record_offset []
            (ReportCorruption size (str "error in middle of record") r1)
        else read_loop fuel' fragment false prospective_record_offset scratch r1
      else
        read_loop fuel' fragment false prospective_record_offset []
          (ReportCorruption (lengthZ fragment + (if in_fragmented_record then size else 0))
             (str "unknown record type " ++ to_string record_type) r1)
  end.

Definition ReadRecord (fuel : nat) r : outcome (option bytes * Reader) :=
  let '(ok, r1) :=
    if last_record_offset_ r <? initial_offset_ r then SkipToInitialBlock r else (true, r) in
  if negb ok then Ok (None, r1) else read_loop fuel [] false 0 [] r1.

Definition LastRecordOffset r : Z := last_record_offset_ r.
End Reader.
Arguments Reader G : clear implicits.
Arguments mkReader {G} _ _ _ _ _ _ _ _ _.
