(* ===== verification/LogSpec.v ===== *)
(** * LevelDB: what the log promises

    Files that do not fail, the layout of a record in blocks, and the two
    directions: the writer lays a record out, the reader gives a laid out
    record back.  The reader is described by the offset in the block it has
    come to and the bytes of the file it has not returned yet. *)

From S2P Require Import Prelude.
From S2P Require Import Bytes.
From S2P Require Import Coding.
From S2P Require Import Crc32c.
From S2P Require Import Log.
From stdpp Require Import base tactics numbers list sets strings.
From Stdlib Require Import Ascii ZArith Lia.

Open Scope Z_scope.

(** ** Files that do not fail *)

Class ReliableWritable (F : Type) `{WritableFile F} := {
  contents : F -> bytes;
  Append_contents d b : exists d', Append d b = (true, d') /\ contents d' = contents d ++ b;
  Flush_contents d : exists d', Flush d = (true, d') /\ contents d' = contents d
}.

Class ReliableSequential (G : Type) `{SequentialFile G} := {
  remaining : G -> bytes;
  Read_remaining g n : 0 <= n ->
    exists g', Read g n = (true, takeZ n (remaining g), g') /\ remaining g' = dropZ n (remaining g)
}.

(** ** Layout *)

(** A header with the checksum [c], and the data. *)
Definition framed (c : Z) (t : RecordType) (p : bytes) : bytes :=
  le_bytes 4 c ++ [chr (lengthZ p); chr (lengthZ p / 256); chr (type_value t)] ++ p.

Definition physical (t : RecordType) (p : bytes) : bytes :=
  framed (Mask (crc32c 0 (chr (type_value t) :: p))) t p.

Definition zeros (n : Z) : bytes := replicate (Z.to_nat n) NUL.

(** [frags off begin p b off']: from the block offset [off], what is left of a
    record, [p], is laid out as [b]; its end is at the offset [off']. *)
Inductive frags : Z -> bool -> bytes -> bytes -> Z -> Prop :=
  | frags_pad off begin p b off' :
      kBlockSize - off < kHeaderSize -> frags 0 begin p b off' ->
      frags off begin p (zeros (kBlockSize - off) ++ b) off'
  | frags_end off begin p :
      off + kHeaderSize + lengthZ p <= kBlockSize ->
      frags off begin p (physical (fragment_type begin true) p) (off + (kHeaderSize + lengthZ p))
  | frags_cut off begin p b off' :
      off + kHeaderSize <= kBlockSize -> kBlockSize < off + kHeaderSize + lengthZ p ->
      let avail := kBlockSize - off - kHeaderSize in
      frags kBlockSize false (dropZ avail p) b off' ->
      frags off begin p (physical (fragment_type begin false) (takeZ avail p) ++ b) off'.

(** The records of a log, from a block offset on. *)
Inductive log_layout : Z -> list bytes -> bytes -> Z -> Prop :=
  | layout_nil off : log_layout off [] [] off
  | layout_cons off p b off' rs bs off'' :
      frags off true p b off' -> log_layout off' rs bs off'' ->
      log_layout off (p :: rs) (b ++ bs) off''.

Lemma framed_length c t p : lengthZ (framed c t p) = kHeaderSize + lengthZ p.
Proof. unfold framed. rewrite !lengthZ_app, le_bytes_lengthZ. cbn [lengthZ]. unfold kHeaderSize. lia. Qed.

Lemma physical_length t p : lengthZ (physical t p) = kHeaderSize + lengthZ p.
Proof. apply framed_length. Qed.

Lemma framed_body c t p rest :
  framed c t p ++ rest =
    (le_bytes 4 c ++ [chr (lengthZ p); chr (lengthZ p / 256)]) ++ (chr (type_value t) :: p) ++ rest.
Proof. unfold framed. by rewrite <- !app_assoc. Qed.

Lemma framed_data c t p rest :
  framed c t p ++ rest =
    (le_bytes 4 c ++ [chr (lengthZ p); chr (lengthZ p / 256); chr (type_value t)]) ++ p ++ rest.
Proof. unfold framed. by rewrite <- !app_assoc. Qed.

Lemma zeros_length n : 0 <= n -> lengthZ (zeros n) = n.
Proof. intros. unfold zeros. rewrite lengthZ_length, length_replicate. lia. Qed.

Lemma frags_end_range off begin p b off' :
  frags off begin p b off' -> 0 <= off <= kBlockSize -> kHeaderSize <= off' <= kBlockSize.
Proof.
  induction 1; intros; pose proof (lengthZ_nonneg p); unfold kBlockSize, kHeaderSize in *; lia.
Qed.

(** The beginning of a block is the end of the one before. *)
Lemma frags_block_start begin p b off' : frags 0 begin p b off' -> frags kBlockSize begin p b off'.
Proof. intros. change b with (zeros (kBlockSize - kBlockSize) ++ b). by apply frags_pad. Qed.

Lemma layout_block_start rs bs off :
  log_layout 0 rs bs off -> exists off', log_layout kBlockSize rs bs off' /\
    forall p b off2, frags off true p b off2 -> frags off' true p b off2.
Proof.
  inversion 1; subst.
  - exists kBlockSize. split; [constructor|]. intros. by apply frags_block_start.
  - exists off. split; [|done]. econstructor; [by apply frags_block_start|done].
Qed.

(** ** The writer *)

Section writer.
Context (le : bool) (addr : bytes -> Z) {F : Type} `{ReliableWritable F}.
Implicit Types w : Writer F.

Definition writer_ok w : Prop :=
  0 <= block_offset_ w <= kBlockSize /\
  type_crc_ w = (fun i => crc32c 0 [chr i]) <$> seqZ 0 (kMaxRecordType + 1).

Lemma Writer_new_ok dest : writer_ok (Writer_new addr dest).
Proof.
  split; [done|]. cbn [type_crc_ Writer_new]. apply list_fmap_ext. intros i x _.
  unfold Value. by rewrite Extend_crc32c.
Qed.

Lemma type_crc_at w t : writer_ok w -> nthZ (type_crc_ w) (type_value t) = Some (crc32c 0 [chr (type_value t)]).
Proof. intros [_ ->]. by destruct t. Qed.

(** A write of [b] that ends at the offset [off]. *)
Definition wrote w b off w' : Prop :=
  contents (dest_ w') = contents (dest_ w) ++ b /\ block_offset_ w' = off /\ writer_ok w'.

Lemma EmitPhysicalRecord_spec t p w :
  writer_ok w -> block_offset_ w + kHeaderSize + lengthZ p <= kBlockSize ->
  exists w', EmitPhysicalRecord le addr t p w = Ok (true, w') /\
    wrote w (physical t p) (block_offset_ w + (kHeaderSize + lengthZ p)) w'.
Proof.
  intros Hok Hfit. pose proof (lengthZ_nonneg p). unfold EmitPhysicalRecord, assert_.
  unfold kBlockSize, kHeaderSize in Hfit. destruct Hok as [Hoff Hcrc] eqn:E. clear E.
  rewrite (proj2 (Z.leb_le (lengthZ p) 65535)) by lia.
  rewrite (proj2 (Z.leb_le (_ + _ + _) _)) by (unfold kBlockSize, kHeaderSize; lia).
  rewrite type_crc_at by done. cbn [mbind outcome_bind in_bounds].
  match goal with |- context [Append (dest_ w) ?b] => set (buf := b) end.
  destruct (Append_contents (dest_ w) buf) as (d1 & -> & E1).
  destruct (Append_contents d1 p) as (d2 & -> & E2).
  destruct (Flush_contents d2) as (d3 & -> & E3).
  eexists. split; [done|]. split; [|split; [done|]]; cbn [dest_ block_offset_ type_crc_].
  - rewrite E3, E2, E1, <- app_assoc. f_equal. unfold buf, physical, framed.
    rewrite EncodeFixed32_le, Extend_crc32c by (by apply crc32c_range).
    rewrite <- crc32c_app, <- app_assoc. cbn [app]. f_equal. f_equal.
    + apply chr_mod. by rewrite land_255, Z.mod_mod.
    + f_equal. by rewrite Z.shiftr_div_pow2.
  - split; [cbn; unfold kBlockSize, kHeaderSize in *; lia|done].
Qed.

Lemma fill_trailer_spec w :
  writer_ok w ->
  exists w', fill_trailer w = Ok w' /\
    if kBlockSize - block_offset_ w <? kHeaderSize
    then wrote w (zeros (kBlockSize - block_offset_ w)) 0 w' else w' = w.
Proof.
  intros Hok. pose proof (proj1 Hok) as Hoff. unfold fill_trailer, assert_.
  rewrite (proj2 (Z.leb_le _ _)) by lia. cbn [mbind outcome_bind].
  destruct (Z.ltb_spec (kBlockSize - block_offset_ w) kHeaderSize) as [Hlt|]; [|eauto].
  eexists. split; [done|]. split; [|split; [done|split; [done|exact (proj2 Hok)]]].
  cbn [dest_]. destruct (Z.ltb_spec 0 (kBlockSize - block_offset_ w)).
  - match goal with |- context [Append _ ?b] => destruct (Append_contents (dest_ w) b) as (d & -> & E) end.
    cbn [snd]. rewrite E.
    f_equal. rewrite takeZ_take, take_replicate. unfold zeros. f_equal.
    unfold kHeaderSize in Hlt. lia.
  - unfold zeros. replace (Z.to_nat _) with O by lia. by rewrite app_nil_r.
Qed.

Lemma wrote_trans w b off w1 b' off' w2 :
  wrote w b off w1 -> wrote w1 b' off' w2 -> wrote w (b ++ b') off' w2.
Proof. intros (E & _) (E' & ? & ?). split; [by rewrite E', E, app_assoc|done]. Qed.

(** One turn, then the rest from the end of the block. *)
Lemma add_loop_cut n :
  (forall p w, writer_ok w -> block_offset_ w = kBlockSize -> (length p <= n)%nat -> p <> [] ->
     exists b off' w', add_loop le addr n p false w = Ok (true, w') /\
       frags kBlockSize false p b off' /\ wrote w b off' w') ->
  forall p begin w, writer_ok w -> (length (dropZ (kBlockSize - (if (kBlockSize - block_offset_ w <? kHeaderSize)%Z then 0 else block_offset_ w) - kHeaderSize) p) <= n)%nat ->
  exists b off' w', add_loop le addr (S n) p begin w = Ok (true, w') /\
    frags (block_offset_ w) begin p b off' /\ wrote w b off' w'.
Proof.
  intros IH p begin w Hok Hlen. pose proof (proj1 Hok) as Hoff. cbn [add_loop].
  destruct (fill_trailer_spec w Hok) as (w1 & -> & Hw1). cbn [mbind outcome_bind].
  set (off1 := if kBlockSize - block_offset_ w <? kHeaderSize then 0 else block_offset_ w) in *.
  assert (Hb1 : block_offset_ w1 = off1 /\ writer_ok w1 /\ off1 + kHeaderSize <= kBlockSize /\ 0 <= off1).
  { unfold off1. destruct (Z.ltb_spec (kBlockSize - block_offset_ w) kHeaderSize).
    - destruct Hw1 as (_ & ? & ?). done.
    - subst w1. do 2 (split; [done|]). lia. }
  destruct Hb1 as (Eoff & Hok1 & Hfit & Hpos). clearbody off1.
  assert (Hpre : forall b off' w', frags off1 begin p b off' -> wrote w1 b off' w' ->
    exists b' off', frags (block_offset_ w) begin p b' off' /\ wrote w b' off' w').
  { intros b off' w' Hf Hw. destruct (Z.ltb_spec (kBlockSize - block_offset_ w) kHeaderSize).
    - destruct Hw1 as (E1 & E2 & ?). exists (zeros (kBlockSize - block_offset_ w) ++ b), off'.
      split; [|eapply wrote_trans; [by split|done]]. apply frags_pad; [done|]. by rewrite <- E2, Eoff.
    - subst w1. exists b, off'. by rewrite Eoff. }
  unfold assert_. rewrite Eoff. rewrite (proj2 (Z.leb_le _ _)) by lia. cbn [mbind outcome_bind].
  pose proof (lengthZ_nonneg p). set (avail := kBlockSize - off1 - kHeaderSize) in *.
  destruct (Z.ltb_spec (lengthZ p) avail) as [Hlt|Hge].
  - rewrite takeZ_ge, dropZ_ge, Z.eqb_refl by lia.
    destruct (EmitPhysicalRecord_spec (fragment_type begin true) p w1) as (w2 & -> & Hw2);
      [done|unfold avail in *; lia|].
    cbn. rewrite Eoff in Hw2.
    destruct (Hpre _ _ _ (frags_end off1 begin p ltac:(unfold avail in *; lia)) Hw2) as (b & off' & ? & ?).
    eauto 8.
  - destruct (EmitPhysicalRecord_spec (fragment_type begin (lengthZ p =? avail)) (takeZ avail p) w1)
      as (w2 & -> & Hw2); [done|rewrite lengthZ_takeZ by (unfold avail; lia); unfold avail in *; lia|].
    cbn [mbind outcome_bind andb]. rewrite Eoff in Hw2.
    rewrite lengthZ_takeZ in Hw2 by (unfold avail; lia). rewrite Z.min_l in Hw2 by lia.
    rewrite lengthZ_dropZ by (unfold avail; lia).
    destruct (Z.eqb_spec (lengthZ p) avail) as [Heq|Hne].
    + rewrite (proj2 (Z.ltb_ge _ _)) by lia. rewrite takeZ_ge in Hw2 by lia. rewrite <- Heq in Hw2.
      destruct (Hpre _ _ _ (frags_end off1 begin p ltac:(unfold avail in *; lia)) Hw2) as (b & off' & ? & ?).
      eauto 8.
    + rewrite (proj2 (Z.ltb_lt _ _)) by lia.
      assert (E2 : block_offset_ w2 = kBlockSize) by (destruct Hw2 as (_ & -> & _); unfold avail; lia).
      destruct (IH (dropZ avail p) w2) as (b & off' & w' & -> & Hf & Hw'); [apply Hw2|done|done| |].
      { intros E. apply (f_equal lengthZ) in E. rewrite lengthZ_dropZ in E by (unfold avail; lia). cbn in E. lia. }
      destruct (Hpre (physical (fragment_type begin false) (takeZ avail p) ++ b) off' w') as (? & ? & ? & ?).
      * apply frags_cut; [lia|unfold avail in *; lia|done].
      * eapply wrote_trans; done.
      * eauto 8.
Qed.

Lemma add_loop_next n p w :
  writer_ok w -> block_offset_ w = kBlockSize -> (length p <= n)%nat -> p <> [] ->
  exists b off' w', add_loop le addr n p false w = Ok (true, w') /\
    frags kBlockSize false p b off' /\ wrote w b off' w'.
Proof.
  revert p w. induction n as [|n IH]; intros p w Hok Hoff Hlen Hne; [destruct p; [done|cbn in Hlen; lia]|].
  rewrite <- Hoff. apply add_loop_cut; [exact IH|done|]. rewrite Hoff. destruct p; [done|].
  rewrite dropZ_drop, length_drop. cbn [length] in *. change (Z.to_nat _) with (Z.to_nat 32761). lia.
Qed.

(** A record is laid out from the writer's offset on. *)
Lemma AddRecord_spec p w :
  writer_ok w ->
  exists b off' w', AddRecord le addr p w = Ok (true, w') /\
    frags (block_offset_ w) true p b off' /\ wrote w b off' w'.
Proof.
  intros Hok. apply (add_loop_cut (S (length p))); [|done|].
  - intros q w1 ????. by apply add_loop_next.
  - rewrite dropZ_drop, length_drop. lia.
Qed.

Fixpoint add_all (rs : list bytes) w : outcome (bool * Writer F) :=
  match rs with
  | [] => Ok (true, w)
  | p :: rs' => '(s, w1) ← AddRecord le addr p w; if (s : bool) then add_all rs' w1 else Ok (false, w1)
  end.

Lemma add_all_spec rs w :
  writer_ok w ->
  exists b off' w', add_all rs w = Ok (true, w') /\
    log_layout (block_offset_ w) rs b off' /\ wrote w b off' w'.
Proof.
  revert w. induction rs as [|p rs IH]; intros w Hok; cbn [add_all].
  - exists [], (block_offset_ w), w. do 2 (split; [by constructor|]). split; [by rewrite app_nil_r|done].
  - destruct (AddRecord_spec p w Hok) as (b & off1 & w1 & -> & Hf & Hw). cbn [mbind outcome_bind].
    destruct (IH w1) as (bs & off' & w' & -> & Hl & Hw'); [apply Hw|].
    exists (b ++ bs), off', w'. split; [done|]. split; [|by eapply wrote_trans].
    destruct Hw as (_ & E & _). rewrite E in Hl. by econstructor.
Qed.
End writer.

(** ** The reader *)

Section reader.
Context (le : bool) (addr : bytes -> Z) {G : Type} `{ReliableSequential G}.
Implicit Types r : Reader G.

(** The reader has come to the block offset [off]; [l] is the rest. *)
Record at_ (off : Z) (l : bytes) r : Prop := {
  at_range : 0 <= off <= kBlockSize;
  at_buffer : buffer_ r = takeZ (kBlockSize - off) l;
  at_file : remaining (file_ r) = dropZ (kBlockSize - off) l;
  at_eof : eof_ r = (lengthZ l <? kBlockSize - off);
  at_initial : initial_offset_ r = 0
}.

(** A read that reports nothing: only the position changes. *)
Definition quiet r r' : Prop := dropped r' = dropped r /\ last_record_offset_ r' = last_record_offset_ r.

Lemma Reader_new_at file reporter checksum :
  at_ kBlockSize (remaining file) (Reader_new file reporter checksum 0).
Proof. split; [done| | | |done]; cbn.
  - by rewrite takeZ_nonpos.
  - by rewrite dropZ_nonpos.
  - symmetry. apply Z.ltb_ge. pose proof (lengthZ_nonneg (remaining file)). lia.
Qed.

(** The next block is read when the buffer has no room for a header. *)
Lemma read_physical_block fuel off l r :
  at_ off l r -> kBlockSize - off <= lengthZ l -> kBlockSize - off < kHeaderSize ->
  exists r', read_physical le addr (S fuel) r = read_physical le addr fuel r' /\
    at_ 0 (dropZ (kBlockSize - off) l) r' /\ quiet r r'.
Proof.
  intros [Hr Hb Hf He Hi] Hlen Hpad. cbn [read_physical]. rewrite Hb, lengthZ_takeZ, Z.min_l by lia.
  rewrite (proj2 (Z.ltb_lt _ _)) by done. rewrite He, (proj2 (Z.ltb_ge _ _)) by lia. cbn [negb].
  destruct (Read_remaining (file_ r) kBlockSize) as (g & -> & Eg); [done|]. rewrite Hf in *.
  cbn [negb]. eexists. split; [done|].
  set (l' := dropZ (kBlockSize - off) l) in *. pose proof (lengthZ_nonneg l').
  assert (lengthZ (takeZ kBlockSize l') = Z.min kBlockSize (lengthZ l')) as E by (by apply lengthZ_takeZ).
  rewrite E. destruct (Z.ltb_spec (Z.min kBlockSize (lengthZ l')) kBlockSize) as [Hs|Hs];
    (split; [split; cbn; [done|by rewrite Z.sub_0_r|by rewrite Z.sub_0_r| |done]|done]); rewrite Z.sub_0_r.
  - symmetry. apply Z.ltb_lt. lia.
  - rewrite He. transitivity false; [apply Z.ltb_ge|symmetry; apply Z.ltb_ge]; lia.
Qed.

Lemma length_bytes n :
  0 <= n < 65536 ->
  Z.lor (Z.land (u8 (chr n)) 255) (Z.shiftl (Z.land (u8 (chr (n / 256))) 255) 8) = n.
Proof.
  intros Hn. rewrite !u8_chr, !land_255, !Z.mod_mod by lia.
  assert (0 <= n / 256 < 256) by (split; [apply Z.div_pos; lia|apply Z.div_lt_upper_bound; lia]).
  rewrite (Z.mod_small (n / 256)) by lia. pose proof (Z.mod_pos_bound n 256).
  rewrite (lor_shiftl_add _ _ 8) by (change (2 ^ 8) with 256; lia).
  pose proof (Z.div_mod n 256). change (2 ^ 8) with 256. lia.
Qed.

(** A record in the buffer: its checksum decides. *)
Lemma read_physical_framed fuel c t p rest r :
  buffer_ r = framed c t p ++ rest -> initial_offset_ r = 0 -> lengthZ p < 65536 -> t <> kZeroType ->
  0 <= c < 2 ^ 32 ->
  read_physical le addr (S fuel) r =
    if checksum_ r && negb (crc32c 0 (chr (type_value t) :: p) =? Unmask c)
    then Ok (kBadRecord, None,
           ReportCorruption (lengthZ (buffer_ r)) (str "checksum mismatch") (with_buffer [] r))
    else Ok (type_value t, Some p, with_buffer rest r).
Proof.
  intros Hb Hi Hp Ht Hc. pose proof (lengthZ_nonneg p). pose proof (lengthZ_nonneg rest).
  assert (Hlen : lengthZ (framed c t p ++ rest) = kHeaderSize + lengthZ p + lengthZ rest)
    by (by rewrite lengthZ_app, framed_length).
  cbn [read_physical]. rewrite Hb. rewrite (proj2 (Z.ltb_ge _ _)) by lia.
  assert (E4 : nthZ (framed c t p ++ rest) 4 = Some (chr (lengthZ p))) by done.
  assert (E5 : nthZ (framed c t p ++ rest) 5 = Some (chr (lengthZ p / 256))) by done.
  assert (E6 : nthZ (framed c t p ++ rest) 6 = Some (chr (type_value t))) by done.
  rewrite E4, E5, E6. cbn [in_bounds mbind outcome_bind]. rewrite length_bytes by lia.
  assert (u32 (schar (chr (type_value t))) = type_value t) as -> by (by destruct t).
  rewrite (proj2 (Z.ltb_ge _ _)) by lia.
  assert ((type_value t =? type_value kZeroType) = false) as -> by (by destruct t). cbn [andb].
  assert (Ecrc : DecodeFixed32 le (framed c t p ++ rest) = Ok c).
  { transitivity (Ok (le_value (le_bytes 4 c))); [exact (DecodeFixed32_le le _ _ _ _ _)|].
    by rewrite le_value_bytes_small. }
  rewrite Ecrc. cbn [in_bounds mbind outcome_bind].
  assert (Ebody : slice 6 (1 + lengthZ p) (framed c t p ++ rest) = chr (type_value t) :: p).
  { unfold slice. rewrite framed_body, dropZ_app_exact by done. by apply takeZ_app_exact. }
  rewrite Ebody. unfold Value at 1. rewrite Extend_crc32c by done.
  destruct (checksum_ r && _); [done|].
  assert (Erest : dropZ (kHeaderSize + lengthZ p) (framed c t p ++ rest) = rest)
    by (by apply dropZ_app_exact; rewrite framed_length).
  rewrite Erest. cbn [end_of_buffer_offset_ with_buffer initial_offset_ buffer_].
  rewrite Hi, (proj2 (Z.ltb_ge _ _)) by apply u64_range.
  assert (Edata : slice kHeaderSize (lengthZ p) (framed c t p ++ rest) = p).
  { unfold slice. rewrite framed_data, dropZ_app_exact by done. by apply takeZ_app_exact. }
  by rewrite Edata.
Qed.

(** A whole record in the buffer is returned. *)
Lemma read_physical_buffer fuel t p rest r :
  buffer_ r = physical t p ++ rest -> initial_offset_ r = 0 -> lengthZ p < 65536 -> t <> kZeroType ->
  read_physical le addr (S fuel) r = Ok (type_value t, Some p, with_buffer rest r).
Proof.
  intros Hb Hi Hp Ht. erewrite read_physical_framed; [|exact Hb|done..|apply u32_range].
  rewrite Unmask_Mask by (by apply crc32c_range). by rewrite Z.eqb_refl, andb_false_r.
Qed.

(** A record of which one byte of the data was changed is not returned, nor is
    anything else of its block. *)
Lemma read_physical_changed fuel t p x y q rest r :
  let c := Mask (crc32c 0 (chr (type_value t) :: p ++ x :: q)) in
  x <> y -> buffer_ r = framed c t (p ++ y :: q) ++ rest -> initial_offset_ r = 0 ->
  lengthZ (p ++ y :: q) < 65536 -> t <> kZeroType -> checksum_ r = true ->
  read_physical le addr (S fuel) r =
    Ok (kBadRecord, None,
      ReportCorruption (lengthZ (buffer_ r)) (str "checksum mismatch") (with_buffer [] r)).
Proof.
  intros c Hxy Hb Hi Hp Ht Hc. erewrite read_physical_framed; [|exact Hb|done..|apply u32_range].
  unfold c. rewrite Unmask_Mask, Hc by (by apply crc32c_range).
  rewrite (proj2 (Z.eqb_neq _ _)); [done|]. intros E. symmetry in E. revert E.
  by apply (crc32c_byte 0 (chr (type_value t) :: p)).
Qed.

Lemma read_physical_record fuel off t p l r :
  at_ off (physical t p ++ l) r -> off + kHeaderSize + lengthZ p <= kBlockSize -> t <> kZeroType ->
  exists r', read_physical le addr (S fuel) r = Ok (type_value t, Some p, r') /\
    at_ (off + (kHeaderSize + lengthZ p)) l r' /\ quiet r r'.
Proof.
  intros [Hr Hb Hf He Hi] Hfit Ht. pose proof (lengthZ_nonneg p).
  assert (kHeaderSize = 7) by done. assert (kBlockSize = 32768) by done.
  set (n := kBlockSize - (off + (kHeaderSize + lengthZ p))).
  assert (Hn : kBlockSize - off = lengthZ (physical t p) + n)
    by (rewrite physical_length; unfold n; lia).
  eexists. split; [apply read_physical_buffer with (rest := takeZ n l); [|done|lia|done]|split; [|done]].
  - rewrite Hb, Hn, takeZ_app. f_equal; [apply takeZ_ge; lia|f_equal; lia].
  - split; cbn; [lia|done| | |done].
    + rewrite Hf, Hn, <- dropZ_dropZ, dropZ_app_exact by (rewrite ?physical_length; unfold n; lia). done.
    + rewrite He, lengthZ_app. destruct (Z.ltb_spec (lengthZ l) (kBlockSize - (off + (kHeaderSize + lengthZ p))));
        [apply Z.ltb_lt|apply Z.ltb_ge]; unfold n in Hn; lia.
Qed.

(** The first fragment, behind the end of a block if need be. *)
Lemma read_start off begin p b off' l r :
  frags off begin p b off' -> at_ off (b ++ l) r ->
  exists n r1 b1 off1, ReadPhysicalRecord le addr r = read_physical le addr (S n) r1 /\
    at_ off1 (b1 ++ l) r1 /\ quiet r r1 /\ frags off1 begin p b1 off' /\
    off1 + kHeaderSize <= kBlockSize /\ (off1 = off \/ off1 = 0).
Proof.
  intros Hf Hat. unfold ReadPhysicalRecord. pose proof (at_range _ _ _ Hat).
  inversion Hf as [off0 begin0 p0 b0 off0' Hpad Hrest|off0 begin0 p0 Hfit|off0 begin0 p0 b0 off0' Hfit Hbig av Hrest];
    subst.
  - rewrite <- app_assoc in Hat. pose proof (lengthZ_nonneg (b0 ++ l)).
    destruct (read_physical_block 2 off (zeros (kBlockSize - off) ++ b0 ++ l) r Hat) as (r1 & -> & Hb1 & Hq);
      [rewrite lengthZ_app, zeros_length; lia|done|].
    rewrite dropZ_app_exact in Hb1 by (rewrite zeros_length; lia).
    exists 1%nat, r1, b0, 0. repeat (split; [done|]). by right.
  - exists 2%nat, r, (physical (fragment_type begin true) p), off. pose proof (lengthZ_nonneg p).
    repeat (split; [done|]). split; [lia|by left].
  - exists 2%nat, r, (physical (fragment_type begin false) (takeZ av p) ++ b0), off.
    repeat (split; [done|]). by left.
Qed.

(** As many turns as there are bytes, and one more behind an empty first
    fragment. *)
Definition turns (off : Z) (p : bytes) : nat :=
  (length p + if (off + kHeaderSize =? kBlockSize)%Z then 1 else 0)%nat.

Lemma turns_start off off1 p :
  off1 = off \/ off1 = 0 -> (turns off1 p <= turns off p)%nat.
Proof. intros [->| ->]; [done|]. unfold turns. change (0 + kHeaderSize =? kBlockSize) with false. destruct (_ =? _); lia. Qed.

Lemma turns_cut off p :
  off + kHeaderSize <= kBlockSize -> kBlockSize < off + kHeaderSize + lengthZ p ->
  (turns kBlockSize (dropZ (kBlockSize - off - kHeaderSize) p) < turns off p)%nat.
Proof.
  intros. unfold turns. rewrite dropZ_drop, length_drop. rewrite lengthZ_length in *.
  change (kBlockSize + kHeaderSize =? kBlockSize) with false.
  destruct (Z.eqb_spec (off + kHeaderSize) kBlockSize); lia.
Qed.

Lemma fragment_type_value begin end_ : fragment_type begin end_ <> kZeroType.
Proof. by destruct begin, end_. Qed.

(** One turn of the loop of [ReadRecord], from what the file gave. *)
Lemma read_loop_last fuel frag begin pro scratch r r1 p :
  ReadPhysicalRecord le addr r = Ok (type_value (fragment_type begin true), Some p, r1) ->
  (begin = true -> scratch = []) -> 0 <= pro ->
  exists o, read_loop le addr (S fuel) frag (negb begin) pro scratch r =
    Ok (Some (scratch ++ p), with_last o r1) /\ 0 <= o.
Proof.
  intros E Hs Hp. cbn [read_loop]. rewrite E. cbn [mbind outcome_bind default].
  destruct begin; cbn.
  - rewrite Hs by done. eexists. split; [done|]. apply u64_range.
  - eauto.
Qed.

Lemma read_loop_more fuel frag begin pro scratch r r1 p :
  ReadPhysicalRecord le addr r = Ok (type_value (fragment_type begin false), Some p, r1) ->
  (begin = true -> scratch = []) -> 0 <= pro ->
  exists o, read_loop le addr (S fuel) frag (negb begin) pro scratch r =
    read_loop le addr fuel p true o (scratch ++ p) r1 /\ 0 <= o.
Proof.
  intros E Hs Hp. cbn [read_loop]. rewrite E. cbn [mbind outcome_bind default].
  destruct begin; cbn.
  - rewrite Hs by done. eexists. split; [done|]. apply u64_range.
  - eauto.
Qed.

Lemma at_with_last off l o r : at_ off l r -> at_ off l (with_last o r).
Proof. by intros [????]. Qed.

(** A record that is laid out is given back. *)
Lemma read_frags fuel : forall off begin p b off' l frag pro scratch r,
  (turns off p < fuel)%nat -> frags off begin p b off' -> at_ off (b ++ l) r ->
  (begin = true -> scratch = []) -> 0 <= pro ->
  exists r', read_loop le addr fuel frag (negb begin) pro scratch r = Ok (Some (scratch ++ p), r') /\
    at_ off' l r' /\ dropped r' = dropped r /\ 0 <= last_record_offset_ r'.
Proof.
  induction fuel as [|fuel IH]; intros off begin p b off' l frag pro scratch r Hfuel Hf Hat Hs Hpro; [lia|].
  destruct (read_start _ _ _ _ _ _ _ Hf Hat) as (n & r1 & b1 & off1 & E & Hat1 & Hq & Hf1 & Hfit & Hoff).
  pose proof (turns_start _ _ p Hoff).
  inversion Hf1 as [|off0 begin0 p0 Hend|off0 begin0 p0 b0 off0' Hfit' Hbig av Hrest]; subst; [lia| |].
  - destruct (read_physical_record n _ _ _ _ _ Hat1) as (r2 & E2 & Hat2 & Hq2);
      [done|apply fragment_type_value|]. rewrite E2 in E.
    destruct (read_loop_last fuel frag _ pro scratch _ _ _ E Hs Hpro) as (o & -> & Ho).
    eexists. split; [done|]. split; [by apply at_with_last|]. cbn.
    split; [|done]. by rewrite (proj1 Hq2), (proj1 Hq).
  - rewrite <- app_assoc in Hat1. pose proof (at_range _ _ _ Hat1). pose proof (lengthZ_nonneg p).
    destruct (read_physical_record n _ _ _ _ _ Hat1) as (r2 & E2 & Hat2 & Hq2);
      [rewrite lengthZ_takeZ; unfold av; lia|apply fragment_type_value|]. rewrite E2 in E.
    rewrite lengthZ_takeZ, Z.min_l in Hat2 by (unfold av; lia).
    replace (off1 + (kHeaderSize + av)) with kBlockSize in Hat2 by (unfold av; lia).
    destruct (read_loop_more fuel frag _ pro scratch _ _ _ E Hs Hpro) as (o & -> & Ho).
    pose proof (turns_cut _ _ Hfit' Hbig) as Hcut. fold av in Hcut.
    destruct (IH kBlockSize false (dropZ av p) b0 off' l (takeZ av p) o (scratch ++ takeZ av p) r2)
      as (r' & E' & Hat' & Hd & Hl); [lia|done|done|done|done|].
    cbn [negb] in E'. exists r'. rewrite E', <- app_assoc, takeZ_dropZ. split; [done|]. split; [done|].
    split; [|done]. by rewrite Hd, (proj1 Hq2), (proj1 Hq).
Qed.

(** ** A log that was cut *)

Lemma read_physical_eof fuel r :
  lengthZ (buffer_ r) < kHeaderSize -> eof_ r = true ->
  exists r', read_physical le addr (S fuel) r = Ok (kEof, None, r').
Proof.
  intros Hb He. cbn [read_physical]. rewrite (proj2 (Z.ltb_lt _ _)), He by done. cbn [negb].
  destruct (_ =? 0); eauto.
Qed.

Lemma read_loop_eof fuel frag inf pro scratch r r1 :
  ReadPhysicalRecord le addr r = Ok (kEof, None, r1) ->
  exists r', read_loop le addr (S fuel) frag inf pro scratch r = Ok (None, r').
Proof. intros E. cbn [read_loop]. rewrite E. cbn. eauto. Qed.

(** Less than the header and the data it announces: the buffer is dropped. *)
Lemma read_physical_short fuel t p m r :
  buffer_ r = takeZ m (physical t p) -> kHeaderSize <= m < kHeaderSize + lengthZ p ->
  lengthZ p < 65536 ->
  exists r', read_physical le addr (S fuel) r = Ok (kBadRecord, None, r') /\
    buffer_ r' = [] /\ eof_ r' = eof_ r.
Proof.
  intros Hb Hm Hp. assert (kHeaderSize = 7) by done. cbn [read_physical].
  rewrite Hb, lengthZ_takeZ, physical_length, Z.min_l by lia.
  rewrite (proj2 (Z.ltb_ge _ _)) by lia.
  assert (E : forall i, 0 <= i < m -> nthZ (takeZ m (physical t p)) i = nthZ (physical t p) i).
  { intros i Hi. rewrite <- (takeZ_dropZ m (physical t p)) at 2.
    rewrite nthZ_app_l; [done|]. rewrite lengthZ_takeZ, physical_length by lia. lia. }
  rewrite !E by lia.
  assert (nthZ (physical t p) 4 = Some (chr (lengthZ p))) as -> by done.
  assert (nthZ (physical t p) 5 = Some (chr (lengthZ p / 256))) as -> by done.
  assert (nthZ (physical t p) 6 = Some (chr (type_value t))) as -> by done.
  cbn [in_bounds mbind outcome_bind]. pose proof (lengthZ_nonneg p). rewrite length_bytes by lia.
  rewrite (proj2 (Z.ltb_lt _ _)) by lia. eexists. split; [done|].
  unfold ReportCorruption, ReportDrop. by destruct (_ && _).
Qed.

Lemma read_loop_bad fuel frag inf pro scratch r r1 :
  ReadPhysicalRecord le addr r = Ok (kBadRecord, None, r1) -> buffer_ r1 = [] -> eof_ r1 = true ->
  exists r', read_loop le addr (S (S fuel)) frag inf pro scratch r = Ok (None, r').
Proof.
  intros E Hb He. cbn [read_loop]. rewrite E. cbn [mbind outcome_bind default].
  assert (Hend : forall r2, buffer_ r2 = [] -> eof_ r2 = true -> forall pro' scratch',
    exists r', read_loop le addr (S fuel) frag false pro' scratch' r2 = Ok (None, r')).
  { intros r2 Hb2 He2 pro' scratch'. destruct (read_physical_eof 2 r2) as (r3 & E3); [by rewrite Hb2|done|].
    by eapply read_loop_eof. }
  cbn [read_loop] in Hend. destruct inf; cbn; apply Hend; try done;
    unfold ReportCorruption, ReportDrop; by destruct (_ && _).
Qed.

(** The first fragment of a record that was cut after [m] bytes. *)
Lemma read_start_cut off begin p b off' m r :
  frags off begin p b off' -> 0 <= m < lengthZ b -> at_ off (takeZ m b) r ->
  (exists r1, ReadPhysicalRecord le addr r = Ok (kEof, None, r1)) \/
  exists n r1 b1 off1 m1, ReadPhysicalRecord le addr r = read_physical le addr (S n) r1 /\
    at_ off1 (takeZ m1 b1) r1 /\ frags off1 begin p b1 off' /\ 0 <= m1 < lengthZ b1 /\
    off1 + kHeaderSize <= kBlockSize /\ (off1 = off \/ off1 = 0).
Proof.
  intros Hf Hm Hat. unfold ReadPhysicalRecord. pose proof (at_range _ _ _ Hat).
  inversion Hf as [off0 begin0 p0 b0 off0' Hpad Hrest|off0 begin0 p0 Hfit|off0 begin0 p0 b0 off0' Hfit Hbig av Hrest];
    subst.
  - set (n := kBlockSize - off) in *. assert (Hz : lengthZ (zeros n) = n) by (apply zeros_length; lia).
    rewrite lengthZ_app, Hz in Hm.
    destruct (Z.ltb_spec m n) as [Hlt|Hge].
    + left. apply read_physical_eof; [rewrite (at_buffer _ _ _ Hat)|rewrite (at_eof _ _ _ Hat)]; fold n.
      * rewrite lengthZ_takeZ by lia. lia.
      * rewrite lengthZ_takeZ, lengthZ_app by lia. apply Z.ltb_lt. lia.
    + right. destruct (read_physical_block 2 off _ r Hat) as (r1 & -> & Hb1 & Hq); fold n;
        [rewrite lengthZ_takeZ, lengthZ_app by lia; lia|done|].
      fold n in Hb1. rewrite dropZ_takeZ, dropZ_app_exact in Hb1 by lia.
      exists 1%nat, r1, b0, 0, (m - n). split; [done|]. split; [done|]. split; [done|].
      split; [lia|]. split; [done|by right].
  - right. exists 2%nat, r, (physical (fragment_type begin true) p), off, m.
    pose proof (lengthZ_nonneg p). repeat (split; [done || lia|]). by left.
  - right. exists 2%nat, r, (physical (fragment_type begin false) (takeZ av p) ++ b0), off, m.
    repeat (split; [done|]). by left.
Qed.

(** A fragment that was cut itself ends the reading. *)
Lemma read_cut fuel n off t q b m frag inf pro scratch r r1 :
  ReadPhysicalRecord le addr r = read_physical le addr (S n) r1 ->
  at_ off (takeZ m (physical t q ++ b)) r1 ->
  off + kHeaderSize + lengthZ q <= kBlockSize -> 0 <= m < kHeaderSize + lengthZ q ->
  exists r', read_loop le addr (S (S fuel)) frag inf pro scratch r = Ok (None, r').
Proof.
  intros E [Hr Hb Hf He _] Hfit Hm. assert (kHeaderSize = 7) by done. assert (kBlockSize = 32768) by done.
  rewrite takeZ_app_le in Hb, He by (rewrite physical_length; lia).
  rewrite lengthZ_takeZ, physical_length, Z.min_l in He by lia.
  rewrite (proj2 (Z.ltb_lt _ _)) in He by lia. rewrite takeZ_ge in Hb
    by (rewrite lengthZ_takeZ, physical_length; lia).
  destruct (Z.ltb_spec m kHeaderSize).
  - destruct (read_physical_eof n r1) as (r2 & E2); [|done|].
    { rewrite Hb, lengthZ_takeZ, physical_length by lia. lia. }
    rewrite E2 in E. by eapply read_loop_eof.
  - destruct (read_physical_short n t q m r1) as (r2 & E2 & Hb2 & He2); [done|lia|lia|].
    rewrite E2 in E. eapply read_loop_bad; [done|done|by rewrite He2].
Qed.

Lemma read_frags_cut fuel : forall off begin p b off' m frag pro scratch r,
  (turns off p < fuel)%nat -> frags off begin p b off' -> 0 <= m < lengthZ b -> at_ off (takeZ m b) r ->
  (begin = true -> scratch = []) -> 0 <= pro ->
  exists r', read_loop le addr (S fuel) frag (negb begin) pro scratch r = Ok (None, r').
Proof.
  induction fuel as [|fuel IH]; intros off begin p b off' m frag pro scratch r Hfuel Hf Hm Hat Hs Hpro; [lia|].
  destruct (read_start_cut _ _ _ _ _ _ _ Hf Hm Hat)
    as [(r1 & E)|(n & r1 & b1 & off1 & m1 & E & Hat1 & Hf1 & Hm1 & Hfit & Hoff)]; [by eapply read_loop_eof|].
  pose proof (turns_start _ _ p Hoff). pose proof (at_range _ _ _ Hat1). pose proof (lengthZ_nonneg p).
  inversion Hf1 as [|off0 begin0 p0 Hend|off0 begin0 p0 b0 off0' Hfit' Hbig av Hrest]; subst; [lia| |].
  - rewrite physical_length in Hm1. rewrite <- (app_nil_r (physical _ _)) in Hat1. by eapply read_cut.
  - assert (Hq : lengthZ (takeZ av p) = av) by (rewrite lengthZ_takeZ; unfold av; lia).
    assert (Hs1 : lengthZ (physical (fragment_type begin false) (takeZ av p)) = kHeaderSize + av)
      by (by rewrite physical_length, Hq).
    destruct (Z.ltb_spec m1 (kHeaderSize + av)) as [Hlt|Hge].
    { eapply read_cut; [done|done|rewrite Hq; unfold av; lia|rewrite Hq; lia]. }
    rewrite lengthZ_app, Hs1 in Hm1.
    rewrite takeZ_app, Hs1, (takeZ_ge m1 (physical _ _)) in Hat1 by lia.
    destruct (read_physical_record n _ _ _ _ _ Hat1) as (r2 & E2 & Hat2 & Hq2);
      [rewrite Hq; unfold av; lia|apply fragment_type_value|]. rewrite E2 in E.
    rewrite Hq in Hat2. replace (off1 + (kHeaderSize + av)) with kBlockSize in Hat2 by (unfold av; lia).
    destruct (read_loop_more (S fuel) frag _ pro scratch _ _ _ E Hs Hpro) as (o & -> & Ho).
    pose proof (turns_cut _ _ Hfit' Hbig) as Hcut. fold av in Hcut.
    destruct (IH kBlockSize false (dropZ av p) b0 off' (m1 - (kHeaderSize + av)) (takeZ av p) o
      (scratch ++ takeZ av p) r2) as (r' & E'); [lia|done|lia|done|done|done|].
    eauto.
Qed.

(** ** All records of a file *)

Fixpoint read_all (n fuel : nat) r : outcome (list bytes * Reader G) :=
  match n with
  | O => NoFuel
  | S n' =>
      '(o, r1) ← ReadRecord le addr fuel r;
      match o with
      | Some p => '(ps, r2) ← read_all n' fuel r1; Ok (p :: ps, r2)
      | None => Ok ([], r1)
      end
  end.

Lemma ReadRecord_loop fuel r :
  initial_offset_ r = 0 -> 0 <= last_record_offset_ r ->
  ReadRecord le addr fuel r = read_loop le addr fuel [] false 0 [] r.
Proof. intros Hi Hl. unfold ReadRecord. by rewrite (proj2 (Z.ltb_ge _ _)) by lia. Qed.

Lemma turns_le off p : (turns off p <= S (length p))%nat.
Proof. unfold turns. destruct (_ =? _); lia. Qed.

(** The records that are there whole, and then the end: the next record [p]
    was cut somewhere. *)
Lemma read_all_cut off rs bs off1 p b off2 m fuel r :
  log_layout off rs bs off1 -> frags off1 true p b off2 -> 0 <= m < lengthZ b ->
  at_ off (bs ++ takeZ m b) r -> 0 <= last_record_offset_ r ->
  (forall q, q ∈ p :: rs -> (length q + 2 < fuel)%nat) ->
  exists r', read_all (S (length rs)) fuel r = Ok (rs, r').
Proof.
  intros Hl Hf Hm Hat Hlast Hfuel. revert r Hat Hlast.
  induction Hl as [off|off q bq off' rs bs off'' Hq Hl IH]; intros r Hat Hlast; cbn [read_all length].
  - rewrite ReadRecord_loop by (apply Hat || done). destruct fuel as [|fuel]; [specialize (Hfuel p ltac:(set_solver)); lia|].
    assert (Hp := turns_le off p). assert (Hp' := Hfuel p ltac:(set_solver)).
    destruct (read_frags_cut fuel off true p b off2 m [] 0 [] r) as (r' & E); [lia|done..|].
    cbn [negb] in E. rewrite E. cbn. eauto.
  - rewrite ReadRecord_loop by (apply Hat || done). rewrite <- app_assoc in Hat.
    assert (Hp := turns_le off q). assert (Hp' := Hfuel q ltac:(set_solver)).
    destruct (read_frags fuel off true q bq off' (bs ++ takeZ m b) [] 0 [] r)
      as (r1 & E & Hat1 & _ & Hlast1); [lia|done..|].
    cbn [negb] in E. rewrite E. cbn [mbind outcome_bind app].
    destruct (IH Hf) with (r := r1) as (r' & E'); [set_solver|done|done|].
    cbn [read_all] in *. rewrite E'. cbn. eauto.
Qed.

(** A log that ends with a whole record: nothing is reported. *)
Lemma read_end off r :
  at_ off [] r -> exists r', ReadPhysicalRecord le addr r = Ok (kEof, None, r') /\ dropped r' = dropped r.
Proof.
  intros Hat. unfold ReadPhysicalRecord.
  assert (Hend : forall n r1, buffer_ r1 = [] -> eof_ r1 = true -> read_physical le addr (S n) r1 = Ok (kEof, None, r1)).
  { intros n r1 Hb He. cbn [read_physical]. by rewrite Hb, He. }
  destruct (Z.ltb_spec off kBlockSize) as [Hlt|Hge].
  - exists r. split; [|done]. apply Hend; [by rewrite (at_buffer _ _ _ Hat)|].
    rewrite (at_eof _ _ _ Hat). apply Z.ltb_lt. cbn. lia.
  - pose proof (at_range _ _ _ Hat).
    destruct (read_physical_block 2 off [] r Hat) as (r1 & -> & Hat1 & Hq); [cbn; lia|unfold kHeaderSize; lia|].
    exists r1. split; [|apply Hq]. apply Hend; [exact (at_buffer _ _ _ Hat1)|]. by rewrite (at_eof _ _ _ Hat1).
Qed.

(** The next record, and the end. *)
Lemma read_next off q bq off' rest fuel r :
  frags off true q bq off' -> at_ off (bq ++ rest) r -> 0 <= last_record_offset_ r -> (length q + 2 < fuel)%nat ->
  exists r1, ReadRecord le addr fuel r = Ok (Some q, r1) /\ at_ off' rest r1 /\ dropped r1 = dropped r /\ 0 <= last_record_offset_ r1.
Proof.
  intros Hq Hat Hlast Hf. rewrite ReadRecord_loop by (apply Hat || done). assert (Hp := turns_le off q).
  destruct (read_frags fuel off true q bq off' rest [] 0 [] r) as (r1 & E & Hat1 & Hd1 & Hlast1); [lia|done..|].
  cbn [negb] in E. rewrite E. by exists r1.
Qed.

Lemma read_last off fuel r :
  at_ off [] r -> 0 <= last_record_offset_ r -> (0 < fuel)%nat ->
  exists r', ReadRecord le addr fuel r = Ok (None, r') /\ dropped r' = dropped r.
Proof.
  intros Hat Hlast Hf. rewrite ReadRecord_loop by (apply Hat || done). destruct (read_end _ _ Hat) as (r' & E & Hd).
  destruct fuel as [|fuel]; [lia|]. cbn [read_loop]. rewrite E. cbn. eauto.
Qed.

Lemma read_all_layout off rs bs off1 fuel r :
  log_layout off rs bs off1 -> at_ off bs r -> 0 <= last_record_offset_ r ->
  (forall q, q ∈ rs -> (length q + 2 < fuel)%nat) -> (0 < fuel)%nat ->
  exists r', read_all (S (length rs)) fuel r = Ok (rs, r') /\ dropped r' = dropped r.
Proof.
  intros Hl Hat Hlast Hfuel Hpos. revert r Hat Hlast.
  induction Hl as [off|off q bq off' rs bs off'' Hq Hl IH]; intros r Hat Hlast; cbn [read_all length].
  - destruct (read_last off fuel r Hat Hlast Hpos) as (r' & -> & Hd). cbn. eauto.
  - destruct (read_next off q bq off' bs fuel r Hq Hat Hlast) as (r1 & -> & Hat1 & Hd1 & Hlast1); [set_solver|].
    cbn [mbind outcome_bind]. destruct IH with (r := r1) as (r' & E' & Hd); [set_solver|done|done|].
    cbn [read_all] in *. rewrite E'. cbn. rewrite <- Hd1. eauto.
Qed.
End reader.

(** ** A log and its records *)

Lemma log_layout_snoc off rs bs off1 p b off2 :
  log_layout off rs bs off1 -> frags off1 true p b off2 -> log_layout off (rs ++ [p]) (bs ++ b) off2.
Proof.
  induction 1 as [off|off q bq off' rs bs off'' Hq Hl IH]; intros Hf; cbn [app].
  - rewrite <- (app_nil_r b). econstructor; [exact Hf|constructor].
  - rewrite <- app_assoc. econstructor; [done|by apply IH].
Qed.

Section log.
Context {F : Type} `{ReliableWritable F}.

Definition log_holds (l : Writer F) (rs : list bytes) : Prop :=
  writer_ok l /\ log_layout 0 rs (contents (dest_ l)) (block_offset_ l).

Lemma log_holds_new addr d : contents d = [] -> log_holds (Writer_new addr d) [].
Proof. intros Hd. split; [apply Writer_new_ok|]. cbn. rewrite Hd. constructor. Qed.

Lemma AddRecord_holds le addr l rs p :
  log_holds l rs -> exists l' b off, AddRecord le addr p l = Ok (true, l') /\ log_holds l' (rs ++ [p]) /\
    frags (block_offset_ l) true p b off /\ contents (dest_ l') = contents (dest_ l) ++ b.
Proof.
  intros [Hok Hl]. destruct (AddRecord_spec le addr p l Hok) as (b & off & l' & E & Hf & Hc & Ho & Hok').
  exists l', b, off. split; [done|]. split; [|done]. split; [done|]. rewrite Hc, Ho. by eapply log_layout_snoc.
Qed.
End log.

(** ** The writer, a crash, the reader *)

Lemma log_cut (le le' : bool) (addr addr' : bytes -> Z) {F G : Type}
    `{ReliableWritable F} `{ReliableSequential G} (rs : list bytes) (p : bytes) (d : F) :
  contents d = [] ->
  exists w1 w2, add_all le addr rs (Writer_new addr d) = Ok (true, w1) /\
    AddRecord le addr p w1 = Ok (true, w2) /\
    forall (g : G) n reporter checksum fuel,
      lengthZ (contents (dest_ w1)) <= n < lengthZ (contents (dest_ w2)) ->
      remaining g = takeZ n (contents (dest_ w2)) ->
      (forall q, q ∈ p :: rs -> (length q + 2 < fuel)%nat) ->
      exists r, read_all le' addr' (S (length rs)) fuel (Reader_new g reporter checksum 0) = Ok (rs, r).
Proof.
  intros Hd. destruct (add_all_spec le addr rs _ (Writer_new_ok addr d)) as (bs & off & w1 & E & Hl & Hw & Hoff & Hok).
  destruct (AddRecord_spec le addr p w1 Hok) as (b & off2 & w2 & E2 & Hf & Hw2 & _).
  exists w1, w2. split; [done|]. split; [done|]. intros g n reporter checksum fuel Hn Hg Hfuel.
  cbn [dest_ Writer_new] in Hw. rewrite Hd in Hw. cbn [app] in Hw. rewrite Hw2, Hw, lengthZ_app in *.
  rewrite takeZ_app, takeZ_ge in Hg by lia. rewrite Hoff in Hf.
  apply layout_block_start in Hl as (off' & Hl & Hstart).
  eapply (read_all_cut le' addr'); [exact Hl|exact (Hstart _ _ _ Hf)| |rewrite <- Hg; apply Reader_new_at|done..].
  lia.
Qed.
