(* ===== verification/WriteBatch.v ===== *)
(** * LevelDB: batches of updates (lib/leveldb/db/write_batch.cc)

    A batch is one string: a sequence number, a count and the updates.  It is
    what LevelDB puts in its log as one record.  A status is [None] for OK and
    [Some] message for a corruption. *)

From S2P Require Import Prelude.
From S2P Require Import Bytes.
From S2P Require Import Coding.
From S2P Require Import DbFormat.
From stdpp Require Import base tactics numbers list strings.
From Stdlib Require Import Ascii ZArith Lia.

Open Scope Z_scope.

Definition kHeader : Z := 12.

Record WriteBatch : Type := mkWriteBatch { rep_ : bytes }.
Implicit Types b : WriteBatch.

(** The calls a batch is read with. *)
Class Handler (H : Type) := {
  handler_Put : H -> bytes -> bytes -> H;
  handler_Delete : H -> bytes -> H
}.

Definition Clear : WriteBatch := mkWriteBatch (replicate 12 NUL).
Definition WriteBatch_new : WriteBatch := Clear.

(** [n] bytes of a string are overwritten from [off] on. *)
Definition overwrite (off : Z) (new l : bytes) : outcome bytes :=
  _ ← require (off + lengthZ new <=? lengthZ l);
  Ok (takeZ off l ++ new ++ dropZ (off + lengthZ new) l).

Section batch.
Context (kLittleEndian : bool).

Definition Count b : outcome Z :=
  n ← DecodeFixed32 kLittleEndian (dropZ 8 (rep_ b)); Ok (i32 n).

Definition SetCount b (n : Z) : outcome WriteBatch :=
  l ← overwrite 8 (EncodeFixed32 kLittleEndian (u32 n)) (rep_ b); Ok (mkWriteBatch l).

Definition Sequence b : outcome Z := DecodeFixed64 kLittleEndian (rep_ b).

Definition SetSequence b (seq : Z) : outcome WriteBatch :=
  l ← overwrite 0 (EncodeFixed64 kLittleEndian seq) (rep_ b); Ok (mkWriteBatch l).

(** The sum of two [int]s. *)
Definition int_add (a c : Z) : outcome Z :=
  _ ← require ((- 2 ^ 31 <=? a + c) && (a + c <? 2 ^ 31)); Ok (a + c).

Definition Put b (key value : bytes) : outcome WriteBatch :=
  n ← Count b;
  n1 ← int_add n 1;
  b1 ← SetCount b n1;
  let rep := rep_ b1 ++ [chr (value_type kTypeValue)] in
  Ok (mkWriteBatch (PutLengthPrefixedSlice (PutLengthPrefixedSlice rep key) value)).

Definition Delete b (key : bytes) : outcome WriteBatch :=
  n ← Count b;
  n1 ← int_add n 1;
  b1 ← SetCount b n1;
  let rep := rep_ b1 ++ [chr (value_type kTypeDeletion)] in
  Ok (mkWriteBatch (PutLengthPrefixedSlice rep key)).

(** [WriteBatchInternal::Append] *)
Definition batch_append (dst src : WriteBatch) : outcome WriteBatch :=
  n ← Count dst;
  m ← Count src;
  k ← int_add n m;
  dst1 ← SetCount dst k;
  if kHeader <=? lengthZ (rep_ src)
  then Ok (mkWriteBatch (rep_ dst1 ++ dropZ kHeader (rep_ src)))
  else Throw assertion_failed.

Definition SetContents (contents : bytes) : outcome WriteBatch :=
  if kHeader <=? lengthZ contents then Ok (mkWriteBatch contents) else Throw assertion_failed.

Context {H : Type} `{Handler H}.

(** The loop of [Iterate]: a turn takes the tag at least, so that as many
    turns as there are bytes are enough. *)
Fixpoint iterate_loop (fuel : nat) (input : bytes) (found : Z) (h : H) :
    outcome (option bytes * Z * H) :=
  match input with
  | [] => Ok (None, found, h)
  | tag :: input1 =>
      match fuel with
      | O => NoFuel
      | S fuel' =>
          let found1 := found + 1 in
          if schar tag =? value_type kTypeValue then
            match GetLengthPrefixedSlice input1 with
            | (None, _) => Ok (Some (str "bad WriteBatch Put"), found1, h)
            | (Some key, input2) =>
                match GetLengthPrefixedSlice input2 with
                | (None, _) => Ok (Some (str "bad WriteBatch Put"), found1, h)
                | (Some value, input3) => iterate_loop fuel' input3 found1 (handler_Put h key value)
                end
            end
          else if schar tag =? value_type kTypeDeletion then
            match GetLengthPrefixedSlice input1 with
            | (None, _) => Ok (Some (str "bad WriteBatch Delete"), found1, h)
            | (Some key, input2) => iterate_loop fuel' input2 found1 (handler_Delete h key)
            end
          else Ok (Some (str "unknown WriteBatch tag"), found1, h)
      end
  end.

Definition Iterate b (h : H) : outcome (option bytes * H) :=
  let input := rep_ b in
  if lengthZ input <? kHeader then Ok (Some (str "malformed WriteBatch (too small)"), h)
  else
    '(st, found, h1) ← iterate_loop (length input) (dropZ kHeader input) 0 h;
    match st with
    | Some e => Ok (Some e, h1)
    | None =>
        n ← Count b;
        Ok (if negb (found =? n) then Some (str "WriteBatch has wrong count") else None, h1)
    end.
End batch.

(** ** The operations of a batch *)

Inductive update : Type := UPut (key value : bytes) | UDelete (key : bytes).
Implicit Types u : update.

Definition update_bytes u : bytes :=
  match u with
  | UPut key value =>
      chr 1 :: PutLengthPrefixedSlice [] key ++ PutLengthPrefixedSlice [] value
  | UDelete key => chr 0 :: PutLengthPrefixedSlice [] key
  end.

(** A slice's length is written in 32 bits. *)
Definition update_fits u : Prop :=
  match u with
  | UPut key value => lengthZ key < 2 ^ 32 /\ lengthZ value < 2 ^ 32
  | UDelete key => lengthZ key < 2 ^ 32
  end.

Definition apply_update (le : bool) b u : outcome WriteBatch :=
  match u with UPut key value => Put le b key value | UDelete key => Delete le b key end.

Fixpoint apply_updates (le : bool) b (us : list update) : outcome WriteBatch :=
  match us with
  | [] => Ok b
  | u :: us' => b1 ← apply_update le b u; apply_updates le b1 us'
  end.

Definition handle {H} `{Handler H} (h : H) u : H :=
  match u with UPut key value => handler_Put h key value | UDelete key => handler_Delete h key end.

(** The string of a batch. *)
Definition batch_bytes (seq : Z) (us : list update) : bytes :=
  le_bytes 8 seq ++ le_bytes 4 (lengthZ us) ++ (us ≫= update_bytes).

(** ** Correctness *)

Lemma PutLengthPrefixedSlice_app dst s : PutLengthPrefixedSlice dst s = dst ++ PutLengthPrefixedSlice [] s.
Proof. unfold PutLengthPrefixedSlice, PutVarint32. cbn [app]. by rewrite app_assoc. Qed.

Lemma overwrite_mid a old new c :
  lengthZ old = lengthZ new -> overwrite (lengthZ a) new (a ++ old ++ c) = Ok (a ++ new ++ c).
Proof.
  intros E. unfold overwrite. rewrite !lengthZ_app, E.
  pose proof (lengthZ_nonneg a). pose proof (lengthZ_nonneg new). pose proof (lengthZ_nonneg c).
  rewrite (proj2 (Z.leb_le _ _)) by lia. cbn [mbind outcome_bind require].
  rewrite takeZ_app_exact by done. rewrite (app_assoc a old c), dropZ_app_exact; [done|].
  rewrite lengthZ_app. lia.
Qed.

Section correct.
Context (le : bool).

Lemma Count_batch seq n body :
  0 <= n < 2 ^ 31 -> Count le (mkWriteBatch (le_bytes 8 seq ++ le_bytes 4 n ++ body)) = Ok n.
Proof.
  intros Hn. unfold Count. cbn [rep_]. rewrite dropZ_app_exact by done.
  rewrite <- (EncodeFixed32_le le), DecodeFixed32_Encode by lia. cbn [mbind outcome_bind].
  by rewrite i32_small by lia.
Qed.

Lemma SetCount_batch seq n k body :
  0 <= k < 2 ^ 32 ->
  SetCount le (mkWriteBatch (le_bytes 8 seq ++ le_bytes 4 n ++ body)) k =
    Ok (mkWriteBatch (le_bytes 8 seq ++ le_bytes 4 k ++ body)).
Proof.
  intros Hk. unfold SetCount. cbn [rep_]. rewrite u32_small, EncodeFixed32_le by lia.
  change 8 with (lengthZ (le_bytes 8 seq)) at 1. by rewrite overwrite_mid.
Qed.

Lemma SetSequence_batch seq seq' rest :
  SetSequence le (mkWriteBatch (le_bytes 8 seq ++ rest)) seq' = Ok (mkWriteBatch (le_bytes 8 seq' ++ rest)).
Proof.
  unfold SetSequence. cbn [rep_]. rewrite EncodeFixed64_le.
  pose proof (overwrite_mid [] (le_bytes 8 seq) (le_bytes 8 seq') rest eq_refl) as E.
  cbn [lengthZ app] in E. by rewrite E.
Qed.

Lemma Sequence_batch seq rest :
  0 <= seq < 2 ^ 64 -> Sequence le (mkWriteBatch (le_bytes 8 seq ++ rest)) = Ok seq.
Proof.
  intros Hs. unfold Sequence. cbn [rep_]. by rewrite <- (EncodeFixed64_le le), DecodeFixed64_Encode.
Qed.

Lemma apply_update_batch seq us u :
  lengthZ us + 1 < 2 ^ 31 ->
  apply_update le (mkWriteBatch (batch_bytes seq us)) u = Ok (mkWriteBatch (batch_bytes seq (us ++ [u]))).
Proof.
  intros Hn. pose proof (lengthZ_nonneg us). unfold batch_bytes.
  rewrite lengthZ_app, bind_app. cbn [lengthZ mbind list_bind]. rewrite app_nil_r.
  destruct u as [key value|key]; cbn [apply_update]; unfold Put, Delete;
    rewrite Count_batch by lia; cbn [mbind outcome_bind]; unfold int_add;
    rewrite (proj2 (Z.leb_le _ _)), (proj2 (Z.ltb_lt _ _)) by lia; cbn [mbind outcome_bind require andb];
    rewrite SetCount_batch by lia; cbn [mbind outcome_bind rep_ value_type].
  - rewrite (PutLengthPrefixedSlice_app (PutLengthPrefixedSlice _ key)), (PutLengthPrefixedSlice_app _ key).
    cbn [update_bytes]. by rewrite <- !app_assoc.
  - rewrite PutLengthPrefixedSlice_app. cbn [update_bytes]. rewrite <- !app_assoc. done.
Qed.

Lemma apply_updates_batch seq us vs :
  lengthZ us + lengthZ vs < 2 ^ 31 ->
  apply_updates le (mkWriteBatch (batch_bytes seq us)) vs = Ok (mkWriteBatch (batch_bytes seq (us ++ vs))).
Proof.
  revert us. induction vs as [|u vs IH]; intros us Hn; cbn [apply_updates]; [by rewrite app_nil_r|].
  cbn [lengthZ] in Hn. pose proof (lengthZ_nonneg vs). rewrite apply_update_batch by lia.
  cbn [mbind outcome_bind]. rewrite IH by (rewrite lengthZ_app; cbn; lia). by rewrite <- app_assoc.
Qed.

Lemma new_batch : WriteBatch_new = mkWriteBatch (batch_bytes 0 []).
Proof. done. Qed.

Context {H : Type} `{Handler H}.

Lemma iterate_loop_updates us fuel found (h : H) :
  Forall update_fits us -> (length (us ≫= update_bytes) <= fuel)%nat ->
  iterate_loop fuel (us ≫= update_bytes) found h = Ok (None, found + lengthZ us, foldl handle h us).
Proof.
  intros Hfit. revert fuel found h. induction Hfit as [|u us Hu Hfit IH]; intros fuel found h Hfuel.
  { cbn. rewrite Z.add_0_r. by destruct fuel. }
  cbn [mbind list_bind] in *. rewrite length_app in Hfuel.
  assert (Hpos : (1 <= length (update_bytes u))%nat) by (destruct u; cbn; lia).
  destruct fuel as [|fuel]; [lia|]. cbn [foldl lengthZ].
  replace (found + (1 + lengthZ us)) with (found + 1 + lengthZ us) by lia.
  destruct u as [key value|key]; cbn [update_bytes app iterate_loop update_fits] in *.
  - change (schar (chr 1) =? value_type kTypeValue) with true. cbv iota.
    rewrite <- app_assoc. destruct Hu as [Hk Hv].
    rewrite (proj1 (GetLengthPrefixedSlice_Put key _ Hk)), (proj1 (GetLengthPrefixedSlice_Put value _ Hv)).
    apply IH. cbn [length] in Hfuel. lia.
  - change (schar (chr 0) =? value_type kTypeValue) with false.
    change (schar (chr 0) =? value_type kTypeDeletion) with true. cbv iota.
    rewrite (proj1 (GetLengthPrefixedSlice_Put key _ Hu)).
    apply IH. cbn [length] in Hfuel. lia.
Qed.

Lemma Iterate_batch seq us (h : H) :
  Forall update_fits us -> lengthZ us < 2 ^ 31 ->
  Iterate le (mkWriteBatch (batch_bytes seq us)) h = Ok (None, foldl handle h us).
Proof.
  intros Hfit Hn. unfold Iterate. cbn [rep_]. pose proof (lengthZ_nonneg us).
  assert (E : batch_bytes seq us = (le_bytes 8 seq ++ le_bytes 4 (lengthZ us)) ++ (us ≫= update_bytes))
    by (unfold batch_bytes; by rewrite <- app_assoc).
  rewrite (proj2 (Z.ltb_ge _ _)).
  2: { rewrite E, !lengthZ_app, !le_bytes_lengthZ. pose proof (lengthZ_nonneg (us ≫= update_bytes)).
       unfold kHeader. lia. }
  rewrite E at 2. rewrite dropZ_app_exact by done.
  rewrite iterate_loop_updates; [|done|rewrite E, length_app; lia]. cbn [mbind outcome_bind].
  unfold batch_bytes. rewrite Count_batch by lia. cbn [mbind outcome_bind].
  by rewrite Z.eqb_refl.
Qed.
End correct.
