(* ===== verification/Iterator.v ===== *)
(** * LevelDB: iterators (lib/leveldb/include/leveldb/iterator.h)

    The class [Iterator] has the calls of the interface; [IteratorLaws] says
    what each of them does to the position of an iterator in a list of entries,
    for the iterators that meet no error.  Blocks and the memory table
    implement it, and what goes over a whole iterator is proved against it. *)

From S2P Require Import Prelude.
From S2P Require Import Bytes.
From S2P Require Import Coding.
From S2P Require Import Comparator.
From stdpp Require Import base tactics numbers list sorting strings.
From Stdlib Require Import Ascii ZArith Lia.

Open Scope Z_scope.

Class Iterator (I : Type) := {
  it_Valid : I -> bool;
  it_SeekToFirst : I -> outcome I;
  it_SeekToLast : I -> outcome I;
  it_Seek : bytes -> I -> outcome I;
  it_Next : I -> outcome I;
  it_Prev : I -> outcome I;
  it_key : I -> outcome bytes;
  it_value : I -> outcome bytes;
  it_status : I -> Status
}.

Lemma StronglySorted_lookup {A} (R : A -> A -> Prop) (l : list A) i j x y :
  StronglySorted R l -> l !! i = Some x -> l !! j = Some y -> (i < j)%nat -> R x y.
Proof.
  intros Hs Hi Hj Hij. rewrite <- (take_drop_middle l i x Hi) in Hs. apply StronglySorted_app_1_r in Hs.
  apply StronglySorted_cons in Hs as [Hs _]. rewrite Forall_forall in Hs. apply Hs. apply list_elem_of_lookup.
  exists (j - S i)%nat. rewrite lookup_drop, <- Hj. f_equal. lia.
Qed.

(** An entry with its key. *)
Notation kv_pair := (bytes * bytes)%type (only parsing).

Section laws.
Context {C : Type} `{Comparator C} (c : C) `{!ComparatorLaws C c}.
Notation order := (key_order (c := c)).
Implicit Types es : list kv_pair.

(** The first entry that is not before a key. *)
Definition first_from es (target : bytes) (n : nat) : Prop :=
  (n <= length es)%nat /\
  (forall i e, es !! i = Some e -> (i < n)%nat -> order e.1 target < 0) /\
  (forall e, es !! n = Some e -> 0 <= order e.1 target).

(** Keys in ascending order. *)
Definition ascending es : Prop :=
  forall i j e e', es !! i = Some e -> es !! j = Some e' -> (i < j)%nat -> order e.1 e'.1 < 0.

Lemma first_from_exists es target : exists n, first_from es target n.
Proof.
  induction es as [|e es (n & Hn & H1 & H2)].
  - exists 0%nat. split; [done|]. split; intros; by rewrite lookup_nil in *.
  - destruct (Z.lt_ge_cases (order e.1 target) 0).
    + exists (S n). split; [cbn; lia|]. split; [|exact H2]. intros [|i] e' He Hi; [by injection He as <-|].
      apply (H1 i e' He). lia.
    + exists 0%nat. split; [cbn; lia|]. split; [intros; lia|]. intros e' He. by injection He as <-.
Qed.

Lemma first_from_split es1 es2 target :
  Forall (fun e => order e.1 target < 0) es1 -> (forall e, head es2 = Some e -> 0 <= order e.1 target) ->
  first_from (es1 ++ es2) target (length es1).
Proof.
  rewrite Forall_forall. intros Hlt Hge. split; [rewrite length_app; lia|]. split.
  - intros i e He Hi. rewrite lookup_app_l in He by done. apply Hlt. by eapply list_elem_of_lookup_2.
  - intros e He. rewrite lookup_app_r, Nat.sub_diag in He by lia. apply Hge. by rewrite head_lookup.
Qed.

Lemma first_from_unique es target n m : first_from es target n -> first_from es target m -> n = m.
Proof.
  assert (Hle : forall n m, first_from es target n -> first_from es target m -> ~ (n < m)%nat).
  { intros x y (Hx & _ & Hge) (Hy & Hlt & _) Hxy. destruct (lookup_lt_is_Some_2 es x ltac:(lia)) as [e He].
    specialize (Hge e He). specialize (Hlt x e He Hxy). lia. }
  intros Hn Hm. pose proof (Hle n m Hn Hm). pose proof (Hle m n Hm Hn). lia.
Qed.

(** [iter_at i es n]: over the entries [es], at entry [n]; nowhere when [n] is
    their number.  [seekable]: the keys it can be asked to seek. *)
Class IteratorLaws (I : Type) {ops : Iterator I} := {
  iter_at : I -> list kv_pair -> nat -> Prop;
  seekable : bytes -> Prop;
  iter_at_bound i es n : iter_at i es n -> (n <= length es)%nat;
  it_Valid_at i es n : iter_at i es n -> it_Valid i = bool_decide (is_Some (es !! n));
  it_status_at i es n : iter_at i es n -> it_status i = Status_ok;
  it_key_at i es n k v : iter_at i es n -> es !! n = Some (k, v) -> it_key i = Ok k;
  it_value_at i es n k v : iter_at i es n -> es !! n = Some (k, v) -> it_value i = Ok v;
  it_SeekToFirst_at i es n : iter_at i es n -> exists i', it_SeekToFirst i = Ok i' /\ iter_at i' es 0;
  it_SeekToLast_at i es n : iter_at i es n -> exists i', it_SeekToLast i = Ok i' /\ iter_at i' es (length es - 1);
  it_Seek_at i es n k m : iter_at i es n -> seekable k -> first_from es k m ->
    exists i', it_Seek k i = Ok i' /\ iter_at i' es m;
  it_Next_at i es n : iter_at i es n -> (n < length es)%nat -> exists i', it_Next i = Ok i' /\ iter_at i' es (S n);
  it_Prev_at i es n : iter_at i es n -> (n < length es)%nat ->
    exists i', it_Prev i = Ok i' /\ iter_at i' es (match n with O => length es | S m => m end)
}.
End laws.

(** ** Going over all entries *)

Section walk.
Context {I : Type} `{Iterator I}.

Definition it_entry (i : I) : outcome kv_pair := k ← it_key i; v ← it_value i; Ok (k, v).

(** [while (Valid()) { ...; step }]. *)
Fixpoint entries_from (step : I -> outcome I) (fuel : nat) (i : I) : outcome (list kv_pair) :=
  match fuel with
  | O => NoFuel
  | S fuel' =>
      if it_Valid i then
        e ← it_entry i; i ← step i; es ← entries_from step fuel' i; Ok (e :: es)
      else Ok []
  end.

Definition forwards (fuel : nat) (i : I) : outcome (list kv_pair) :=
  i ← it_SeekToFirst i; entries_from it_Next fuel i.
Definition backwards (fuel : nat) (i : I) : outcome (list kv_pair) :=
  i ← it_SeekToLast i; entries_from it_Prev fuel i.

Context {C : Type} `{Comparator C} (c : C) `{!ComparatorLaws C c, !IteratorLaws c I}.

Lemma it_entry_at (i : I) es n e : iter_at c i es n -> es !! n = Some e -> it_entry i = Ok e.
Proof.
  destruct e as [k v]. intros Hi He. unfold it_entry. by rewrite (it_key_at c i es n k v), (it_value_at c i es n k v).
Qed.

Lemma entries_Next fuel (i : I) es n :
  iter_at c i es n -> (length es < n + fuel)%nat -> entries_from it_Next fuel i = Ok (drop n es).
Proof.
  revert i n. induction fuel as [|fuel IH]; intros i n Hi Hf; [apply iter_at_bound in Hi; lia|].
  cbn [entries_from]. rewrite (it_Valid_at c i es n Hi). destruct (es !! n) as [e|] eqn:E.
  - rewrite bool_decide_eq_true_2 by done. rewrite (it_entry_at i es n e Hi E). cbn [mbind outcome_bind].
    destruct (it_Next_at c i es n Hi ltac:(by eapply lookup_lt_Some)) as (i' & -> & Hi'). cbn [mbind outcome_bind].
    rewrite (IH i' (S n) Hi') by lia. cbn [mbind outcome_bind]. by rewrite (drop_S _ _ _ E).
  - rewrite bool_decide_eq_false_2 by (intros []; done). by rewrite drop_ge by by apply lookup_ge_None.
Qed.

Lemma entries_Prev_end fuel (i : I) es : iter_at c i es (length es) -> (0 < fuel)%nat -> entries_from it_Prev fuel i = Ok [].
Proof.
  intros Hi Hf. destruct fuel as [|fuel]; [lia|]. cbn [entries_from]. rewrite (it_Valid_at c i es _ Hi).
  rewrite lookup_ge_None_2 by lia. by rewrite bool_decide_eq_false_2 by (intros []; done).
Qed.

Lemma entries_Prev fuel (i : I) es n :
  iter_at c i es n -> (n < length es)%nat -> (S n < fuel)%nat -> entries_from it_Prev fuel i = Ok (rev (take (S n) es)).
Proof.
  revert i n. induction fuel as [|fuel IH]; intros i n Hi Hn Hf; [lia|].
  cbn [entries_from]. rewrite (it_Valid_at c i es n Hi). destruct (lookup_lt_is_Some_2 es n Hn) as [e E].
  rewrite bool_decide_eq_true_2 by by exists e. rewrite (it_entry_at i es n e Hi E). cbn [mbind outcome_bind].
  destruct (it_Prev_at c i es n Hi Hn) as (i' & -> & Hi'). cbn [mbind outcome_bind].
  rewrite (take_S_r _ _ _ E), rev_app_distr. cbn [rev app]. destruct n as [|m].
  - rewrite (entries_Prev_end fuel i' es Hi') by lia. done.
  - by rewrite (IH i' m Hi') by lia.
Qed.

Lemma forwards_ok fuel (i : I) es n : iter_at c i es n -> (length es < fuel)%nat -> forwards fuel i = Ok es.
Proof.
  intros Hi Hf. unfold forwards. destruct (it_SeekToFirst_at c i es n Hi) as (i' & -> & Hi'). cbn [mbind outcome_bind].
  by rewrite (entries_Next fuel i' es 0 Hi') by lia.
Qed.

Lemma backwards_ok fuel (i : I) es n : iter_at c i es n -> (length es < fuel)%nat -> backwards fuel i = Ok (rev es).
Proof.
  intros Hi Hf. unfold backwards. destruct (it_SeekToLast_at c i es n Hi) as (i' & -> & Hi'). cbn [mbind outcome_bind].
  destruct (decide (length es = 0)%nat) as [E|E].
  - apply nil_length_inv in E as ->. by apply (entries_Prev_end fuel i' []).
  - rewrite (entries_Prev fuel i' es (length es - 1) Hi') by lia. by rewrite take_ge by lia.
Qed.
End walk.
