(* ===== verification/Arena.v ===== *)
(** * LevelDB: random heights and the arena of the memory table

    The generator of util/random.h and the arena of util/arena.cc. *)

From S2P Require Import Prelude.
From stdpp Require Import base tactics numbers list.
From Stdlib Require Import ZArith Lia.

Open Scope Z_scope.

(** * LevelDB: the random numbers of the skip list (lib/leveldb/util/random.h)

    A multiplicative generator modulo [2^31 - 1] that never divides. *)

Record Random : Type := mkRandom { seed_ : Z }.
Section Random.
Implicit Types r : Random.

Definition Random_new (s : Z) : Random :=
  let seed := Z.land s 0x7fffffff in
  mkRandom (if (seed =? 0) || (seed =? 2147483647) then 1 else seed).

Definition Random_Next r : Z * Random :=
  let M := 2147483647 in
  let A := 16807 in
  let product := u64 (seed_ r * A) in
  let seed := u32 (Z.shiftr product 31 + Z.land product M) in
  let seed := if M <? seed then u32 (seed - M) else seed in
  (seed, mkRandom seed).

(** [n] is an [int], which the modulus converts. *)
Definition Uniform r (n : Z) : outcome (Z * Random) :=
  let '(v, r') := Random_Next r in
  _ ← require (negb (u32 n =? 0));
  Ok (v mod u32 n, r').

Definition OneIn r (n : Z) : outcome (bool * Random) :=
  '(v, r') ← Uniform r n; Ok (v =? 0, r').

(** [1 << m] is an [int]. *)
Definition Skewed r (max_log : Z) : outcome (Z * Random) :=
  '(m, r') ← Uniform r (max_log + 1);
  _ ← require (m <? 31);
  Uniform r' (Z.shiftl 1 m).

(** ** The generator is multiplication modulo a prime *)

Definition seed_ok (s : Z) : Prop := 1 <= s < 2 ^ 31 - 1.

Lemma Random_new_ok s : seed_ok (seed_ (Random_new s)).
Proof.
  unfold Random_new, seed_ok. cbn [seed_].
  change 0x7fffffff with (2 ^ 31 - 1). rewrite land_ones_mod by lia.
  pose proof (Z.mod_pos_bound s (2 ^ 31)).
  destruct (Z.eqb_spec (s mod 2 ^ 31) 0), (Z.eqb_spec (s mod 2 ^ 31) (2 ^ 31 - 1)); cbn [orb]; lia.
Qed.

Lemma seed_product_nonzero s : seed_ok s -> (s * 16807) mod (2 ^ 31 - 1) <> 0.
Proof.
  intros Hs E. apply Z.mod_divide in E; [|lia]. rewrite Z.mul_comm in E.
  apply Z.gauss in E; [|done].
  apply Z.divide_pos_le in E; unfold seed_ok in Hs; lia.
Qed.

Lemma Random_Next_spec r :
  seed_ok (seed_ r) ->
  Random_Next r = ((seed_ r * 16807) mod (2 ^ 31 - 1), mkRandom ((seed_ r * 16807) mod (2 ^ 31 - 1))) /\
  seed_ok ((seed_ r * 16807) mod (2 ^ 31 - 1)).
Proof.
  intros Hs. pose proof (seed_product_nonzero _ Hs) as Hnz. unfold seed_ok in *.
  set (p := seed_ r * 16807) in *.
  assert (Hp : 0 <= p < (2 ^ 31 - 1) * 16807) by lia.
  pose proof (Z.mod_pos_bound p (2 ^ 31 - 1)).
  split; [|lia].
  unfold Random_Next. fold p. rewrite u64_small by lia.
  change 2147483647 with (2 ^ 31 - 1). rewrite land_ones_mod, Z.shiftr_div_pow2 by lia.
  pose proof (Z.div_mod p (2 ^ 31)) as Hdm. pose proof (Z.mod_pos_bound p (2 ^ 31)).
  assert (0 <= p / 2 ^ 31 < 16807).
  { split; [apply Z.div_pos; lia|apply Z.div_lt_upper_bound; lia]. }
  rewrite u32_small by lia.
  assert (E : p mod (2 ^ 31 - 1) = (p / 2 ^ 31 + p mod 2 ^ 31) mod (2 ^ 31 - 1)).
  { rewrite Hdm at 1 by lia.
    replace (2 ^ 31 * (p / 2 ^ 31) + p mod 2 ^ 31)
      with (p / 2 ^ 31 + p mod 2 ^ 31 + (p / 2 ^ 31) * (2 ^ 31 - 1)) by lia.
    by rewrite Z.mod_add by lia. }
  rewrite E in *. destruct (Z.ltb_spec (2 ^ 31 - 1) (p / 2 ^ 31 + p mod 2 ^ 31)).
  - rewrite u32_small by lia.
    replace ((p / 2 ^ 31 + p mod 2 ^ 31) mod (2 ^ 31 - 1))
      with (p / 2 ^ 31 + p mod 2 ^ 31 - (2 ^ 31 - 1)); [done|].
    apply Z.mod_unique_pos with 1; lia.
  - rewrite (Z.mod_small (_ + _)); [done|].
    assert (p / 2 ^ 31 + p mod 2 ^ 31 <> 2 ^ 31 - 1); [|lia].
    intros Eq. apply Hnz. rewrite Eq. apply Z.mod_same. lia.
Qed.
End Random.

(** * LevelDB: the arena (lib/leveldb/util/arena.h, arena.cc)

    Memory of a memory table is taken from blocks of 4 KB.  A pointer is a
    block and an offset in it; [base] gives the addresses of the blocks.
    [new char[n]] succeeds. *)

Definition arena_kBlockSize : Z := 4096.

Abbreviation pointer := (nat * Z)%type.

(** [blocks_]: the sizes of the blocks. *)
Record Arena : Type := mkArena
  { alloc_ptr_ : option pointer; alloc_bytes_remaining_ : Z; blocks_ : list Z; blocks_memory_ : Z }.
Implicit Types a : Arena.

Definition Arena_new : Arena := mkArena None 0 [] 0.

Section Arena.
Context (base : nat -> Z).

Definition AllocateNewBlock a (block_bytes : Z) : pointer * Arena :=
  ((length (blocks_ a), 0),
   mkArena (alloc_ptr_ a) (alloc_bytes_remaining_ a) (blocks_ a ++ [block_bytes])
     (u64 (blocks_memory_ a + block_bytes))).

Definition AllocateFallback a (bytes : Z) : pointer * Arena :=
  if arena_kBlockSize / 4 <? bytes then AllocateNewBlock a bytes
  else
    let '(p, a1) := AllocateNewBlock a arena_kBlockSize in
    (p, mkArena (Some (p.1, p.2 + bytes)) (u64 (arena_kBlockSize - bytes)) (blocks_ a1) (blocks_memory_ a1)).

(** [alloc_ptr_ += n], of which the old value or what comes [slop] behind it is
    returned. *)
Definition bump a (slop n : Z) : outcome (pointer * Arena) :=
  p ← in_bounds (alloc_ptr_ a);
  Ok ((p.1, p.2 + slop),
      mkArena (Some (p.1, p.2 + n)) (u64 (alloc_bytes_remaining_ a - n)) (blocks_ a) (blocks_memory_ a)).

Definition Allocate a (bytes : Z) : outcome (pointer * Arena) :=
  _ ← assert_ (0 <? bytes);
  if bytes <=? alloc_bytes_remaining_ a then bump a 0 bytes else Ok (AllocateFallback a bytes).

Definition address (p : pointer) : Z := base p.1 + p.2.

Definition AllocateAligned a (bytes : Z) : outcome (pointer * Arena) :=
  let align := 8 in
  let current_mod := Z.land (match alloc_ptr_ a with Some p => address p | None => 0 end) (align - 1) in
  let slop := if current_mod =? 0 then 0 else align - current_mod in
  let needed := u64 (bytes + slop) in
  '(result, a1) ← (if needed <=? alloc_bytes_remaining_ a then bump a slop needed
                   else Ok (AllocateFallback a bytes));
  _ ← assert_ (Z.land (address result) (align - 1) =? 0);
  Ok (result, a1).

(** [capacity] is that of the vector of blocks. *)
Definition MemoryUsage a (capacity : Z) : Z := u64 (blocks_memory_ a + u64 (capacity * 8)).
End Arena.

(** ** What is allocated lies in a block and does not overlap *)

(** A region: where it starts and its size. *)
Abbreviation region := (pointer * Z)%type.

Definition in_block (blocks : list Z) (r : region) : Prop :=
  exists size, blocks !! r.1.1 = Some size /\ 0 <= r.1.2 /\ 0 <= r.2 /\ r.1.2 + r.2 <= size.

Definition apart (r s : region) : Prop :=
  r.1.1 <> s.1.1 \/ r.1.2 + r.2 <= s.1.2 \/ s.1.2 + s.2 <= r.1.2.

(** The free part of the current block. *)
Definition free_region a : option region :=
  p ← alloc_ptr_ a; Some (p, alloc_bytes_remaining_ a).

Record arena_ok a (rs : list region) : Prop := {
  ao_in : Forall (in_block (blocks_ a)) rs;
  ao_apart : ForallOrdPairs apart rs;
  ao_rem : 0 <= alloc_bytes_remaining_ a < 2 ^ 64;
  ao_free : match free_region a with
            | Some f => in_block (blocks_ a) f /\ Forall (apart f) rs
            | None => alloc_bytes_remaining_ a = 0
            end
}.

Lemma apart_sym r s : apart r s -> apart s r.
Proof. unfold apart. intuition. Qed.

Lemma Arena_new_ok : arena_ok Arena_new [].
Proof. split; cbn; repeat constructor; lia. Qed.

Lemma in_block_app blocks more r : in_block blocks r -> in_block (blocks ++ more) r.
Proof. intros (size & Hl & ?). exists size. split; [by apply lookup_app_l_Some|done]. Qed.

Lemma apart_new_block blocks r s : in_block blocks r -> s.1.1 = length blocks -> apart s r.
Proof. intros (size & Hl & _) E. left. rewrite E. intros Eq. rewrite <- Eq in Hl. apply lookup_lt_Some in Hl. lia. Qed.

Lemma bump_ok a rs slop n bytes :
  arena_ok a rs -> 0 <= slop -> 0 <= bytes -> n = slop + bytes -> 0 < n -> n <= alloc_bytes_remaining_ a ->
  exists p a1, bump a slop n = Ok (p, a1) /\ arena_ok a1 ((p, bytes) :: rs) /\
    exists q, alloc_ptr_ a = Some q /\ p = (q.1, q.2 + slop).
Proof.
  intros [Hin Hap Hrem Hfree] Hs Hb -> Hn Hle. unfold bump, free_region in *.
  destruct (alloc_ptr_ a) as [q|] eqn:Eq; cbn [mbind option_bind] in Hfree; [|lia].
  destruct Hfree as [(size & Hl & ? & ? & Hsz) Hfa]. cbn [fst snd] in *. cbn [in_bounds mbind outcome_bind].
  do 2 eexists. split; [done|]. split; [|by exists q]. rewrite u64_small by lia.
  assert (Hnew : in_block (blocks_ a) (q.1, q.2 + slop, bytes)).
  { exists size. cbn. split; [done|lia]. }
  split; cbn [blocks_ alloc_bytes_remaining_].
  - by constructor.
  - constructor; [|done]. eapply Forall_impl; [exact Hfa|]. intros r. unfold apart. cbn. lia.
  - lia.
  - unfold free_region. cbn. split; [exists size; cbn; split; [done|lia]|].
    constructor; [unfold apart; cbn; lia|].
    eapply Forall_impl; [exact Hfa|]. intros r. unfold apart. cbn. lia.
Qed.

Lemma AllocateFallback_ok a rs bytes :
  arena_ok a rs -> 0 < bytes -> exists p a1,
    AllocateFallback a bytes = (p, a1) /\ arena_ok a1 ((p, bytes) :: rs) /\ p.2 = 0.
Proof.
  intros [Hin Hap Hrem Hfree] Hb. unfold AllocateFallback, AllocateNewBlock, arena_kBlockSize.
  assert (Hold : forall more, Forall (in_block (blocks_ a ++ more)) rs).
  { intros more. eapply Forall_impl; [exact Hin|]. intros r. apply in_block_app. }
  assert (Hnew : forall o n, Forall (apart (length (blocks_ a), o, n)) rs).
  { intros o n. eapply Forall_impl; [exact Hin|]. intros r Hr. by eapply apart_new_block. }
  destruct (Z.ltb_spec (4096 / 4) bytes) as [Hbig|Hsmall]; cbn [fst snd alloc_ptr_ blocks_ blocks_memory_].
  - do 2 eexists. split; [done|]. split; [|done]. split; cbn [blocks_ alloc_bytes_remaining_].
    + constructor; [|done]. exists bytes. cbn. split; [by apply list_lookup_middle|lia].
    + by constructor.
    + done.
    + unfold free_region in *. cbn [alloc_ptr_ alloc_bytes_remaining_]. destruct (alloc_ptr_ a); cbn in *; [|done].
      destruct Hfree as [Hf Hfa]. split; [by apply in_block_app|]. constructor; [|done].
      by eapply apart_sym, apart_new_block.
  - change (4096 / 4) with 1024 in Hsmall. do 2 eexists. split; [done|]. split; [|done].
    rewrite u64_small by lia. split; cbn [blocks_ alloc_bytes_remaining_].
    + constructor; [|done]. exists 4096. cbn. split; [by apply list_lookup_middle|lia].
    + by constructor.
    + lia.
    + unfold free_region. cbn. split; [exists 4096; cbn; split; [by apply list_lookup_middle|lia]|].
      constructor; [unfold apart; cbn; lia|]. apply Hnew.
Qed.

Lemma Allocate_ok a rs bytes :
  arena_ok a rs -> 0 < bytes -> exists p a1, Allocate a bytes = Ok (p, a1) /\ arena_ok a1 ((p, bytes) :: rs).
Proof.
  intros Ha Hb. unfold Allocate. rewrite bind_assert by by apply Z.ltb_lt.
  destruct (Z.leb_spec bytes (alloc_bytes_remaining_ a)).
  - edestruct (bump_ok a rs 0 bytes bytes) as (p & a1 & E & Hok & _); try done; [lia|]. eauto.
  - destruct (AllocateFallback_ok a rs bytes Ha Hb) as (p & a1 & -> & Hok & _). eauto.
Qed.

(** Blocks are aligned as [new] aligns them. *)
Lemma AllocateAligned_ok base a rs bytes :
  (forall b, base b mod 8 = 0) ->
  arena_ok a rs -> 0 < bytes < 2 ^ 63 -> exists p a1,
    AllocateAligned base a bytes = Ok (p, a1) /\ arena_ok a1 ((p, bytes) :: rs) /\ address base p mod 8 = 0.
Proof.
  intros Hbase Ha Hb. unfold AllocateAligned.
  assert (Hmod : forall z, Z.land z (8 - 1) = z mod 8) by (intros z; by apply (land_ones_mod z 3)).
  set (addr := match alloc_ptr_ a with Some p => address base p | None => 0 end).
  rewrite !Hmod.
  pose proof (Z.mod_pos_bound addr 8).
  set (slop := if addr mod 8 =? 0 then 0 else 8 - addr mod 8).
  assert (Hslop : 0 <= slop < 8 /\ (addr + slop) mod 8 = 0).
  { unfold slop. destruct (Z.eqb_spec (addr mod 8) 0) as [E|E]; [rewrite Z.add_0_r; lia|].
    split; [lia|]. rewrite Z.add_mod, (Z.mod_small (8 - _)) by lia. by rewrite Zplus_minus. }
  rewrite u64_small by lia.
  assert (exists p a1, (if bytes + slop <=? alloc_bytes_remaining_ a then bump a slop (bytes + slop)
      else Ok (AllocateFallback a bytes)) = Ok (p, a1) /\ arena_ok a1 ((p, bytes) :: rs) /\
      address base p mod 8 = 0) as (p & a1 & -> & Hok & Hal).
  { destruct (Z.leb_spec (bytes + slop) (alloc_bytes_remaining_ a)).
    - destruct (bump_ok a rs slop (bytes + slop) bytes) as (p & a1 & E & Hok & q & Hq & Ep); try (done || lia).
      exists p, a1. split; [done|]. split; [done|]. unfold addr in Hslop. rewrite Hq in Hslop.
      rewrite Ep. unfold address in *. cbn [fst snd]. rewrite Z.add_assoc. apply Hslop.
    - destruct (AllocateFallback_ok a rs bytes Ha) as (p & a1 & -> & Hok & E); [lia|].
      exists p, a1. split; [done|]. split; [done|]. unfold address. rewrite E, Z.add_0_r. apply Hbase. }
  cbn [mbind outcome_bind]. rewrite Hmod, Hal, bind_assert by done. eauto.
Qed.
