(* ===== verification/SkipList.v ===== *)
(** * LevelDB: the skip list of the memory table (lib/leveldb/db/skiplist.h)

    Nodes are numbered in the order of their allocation; a pointer is a number
    or [None] for NULL, and a link that was never stored is not readable.  The
    list is only read by the thread that writes it here, so that the barriers of
    the links have no effect. *)

From S2P Require Import Prelude.
From S2P Require Import Arena.
From S2P Require Import Comparator.
From stdpp Require Import base tactics numbers list.
From Stdlib Require Import ZArith Lia.

Open Scope Z_scope.

Definition kMaxHeight : nat := 12.

Record Node (Key : Type) : Type := mkNode { node_key : Key; next_ : list (option (option nat)) }.
Arguments mkNode {Key} _ _.
Arguments node_key {Key} _.
Arguments next_ {Key} _.

Record SkipList (Key : Type) : Type := mkSkipList
  { sl_nodes : list (Node Key); max_height_ : nat; rnd_ : Random }.
Arguments mkSkipList {Key} _ _ _.
Arguments sl_nodes {Key} _.
Arguments max_height_ {Key} _.
Arguments rnd_ {Key} _.

(** The head is the first node allocated. *)
Definition head_ : nat := 0.

Section SkipList.
Context {Key : Type} (compare_ : Key -> Key -> outcome Z) (base : nat -> Z).
Implicit Types (sl : SkipList Key) (nodes : list (Node Key)) (a : Arena).

(** ** Nodes *)

Definition nxt nodes (level x : nat) : option (option nat) :=
  n ← nodes !! x; mjoin (next_ n !! level).

Definition Node_Next nodes (x level : nat) : outcome (option nat) := in_bounds (nxt nodes level x).

Definition SetNext nodes (x level : nat) (y : option nat) : outcome (list (Node Key)) :=
  n ← in_bounds (nodes !! x);
  _ ← require (bool_decide (level < length (next_ n))%nat);
  Ok (<[x := mkNode (node_key n) (<[level := Some y]> (next_ n))]> nodes).

Definition key_at nodes (x : nat) : outcome Key := n ← in_bounds (nodes !! x); Ok (node_key n).

(** A node takes 16 bytes with one link, and 8 for every other. *)
Definition NewNode nodes (key : Key) (height : nat) a : outcome (nat * list (Node Key) * Arena) :=
  '(_, a1) ← AllocateAligned base a (16 + 8 * (Z.of_nat height - 1));
  Ok (length nodes, nodes ++ [mkNode key (replicate height None)], a1).

(** ** Searching *)

Definition KeyIsAfterNode nodes (key : Key) (n : option nat) : outcome bool :=
  match n with
  | None => Ok false
  | Some x => k ← key_at nodes x; r ← compare_ k key; Ok (r <? 0)
  end.

(** [prev[level] = x], when there is an array. *)
Definition store_prev (prev : option (list (option nat))) (level x : nat) :
    outcome (option (list (option nat))) :=
  match prev with
  | None => Ok None
  | Some p => _ ← require (bool_decide (level < length p)%nat); Ok (Some (<[level := Some x]> p))
  end.

Definition top_level sl : outcome nat := match max_height_ sl with O => UB | S l => Ok l end.

(** Every turn of a search moves on or down. *)
Definition search_fuel sl : nat := length (sl_nodes sl) + max_height_ sl.

Fixpoint find_ge_loop (fuel : nat) nodes (key : Key) (x level : nat) (prev : option (list (option nat))) :
    outcome (option nat * option (list (option nat))) :=
  match fuel with
  | O => NoFuel
  | S fuel' =>
      next ← Node_Next nodes x level;
      after ← KeyIsAfterNode nodes key next;
      if (after : bool) then y ← in_bounds next; find_ge_loop fuel' nodes key y level prev
      else
        prev1 ← store_prev prev level x;
        match level with
        | O => Ok (next, prev1)
        | S level' => find_ge_loop fuel' nodes key x level' prev1
        end
  end.

Definition FindGreaterOrEqual sl (key : Key) (prev : option (list (option nat))) :
    outcome (option nat * option (list (option nat))) :=
  level ← top_level sl;
  find_ge_loop (search_fuel sl) (sl_nodes sl) key head_ level prev.

Fixpoint find_lt_loop (fuel : nat) nodes (key : Key) (x level : nat) : outcome nat :=
  match fuel with
  | O => NoFuel
  | S fuel' =>
      before ← (if decide (x = head_) then Ok true
                else k ← key_at nodes x; r ← compare_ k key; Ok (r <? 0));
      _ ← assert_ before;
      next ← Node_Next nodes x level;
      stop ← match next with
             | None => Ok true
             | Some y => k ← key_at nodes y; r ← compare_ k key; Ok (0 <=? r)
             end;
      if (stop : bool) then
        match level with O => Ok x | S level' => find_lt_loop fuel' nodes key x level' end
      else y ← in_bounds next; find_lt_loop fuel' nodes key y level
  end.

Definition FindLessThan sl (key : Key) : outcome nat :=
  level ← top_level sl;
  find_lt_loop (search_fuel sl) (sl_nodes sl) key head_ level.

Fixpoint find_last_loop (fuel : nat) nodes (x level : nat) : outcome nat :=
  match fuel with
  | O => NoFuel
  | S fuel' =>
      next ← Node_Next nodes x level;
      match next with
      | None => match level with O => Ok x | S level' => find_last_loop fuel' nodes x level' end
      | Some y => find_last_loop fuel' nodes y level
      end
  end.

Definition FindLast sl : outcome nat :=
  level ← top_level sl;
  find_last_loop (search_fuel sl) (sl_nodes sl) head_ level.

(** ** Insertion *)

(** The height is raised [todo] times at most. *)
Fixpoint random_height (todo height : nat) (r : Random) : nat * Random :=
  match todo with
  | O => (height, r)
  | S todo' =>
      let '(v, r1) := Random_Next r in
      if v mod 4 =? 0 then random_height todo' (S height) r1 else (height, r1)
  end.

Definition RandomHeight (r : Random) : nat * Random := random_height (kMaxHeight - 1) 1 r.

Definition Equal (k l : Key) : outcome bool := r ← compare_ k l; Ok (r =? 0).

(** [prev[i] = head_] for [i] in [[from, from + n)]. *)
Fixpoint fill_prev (n from : nat) (prev : list (option nat)) : outcome (list (option nat)) :=
  match n with
  | O => Ok prev
  | S n' =>
      _ ← require (bool_decide (from < length prev)%nat);
      fill_prev n' (S from) (<[from := Some head_]> prev)
  end.

Fixpoint link_loop (n i x : nat) (prev : list (option nat)) nodes : outcome (list (Node Key)) :=
  match n with
  | O => Ok nodes
  | S n' =>
      p ← in_bounds (mjoin (prev !! i));
      next ← Node_Next nodes p i;
      nodes1 ← SetNext nodes x i next;
      nodes2 ← SetNext nodes1 p i (Some x);
      link_loop n' (S i) x prev nodes2
  end.

Definition Insert sl (key : Key) a : outcome (SkipList Key * Arena) :=
  '(x, prev) ← FindGreaterOrEqual sl key (Some (replicate kMaxHeight None));
  prev ← in_bounds prev;
  equal ← match (x : option nat) with None => Ok false | Some i => k ← key_at (sl_nodes sl) i; Equal key k end;
  _ ← assert_ (negb equal);
  let '(height, rnd) := RandomHeight (rnd_ sl) in
  prev ← fill_prev (height - max_height_ sl) (max_height_ sl) prev;
  '(x, nodes, a1) ← NewNode (sl_nodes sl) key height a;
  nodes1 ← link_loop height 0 x prev nodes;
  Ok (mkSkipList nodes1 (Nat.max (max_height_ sl) height) rnd, a1).

Definition Contains sl (key : Key) : outcome bool :=
  '(x, _) ← FindGreaterOrEqual sl key None;
  match (x : option nat) with None => Ok false | Some i => k ← key_at (sl_nodes sl) i; Equal key k end.

Fixpoint clear_loop (n i : nat) nodes : outcome (list (Node Key)) :=
  match n with
  | O => Ok nodes
  | S n' => nodes1 ← SetNext nodes head_ i None; clear_loop n' (S i) nodes1
  end.

(** [SkipList(cmp, arena)]; any key will do for the head. *)
Definition SkipList_new (any : Key) a : outcome (SkipList Key * Arena) :=
  '(_, nodes, a1) ← NewNode [] any kMaxHeight a;
  nodes1 ← clear_loop kMaxHeight 0 nodes;
  Ok (mkSkipList nodes1 1 (Random_new 0xdeadbeef), a1).

(** ** Iterators: a node, [None] when the iterator is not valid *)

Definition Iterator_key sl (it : option nat) : outcome Key :=
  _ ← assert_ (bool_decide (is_Some it)); x ← in_bounds it; key_at (sl_nodes sl) x.

Definition Iterator_Next sl (it : option nat) : outcome (option nat) :=
  _ ← assert_ (bool_decide (is_Some it)); x ← in_bounds it; Node_Next (sl_nodes sl) x 0.

Definition null_if_head (x : nat) : option nat := if decide (x = head_) then None else Some x.

Definition Iterator_Prev sl (it : option nat) : outcome (option nat) :=
  _ ← assert_ (bool_decide (is_Some it));
  x ← in_bounds it; k ← key_at (sl_nodes sl) x;
  y ← FindLessThan sl k; Ok (null_if_head y).

Definition Iterator_Seek sl (target : Key) : outcome (option nat) :=
  '(x, _) ← FindGreaterOrEqual sl target None; Ok x.

Definition Iterator_SeekToFirst sl : outcome (option nat) := Node_Next (sl_nodes sl) head_ 0.

Definition Iterator_SeekToLast sl : outcome (option nat) := y ← FindLast sl; Ok (null_if_head y).
End SkipList.
