(* ===== verification/SkipListSpec.v ===== *)
(** * LevelDB: the skip list is a sorted list

    [sl_repr] relates a skip list to the list of its keys.  At every level the
    links run through the nodes that are tall enough, in the order of the keys;
    a search ends where the keys before the target end, and an insertion puts
    the key there. *)

From S2P Require Import Prelude.
From S2P Require Import Arena.
From S2P Require Import Comparator.
From S2P Require Import SkipList.
From stdpp Require Import base tactics numbers list sorting.
From Stdlib Require Import ZArith Lia.

Open Scope Z_scope.

(** ** Lists *)

Lemma last_default_app {A} (d : A) l x : default d (last (l ++ [x])) = x.
Proof. by rewrite last_snoc. Qed.

Lemma default_last_cons {A} (x y : A) l : default x (last (y :: l)) = default y (last l).
Proof.
  destruct l as [|z l]; [done|]. destruct (last_is_Some (z :: l)) as [_ H].
  destruct H as [w Hw]; [done|]. change (last (y :: z :: l)) with (last (z :: l)). by rewrite Hw.
Qed.

(** A list of which the first part satisfies [P] and the rest does not. *)
Lemma filter_head_split {A} (P : A -> Prop) `{!forall x, Decision (P x)} (l : list A) :
  (exists l1 y l2, l = l1 ++ y :: l2 /\ filter P l1 = [] /\ P y) \/ filter P l = [].
Proof.
  induction l as [|x l IH]; [by right|]. destruct (decide (P x)) as [Hx|Hx].
  - left. by exists [], x, l.
  - destruct IH as [(l1 & y & l2 & -> & Hl1 & Hy)|Hl].
    + left. exists (x :: l1), y, l2. by rewrite filter_cons_False.
    + right. by rewrite filter_cons_False.
Qed.

(** ** Chains of links *)

Fixpoint chain (nx : nat -> option (option nat)) (x : nat) (l : list nat) : Prop :=
  match l with
  | [] => nx x = Some None
  | y :: l' => nx x = Some (Some y) /\ chain nx y l'
  end.

Lemma chain_ext nx nx' x l :
  (forall z, z ∈ x :: l -> nx' z = nx z) -> chain nx x l -> chain nx' x l.
Proof.
  revert x. induction l as [|y l IH]; intros x Heq; cbn [chain].
  - intros <-. apply Heq. by left.
  - intros [<- Hl]. split; [apply Heq; by left|]. apply IH; [|done]. intros z Hz. apply Heq. by right.
Qed.

Lemma chain_next nx x l1 l2 :
  chain nx x (l1 ++ l2) -> nx (default x (last l1)) = Some (head l2).
Proof.
  revert x. induction l1 as [|y l1 IH]; intros x; cbn [app chain].
  - destruct l2; [done|by intros [? _]].
  - intros [_ Hl]. rewrite default_last_cons. by apply IH.
Qed.

(** A node is linked in behind the last of [l1]. *)
Lemma chain_insert nx nx' x l1 l2 n :
  NoDup (x :: l1 ++ l2) -> n ∉ x :: l1 ++ l2 ->
  nx' (default x (last l1)) = Some (Some n) -> nx' n = Some (head l2) ->
  (forall z, z <> default x (last l1) -> z <> n -> nx' z = nx z) ->
  chain nx x (l1 ++ l2) -> chain nx' x (l1 ++ n :: l2).
Proof.
  revert x. induction l1 as [|y l1 IH]; intros x Hnd Hn Hp Hnew Hother Hc.
  - cbn [app last default] in *. cbn [chain]. split; [done|].
    apply NoDup_cons in Hnd as [Hx Hnd]. destruct l2 as [|b l2]; [done|].
    destruct Hc as [_ Hc]. cbn [chain]. split; [done|]. eapply chain_ext; [|exact Hc].
    intros z Hz. apply Hother; [by intros ->|]. intros ->. apply Hn. by right.
  - cbn [app chain] in *. destruct Hc as [Hx Hc]. rewrite default_last_cons in Hp, Hother.
    apply NoDup_cons in Hnd as [Hx' Hnd].
    assert (Hxn : x <> n) by (intros ->; apply Hn; by left).
    split; [|apply IH; try done; intros Hin; apply Hn; by right].
    rewrite Hother; [done| |done].
    intros ->. apply Hx'. destruct l1 as [|z l1] using rev_ind; [by left|].
    rewrite last_snoc. cbn. right. rewrite !elem_of_app. left. right. by left.
Qed.

(** ** The representation *)

Section repr.
Context {Key : Type} (valid : Key -> Prop) (order : Key -> Key -> Z).
Implicit Types (sl : SkipList Key) (nodes : list (Node Key)) (ids : list nat) (ks : list Key).

Definition node_at nodes (x : nat) (k : Key) (h : nat) : Prop :=
  exists n, nodes !! x = Some n /\ node_key n = k /\ length (next_ n) = h.

(** The nodes with a link at [level]. *)
Definition tall nodes (level x : nat) : Prop :=
  match nodes !! x with Some n => (level < length (next_ n))%nat | None => False end.
#[export] Instance tall_dec nodes level x : Decision (tall nodes level x).
Proof. unfold tall. destruct (nodes !! x); apply _. Defined.

Definition level_list nodes (level : nat) ids : list nat := filter (tall nodes level) ids.

Definition sorted_keys ks : Prop := StronglySorted (fun k l => order k l < 0) ks.

Record sl_ok sl ids ks : Prop := {
  so_keys : Forall2 (fun x k => exists h, node_at (sl_nodes sl) x k h /\ (1 <= h <= max_height_ sl)%nat) ids ks;
  so_sorted : sorted_keys ks;
  so_valid : Forall valid ks;
  so_nodup : NoDup (head_ :: ids);
  so_head : exists k, node_at (sl_nodes sl) head_ k kMaxHeight;
  so_chain level : (level < kMaxHeight)%nat ->
    chain (nxt (sl_nodes sl) level) head_ (level_list (sl_nodes sl) level ids);
  so_max : (1 <= max_height_ sl <= kMaxHeight)%nat;
  so_length : (length ids < length (sl_nodes sl))%nat;
  so_seed : seed_ok (seed_ (rnd_ sl))
}.

Definition sl_repr sl ks : Prop := exists ids, sl_ok sl ids ks.

(** The last node of [l], or the head. *)
Definition last_node (l : list nat) : nat := default head_ (last l).

(** A search stands at [x] on [level], behind the nodes [l]. *)
Definition stands nodes (level x : nat) (l : list nat) : Prop :=
  x = last_node l /\ (l = [] \/ tall nodes level x).

Lemma stands_level nodes level x l : stands nodes level x l -> x = last_node (level_list nodes level l).
Proof.
  intros [-> [-> |Ht]]; [done|]. destruct l as [|y l _] using rev_ind; [done|].
  unfold last_node, level_list in *. rewrite last_snoc in *. cbn in Ht |- *.
  rewrite filter_app. cbn. rewrite decide_True by done. by rewrite last_snoc.
Qed.

Lemma tall_mono nodes level level' x : (level' <= level)%nat -> tall nodes level x -> tall nodes level' x.
Proof. unfold tall. destruct (nodes !! x); [lia|done]. Qed.

Lemma stands_down nodes level x l : stands nodes (S level) x l -> stands nodes level x l.
Proof. intros [-> [-> |Ht]]; split; eauto. right. eapply tall_mono; [|done]. lia. Qed.

(** Where the next link leads: to a node of the part that is still to be
    passed, or behind it. *)
Lemma next_step nodes level x p mid suf :
  chain (nxt nodes level) head_ (level_list nodes level (p ++ mid ++ suf)) ->
  stands nodes level x p ->
  (exists s1 y s2, mid = s1 ++ y :: s2 /\ Node_Next nodes x level = Ok (Some y) /\
     stands nodes level y (p ++ s1 ++ [y])) \/
  (level_list nodes level mid = [] /\ Node_Next nodes x level = Ok (head (level_list nodes level suf)) /\
   x = last_node (level_list nodes level (p ++ mid))).
Proof.
  intros Hc Hx. pose proof (stands_level _ _ _ _ Hx) as Ex.
  unfold level_list in Hc. rewrite filter_app in Hc. apply chain_next in Hc.
  change (default head_ _) with (last_node (level_list nodes level p)) in Hc. rewrite <- Ex in Hc.
  unfold Node_Next. rewrite Hc, filter_app.
  destruct (filter_head_split (tall nodes level) mid) as [(s1 & y & s2 & -> & Hs1 & Hy)|Hmid].
  - left. exists s1, y, s2. split; [done|]. rewrite filter_app, Hs1. cbn [app].
    rewrite filter_cons_True by done. split; [done|]. split; [|by right].
    unfold last_node. by rewrite app_assoc, last_default_app.
  - right. rewrite Hmid. split; [done|]. split; [done|].
    unfold level_list. by rewrite filter_app, Hmid, app_nil_r.
Qed.

Lemma sl_split sl ids k1 k2 :
  sl_ok sl ids (k1 ++ k2) -> exists i1 i2, ids = i1 ++ i2 /\ length i1 = length k1 /\ length i2 = length k2 /\
    (forall x, x ∈ i1 -> exists k h, node_at (sl_nodes sl) x k h /\ k ∈ k1 /\ (1 <= h)%nat) /\
    (forall x, x ∈ i2 -> exists k h, node_at (sl_nodes sl) x k h /\ k ∈ k2 /\ (1 <= h)%nat).
Proof.
  intros Hok. destruct (proj1 (Forall2_app_inv_r _ _ _ _) (so_keys _ _ _ Hok)) as (i1 & i2 & H1 & H2 & ->).
  exists i1, i2. rewrite (Forall2_length _ _ _ H1), (Forall2_length _ _ _ H2).
  assert (Hin : forall i ks, Forall2 (fun x k => exists h, node_at (sl_nodes sl) x k h /\ (1 <= h <= max_height_ sl)%nat) i ks ->
    forall x, x ∈ i -> exists k h, node_at (sl_nodes sl) x k h /\ k ∈ ks /\ (1 <= h)%nat).
  { intros i ks Hf x Hx. apply list_elem_of_lookup in Hx as [n Hx].
    destruct (Forall2_lookup_l _ _ _ _ _ Hf Hx) as (k & Hk & h & Hn & Hh).
    exists k, h. split; [done|]. split; [by eapply list_elem_of_lookup_2|lia]. }
  split_and!; eauto.
Qed.

Lemma node_at_key nodes x k h : node_at nodes x k h -> key_at nodes x = Ok k.
Proof. intros (n & Hn & <- & _). unfold key_at. by rewrite Hn. Qed.

Lemma node_at_tall nodes x k h level : node_at nodes x k h -> tall nodes level x <-> (level < h)%nat.
Proof. intros (n & Hn & _ & <-). unfold tall. by rewrite Hn. Qed.

Lemma level_list_0 nodes ids :
  (forall x, x ∈ ids -> exists k h, node_at nodes x k h /\ (1 <= h)%nat) -> level_list nodes 0 ids = ids.
Proof.
  induction ids as [|x ids IH]; intros Hall; [done|]. unfold level_list in *.
  destruct (Hall x) as (k & h & Hn & Hh); [by left|].
  rewrite filter_cons_True by (eapply node_at_tall; [done|lia]). rewrite IH; [done|].
  intros y Hy. apply Hall. by right.
Qed.

(** ** Searches *)

Context (compare_ : Key -> Key -> outcome Z) `{!ThreeWay order}.
Context (compare_valid : forall k l, valid k -> valid l -> compare_ k l = Ok (order k l)).

(** What a search finds at every level of [prev]. *)
Definition prev_at nodes ids (level : nat) : nat := last_node (level_list nodes level ids).

Definition prev_filled nodes ids (top : nat) (prev prev' : option (list (option nat))) : Prop :=
  match prev, prev' with
  | None, None => True
  | Some l, Some l' => length l' = length l /\
      (forall i, (i <= top)%nat -> l' !! i = Some (Some (prev_at nodes ids i))) /\
      (forall i, (top < i)%nat -> l' !! i = l !! i)
  | _, _ => False
  end.

Section search.
Context (sl : SkipList Key) (ids : list nat) (k1 k2 : list Key) (i1 i2 : list nat) (target : Key).
Context (Hok : sl_ok sl ids (k1 ++ k2)) (Hids : ids = i1 ++ i2).
Notation nodes := (sl_nodes sl).
Context (H1 : forall x, x ∈ i1 -> exists k h, node_at nodes x k h /\ k ∈ k1 /\ (1 <= h)%nat).
Context (H2 : forall x, x ∈ i2 -> exists k h, node_at nodes x k h /\ k ∈ k2 /\ (1 <= h)%nat).
Context (Hlt : forall k, k ∈ k1 -> order k target < 0) (Hge : forall k, k ∈ k2 -> 0 <= order k target).
Context (Htarget : valid target).

Lemma keys_valid k : k ∈ k1 ++ k2 -> valid k.
Proof. apply (proj1 (Forall_forall _ _) (so_valid _ _ _ Hok)). Qed.

Lemma head_level level :
  KeyIsAfterNode compare_ nodes target (head (level_list nodes level i2)) = Ok false.
Proof.
  destruct (head (level_list nodes level i2)) as [y|] eqn:E; [|done].
  assert (Hy : y ∈ i2).
  { apply head_Some_elem_of in E. by apply list_elem_of_filter in E as [_ E]. }
  destruct (H2 y Hy) as (k & h & Hn & Hk & _). cbn. erewrite node_at_key by done. cbn [mbind outcome_bind].
  rewrite compare_valid by (done || apply keys_valid, elem_of_app; by right). cbn [mbind outcome_bind].
  rewrite (proj2 (Z.ltb_ge _ _)); [done|by apply Hge].
Qed.

Lemma passed_node y : y ∈ i1 -> KeyIsAfterNode compare_ nodes target (Some y) = Ok true.
Proof.
  intros Hy. destruct (H1 y Hy) as (k & h & Hn & Hk & _). cbn. erewrite node_at_key by done. cbn [mbind outcome_bind].
  rewrite compare_valid by (done || apply keys_valid, elem_of_app; by left). cbn [mbind outcome_bind].
  rewrite (proj2 (Z.ltb_lt _ _)); [done|by apply Hlt].
Qed.

Lemma store_prev_ok level x (prev : option (list (option nat))) :
  (forall l, prev = Some l -> length l = kMaxHeight) -> (level < kMaxHeight)%nat ->
  store_prev prev level x = Ok ((fun l => <[level := Some x]> l) <$> prev).
Proof.
  intros Hl Hlev. destruct prev as [l|]; [|done]. cbn. rewrite (Hl l) by done.
  by rewrite bool_decide_eq_true_2.
Qed.

Lemma find_ge_loop_spec fuel level x p mid prev :
  i1 = p ++ mid -> stands nodes level x p -> (level < max_height_ sl)%nat ->
  (forall l, prev = Some l -> length l = kMaxHeight) -> (length mid + level < fuel)%nat ->
  exists prev', find_ge_loop compare_ fuel nodes target x level prev = Ok (head i2, prev') /\
    prev_filled nodes i1 level prev prev'.
Proof.
  revert level x p mid prev. induction fuel as [|fuel IH]; intros level x p mid prev Hp Hx Hlev Hlen Hf; [lia|].
  pose proof (so_max _ _ _ Hok) as Hmax.
  assert (Hc : chain (nxt nodes level) head_ (level_list nodes level (p ++ mid ++ i2))).
  { pose proof (so_chain _ _ _ Hok level) as Hc. rewrite Hids, Hp, <- app_assoc in Hc. apply Hc. lia. }
  cbn [find_ge_loop].
  destruct (next_step _ _ _ _ _ _ Hc Hx) as [(s1 & y & s2 & -> & -> & Hy)|(Hmid & -> & Ex)];
    cbn [mbind outcome_bind].
  - rewrite passed_node by (rewrite Hp, !elem_of_app; right; right; by left).
    cbn [mbind outcome_bind in_bounds]. apply (IH level y (p ++ s1 ++ [y]) s2); try done.
    + by rewrite Hp, <- !app_assoc.
    + rewrite length_app in Hf. cbn in Hf. lia.
  - rewrite head_level. cbn [mbind outcome_bind]. rewrite store_prev_ok by (done || lia). cbn [mbind outcome_bind].
    rewrite <- Hp in Ex. destruct level as [|level].
    + rewrite level_list_0 by (intros z Hz; destruct (H2 z Hz) as (? & ? & ? & _ & ?); eauto).
      eexists. split; [done|]. destruct prev as [l|]; [|done]. cbn.
      rewrite length_insert. split; [done|]. specialize (Hlen l eq_refl). split.
      * intros i Hi. replace i with 0%nat by lia. rewrite list_lookup_insert_eq by lia. by rewrite Ex.
      * intros i Hi. by rewrite list_lookup_insert_ne by lia.
    + destruct (IH level x p mid ((fun l => <[S level := Some x]> l) <$> prev)) as (prev' & -> & Hfill); try done.
      * by apply stands_down.
      * lia.
      * intros l Hl. destruct prev as [l0|]; [|done]. injection Hl as <-. rewrite length_insert. by apply Hlen.
      * lia.
      * exists prev'. split; [done|]. destruct prev as [l|], prev' as [l'|]; try done. cbn in Hfill |- *.
        rewrite length_insert in Hfill. destruct Hfill as (Hl & Hin & Hout). split; [done|].
        specialize (Hlen l eq_refl). split.
        -- intros i Hi. destruct (decide (i <= level)%nat); [by apply Hin|]. replace i with (S level) by lia.
           rewrite Hout, list_lookup_insert_eq by lia. by rewrite Ex.
        -- intros i Hi. rewrite Hout by lia. by rewrite list_lookup_insert_ne by lia.
Qed.

Lemma top_level_ok : exists l, top_level sl = Ok l /\ S l = max_height_ sl.
Proof. pose proof (so_max _ _ _ Hok). unfold top_level. destruct (max_height_ sl); [lia|eauto]. Qed.

Lemma stands_start level : stands nodes level head_ [].
Proof. split; [done|by left]. Qed.

Lemma search_enough l : S l = max_height_ sl -> (length i1 + l < search_fuel sl)%nat.
Proof.
  intros. pose proof (so_length _ _ _ Hok) as Hl. rewrite Hids, length_app in Hl.
  unfold search_fuel. lia.
Qed.

Lemma FindGreaterOrEqual_spec prev :
  (forall l, prev = Some l -> length l = kMaxHeight) ->
  exists prev', FindGreaterOrEqual compare_ sl target prev = Ok (head i2, prev') /\
    prev_filled nodes i1 (max_height_ sl - 1) prev prev'.
Proof.
  intros Hlen. destruct top_level_ok as (l & Hl & El). unfold FindGreaterOrEqual. rewrite Hl. cbn [mbind outcome_bind].
  rewrite <- El. cbn. rewrite Nat.sub_0_r.
  apply (find_ge_loop_spec _ l head_ [] i1); [done|apply stands_start|lia|done|by apply search_enough].
Qed.

Lemma find_lt_loop_spec fuel level x p mid :
  i1 = p ++ mid -> stands nodes level x p -> (level < max_height_ sl)%nat -> (length mid + level < fuel)%nat ->
  find_lt_loop compare_ fuel nodes target x level = Ok (last_node i1).
Proof.
  revert level x p mid. induction fuel as [|fuel IH]; intros level x p mid Hp Hx Hlev Hf; [lia|].
  pose proof (so_max _ _ _ Hok) as Hmax.
  assert (Hc : chain (nxt nodes level) head_ (level_list nodes level (p ++ mid ++ i2))).
  { pose proof (so_chain _ _ _ Hok level) as Hc. rewrite Hids, Hp, <- app_assoc in Hc. apply Hc. lia. }
  assert (Hbefore : (if decide (x = head_) then Ok true
    else k ← key_at nodes x; r ← compare_ k target; Ok (r <? 0)) = Ok true).
  { case_decide as Hh; [done|]. apply (passed_node x). destruct Hx as [-> _]. rewrite Hp.
    unfold last_node in *. destruct (last p) as [y|] eqn:El; [|done]. apply last_Some_elem_of in El.
    apply elem_of_app. by left. }
  cbn [find_lt_loop]. rewrite Hbefore. cbn [mbind outcome_bind assert_].
  destruct (next_step _ _ _ _ _ _ Hc Hx) as [(s1 & y & s2 & -> & -> & Hy)|(Hmid & -> & Ex)];
    cbn [mbind outcome_bind].
  - assert (Hin : y ∈ i1) by (rewrite Hp, !elem_of_app; right; right; by left).
    destruct (H1 y Hin) as (k & h & Hn & Hk & _). erewrite node_at_key by done. cbn [mbind outcome_bind].
    rewrite compare_valid by (done || apply keys_valid, elem_of_app; by left). cbn [mbind outcome_bind].
    rewrite (proj2 (Z.leb_gt _ _)) by by apply Hlt. cbn [in_bounds mbind outcome_bind].
    apply (IH level y (p ++ s1 ++ [y]) s2); try done.
    + by rewrite Hp, <- !app_assoc.
    + rewrite length_app in Hf. cbn in Hf. lia.
  - assert (Hstop : match head (level_list nodes level i2) with
      | None => Ok true
      | Some y => k ← key_at nodes y; r ← compare_ k target; Ok (0 <=? r) end = Ok true).
    { destruct (head (level_list nodes level i2)) as [y|] eqn:E; [|done].
      assert (Hy : y ∈ i2).
      { apply head_Some_elem_of in E. by apply list_elem_of_filter in E as [_ E]. }
      destruct (H2 y Hy) as (k & h & Hn & Hk & _). erewrite node_at_key by done. cbn [mbind outcome_bind].
      rewrite compare_valid by (done || apply keys_valid, elem_of_app; by right). cbn [mbind outcome_bind].
      rewrite (proj2 (Z.leb_le _ _)); [done|by apply Hge]. }
    rewrite Hstop. cbn [mbind outcome_bind]. rewrite <- Hp in Ex. destruct level as [|level].
    + rewrite Ex, level_list_0; [done|]. intros z Hz. destruct (H1 z Hz) as (? & ? & ? & _ & ?); eauto.
    + apply (IH level x p mid); try done; [by apply stands_down|lia..].
Qed.

Lemma FindLessThan_spec : FindLessThan compare_ sl target = Ok (last_node i1).
Proof.
  destruct top_level_ok as (l & Hl & El). unfold FindLessThan. rewrite Hl. cbn [mbind outcome_bind].
  apply (find_lt_loop_spec _ l head_ [] i1); [done|apply stands_start|lia|by apply search_enough].
Qed.
End search.

Lemma find_last_loop_spec sl ids ks fuel level x p mid :
  sl_ok sl ids ks -> ids = p ++ mid -> stands (sl_nodes sl) level x p ->
  (level < max_height_ sl)%nat -> (length mid + level < fuel)%nat ->
  find_last_loop fuel (sl_nodes sl) x level = Ok (last_node ids).
Proof.
  intros Hok. revert level x p mid.
  induction fuel as [|fuel IH]; intros level x p mid Hp Hx Hlev Hf; [lia|].
  pose proof (so_max _ _ _ Hok) as Hmax.
  assert (Hc : chain (nxt (sl_nodes sl) level) head_ (level_list (sl_nodes sl) level (p ++ mid ++ []))).
  { rewrite app_nil_r, <- Hp. apply (so_chain _ _ _ Hok). lia. }
  cbn [find_last_loop].
  destruct (next_step _ _ _ _ _ _ Hc Hx) as [(s1 & y & s2 & -> & -> & Hy)|(Hmid & -> & Ex)];
    cbn [mbind outcome_bind].
  - apply (IH level y (p ++ s1 ++ [y]) s2); try done; [by rewrite Hp, <- !app_assoc|].
    rewrite length_app in Hf. cbn in Hf. lia.
  - cbn. rewrite <- Hp in Ex. destruct level as [|level].
    + rewrite Ex, level_list_0; [done|]. intros z Hz.
      rewrite <- (app_nil_r ks) in Hok. apply sl_split in Hok as (i1 & i2 & -> & _ & Hl & H1 & _).
      destruct i2; [|done]. rewrite app_nil_r in Hz. destruct (H1 z Hz) as (? & ? & ? & _ & ?); eauto.
    + apply (IH level x p mid); try done; [by apply stands_down|lia..].
Qed.

Lemma FindLast_spec sl ids ks : sl_ok sl ids ks -> FindLast sl = Ok (last_node ids).
Proof.
  intros Hok. pose proof (so_max _ _ _ Hok). pose proof (so_length _ _ _ Hok).
  unfold FindLast, top_level. destruct (max_height_ sl) as [|l] eqn:E; [lia|]. cbn [mbind outcome_bind].
  eapply (find_last_loop_spec sl ids ks _ l head_ [] ids); [done|done|by split; [|left]|lia|].
  unfold search_fuel. lia.
Qed.

(** ** Insertion *)

(** Two places that differ. *)
Ltac neq := first [congruence | intros [??]; congruence].

(** Links changed, nothing else. *)
Definition same_nodes nodes nodes' : Prop :=
  length nodes' = length nodes /\ forall x k h, node_at nodes' x k h <-> node_at nodes x k h.

Lemma same_nodes_trans n1 n2 n3 : same_nodes n1 n2 -> same_nodes n2 n3 -> same_nodes n1 n3.
Proof. intros [E1 H1] [E2 H2]. split; [congruence|]. intros. by rewrite H2, H1. Qed.

Lemma same_nodes_tall nodes nodes' level x : same_nodes nodes nodes' -> tall nodes' level x <-> tall nodes level x.
Proof.
  intros [_ Hs].
  assert (Ht : forall ns, tall ns level x <-> exists k h, node_at ns x k h /\ (level < h)%nat).
  { intros ns. unfold tall, node_at. split.
    - destruct (ns !! x) as [n|]; [|done]. intros. exists (node_key n), (length (next_ n)). eauto.
    - intros (k & h & (n & -> & _ & <-) & ?). done. }
  rewrite !Ht. setoid_rewrite Hs. done.
Qed.

Lemma same_nodes_level nodes nodes' level ids :
  same_nodes nodes nodes' -> level_list nodes' level ids = level_list nodes level ids.
Proof.
  intros Hs. unfold level_list. induction ids as [|x ids IH]; [done|].
  destruct (decide (tall nodes level x)) as [Ht|Ht].
  - rewrite !filter_cons_True by (done || by eapply same_nodes_tall). by rewrite IH.
  - rewrite !filter_cons_False; [done|done|]. by rewrite same_nodes_tall.
Qed.

Lemma nxt_tall nodes level x v : nxt nodes level x = Some v -> tall nodes level x.
Proof.
  unfold nxt, tall. destruct (nodes !! x) as [n|]; [|done]. cbn.
  destruct (next_ n !! level) as [[w|]|] eqn:E; cbn; intros; try done. by eapply lookup_lt_Some.
Qed.

Lemma SetNext_spec nodes x level y :
  tall nodes level x ->
  exists nodes', SetNext nodes x level y = Ok nodes' /\ same_nodes nodes nodes' /\
    forall l z, nxt nodes' l z = if decide (z = x /\ l = level) then Some y else nxt nodes l z.
Proof.
  unfold tall, SetNext. destruct (nodes !! x) as [n|] eqn:En; [|done]. intros Hl. cbn [in_bounds mbind outcome_bind].
  rewrite bool_decide_eq_true_2 by done. cbn [require mbind outcome_bind].
  assert (Hx : (x < length nodes)%nat) by by eapply lookup_lt_Some.
  eexists. split; [done|]. split.
  - split; [apply length_insert|]. intros z k h. unfold node_at. destruct (decide (z = x)) as [->|].
    + rewrite list_lookup_insert_eq by done. rewrite En. split.
      * intros (m & [= <-] & Hk & Hh). cbn in Hk, Hh. rewrite length_insert in Hh. eauto.
      * intros (m & [= <-] & Hk & Hh). eexists. split; [done|]. cbn. by rewrite length_insert.
    + by rewrite list_lookup_insert_ne by done.
  - intros l z. unfold nxt. destruct (decide (z = x)) as [->|].
    + rewrite list_lookup_insert_eq, En by done. cbn. destruct (decide (l = level)) as [->|].
      * rewrite decide_True, list_lookup_insert_eq by done. done.
      * rewrite decide_False, list_lookup_insert_ne by neq. done.
    + rewrite decide_False, list_lookup_insert_ne by neq. done.
Qed.

(** The links after the new node [x] went in behind [P j] on the levels
    [[lo, hi)]. *)
Definition linked (P : nat -> nat) (x lo hi : nat) nodes nodes' : Prop :=
  same_nodes nodes nodes' /\
  forall j z, nxt nodes' j z =
    if decide (lo <= j < hi)%nat then
      if decide (z = P j) then Some (Some x)
      else if decide (z = x) then nxt nodes j (P j) else nxt nodes j z
    else nxt nodes j z.

Lemma link_loop_spec n i x prev nodes P :
  (forall j, (i <= j < i + n)%nat -> prev !! j = Some (Some (P j)) /\ P j <> x /\ tall nodes j x /\
     is_Some (nxt nodes j (P j))) ->
  exists nodes', link_loop n i x prev nodes = Ok nodes' /\ linked P x i (i + n) nodes nodes'.
Proof.
  revert i nodes. induction n as [|n IH]; intros i nodes Hall.
  - exists nodes. split; [done|]. split; [by split|]. intros j z. by rewrite decide_False by lia.
  - destruct (Hall i) as (Hp & Hne & Hx & v & Hv); [lia|].
    cbn [link_loop]. rewrite Hp. cbn [mjoin option_join in_bounds mbind outcome_bind].
    unfold Node_Next. rewrite Hv. cbn [in_bounds mbind outcome_bind].
    destruct (SetNext_spec nodes x i v Hx) as (nodes1 & -> & Hs1 & Hn1). cbn [mbind outcome_bind].
    destruct (SetNext_spec nodes1 (P i) i (Some x)) as (nodes2 & -> & Hs2 & Hn2).
    { eapply same_nodes_tall; [done|]. by eapply nxt_tall. }
    cbn [mbind outcome_bind]. pose proof (same_nodes_trans _ _ _ Hs1 Hs2) as Hs12.
    assert (Hkeep : forall j z, j <> i -> nxt nodes2 j z = nxt nodes j z).
    { intros j z Hj. rewrite Hn2, decide_False, Hn1, decide_False by neq. done. }
    destruct (IH (S i) nodes2) as (nodes3 & -> & Hs3 & Hn3).
    { intros j Hj. destruct (Hall j) as (Hpj & Hnej & Hxj & Hvj); [lia|]. rewrite Hkeep by lia.
      split_and!; try done. by eapply same_nodes_tall. }
    exists nodes3. split; [done|]. split; [by eapply same_nodes_trans|]. intros j z. rewrite Hn3.
    destruct (decide (j = i)) as [->|Hj].
    + rewrite decide_False, decide_True, Hn2 by lia. destruct (decide (z = P i)) as [->|Hz].
      * by rewrite decide_True.
      * rewrite decide_False, Hn1 by neq. destruct (decide (z = x)) as [->|].
        -- by rewrite decide_True.
        -- by rewrite decide_False by neq.
    + rewrite !Hkeep by done.
      destruct (decide (S i <= j < S i + n)%nat), (decide (i <= j < i + S n)%nat); (done || lia).
Qed.

Lemma fill_prev_spec n from prev :
  (from + n <= length prev)%nat ->
  exists prev', fill_prev n from prev = Ok prev' /\ forall i,
    prev' !! i = if decide (from <= i < from + n)%nat then Some (Some head_) else prev !! i.
Proof.
  revert from prev. induction n as [|n IH]; intros from prev Hl.
  - exists prev. split; [done|]. intros i. by rewrite decide_False by lia.
  - cbn [fill_prev]. rewrite bool_decide_eq_true_2 by lia. cbn [require mbind outcome_bind].
    destruct (IH (S from) (<[from := Some head_]> prev)) as (prev' & -> & Hp); [rewrite length_insert; lia|].
    exists prev'. split; [done|]. intros i. rewrite Hp. destruct (decide (i = from)) as [->|].
    + rewrite decide_False, decide_True, list_lookup_insert_eq by lia. done.
    + rewrite list_lookup_insert_ne by done.
      destruct (decide (S from <= i < S from + n)%nat), (decide (from <= i < from + S n)%nat); (done || lia).
Qed.

Lemma RandomHeight_range r :
  seed_ok (seed_ r) -> let '(h, r') := RandomHeight r in (1 <= h <= kMaxHeight)%nat /\ seed_ok (seed_ r').
Proof.
  unfold RandomHeight.
  assert (Hgen : forall todo height r, seed_ok (seed_ r) ->
    let '(h, r') := random_height todo height r in (height <= h <= height + todo)%nat /\ seed_ok (seed_ r')).
  { clear r. induction todo as [|todo IH]; intros height r Hr; cbn [random_height]; [split; [lia|done]|].
    destruct (Random_Next_spec r Hr) as [-> Hs]. set (v := (seed_ r * 16807) mod (2 ^ 31 - 1)) in *.
    destruct (v mod 4 =? 0); [|split; [lia|done]].
    specialize (IH (S height) (mkRandom v) Hs). destruct (random_height _ _ _).
    split; [lia|apply IH]. }
  intros Hr. specialize (Hgen (kMaxHeight - 1)%nat 1%nat r Hr). destruct (random_height _ _ _).
  unfold kMaxHeight in *. split; [lia|]. apply Hgen.
Qed.

Lemma node_at_lt nodes x k h : node_at nodes x k h -> (x < length nodes)%nat.
Proof. intros (n & Hn & _). by eapply lookup_lt_Some. Qed.

Lemma node_at_app nodes more x k h :
  (x < length nodes)%nat -> node_at (nodes ++ more) x k h <-> node_at nodes x k h.
Proof. intros Hx. unfold node_at. by rewrite lookup_app_l. Qed.

Lemma nxt_app nodes more level x : (x < length nodes)%nat -> nxt (nodes ++ more) level x = nxt nodes level x.
Proof. intros Hx. unfold nxt. by rewrite lookup_app_l. Qed.

Lemma tall_app nodes more level x :
  (x < length nodes)%nat -> tall (nodes ++ more) level x <-> tall nodes level x.
Proof. intros Hx. unfold tall. by rewrite lookup_app_l. Qed.

Lemma level_list_app nodes more level ids :
  (forall x, x ∈ ids -> (x < length nodes)%nat) ->
  level_list (nodes ++ more) level ids = level_list nodes level ids.
Proof.
  intros Hall. unfold level_list. induction ids as [|x ids IH]; [done|].
  assert (Hx : (x < length nodes)%nat) by (apply Hall; by left).
  specialize (IH (fun y Hy => Hall y (list_elem_of_further _ _ _ Hy))).
  destruct (decide (tall nodes level x)) as [Ht|Ht].
  - rewrite !filter_cons_True by (done || by apply tall_app). by rewrite IH.
  - rewrite !filter_cons_False; [done|done|]. by rewrite tall_app.
Qed.

Lemma last_node_elem l : last_node l ∈ head_ :: l.
Proof.
  unfold last_node. destruct (last l) as [x|] eqn:E; [|by left]. apply last_Some_elem_of in E. by right.
Qed.

Lemma level_list_subset nodes level ids x : x ∈ level_list nodes level ids -> x ∈ ids.
Proof. unfold level_list. by intros [_ ?]%list_elem_of_filter. Qed.

Lemma so_lt sl ids ks x : sl_ok sl ids ks -> x ∈ head_ :: ids -> (x < length (sl_nodes sl))%nat.
Proof.
  intros Hok Hx. apply elem_of_cons in Hx as [->|Hx].
  - destruct (so_head _ _ _ Hok) as [k Hk]. by eapply node_at_lt.
  - apply list_elem_of_lookup in Hx as [n Hn].
    destruct (Forall2_lookup_l _ _ _ _ _ (so_keys _ _ _ Hok) Hn) as (k & _ & h & Hk & _). by eapply node_at_lt.
Qed.

(** No node is as tall as the list is high. *)
Lemma level_list_high sl ids ks i level :
  sl_ok sl ids ks -> (forall x, x ∈ i -> x ∈ ids) -> (max_height_ sl <= level)%nat ->
  level_list (sl_nodes sl) level i = [].
Proof.
  intros Hok Hi Hlev. destruct (level_list (sl_nodes sl) level i) as [|x l] eqn:E; [done|].
  assert (Hx : x ∈ level_list (sl_nodes sl) level i) by (rewrite E; by left).
  unfold level_list in Hx. apply list_elem_of_filter in Hx as [Ht Hx]. apply Hi in Hx.
  apply list_elem_of_lookup in Hx as [n Hn].
  destruct (Forall2_lookup_l _ _ _ _ _ (so_keys _ _ _ Hok) Hn) as (k & _ & h & Hk & Hh).
  eapply node_at_tall in Ht; [|done]. lia.
Qed.

Lemma sorted_insert (k1 k2 : list Key) key :
  sorted_keys (k1 ++ k2) -> (forall k, k ∈ k1 -> order k key < 0) -> (forall k, k ∈ k2 -> order key k < 0) ->
  sorted_keys (k1 ++ key :: k2).
Proof.
  unfold sorted_keys. intros Hs Hlt Hgt. induction k1 as [|k k1 IH]; cbn [app] in *.
  - constructor; [done|]. apply Forall_forall. intros x Hx. by apply Hgt.
  - apply StronglySorted_inv in Hs as [Hs Hk]. constructor.
    + apply IH; [done|]. intros x Hx. apply Hlt. by right.
    + apply Forall_app in Hk as [Hk1 Hk2]. apply Forall_app. split; [done|].
      constructor; [apply Hlt; by left|done].
Qed.

Section insert.
Context (sl : SkipList Key) (k1 k2 : list Key) (i1 i2 : list nat) (key : Key) (h : nat).
Context (Hok : sl_ok sl (i1 ++ i2) (k1 ++ k2)) (Hlen : length i1 = length k1).
Context (Hh : (1 <= h <= kMaxHeight)%nat).
Notation nodes := (sl_nodes sl).
Notation x := (length nodes).
Notation new := (nodes ++ [mkNode key (replicate h None)]).
Notation P := (prev_at nodes i1).

Lemma insert_old z : z ∈ head_ :: i1 ++ i2 -> (z < x)%nat.
Proof. by apply (so_lt _ _ _ _ Hok). Qed.

Lemma insert_old_level level i z :
  (forall y, y ∈ i -> y ∈ i1 ++ i2) -> z ∈ head_ :: level_list nodes level i -> (z < x)%nat.
Proof.
  intros Hi Hz. apply insert_old. apply elem_of_cons in Hz as [->|Hz]; [by left|].
  right. by eapply Hi, level_list_subset.
Qed.

Lemma P_old j : (P j < x)%nat.
Proof.
  apply (insert_old_level j i1); [intros y Hy; apply elem_of_app; by left|]. apply last_node_elem.
Qed.

Lemma new_node : node_at new x key h.
Proof. exists (mkNode key (replicate h None)). split; [by apply list_lookup_middle|]. split; [done|apply length_replicate]. Qed.

Lemma insert_before_links j : (j < h)%nat -> P j <> x /\ tall new j x /\ nxt new j (P j) = Some (head (level_list nodes j i2)).
Proof.
  intros Hj. pose proof (P_old j). split; [lia|]. split.
  - eapply node_at_tall; [apply new_node|done].
  - rewrite nxt_app by done. pose proof (so_chain _ _ _ Hok j ltac:(lia)) as Hc.
    unfold level_list in Hc. rewrite filter_app in Hc. by apply chain_next in Hc.
Qed.

Context (nodes' : list (Node Key)) (Hlinked : linked P x 0 h new nodes').

Lemma insert_level level :
  level_list nodes' level (i1 ++ x :: i2) =
    level_list nodes level i1 ++ (if decide (level < h)%nat then [x] else []) ++ level_list nodes level i2.
Proof.
  rewrite (same_nodes_level new) by apply Hlinked. unfold level_list.
  rewrite (filter_app _ i1), filter_cons.
  change (filter (tall new level) i1) with (level_list new level i1).
  change (filter (tall new level) i2) with (level_list new level i2).
  rewrite !level_list_app by (intros y Hy; apply insert_old; right; apply elem_of_app; auto).
  destruct (decide (tall new level x)) as [Ht|Ht].
  - by rewrite decide_True by by apply (node_at_tall _ _ _ _ _ new_node).
  - rewrite decide_False; [done|]. by rewrite <- (node_at_tall _ _ _ _ _ new_node).
Qed.

Lemma insert_chain level :
  (level < kMaxHeight)%nat -> chain (nxt nodes' level) head_ (level_list nodes' level (i1 ++ x :: i2)).
Proof.
  intros Hlev. rewrite insert_level. pose proof (so_chain _ _ _ Hok level Hlev) as Hc.
  unfold level_list in Hc. rewrite filter_app in Hc.
  change (filter (tall nodes level) i1) with (level_list nodes level i1) in Hc.
  change (filter (tall nodes level) i2) with (level_list nodes level i2) in Hc.
  assert (Hold : forall z, z ∈ head_ :: level_list nodes level i1 ++ level_list nodes level i2 -> (z < x)%nat).
  { intros z Hz. apply (insert_old_level level (i1 ++ i2)); [done|]. unfold level_list. by rewrite filter_app. }
  destruct Hlinked as [_ Hn]. destruct (decide (level < h)%nat) as [Hl|Hl]; cbn [app].
  - destruct (insert_before_links level Hl) as (Hne & _ & Hnext).
    apply (chain_insert (nxt nodes level)); [| | | | |done].
    + pose proof (so_nodup _ _ _ Hok) as Hnd. apply NoDup_cons in Hnd as [Hh0 Hnd].
      apply NoDup_cons. unfold level_list. rewrite <- filter_app. split; [|by apply NoDup_filter].
      intros Hin. by apply list_elem_of_filter in Hin as [_ Hin].
    + intros Hin. apply Hold in Hin. lia.
    + rewrite Hn, decide_True, decide_True by (done || lia). done.
    + rewrite Hn, decide_True, decide_False, decide_True by (done || lia). exact Hnext.
    + intros z Hz Hzx. rewrite Hn, decide_True, decide_False, decide_False by (done || lia).
      unfold nxt. destruct (decide (z < x)%nat); [by rewrite lookup_app_l|].
      rewrite lookup_app_r, (lookup_ge_None_2 nodes) by lia.
      destruct (z - x)%nat eqn:E; [lia|done].
  - eapply chain_ext; [|exact Hc]. intros z Hz. rewrite Hn, decide_False by lia.
    apply nxt_app. by apply Hold.
Qed.

Lemma insert_ok rnd :
  valid key -> (forall k, k ∈ k1 -> order k key < 0) -> (forall k, k ∈ k2 -> order key k < 0) ->
  seed_ok (seed_ rnd) ->
  sl_ok (mkSkipList nodes' (Nat.max (max_height_ sl) h) rnd) (i1 ++ x :: i2) (k1 ++ key :: k2).
Proof.
  intros Hv Hlt Hgt Hseed. pose proof Hlinked as [[Hl' Hsame] _].
  assert (Hkeep : forall z k n, node_at nodes z k n -> node_at nodes' z k n).
  { intros z k n Hz. apply Hsame, node_at_app; [by eapply node_at_lt|done]. }
  pose proof (so_keys _ _ _ Hok) as Hkeys. pose proof (so_max _ _ _ Hok).
  assert (Hmono : forall z k, (exists n, node_at nodes z k n /\ (1 <= n <= max_height_ sl)%nat) ->
    exists n, node_at nodes' z k n /\ (1 <= n <= Nat.max (max_height_ sl) h)%nat).
  { intros z k (n & Hz & ?). exists n. split; [by apply Hkeep|lia]. }
  split; cbn [sl_nodes max_height_ rnd_].
  - apply Forall2_app_inv in Hkeys as [Hk1 Hk2]; [|done].
    apply Forall2_app; [by eapply Forall2_impl|]. constructor; [|by eapply Forall2_impl].
    exists h. split; [apply Hsame, new_node|lia].
  - apply sorted_insert; [apply (so_sorted _ _ _ Hok)|done..].
  - pose proof (so_valid _ _ _ Hok) as Hval. apply Forall_app in Hval as [? ?].
    apply Forall_app. split; [done|]. by constructor.
  - pose proof (so_nodup _ _ _ Hok) as Hnd. rewrite app_comm_cons in Hnd |- *.
    rewrite <- Permutation_middle, app_comm_cons. apply NoDup_cons. split; [|done].
    intros Hin. apply insert_old in Hin. lia.
  - destruct (so_head _ _ _ Hok) as [k Hk]. exists k. by apply Hkeep.
  - apply insert_chain.
  - lia.
  - rewrite Hl', !length_app. cbn. pose proof (so_length _ _ _ Hok) as Hlt'. rewrite length_app in Hlt'. lia.
  - done.
Qed.
End insert.

Context (base : nat -> Z) (Hbase : forall b, base b mod 8 = 0).

(** Between the keys before the target and those at or after it. *)
Definition splits (target : Key) (k1 k2 : list Key) : Prop :=
  (forall k, k ∈ k1 -> order k target < 0) /\ (forall k, k ∈ k2 -> 0 <= order k target).

Lemma FindGreaterOrEqual_ok sl ids k1 k2 target prev :
  sl_ok sl ids (k1 ++ k2) -> splits target k1 k2 -> valid target ->
  (forall l, prev = Some l -> length l = kMaxHeight) ->
  exists i1 i2 prev', ids = i1 ++ i2 /\ length i1 = length k1 /\
    FindGreaterOrEqual compare_ sl target prev = Ok (head i2, prev') /\
    prev_filled (sl_nodes sl) i1 (max_height_ sl - 1) prev prev'.
Proof.
  intros Hok [Hlt Hge] Hv Hp. destruct (sl_split _ _ _ _ Hok) as (i1 & i2 & -> & Hl1 & Hl2 & H1 & H2).
  destruct (FindGreaterOrEqual_spec sl (i1 ++ i2) k1 k2 i1 i2 target Hok eq_refl H1 H2 Hlt Hge Hv prev Hp)
    as (prev' & E & Hf). by exists i1, i2, prev'.
Qed.

Lemma sl_key sl ids ks n x :
  sl_ok sl ids ks -> ids !! n = Some x -> exists k, ks !! n = Some k /\ key_at (sl_nodes sl) x = Ok k /\ valid k.
Proof.
  intros Hok Hn. destruct (Forall2_lookup_l _ _ _ _ _ (so_keys _ _ _ Hok) Hn) as (k & Hk & h & Hx & _).
  exists k. split; [done|]. split; [by eapply node_at_key|].
  eapply Forall_lookup_1; [apply (so_valid _ _ _ Hok)|done].
Qed.

Lemma head_app_lookup {A} (l1 l2 : list A) : head l2 = (l1 ++ l2) !! length l1.
Proof. rewrite lookup_app_r, Nat.sub_diag by lia. by destruct l2. Qed.

(** [Insert] of a key that is not in the list. *)
Lemma Insert_ok sl k1 k2 key a rs :
  sl_repr sl (k1 ++ k2) -> valid key ->
  (forall k, k ∈ k1 -> order k key < 0) -> (forall k, k ∈ k2 -> order key k < 0) ->
  arena_ok a rs ->
  exists sl' a' r, SkipList.Insert compare_ base sl key a = Ok (sl', a') /\
    sl_repr sl' (k1 ++ key :: k2) /\ arena_ok a' (r :: rs).
Proof.
  intros [ids Hok] Hv Hlt Hgt Ha.
  assert (Hsplit : splits key k1 k2).
  { split; [done|]. intros k Hk. apply cmp_le_ge, Z.lt_le_incl. by apply Hgt. }
  destruct (FindGreaterOrEqual_ok sl ids k1 k2 key (Some (replicate kMaxHeight None)) Hok Hsplit Hv)
    as (i1 & i2 & prev & -> & Hl1 & Hfind & Hprev); [by intros l [= <-]|].
  unfold SkipList.Insert. rewrite Hfind. cbn [mbind outcome_bind].
  destruct prev as [prev|]; [|done]. cbn [in_bounds mbind outcome_bind].
  destruct Hprev as (Hpl & Hpin & _). rewrite length_replicate in Hpl.
  assert (Hneq : (match head i2 with None => Ok false | Some i => k ← key_at (sl_nodes sl) i; Equal compare_ key k end) = Ok false).
  { destruct (head i2) as [y|] eqn:E; [|done]. rewrite (head_app_lookup i1 i2) in E.
    destruct (sl_key _ _ _ _ _ Hok E) as (k & Hk & -> & Hvk). cbn [mbind outcome_bind].
    unfold Equal. rewrite compare_valid by done. cbn [mbind outcome_bind].
    rewrite (proj2 (Z.eqb_neq _ _)); [done|]. rewrite Hl1, lookup_app_r, Nat.sub_diag in Hk by lia.
    assert (order key k < 0); [|lia]. apply Hgt. by eapply list_elem_of_lookup_2. }
  rewrite Hneq. cbn [mbind outcome_bind]. rewrite bind_assert by done.
  pose proof (RandomHeight_range (rnd_ sl) (so_seed _ _ _ Hok)) as Hr.
  destruct (RandomHeight (rnd_ sl)) as [h rnd]. destruct Hr as [Hh Hseed].
  pose proof (so_max _ _ _ Hok) as Hmax.
  destruct (fill_prev_spec (h - max_height_ sl) (max_height_ sl) prev) as (prev' & -> & Hp'); [lia|].
  cbn [mbind outcome_bind]. unfold NewNode.
  destruct (AllocateAligned_ok base a rs (16 + 8 * (Z.of_nat h - 1)) Hbase Ha) as (p & a1 & -> & Ha1 & _).
  { unfold kMaxHeight in Hh. lia. }
  cbn [mbind outcome_bind].
  destruct (link_loop_spec h 0 (length (sl_nodes sl)) prev'
    (sl_nodes sl ++ [mkNode key (replicate h None)]) (prev_at (sl_nodes sl) i1)) as (nodes' & -> & Hlinked).
  { intros j Hj. destruct (insert_before_links sl k1 k2 i1 i2 key h Hok Hl1 Hh j) as (Hne & Ht & Hnx); [lia|].
    split_and!; [|done|done|by rewrite Hnx]. rewrite Hp'. case_decide as Hd.
    - unfold prev_at. rewrite (level_list_high sl _ _ i1 j Hok); [done| |lia].
      intros y Hy. apply elem_of_app. by left.
    - apply Hpin. lia. }
  cbn [mbind outcome_bind]. do 3 eexists. split; [done|]. split; [|exact Ha1].
  exists (i1 ++ length (sl_nodes sl) :: i2). by apply insert_ok.
Qed.

(** ** The empty list *)

Lemma clear_loop_spec n i nodes :
  (forall j, (i <= j < i + n)%nat -> tall nodes j head_) ->
  exists nodes', clear_loop n i nodes = Ok nodes' /\ same_nodes nodes nodes' /\
    forall j, (i <= j < i + n)%nat -> nxt nodes' j head_ = Some None.
Proof.
  intros Ht. assert (Hgen : exists nodes', clear_loop n i nodes = Ok nodes' /\ same_nodes nodes nodes' /\
    forall j, nxt nodes' j head_ = if decide (i <= j < i + n)%nat then Some None else nxt nodes j head_).
  { revert i nodes Ht. induction n as [|n IH]; intros i nodes Ht.
    - exists nodes. split; [done|]. split; [done|]. intros j. by rewrite decide_False by lia.
    - cbn [clear_loop]. destruct (SetNext_spec nodes head_ i None) as (n1 & -> & Hs1 & Hn1); [apply Ht; lia|].
      cbn [mbind outcome_bind]. destruct (IH (S i) n1) as (n2 & -> & Hs2 & Hn2).
      { intros j Hj. eapply same_nodes_tall; [done|]. apply Ht. lia. }
      exists n2. split; [done|]. split; [by eapply same_nodes_trans|]. intros j. rewrite Hn2, Hn1.
      destruct (decide (S i <= j < S i + n)%nat), (decide (i <= j < i + S n)%nat); try (done || lia).
      + rewrite decide_True; [done|split; [done|lia]].
      + by rewrite decide_False by (intros [_ ?]; lia). }
  destruct Hgen as (nodes' & E & Hs & Hn). exists nodes'. split; [done|]. split; [done|].
  intros j Hj. by rewrite Hn, decide_True.
Qed.

Lemma SkipList_new_ok any a rs :
  arena_ok a rs ->
  exists sl a' r, SkipList_new base any a = Ok (sl, a') /\ sl_repr sl [] /\ arena_ok a' (r :: rs).
Proof.
  intros Ha. unfold SkipList_new, NewNode.
  destruct (AllocateAligned_ok base a rs (16 + 8 * (Z.of_nat kMaxHeight - 1)) Hbase Ha) as (p & a1 & -> & Ha1 & _); [done|].
  cbn [mbind outcome_bind length app].
  set (nodes := [mkNode any (replicate kMaxHeight None)]).
  assert (Hh : node_at nodes head_ any kMaxHeight).
  { exists (mkNode any (replicate kMaxHeight None)). done. }
  destruct (clear_loop_spec kMaxHeight 0 nodes) as (nodes' & -> & Hs & Hn).
  { intros j Hj. eapply node_at_tall; [done|lia]. }
  cbn [mbind outcome_bind]. do 3 eexists. split; [done|]. split; [|exact Ha1].
  exists []. split; cbn [sl_nodes max_height_ rnd_].
  - constructor.
  - constructor.
  - constructor.
  - apply NoDup_singleton.
  - exists any. by apply Hs.
  - intros level Hl. cbn. apply Hn. lia.
  - unfold kMaxHeight. lia.
  - destruct Hs as [-> _]. cbn. lia.
  - apply Random_new_ok.
Qed.

(** ** Iterators

    An iterator stands at a position of the list of keys; behind the last it
    is not valid. *)

Definition iter_at sl ks (it : option nat) (n : nat) : Prop :=
  exists ids, sl_ok sl ids ks /\ it = ids !! n /\ (n <= length ks)%nat.

Lemma sl_ok_length sl ids ks : sl_ok sl ids ks -> length ids = length ks.
Proof. intros Hok. eapply Forall2_length, (so_keys _ _ _ Hok). Qed.

Lemma iter_at_valid sl ks it n : iter_at sl ks it n -> is_Some it <-> (n < length ks)%nat.
Proof. intros (ids & Hok & -> & _). rewrite lookup_lt_is_Some. by rewrite (sl_ok_length _ _ _ Hok). Qed.

Lemma Iterator_key_ok sl ks it n k :
  iter_at sl ks it n -> ks !! n = Some k -> Iterator_key sl it = Ok k.
Proof.
  intros (ids & Hok & -> & _) Hk.
  destruct (lookup_lt_is_Some_2 ids n) as [x Hx].
  { rewrite (sl_ok_length _ _ _ Hok). by eapply lookup_lt_Some. }
  destruct (sl_key _ _ _ _ _ Hok Hx) as (k' & Hk' & E & _). unfold Iterator_key. rewrite Hx.
  rewrite bind_assert by done. cbn [in_bounds mbind outcome_bind]. rewrite E. congruence.
Qed.

Lemma Iterator_Seek_ok sl k1 k2 target :
  sl_repr sl (k1 ++ k2) -> splits target k1 k2 -> valid target ->
  exists it, Iterator_Seek compare_ sl target = Ok it /\ iter_at sl (k1 ++ k2) it (length k1).
Proof.
  intros [ids Hok] Hs Hv.
  destruct (FindGreaterOrEqual_ok sl ids k1 k2 target None Hok Hs Hv) as (i1 & i2 & prev & -> & Hl & E & _); [done|].
  exists (head i2). unfold Iterator_Seek. rewrite E. split; [done|].
  exists (i1 ++ i2). split; [done|]. rewrite <- Hl. split; [apply head_app_lookup|].
  rewrite length_app. lia.
Qed.

(** The links of the lowest level run through all nodes. *)
Lemma nxt_0 sl ids ks n :
  sl_ok sl ids ks -> (n <= length ids)%nat ->
  Node_Next (sl_nodes sl) (last_node (take n ids)) 0 = Ok (ids !! n).
Proof.
  intros Hok Hn. pose proof (so_max _ _ _ Hok).
  pose proof (so_chain _ _ _ Hok 0%nat ltac:(lia)) as Hc. rewrite level_list_0 in Hc.
  - rewrite <- (take_drop n ids) in Hc at 1. apply chain_next in Hc. unfold Node_Next.
    change (default head_ (last (take n ids))) with (last_node (take n ids)) in Hc. rewrite Hc. cbn. f_equal.
    rewrite (head_app_lookup (take n ids)), take_drop, length_take. f_equal. lia.
  - intros z Hz. apply list_elem_of_lookup in Hz as [m Hm].
    destruct (Forall2_lookup_l _ _ _ _ _ (so_keys _ _ _ Hok) Hm) as (k & _ & h & Hk & ?). exists k, h. split; [done|lia].
Qed.

Lemma Iterator_SeekToFirst_ok sl ks :
  sl_repr sl ks -> exists it, Iterator_SeekToFirst sl = Ok it /\ iter_at sl ks it 0.
Proof.
  intros [ids Hok]. exists (ids !! 0%nat). split; [by apply (nxt_0 sl ids ks 0 Hok); lia|].
  exists ids. split_and!; (done || lia).
Qed.

Lemma last_node_take ids n x : ids !! n = Some x -> last_node (take (S n) ids) = x.
Proof.
  intros Hx. unfold last_node. rewrite (take_S_r _ _ x) by done. by rewrite last_snoc.
Qed.

Lemma Iterator_Next_ok sl ks it n :
  iter_at sl ks it n -> (n < length ks)%nat ->
  exists it', Iterator_Next sl it = Ok it' /\ iter_at sl ks it' (S n).
Proof.
  intros (ids & Hok & -> & _) Hn. pose proof (sl_ok_length _ _ _ Hok) as Hl.
  destruct (lookup_lt_is_Some_2 ids n) as [x Hx]; [lia|]. unfold Iterator_Next. rewrite Hx.
  rewrite bind_assert by done. cbn [in_bounds mbind outcome_bind].
  exists (ids !! S n). split; [|exists ids; split_and!; (done || lia)].
  rewrite <- (last_node_take _ _ _ Hx). eapply nxt_0; [done|lia].
Qed.

(** A node found, or none when it is the head. *)
Lemma null_if_head_take sl ids ks n :
  sl_ok sl ids ks -> (n <= length ids)%nat ->
  null_if_head (last_node (take n ids)) = match n with O => None | S m => ids !! m end.
Proof.
  intros Hok Hn. destruct n as [|m]; [done|]. destruct (lookup_lt_is_Some_2 ids m) as [x Hx]; [lia|].
  rewrite (last_node_take _ _ _ Hx), Hx. unfold null_if_head. rewrite decide_False; [done|].
  intros ->. pose proof (so_nodup _ _ _ Hok) as Hnd. apply NoDup_cons in Hnd as [Hnd _].
  apply Hnd. by eapply list_elem_of_lookup_2.
Qed.

Lemma sorted_split ks n k :
  sorted_keys ks -> ks !! n = Some k -> splits k (take n ks) (drop n ks).
Proof.
  intros Hs Hk. rewrite <- (take_drop_middle ks n k Hk) in Hs. unfold sorted_keys in Hs.
  apply StronglySorted_app in Hs as (Hc & _ & Hs). apply StronglySorted_cons in Hs as [Hf _].
  split; intros l Hl.
  - apply Hc; [done|by left].
  - rewrite (drop_S _ _ _ Hk) in Hl. apply elem_of_cons in Hl as [->|Hl]; [by rewrite cmp_refl|].
    apply cmp_le_ge, Z.lt_le_incl. by apply (proj1 (Forall_forall _ _) Hf).
Qed.

Lemma Iterator_Prev_ok sl ks it n :
  iter_at sl ks it n -> (n < length ks)%nat ->
  exists it', Iterator_Prev compare_ sl it = Ok it' /\
    match n with O => it' = None | S m => iter_at sl ks it' m end.
Proof.
  intros (ids & Hok & -> & _) Hn. pose proof (sl_ok_length _ _ _ Hok) as Hl.
  destruct (lookup_lt_is_Some_2 ids n) as [x Hx]; [lia|]. unfold Iterator_Prev. rewrite Hx.
  rewrite bind_assert by done. cbn [in_bounds mbind outcome_bind].
  destruct (sl_key _ _ _ _ _ Hok Hx) as (k & Hk & -> & Hv). cbn [mbind outcome_bind].
  destruct (sorted_split _ _ _ (so_sorted _ _ _ Hok) Hk) as [Hlt Hge].
  assert (Hok' : sl_ok sl ids (take n ks ++ drop n ks)) by by rewrite take_drop.
  destruct (sl_split _ _ _ _ Hok') as (i1 & i2 & E & Hl1 & Hl2 & H1 & H2).
  rewrite (FindLessThan_spec sl ids _ _ i1 i2 k Hok' E H1 H2 Hlt Hge Hv). cbn [mbind outcome_bind].
  assert (Ei : i1 = take n ids).
  { rewrite E, take_app_length'; [done|]. rewrite Hl1, length_take. lia. }
  rewrite Ei, (null_if_head_take sl ids ks n Hok) by lia. eexists. split; [done|].
  destruct n as [|m]; [done|]. exists ids. split_and!; (done || lia).
Qed.

Lemma Iterator_SeekToLast_ok sl ks :
  sl_repr sl ks ->
  exists it, Iterator_SeekToLast sl = Ok it /\
    match length ks with O => it = None | S m => iter_at sl ks it m end.
Proof.
  intros [ids Hok]. unfold Iterator_SeekToLast. rewrite (FindLast_spec _ _ _ Hok). cbn [mbind outcome_bind].
  rewrite <- (firstn_all ids), (null_if_head_take sl ids ks _ Hok) by done.
  eexists. split; [done|]. pose proof (sl_ok_length _ _ _ Hok) as Hl.
  rewrite Hl. destruct (length ks) as [|m] eqn:E; [done|]. exists ids. split_and!; (done || lia).
Qed.

Lemma Contains_ok sl k1 k2 target :
  sl_repr sl (k1 ++ k2) -> splits target k1 k2 -> valid target ->
  Contains compare_ sl target = Ok (match head k2 with Some k => order target k =? 0 | None => false end).
Proof.
  intros [ids Hok] Hs Hv.
  destruct (FindGreaterOrEqual_ok sl ids k1 k2 target None Hok Hs Hv) as (i1 & i2 & prev & -> & Hl & E & _); [done|].
  unfold Contains. rewrite E. cbn [mbind outcome_bind].
  rewrite (head_app_lookup i1 i2), (head_app_lookup k1 k2), <- Hl.
  destruct ((i1 ++ i2) !! length i1) as [x|] eqn:Ex.
  - destruct (sl_key _ _ _ _ _ Hok Ex) as (k & -> & -> & Hvk). cbn [mbind outcome_bind].
    unfold Equal. by rewrite compare_valid.
  - rewrite lookup_ge_None_2; [done|]. apply lookup_ge_None in Ex.
    by rewrite <- (sl_ok_length _ _ _ Hok).
Qed.
End repr.
