(* ===== verification/MemTable.v ===== *)
(** * LevelDB: the memory table (lib/leveldb/db/memtable.h, memtable.cc) and
      what puts batches in it (lib/leveldb/db/write_batch.cc)

    The keys of the skip list are pointers to entries; an entry is the bytes
    from where the pointer leads to the end of its allocation. *)

From S2P Require Import Prelude.
From S2P Require Import Bytes.
From S2P Require Import Coding.
From S2P Require Import Comparator.
From S2P Require Import DbFormat.
From S2P Require Import Iterator.
From S2P Require Import Arena.
From S2P Require Import SkipList.
From S2P Require Import WriteBatch.
From stdpp Require Import base tactics numbers list strings.
From Stdlib Require Import Ascii ZArith Lia.

Open Scope Z_scope.

(** [GetVarint32Ptr(p, p + 5, &v)]: that the pointer is not corrupted is
    assumed, and NULL is not looked at. *)
Definition varint32_at (data : bytes) : outcome (Z * bytes) :=
  let near := takeZ 5 data in
  match GetVarint32Ptr near with
  | Some (v, rest) => Ok (v, dropZ (lengthZ near - lengthZ rest) data)
  | None => UB
  end.

(** The slice, and what follows it. *)
Definition prefixed_slice_at (data : bytes) : outcome (bytes * bytes) :=
  '(len, p) ← varint32_at data;
  _ ← require (len <=? lengthZ p);
  Ok (takeZ len p, dropZ len p).

(** What [Get] found: a value, a deletion, or nothing for the key. *)
Inductive lookup_result : Type := Value_of (value : bytes) | Not_found | Missing.

#[export] Instance lookup_result_eq_dec : EqDecision lookup_result.
Proof. solve_decision. Defined.

Record MemTable : Type := mkMemTable
  { refs_ : Z; arena_ : Arena; table_ : SkipList bytes }.

Section MemTable.
Context {platform : Platform} {C : Type} `{Comparator C} (comparator_ : InternalKeyComparator C).
Context (base : nat -> Z).
Implicit Types m : MemTable.

Definition KeyComparator (aptr bptr : bytes) : outcome Z :=
  '(a, _) ← prefixed_slice_at aptr;
  '(b, _) ← prefixed_slice_at bptr;
  Compare comparator_ a b.

Definition MemTable_new : outcome MemTable :=
  '(table, arena) ← SkipList_new base [] Arena_new;
  Ok (mkMemTable 0 arena table).

Definition Ref m : MemTable := mkMemTable (refs_ m + 1) (arena_ m) (table_ m).

(** [None]: the table was deleted. *)
Definition Unref m : outcome (option MemTable) :=
  let refs := refs_ m - 1 in
  _ ← assert_ (0 <=? refs);
  if refs <=? 0 then _ ← assert_ (refs =? 0); Ok None
  else Ok (Some (mkMemTable refs (arena_ m) (table_ m))).

Definition ApproximateMemoryUsage m (capacity : Z) : Z := MemoryUsage (arena_ m) capacity.

Definition EncodeKey (target : bytes) : bytes := PutVarint32 [] (u32 (lengthZ target)) ++ target.

Definition MemTable_Add m (s : Z) (type : ValueType) (key value : bytes) : outcome MemTable :=
  let key_size := lengthZ key in
  let val_size := lengthZ value in
  let internal_key_size := u64 (key_size + 8) in
  n1 ← VarintLength internal_key_size;
  n2 ← VarintLength val_size;
  let encoded_len := u64 (n1 + internal_key_size + n2 + val_size) in
  '(_, arena1) ← Allocate (arena_ m) encoded_len;
  let buf := EncodeVarint32 (u32 internal_key_size) ++ key ++
    EncodeFixed64 kLittleEndian (Z.lor (u64 (Z.shiftl s 8)) (value_type type)) ++
    EncodeVarint32 (u32 val_size) ++ value in
  _ ← assert_ (lengthZ buf =? encoded_len);
  '(table1, arena2) ← SkipList.Insert KeyComparator base (table_ m) buf arena1;
  Ok (mkMemTable (refs_ m) arena2 table1).

Definition MemTable_Get m (key : LookupKey) : outcome lookup_result :=
  it ← Iterator_Seek KeyComparator (table_ m) (memtable_key key);
  if bool_decide (is_Some it) then
    entry ← Iterator_key (table_ m) it;
    '(key_length, key_ptr) ← varint32_at entry;
    let n := u32 (key_length - 8) in
    _ ← require (n <=? lengthZ key_ptr);
    r ← Compare (user_comparator comparator_) (takeZ n key_ptr) (lookup_user_key key);
    if r =? 0 then
      tag ← DecodeFixed64 kLittleEndian (dropZ n key_ptr);
      match value_type_of (Z.land tag 255) with
      | Some kTypeValue =>
          '(v, _) ← prefixed_slice_at (dropZ key_length key_ptr); Ok (Value_of v)
      | Some kTypeDeletion => Ok Not_found
      | None => Ok Missing
      end
    else Ok Missing
  else Ok Missing.

(** ** MemTableIterator *)

Definition mi_Valid (it : option nat) : bool := bool_decide (is_Some it).
Definition mi_Seek m (k : bytes) : outcome (option nat) :=
  Iterator_Seek KeyComparator (table_ m) (EncodeKey k).
Definition mi_SeekToFirst m : outcome (option nat) := Iterator_SeekToFirst (table_ m).
Definition mi_SeekToLast m : outcome (option nat) := Iterator_SeekToLast (table_ m).
Definition mi_Next m (it : option nat) : outcome (option nat) := Iterator_Next (table_ m) it.
Definition mi_Prev m (it : option nat) : outcome (option nat) := Iterator_Prev KeyComparator (table_ m) it.

Definition mi_key m (it : option nat) : outcome bytes :=
  entry ← Iterator_key (table_ m) it;
  '(k, _) ← prefixed_slice_at entry; Ok k.

Definition mi_value m (it : option nat) : outcome bytes :=
  entry ← Iterator_key (table_ m) it;
  '(_, rest) ← prefixed_slice_at entry;
  '(v, _) ← prefixed_slice_at rest; Ok v.

(** The table, which does not change while there is an iterator, and the node. *)
Record MemTableIterator : Type := mkMemIterator { mi_mem : MemTable; mi_node : option nat }.

Definition mi_move (f : MemTable -> outcome (option nat)) (i : MemTableIterator) : outcome MemTableIterator :=
  n ← f (mi_mem i); Ok (mkMemIterator (mi_mem i) n).

#[export] Instance memtable_Iterator : Iterator MemTableIterator := {
  it_Valid i := mi_Valid (mi_node i);
  it_SeekToFirst := mi_move mi_SeekToFirst;
  it_SeekToLast := mi_move mi_SeekToLast;
  it_Seek k := mi_move (fun m => mi_Seek m k);
  it_Next i := mi_move (fun m => mi_Next m (mi_node i)) i;
  it_Prev i := mi_move (fun m => mi_Prev m (mi_node i)) i;
  it_key i := mi_key (mi_mem i) (mi_node i);
  it_value i := mi_value (mi_mem i) (mi_node i);
  it_status _ := Status_ok
}.

Definition MemTable_NewIterator m : MemTableIterator := mkMemIterator m None.

(** ** MemTableInserter *)

Record MemTableInserter : Type := mkInserter { sequence_ : Z; mem_ : MemTable }.

Definition inserter_add (type : ValueType) (h : outcome MemTableInserter) (key value : bytes) :
    outcome MemTableInserter :=
  i ← h;
  m ← MemTable_Add (mem_ i) (sequence_ i) type key value;
  Ok (mkInserter (u64 (sequence_ i + 1)) m).

(** An insertion that is not defined makes the rest so. *)
#[export] Instance inserter_handler : Handler (outcome MemTableInserter) := {
  handler_Put := inserter_add kTypeValue;
  handler_Delete h key := inserter_add kTypeDeletion h key []
}.

(** The status, and the table. *)
Definition InsertInto (b : WriteBatch) m : outcome (option bytes * MemTable) :=
  seq ← Sequence kLittleEndian b;
  '(st, h) ← Iterate kLittleEndian b (Ok (mkInserter seq m));
  i ← h;
  Ok (st, mem_ i).
End MemTable.
