(* ===== verification/MemTableSpec.v ===== *)
(** * LevelDB: the memory table is a multi-version map

    [mem_repr] relates a memory table to the writes that were added, in any
    order.  [MemTable_Get] gives the newest write of a key that is not newer
    than the snapshot. *)

From S2P Require Import Prelude.
From S2P Require Import Bytes.
From S2P Require Import Coding.
From S2P Require Import Comparator.
From S2P Require Import DbFormat.
From S2P Require Import Iterator.
From S2P Require Import Arena.
From S2P Require Import SkipList.
From S2P Require Import SkipListSpec.
From S2P Require Import WriteBatch.
From S2P Require Import MemTable.
From stdpp Require Import base tactics numbers list gmap sorting strings.
From Stdlib Require Import Ascii ZArith Lia.

Open Scope Z_scope.

(** ** Entries *)

(** More bytes allowed make no difference. *)
Lemma varint_more n m v : 0 <= v < 128 ^ (Z.of_nat n + 1) -> (n <= m)%nat -> varint m v = varint n v.
Proof.
  revert m v. induction n as [|n IH]; intros m v Hv Hm.
  - change (128 ^ (Z.of_nat 0 + 1)) with 128 in Hv. destruct m; [done|]. cbn [varint].
    by rewrite (proj2 (Z.ltb_lt _ _)) by lia.
  - destruct m as [|m]; [lia|]. cbn [varint]. case_match; [done|]. f_equal. apply IH; [|lia].
    rewrite Nat2Z.inj_succ, <- Z.add_1_r, (Z.pow_add_r 128 (Z.of_nat n + 1)) in Hv by lia.
    split; [apply Z.div_pos; lia|apply Z.div_lt_upper_bound; lia].
Qed.

Lemma varint32_at_Put v l :
  0 <= v < 2 ^ 32 -> varint32_at (EncodeVarint32 v ++ l) = Ok (v, l).
Proof.
  intros Hv. unfold varint32_at.
  assert (Hlen : 1 <= lengthZ (EncodeVarint32 v) <= 5).
  { rewrite EncodeVarint32_varint by done. apply (varint_lengthZ 4). }
  rewrite takeZ_app, (takeZ_ge 5) by lia.
  change (GetVarint32Ptr ?x) with (GetVarint32 x). rewrite GetVarint32_Put by done.
  rewrite lengthZ_app, Z.add_simpl_r. by rewrite dropZ_app_exact.
Qed.

Lemma prefixed_slice_at_Put s l :
  lengthZ s < 2 ^ 32 -> prefixed_slice_at (PutLengthPrefixedSlice [] s ++ l) = Ok (s, l).
Proof.
  intros Hs. pose proof (lengthZ_nonneg s). pose proof (lengthZ_nonneg l).
  unfold prefixed_slice_at, PutLengthPrefixedSlice, PutVarint32. cbn [app].
  rewrite u32_small, <- app_assoc, varint32_at_Put by lia. cbn [mbind outcome_bind].
  rewrite bind_require by (apply Z.leb_le; rewrite lengthZ_app; lia).
  by rewrite takeZ_app_exact, dropZ_app_exact.
Qed.

(** A write, and the entry it makes. *)
Record write : Type := mkWrite { w_seq : Z; w_type : ValueType; w_key : bytes; w_value : bytes }.
Implicit Types w : write.

Definition w_internal w : bytes := internal_key (w_key w) (w_seq w) (w_type w).
Definition entry w : bytes :=
  PutLengthPrefixedSlice [] (w_internal w) ++ PutLengthPrefixedSlice [] (w_value w).

Definition entry_key (e : bytes) : bytes :=
  match prefixed_slice_at e with Ok (k, _) => k | _ => [] end.

Section spec.
Context {platform : Platform} {C : Type} `{Comparator C} (c : C) `{!ComparatorLaws C c}.
Context (base : nat -> Z) (Hbase : forall b, base b mod 8 = 0).
Notation icmp := (mkInternalKeyComparator c).
Notation uorder := (key_order (c := c)).
Notation iorder := (internal_order uorder).

Definition entry_valid (e : bytes) : Prop :=
  exists k rest, prefixed_slice_at e = Ok (k, rest) /\ internal_valid c k.

Definition entry_order (e f : bytes) : Z := iorder (entry_key e) (entry_key f).

#[export] Instance entry_order_ThreeWay : ThreeWay entry_order.
Proof. split; intros; unfold entry_order; [apply cmp_opp|by eapply cmp_trans]. Qed.

Lemma KeyComparator_valid e f :
  entry_valid e -> entry_valid f -> KeyComparator icmp e f = Ok (entry_order e f).
Proof.
  intros (k & r & Ek & Hk) (l & s & El & Hl). unfold KeyComparator, entry_order, entry_key. rewrite Ek, El.
  cbn [mbind outcome_bind]. by apply internal_Compare_ok.
Qed.

Definition write_fits w : Prop :=
  sequence_ok (w_seq w) /\ key_valid (c := c) (w_key w) /\ lengthZ (w_key w) + 8 < 2 ^ 32 /\ lengthZ (w_value w) < 2 ^ 32.

Lemma entry_split w :
  write_fits w ->
  prefixed_slice_at (entry w) = Ok (w_internal w, PutLengthPrefixedSlice [] (w_value w)) /\
  prefixed_slice_at (PutLengthPrefixedSlice [] (w_value w)) = Ok (w_value w, []).
Proof.
  intros (Hs & _ & Hk & Hv). split.
  - apply prefixed_slice_at_Put. unfold w_internal. rewrite lengthZ_internal_key. lia.
  - rewrite <- (app_nil_r (PutLengthPrefixedSlice _ _)). by apply prefixed_slice_at_Put.
Qed.

Lemma w_internal_valid w : write_fits w -> internal_valid c (w_internal w).
Proof. intros (_ & Hk & _). by apply internal_key_valid. Qed.

Lemma entry_fits w : write_fits w -> entry_valid (entry w) /\ entry_key (entry w) = w_internal w.
Proof.
  intros Hw. destruct (entry_split w Hw) as [E _]. unfold entry_valid, entry_key. rewrite E.
  split; [|done]. do 2 eexists. split; [done|by apply w_internal_valid].
Qed.

(** ** The representation *)

Definition mem_sorted (t : SkipList bytes) (ws : list write) : Prop :=
  sl_repr entry_valid entry_order t (entry <$> ws) /\ Forall write_fits ws.

Definition mem_repr (m : MemTable) (ws : list write) : Prop :=
  (exists sorted rs, mem_sorted (table_ m) sorted /\ sorted ≡ₚ ws /\ arena_ok (arena_ m) rs).

Lemma MemTable_new_ok : exists m, MemTable_new base = Ok m /\ mem_repr m [] /\ refs_ m = 0.
Proof.
  destruct (SkipList_new_ok entry_valid entry_order base Hbase [] Arena_new [] Arena_new_ok)
    as (t & a & r & E & Ht & Ha).
  unfold MemTable_new. rewrite E. cbn [mbind outcome_bind]. eexists. split; [done|]. split; [|done].
  exists [], [r]. by split_and!.
Qed.

(** Keys of different writes. *)
Definition w_apart w w' : Prop := iorder (w_internal w) (w_internal w') <> 0.

Lemma sorted_at (ks : list bytes) target :
  sorted_keys entry_order ks -> exists n, (n <= length ks)%nat /\
    splits entry_order target (take n ks) (drop n ks).
Proof.
  intros Hs. induction Hs as [|k ks Hs IH Hk].
  - exists 0%nat. split; [done|]. split; by intros k Hk%elem_of_nil.
  - destruct (Z.lt_ge_cases (entry_order k target) 0) as [Hlt|Hge].
    + destruct IH as (n & Hn & H1 & H2). exists (S n). cbn [length take drop]. split; [lia|].
      split; [|done]. intros l [->|Hl]%elem_of_cons; [done|by apply H1].
    + exists 0%nat. split; [lia|]. cbn [take drop]. split; [by intros l Hl%elem_of_nil|].
      intros l [->|Hl]%elem_of_cons; [done|]. apply cmp_le_ge.
      pose proof (proj1 (Forall_forall _ _) Hk l Hl) as Hkl. apply cmp_le_ge in Hge.
      apply Z.lt_le_incl. by eapply cmp_le_lt_trans.
Qed.

(** [Add] encodes the write as the entry and puts it in the list. *)
Lemma add_entry w :
  write_fits w ->
  exists n1 n2, VarintLength (u64 (lengthZ (w_key w) + 8)) = Ok n1 /\ VarintLength (lengthZ (w_value w)) = Ok n2 /\
    let buf := EncodeVarint32 (u32 (u64 (lengthZ (w_key w) + 8))) ++ w_key w ++
      EncodeFixed64 kLittleEndian (Z.lor (u64 (Z.shiftl (w_seq w) 8)) (value_type (w_type w))) ++
      EncodeVarint32 (u32 (lengthZ (w_value w))) ++ w_value w in
    buf = entry w /\ u64 (n1 + u64 (lengthZ (w_key w) + 8) + n2 + lengthZ (w_value w)) = lengthZ buf /\
    0 < lengthZ buf.
Proof.
  intros (Hs & _ & Hk & Hv). pose proof (lengthZ_nonneg (w_key w)). pose proof (lengthZ_nonneg (w_value w)).
  rewrite (u64_small (lengthZ (w_key w) + 8)) by lia. rewrite !u32_small by lia.
  assert (Hvar : forall v, 0 <= v < 2 ^ 32 -> VarintLength v = Ok (lengthZ (EncodeVarint32 v)) /\ 1 <= lengthZ (EncodeVarint32 v) <= 5).
  { intros v Hr. rewrite EncodeVarint32_varint by done. split; [|apply (varint_lengthZ 4)].
    unfold VarintLength. rewrite (varint_length_spec 9) by lia. rewrite (varint_more 4 9) by lia. f_equal. lia. }
  destruct (Hvar (lengthZ (w_key w) + 8)) as [E1 L1]; [lia|]. destruct (Hvar (lengthZ (w_value w))) as [E2 L2]; [lia|].
  do 2 eexists. split; [exact E1|]. split; [exact E2|]. cbv zeta.
  pose proof (PackSequenceAndType_ok (w_seq w) (w_type w) Hs) as Hp. unfold PackSequenceAndType in Hp.
  assert (Htag : Z.lor (u64 (Z.shiftl (w_seq w) 8)) (value_type (w_type w)) = pack_tag (w_seq w) (w_type w)).
  { inv_ok. done. }
  rewrite Htag, EncodeFixed64_le. split.
  - unfold entry, w_internal, PutLengthPrefixedSlice, PutVarint32, internal_key. cbn [app].
    rewrite lengthZ_app, le_bytes_lengthZ. change (Z.of_nat 8) with 8. rewrite !u32_small by lia.
    by rewrite <- !app_assoc.
  - rewrite !lengthZ_app, le_bytes_lengthZ. change (Z.of_nat 8) with 8.
    rewrite u64_small by lia. split; lia.
Qed.

Lemma mem_sorted_keys t ws : mem_sorted t ws -> sorted_keys entry_order (entry <$> ws).
Proof. intros [[ids Hok] _]. apply (so_sorted _ _ _ _ _ Hok). Qed.

Lemma entry_order_writes w w' :
  write_fits w -> write_fits w' -> entry_order (entry w) (entry w') = iorder (w_internal w) (w_internal w').
Proof.
  intros Hw Hw'. unfold entry_order. by rewrite (proj2 (entry_fits w Hw)), (proj2 (entry_fits w' Hw')).
Qed.

Lemma MemTable_Add_ok m ws w :
  mem_repr m ws -> write_fits w -> Forall (w_apart w) ws ->
  exists m', MemTable_Add icmp base m (w_seq w) (w_type w) (w_key w) (w_value w) = Ok m' /\ mem_repr m' (w :: ws) /\
    refs_ m' = refs_ m.
Proof.
  intros (sorted & rs & Hs & Hperm & Ha) Hw Hap.
  destruct (add_entry w Hw) as (n1 & n2 & E1 & E2 & Hbuf & Hlen & Hpos).
  cbv zeta in Hbuf. rewrite Hbuf in Hlen, Hpos. unfold MemTable_Add. rewrite E1, E2. cbn [mbind outcome_bind]. rewrite Hlen.
  destruct (Allocate_ok (arena_ m) rs _ Ha Hpos) as (p & a1 & -> & Ha1). cbn [mbind outcome_bind].
  rewrite Hbuf, bind_assert by apply Z.eqb_refl.
  destruct (sorted_at (entry <$> sorted) (entry w)) as (n & Hn & Hlt & Hge); [by eapply mem_sorted_keys|].
  pose proof Hs as [Hrepr Hfit]. rewrite <- (take_drop n (entry <$> sorted)) in Hrepr.
  destruct (Insert_ok entry_valid entry_order (KeyComparator icmp) KeyComparator_valid base Hbase
    (table_ m) _ _ (entry w) a1 ((p, lengthZ (entry w)) :: rs) Hrepr) as (t' & a' & r & -> & Ht & Ha'); [by apply entry_fits|exact Hlt| |exact Ha1|].
  { intros k Hk. specialize (Hge k Hk). rewrite <- fmap_drop in Hk. apply list_elem_of_fmap in Hk as (w' & -> & Hin).
    assert (Hin' : w' ∈ sorted) by (rewrite <- (take_drop n sorted); apply elem_of_app; by right).
    pose proof (proj1 (Forall_forall _ _) Hfit w' Hin') as Hw'.
    pose proof (proj1 (Forall_forall _ _) Hap w' ltac:(by rewrite <- Hperm)) as Hne. unfold w_apart in Hne.
    rewrite <- entry_order_writes in Hne by done.
    pose proof (cmp_opp (cmp := entry_order) (entry w') (entry w)). lia. }
  cbn [mbind outcome_bind]. eexists. split; [done|]. split; [|done].
  exists (take n sorted ++ w :: drop n sorted), (r :: (p, lengthZ (entry w)) :: rs).
  split_and!; [| |exact Ha'].
  - split.
    + cbn [table_]. rewrite fmap_app, fmap_cons, fmap_take, fmap_drop. exact Ht.
    + rewrite <- (take_drop n sorted) in Hfit. apply Forall_app in Hfit as [? ?].
      apply Forall_app. split; [done|]. by constructor.
  - rewrite <- Permutation_middle, take_drop. by constructor.
Qed.

(** ** Lookup *)

(** The write of a key a snapshot sees. *)
Definition newest (ws : list write) (u : bytes) (s : Z) (w : write) : Prop :=
  w ∈ ws /\ uorder (w_key w) u = 0 /\ w_seq w <= s /\
  forall w', w' ∈ ws -> uorder (w_key w') u = 0 -> w_seq w' <= s -> w_seq w' <= w_seq w.

Definition result_of w : lookup_result :=
  match w_type w with kTypeValue => Value_of (w_value w) | kTypeDeletion => Not_found end.

Lemma iorder_user a b : iorder a b <= 0 -> uorder (user_part a) (user_part b) <= 0.
Proof. unfold internal_order. destruct (Z.eqb_spec (uorder (user_part a) (user_part b)) 0); lia. Qed.

Lemma iorder_same a b :
  uorder (user_part a) (user_part b) = 0 -> (iorder a b < 0 <-> tag_part b < tag_part a) /\ (iorder a b <= 0 <-> tag_part b <= tag_part a).
Proof.
  intros E. unfold internal_order. rewrite E. cbn.
  destruct (Z.ltb_spec (tag_part b) (tag_part a)), (Z.ltb_spec (tag_part a) (tag_part b)); lia.
Qed.

(** Comparing a write with what a lookup seeks. *)
Lemma write_before_target w u s :
  write_fits w -> sequence_ok s -> uorder (w_key w) u = 0 ->
  iorder (w_internal w) (internal_key u s kValueTypeForSeek) < 0 <-> s < w_seq w.
Proof.
  intros (Hs & _) Hsok E. unfold w_internal. rewrite (proj1 (iorder_same _ _ ltac:(by rewrite !user_part_key))).
  rewrite !tag_part_key by done. unfold pack_tag. pose proof (value_type_range (w_type w)).
  change (value_type kValueTypeForSeek) with 1. lia.
Qed.

Lemma newer_write w w' :
  write_fits w -> write_fits w' -> uorder (w_key w) (w_key w') = 0 ->
  iorder (w_internal w) (w_internal w') <= 0 -> w_seq w' <= w_seq w.
Proof.
  intros (Hs & _) (Hs' & _) E. unfold w_internal. rewrite (proj2 (iorder_same _ _ ltac:(by rewrite !user_part_key))).
  rewrite !tag_part_key by done. unfold pack_tag. pose proof (value_type_range (w_type w)).
  pose proof (value_type_range (w_type w')). lia.
Qed.

(** What is done with the entry the search ends at. *)
Lemma Get_entry m it w u s key :
  sequence_ok s -> key_valid (c := c) u -> write_fits w ->
  lookup_user_key key = u ->
  Iterator_Seek (KeyComparator icmp) (table_ m) (memtable_key key) = Ok it -> is_Some it ->
  Iterator_key (table_ m) it = Ok (entry w) ->
  MemTable_Get icmp m key = Ok (if uorder (w_key w) u =? 0 then result_of w else Missing).
Proof.
  intros Hs Hu Hw Hk Hseek Hit Hkey. pose proof Hw as (Hws & Hwk & Hlk & Hlv).
  pose proof (lengthZ_nonneg (w_key w)).
  unfold MemTable_Get. rewrite Hseek. cbn [mbind outcome_bind].
  rewrite bool_decide_eq_true_2, Hkey by done. cbn [mbind outcome_bind]. rewrite Hk.
  unfold entry at 1, PutLengthPrefixedSlice at 1, PutVarint32. cbn [app]. rewrite <- app_assoc.
  assert (Hil : lengthZ (w_internal w) = lengthZ (w_key w) + 8) by apply lengthZ_internal_key.
  rewrite u32_small, varint32_at_Put by lia. cbn [mbind outcome_bind].
  rewrite Hil, Z.add_simpl_r, u32_small by lia.
  set (rest := PutLengthPrefixedSlice [] (w_value w)).
  rewrite bind_require by (apply Z.leb_le; rewrite lengthZ_app; pose proof (lengthZ_nonneg rest); lia).
  rewrite dropZ_app_exact by lia.
  unfold w_internal, internal_key. rewrite <- app_assoc, takeZ_app_exact, dropZ_app_exact by done.
  cbn [user_comparator]. rewrite Compare_valid by done. cbn [mbind outcome_bind].
  destruct (uorder (w_key w) u =? 0); [|done].
  rewrite <- (EncodeFixed64_le kLittleEndian), DecodeFixed64_Encode by by apply pack_tag_range.
  cbn [mbind outcome_bind]. rewrite land_255, (proj1 (pack_tag_inv _ _)), value_type_of_value.
  unfold result_of. destruct (w_type w); [done|].
  unfold rest. by rewrite (proj2 (entry_split w Hw)).
Qed.

(** No write of the key is visible. *)
Definition hidden (ws : list write) (u : bytes) (s : Z) : Prop :=
  forall w, w ∈ ws -> uorder (w_key w) u = 0 -> s < w_seq w.

(** What a lookup may answer. *)
Definition answers (ws : list write) (u : bytes) (s : Z) (r : lookup_result) : Prop :=
  (exists w, newest ws u s w /\ r = result_of w) \/ (r = Missing /\ hidden ws u s).

Lemma answers_perm ws ws' u s r : ws ≡ₚ ws' -> answers ws u s r -> answers ws' u s r.
Proof.
  intros Hp [(w & (Hin & Hk & Hs & Hmax) & ->)|[-> Hh]].
  - left. exists w. split; [|done]. split; [by rewrite <- Hp|]. split; [done|]. split; [done|]. intros w'. rewrite <- Hp. apply Hmax.
  - right. split; [done|]. intros w'. rewrite <- Hp. apply Hh.
Qed.

(** The entry of a write in a sorted sequence. *)
Definition w_kv w : bytes * bytes := (w_internal w, w_value w).

Notation target_key u s := (internal_key u s kValueTypeForSeek).

(** In writes in ascending order, the first that is not before what is sought
    is the one that is visible, if its key is the one asked for. *)
Lemma search_newest ws u s n :
  Forall write_fits ws -> ascending icmp (w_kv <$> ws) -> sequence_ok s -> key_valid (c := c) u ->
  first_from icmp (w_kv <$> ws) (target_key u s) n ->
  match ws !! n with
  | Some w => if uorder (w_key w) u =? 0 then newest ws u s w else hidden ws u s
  | None => hidden ws u s
  end.
Proof.
  intros Hf Ha Hs Hu (Hn & Hlt & Hge). cbn [key_order internal_laws] in *. rewrite Forall_forall in Hf.
  assert (Hat : forall i w, ws !! i = Some w -> (w_kv <$> ws) !! i = Some (w_kv w)) by (intros i w Hi; by rewrite list_lookup_fmap, Hi).
  assert (Hfront : forall i w, ws !! i = Some w -> (i < n)%nat -> uorder (w_key w) u = 0 -> s < w_seq w).
  { intros i w Hi Hin Eu. apply (write_before_target w u s); [by apply Hf; eapply list_elem_of_lookup_2|done|done|].
    apply (Hlt i (w_kv w)); [by apply Hat|done]. }
  destruct (ws !! n) as [w0|] eqn:E0.
  - pose proof (Hf w0 ltac:(by eapply list_elem_of_lookup_2)) as Hf0. specialize (Hge (w_kv w0) (Hat n w0 E0)). cbn [w_kv fst] in Hge.
    assert (Hback : forall i w, ws !! i = Some w -> (n <= i)%nat -> iorder (w_internal w0) (w_internal w) <= 0).
    { intros i w Hi Hni. destruct (decide (i = n)) as [->|]; [simplify_eq; by rewrite cmp_refl|].
      apply Z.lt_le_incl. apply (Ha n i (w_kv w0) (w_kv w)); [by apply Hat|by apply Hat|lia]. }
    destruct (Z.eqb_spec (uorder (w_key w0) u) 0) as [Eu|Eu].
    + split; [by eapply list_elem_of_lookup_2|]. split; [done|].
      split; [apply Z.nlt_ge; rewrite <- (write_before_target w0 u s) by done; lia|].
      intros w [i Hi]%list_elem_of_lookup Ew Hsw. destruct (decide (i < n)%nat) as [Hin|Hin].
      * specialize (Hfront i w Hi Hin Ew). lia.
      * apply newer_write; [done|by apply Hf; eapply list_elem_of_lookup_2| |by apply (Hback i w Hi); lia].
        pose proof (cmp_eq_r (cmp := uorder) (w_key w) u (w_key w0) Ew). lia.
    + intros w [i Hi]%list_elem_of_lookup Ew. destruct (decide (i < n)%nat) as [Hin|Hin]; [by eapply Hfront|exfalso].
      pose proof (iorder_user _ _ (Hback i w Hi ltac:(lia))) as Hle. unfold w_internal in Hle. rewrite !user_part_key in Hle.
      apply cmp_le_ge, iorder_user in Hge. unfold w_internal in Hge. rewrite !user_part_key in Hge. apply cmp_le_ge in Hge.
      pose proof (cmp_eq_r (cmp := uorder) (w_key w) u (w_key w0) Ew). lia.
  - intros w [i Hi]%list_elem_of_lookup Ew. apply (Hfront i w Hi); [|done]. apply lookup_lt_Some in Hi. apply lookup_ge_None in E0. lia.
Qed.

Lemma mem_sorted_ascending t ws : mem_sorted t ws -> ascending icmp (w_kv <$> ws).
Proof.
  intros Hsrt. pose proof (mem_sorted_keys _ _ Hsrt) as Hord. destruct Hsrt as [_ Hfit]. rewrite Forall_forall in Hfit.
  intros i j x y Hi Hj Hij. rewrite list_lookup_fmap in Hi, Hj. destruct (ws !! i) as [w|] eqn:Ei; [|done].
  destruct (ws !! j) as [w'|] eqn:Ej; [|done]. injection Hi as <-. injection Hj as <-. cbn [key_order internal_laws w_kv fst].
  rewrite <- entry_order_writes by (apply Hfit; by eapply list_elem_of_lookup_2).
  apply (StronglySorted_lookup (fun k l => entry_order k l < 0) (entry <$> ws) i j);
    [exact Hord|by rewrite list_lookup_fmap, Ei|by rewrite list_lookup_fmap, Ej|done].
Qed.

(** Seeking in the skip list. *)
Lemma seek_entry (t : SkipList bytes) ws k data :
  mem_sorted t ws -> internal_valid c k -> prefixed_slice_at data = Ok (k, []) ->
  exists n it, first_from icmp (w_kv <$> ws) k n /\ Iterator_Seek (KeyComparator icmp) t data = Ok it /\
    SkipListSpec.iter_at entry_valid entry_order t (entry <$> ws) it n.
Proof.
  intros Hsrt Hk Hd. pose proof Hsrt as [Hrepr Hfit]. rewrite Forall_forall in Hfit.
  destruct (first_from_exists icmp (w_kv <$> ws) k) as [n Hn]. exists n. pose proof Hn as (Hnl & Hlt & Hge). rewrite length_fmap in Hnl.
  assert (Hsp : splits entry_order data (take n (entry <$> ws)) (drop n (entry <$> ws))).
  { assert (Hek : entry_key data = k) by (unfold entry_key; by rewrite Hd).
    rewrite <- fmap_take, <- fmap_drop. split; intros l (w & -> & [i Hi]%list_elem_of_lookup)%list_elem_of_fmap; unfold entry_order.
    - apply lookup_take_Some in Hi as [Hi Hin]. rewrite (proj2 (entry_fits w ltac:(apply Hfit; by eapply list_elem_of_lookup_2))), Hek.
      apply (Hlt i (w_kv w)); [by rewrite list_lookup_fmap, Hi|done].
    - rewrite lookup_drop in Hi. rewrite (proj2 (entry_fits w ltac:(apply Hfit; by eapply list_elem_of_lookup_2))), Hek.
      destruct (lookup_lt_is_Some_2 ws n) as [w0 Hw0]; [apply lookup_lt_Some in Hi; lia|].
      specialize (Hge (w_kv w0) ltac:(by rewrite list_lookup_fmap, Hw0)). destruct i as [|i]; [rewrite Nat.add_0_r in Hi; by simplify_eq|].
      apply cmp_le_ge. eapply (cmp_trans (cmp := iorder)); [apply cmp_le_ge; exact Hge|]. apply Z.lt_le_incl.
      apply (mem_sorted_ascending t ws Hsrt n (n + S i)%nat (w_kv w0) (w_kv w)); [by rewrite list_lookup_fmap, Hw0|by rewrite list_lookup_fmap, Hi|lia]. }
  rewrite <- (take_drop n (entry <$> ws)) in Hrepr.
  destruct (Iterator_Seek_ok entry_valid entry_order (KeyComparator icmp) KeyComparator_valid t _ _ data Hrepr Hsp) as (it & Es & Hit).
  { exists k, []. done. }
  exists it. split; [done|]. split; [done|]. rewrite length_take, length_fmap, Nat.min_l, take_drop in Hit by done. done.
Qed.

Lemma MemTable_Get_ok m ws u s key :
  mem_repr m ws -> sequence_ok s -> key_valid (c := c) u -> lengthZ u + 8 < 2 ^ 32 ->
  LookupKey_new u s = Ok key ->
  exists r, MemTable_Get icmp m key = Ok r /\ answers ws u s r.
Proof.
  intros (sorted & rs & Hsrt & Hperm & Ha) Hs Hu Hlu Hkey.
  destruct (LookupKey_new_ok u s Hs Hlu) as (key' & E & Hmk & _ & Huk). assert (key' = key) as -> by congruence.
  destruct (seek_entry (table_ m) sorted (target_key u s) (memtable_key key) Hsrt) as (n & it & Hn & Hseek & Hit).
  { by apply internal_key_valid. }
  { rewrite Hmk, <- (app_nil_r (PutLengthPrefixedSlice _ _)). apply prefixed_slice_at_Put. rewrite lengthZ_internal_key. lia. }
  pose proof (search_newest sorted u s n (proj2 Hsrt) (mem_sorted_ascending _ _ Hsrt) Hs Hu Hn) as Hw.
  assert (Hans : forall r, answers sorted u s r -> answers ws u s r) by (intros r; by apply answers_perm).
  destruct (sorted !! n) as [w0|] eqn:E0.
  - assert (Hk0 : (entry <$> sorted) !! n = Some (entry w0)) by by rewrite list_lookup_fmap, E0.
    pose proof (Iterator_key_ok _ _ _ _ _ _ _ Hit Hk0) as Hkey0.
    assert (Hsome : is_Some it) by (eapply iter_at_valid; [done|by eapply lookup_lt_Some]).
    eexists. split; [eapply Get_entry; [done|done| |done|done|done|exact Hkey0]|].
    + eapply Forall_lookup_1; [exact (proj2 Hsrt)|done].
    + apply Hans. destruct (uorder (w_key w0) u =? 0); [left; eauto|by right].
  - exists Missing. split; [|apply Hans; by right]. unfold MemTable_Get. rewrite Hseek. cbn [mbind outcome_bind].
    rewrite bool_decide_eq_false_2; [done|]. rewrite (iter_at_valid _ _ _ _ _ _ Hit), length_fmap. by apply lookup_ge_None in E0; lia.
Qed.

(** ** The iterator *)

Inductive mem_iter_at : MemTableIterator -> list (bytes * bytes) -> nat -> Prop :=
  | at_mem m sorted it n : mem_sorted (table_ m) sorted -> (n <= length sorted)%nat ->
      (if decide (n < length sorted)%nat then SkipListSpec.iter_at entry_valid entry_order (table_ m) (entry <$> sorted) it n else it = None) ->
      mem_iter_at (mkMemIterator m it) (w_kv <$> sorted) n.

Lemma mem_iter_moves m sorted it n : mem_sorted (table_ m) sorted ->
  SkipListSpec.iter_at entry_valid entry_order (table_ m) (entry <$> sorted) it n ->
  mem_iter_at (mkMemIterator m it) (w_kv <$> sorted) n.
Proof.
  intros Hm Hit. pose proof (iter_at_valid _ _ _ _ _ _ Hit) as Hv. pose proof Hit as (ids & Hok & Eit & Hn). rewrite length_fmap in *.
  constructor; [done|done|]. destruct (decide _) as [|Hge]; [done|]. destruct it; [|done]. exfalso. apply Hge, Hv. by eexists.
Qed.

(** An entry of the table, and what the iterator reads of it. *)
Lemma mem_iter_entry m sorted it n w :
  mem_sorted (table_ m) sorted -> SkipListSpec.iter_at entry_valid entry_order (table_ m) (entry <$> sorted) it n ->
  sorted !! n = Some w -> mi_key m it = Ok (w_internal w) /\ mi_value m it = Ok (w_value w).
Proof.
  intros Hm Hit Hw. pose proof (Forall_lookup_1 _ _ _ _ (proj2 Hm) Hw) as Hf. destruct (entry_split w Hf) as [E1 E2].
  assert (Ek : Iterator_key (table_ m) it = Ok (entry w)).
  { eapply (Iterator_key_ok entry_valid entry_order); [exact Hit|]. by rewrite list_lookup_fmap, Hw. }
  unfold mi_key, mi_value. rewrite Ek. cbn [mbind outcome_bind]. rewrite E1. cbn [mbind outcome_bind]. by rewrite E2.
Qed.

#[export, refine] Instance memtable_Iterator_laws : IteratorLaws icmp (ops := memtable_Iterator icmp) MemTableIterator :=
  { iter_at := mem_iter_at; seekable k := internal_valid c k /\ lengthZ k < 2 ^ 32 }.
Proof.
  - intros i es n [m sorted it k Hm Hn _]. by rewrite length_fmap.
  - intros i es n [m sorted it k Hm Hn Hit]. cbn. unfold mi_Valid. apply bool_decide_ext. cbn.
    rewrite list_lookup_fmap, fmap_is_Some, lookup_lt_is_Some. destruct (decide (k < length sorted)%nat) as [Hk|Hk].
    + pose proof (iter_at_valid _ _ _ _ _ _ Hit) as Hv. rewrite length_fmap in Hv. tauto.
    + subst. split; [by intros []|done].
  - done.
  - intros i es n k v [m sorted it j Hm Hn Hit]. rewrite list_lookup_fmap. destruct (sorted !! j) as [w|] eqn:Ew; [|done].
    intros [= <- <-]. rewrite decide_True in Hit by by eapply lookup_lt_Some. by eapply mem_iter_entry.
  - intros i es n k v [m sorted it j Hm Hn Hit]. rewrite list_lookup_fmap. destruct (sorted !! j) as [w|] eqn:Ew; [|done].
    intros [= <- <-]. rewrite decide_True in Hit by by eapply lookup_lt_Some. by eapply mem_iter_entry.
  - intros i es n [m sorted it j Hm Hn Hit]. cbn. unfold mi_move, mi_SeekToFirst. cbn [mi_mem].
    destruct (Iterator_SeekToFirst_ok entry_valid entry_order _ _ (proj1 Hm)) as (it' & -> & Hit'). cbn [mbind outcome_bind].
    eexists. split; [done|]. by apply mem_iter_moves.
  - intros i es n [m sorted it j Hm Hn Hit]. cbn. unfold mi_move, mi_SeekToLast. cbn [mi_mem]. rewrite length_fmap.
    destruct (Iterator_SeekToLast_ok entry_valid entry_order _ _ (proj1 Hm)) as (it' & -> & Hit'). cbn [mbind outcome_bind].
    rewrite length_fmap in Hit'. eexists. split; [done|]. destruct (length sorted) as [|l] eqn:El.
    + subst it'. constructor; [done|lia|]. by rewrite decide_False by lia.
    + cbn [Nat.sub]. rewrite Nat.sub_0_r. by apply mem_iter_moves.
  - intros i es n k l [m sorted it j Hm Hn Hit] [Hk Hkl] Hl. cbn. unfold mi_move, mi_Seek. cbn [mi_mem]. pose proof (lengthZ_nonneg k).
    destruct (seek_entry (table_ m) sorted k (EncodeKey k) Hm Hk) as (l' & it' & Hl' & -> & Hit').
    { rewrite <- (app_nil_r (EncodeKey k)). unfold EncodeKey. apply (prefixed_slice_at_Put k []). lia. }
    cbn [mbind outcome_bind]. eexists. split; [done|].
    rewrite (first_from_unique icmp _ _ _ _ Hl Hl'). by apply mem_iter_moves.
  - intros i es n [m sorted it j Hm Hn Hit] Hj. rewrite length_fmap in Hj. rewrite decide_True in Hit by done.
    cbn. unfold mi_move, mi_Next. cbn [mi_mem mi_node].
    destruct (Iterator_Next_ok entry_valid entry_order _ _ _ _ Hit) as (it' & -> & Hit'); [by rewrite length_fmap|].
    cbn [mbind outcome_bind]. eexists. split; [done|]. by apply mem_iter_moves.
  - intros i es n [m sorted it j Hm Hn Hit] Hj. rewrite length_fmap in *. rewrite decide_True in Hit by done.
    cbn. unfold mi_move, mi_Prev. cbn [mi_mem mi_node].
    destruct (Iterator_Prev_ok entry_valid entry_order (KeyComparator icmp) KeyComparator_valid _ _ _ _ Hit) as (it' & -> & Hit'); [by rewrite length_fmap|].
    cbn [mbind outcome_bind]. eexists. split; [done|]. destruct j as [|l].
    + subst it'. constructor; [done|lia|]. by rewrite decide_False by lia.
    + by apply mem_iter_moves.
Defined.

(** A new iterator over the writes, in ascending order. *)
Lemma MemTable_NewIterator_at m ws : mem_repr m ws ->
  exists sorted, Iterator.iter_at icmp (ops := memtable_Iterator icmp) (MemTable_NewIterator m) (w_kv <$> sorted) (length sorted) /\ sorted ≡ₚ ws /\
    ascending icmp (w_kv <$> sorted) /\ Forall write_fits sorted.
Proof.
  intros (sorted & rs & Hs & Hp & _). exists sorted. split; [|split; [done|split; [by eapply mem_sorted_ascending|apply Hs]]].
  constructor; [done|done|]. by rewrite decide_False by lia.
Qed.

(** ** Histories

    The updates of a history have consecutive sequence numbers. *)

Definition write_of (s : Z) (x : update) : write :=
  match x with
  | UPut key value => mkWrite s kTypeValue key value
  | UDelete key => mkWrite s kTypeDeletion key []
  end.

Fixpoint writes_of (s : Z) (us : list update) : list write :=
  match us with [] => [] | x :: us' => write_of s x :: writes_of (s + 1) us' end.

Definition update_key (x : update) : bytes := match x with UPut key _ => key | UDelete key => key end.

Definition update_valid (x : update) : Prop :=
  key_valid (c := c) (update_key x) /\ lengthZ (update_key x) + 8 < 2 ^ 32 /\
  match x with UPut _ value => lengthZ value < 2 ^ 32 | UDelete _ => True end.

Lemma writes_of_app s us vs : writes_of s (us ++ vs) = writes_of s us ++ writes_of (s + lengthZ us) vs.
Proof.
  revert s. induction us as [|x us IH]; intros s; cbn [writes_of app lengthZ]; [by rewrite Z.add_0_r|].
  rewrite IH. do 2 f_equal. f_equal. lia.
Qed.

Lemma writes_of_seq s us w : w ∈ writes_of s us -> s <= w_seq w < s + lengthZ us.
Proof.
  revert s. induction us as [|x us IH]; intros s; cbn [writes_of lengthZ]; [by intros ?%elem_of_nil|].
  pose proof (lengthZ_nonneg us). intros [->|Hw]%elem_of_cons; [destruct x; cbn; lia|].
  specialize (IH _ Hw). lia.
Qed.

Lemma write_of_fits s x : sequence_ok s -> update_valid x -> write_fits (write_of s x).
Proof. intros Hs (Hk & Hl & Hv). destruct x; split_and!; done. Qed.

Lemma w_apart_seq w w' : write_fits w -> write_fits w' -> w_seq w <> w_seq w' -> w_apart w w'.
Proof.
  intros (Hs & _) (Hs' & _) Hne. unfold w_apart, internal_order, w_internal.
  rewrite !user_part_key, !tag_part_key by done. case_match; [|lia].
  unfold pack_tag. pose proof (value_type_range (w_type w)). pose proof (value_type_range (w_type w')).
  repeat match goal with |- context [?m <? ?n] => destruct (Z.ltb_spec m n) end; lia.
Qed.

Lemma mem_repr_perm m ws ws' : ws ≡ₚ ws' -> mem_repr m ws -> mem_repr m ws'.
Proof. intros Hp (sorted & rs & ? & Hs & ?). exists sorted, rs. split_and!; try done. by rewrite Hs. Qed.

Lemma mem_repr_fits m ws : mem_repr m ws -> Forall write_fits ws.
Proof. intros (sorted & rs & [_ Hf] & Hs & _). by rewrite <- Hs. Qed.

(** The inserter adds the updates with the sequence numbers that follow. *)
Lemma inserter_foldl us m ws s :
  mem_repr m ws -> Forall (fun w => w_seq w < s) ws -> 0 <= s -> s + lengthZ us <= 2 ^ 56 ->
  Forall update_valid us ->
  exists m', foldl (handle (H0 := inserter_handler icmp base)) (Ok (mkInserter s m)) us =
      Ok (mkInserter (s + lengthZ us) m') /\ mem_repr m' (ws ++ writes_of s us) /\ refs_ m' = refs_ m.
Proof.
  revert m ws s. induction us as [|x us IH]; intros m ws s Hm Hlt Hs Hmax Hval.
  - exists m. cbn. by rewrite Z.add_0_r, app_nil_r.
  - apply Forall_cons in Hval as [Hx Hval]. cbn [lengthZ] in *. pose proof (lengthZ_nonneg us).
    assert (Hw : write_fits (write_of s x)) by (apply write_of_fits; [split; lia|done]).
    assert (Hap : Forall (w_apart (write_of s x)) ws).
    { pose proof (mem_repr_fits _ _ Hm) as Hf. rewrite Forall_forall in Hlt, Hf |- *. intros w Hin.
      apply w_apart_seq; [done|by apply Hf|]. specialize (Hlt w Hin). destruct x; cbn; lia. }
    destruct (MemTable_Add_ok m ws (write_of s x) Hm Hw Hap) as (m1 & E & Hm1 & Hr1).
    destruct (IH m1 (ws ++ [write_of s x]) (s + 1)) as (m' & E' & Hm' & Hr'); [| |lia|lia|done|].
    + eapply mem_repr_perm; [|done]. by rewrite (Permutation_app_comm ws).
    + apply Forall_app. split; [eapply Forall_impl; [exact Hlt|]; intros w ?; cbn in *; lia|].
      constructor; [destruct x; cbn; lia|done].
    + exists m'. cbn [writes_of]. rewrite <- (app_assoc ws [_]) in Hm'. split; [|split; [exact Hm'|congruence]].
      replace (s + (1 + lengthZ us)) with (s + 1 + lengthZ us) by lia. rewrite <- E'. cbn [foldl]. f_equal. unfold handle.
      destruct x; cbn [handler_Put handler_Delete inserter_handler inserter_add mbind outcome_bind mem_ sequence_];
        cbn [write_of w_seq w_type w_key w_value] in E; rewrite E; cbn [mbind outcome_bind];
        by rewrite u64_small by lia.
Qed.

Lemma update_valid_fits x : update_valid x -> update_fits x.
Proof. intros (_ & Hk & Hv). destruct x; cbn in *; lia. Qed.

(** A batch that follows what the table holds. *)
Lemma InsertInto_ok us m ws s :
  mem_repr m ws -> Forall (fun w => w_seq w < s) ws -> 0 <= s -> s + lengthZ us <= 2 ^ 56 ->
  lengthZ us < 2 ^ 31 -> Forall update_valid us ->
  exists m', InsertInto icmp base (mkWriteBatch (batch_bytes s us)) m = Ok (None, m') /\
    mem_repr m' (ws ++ writes_of s us) /\ refs_ m' = refs_ m.
Proof.
  intros Hm Hlt Hs Hmax Hn Hval. pose proof (lengthZ_nonneg us).
  unfold InsertInto.
  replace (Sequence kLittleEndian (mkWriteBatch (batch_bytes s us))) with (Ok s)
    by (symmetry; apply Sequence_batch; lia).
  cbn [mbind outcome_bind].
  rewrite Iterate_batch; [|eapply Forall_impl; [exact Hval|apply update_valid_fits]|done].
  destruct (inserter_foldl us m ws s) as (m' & -> & Hm' & Hr); try done. cbn [mbind outcome_bind]. eauto.
Qed.

(** The contents after a history, with the deleted keys. *)
Definition apply_one (d : gmap bytes (option bytes)) (x : update) : gmap bytes (option bytes) :=
  match x with UPut key value => <[key := Some value]> d | UDelete key => <[key := None]> d end.

Definition contents_of (us : list update) : gmap bytes (option bytes) := foldl apply_one ∅ us.

Definition result_in (d : gmap bytes (option bytes)) (u : bytes) : lookup_result :=
  match d !! u with Some (Some v) => Value_of v | Some None => Not_found | None => Missing end.

Context (order_eq : forall a b, key_valid (c := c) a -> key_valid (c := c) b -> uorder a b = 0 -> a = b).

Lemma newest_history s0 us u s :
  key_valid (c := c) u -> Forall update_valid us ->
  (exists w, newest (writes_of s0 us) u s w /\ result_of w = result_in (contents_of (takeZ (s + 1 - s0) us)) u) \/
  ((forall w, w ∈ writes_of s0 us -> uorder (w_key w) u = 0 -> s < w_seq w) /\
   result_in (contents_of (takeZ (s + 1 - s0) us)) u = Missing).
Proof.
  intros Hu. induction us as [|x us IH] using rev_ind; intros Hval.
  { right. split; [by intros w ?%elem_of_nil|]. unfold result_in, contents_of. cbn. by rewrite lookup_empty. }
  apply Forall_app in Hval as [Hval Hx]. specialize (IH Hval). apply Forall_cons in Hx as [(Hxk & _) _].
  rewrite writes_of_app. cbn [writes_of]. set (n := s0 + lengthZ us).
  pose proof (lengthZ_nonneg us).
  assert (Hin : forall w, w ∈ writes_of s0 us ++ [write_of n x] -> w ∈ writes_of s0 us \/ w = write_of n x).
  { intros w. rewrite elem_of_app, elem_of_cons, elem_of_nil. tauto. }
  assert (Hwn : w_seq (write_of n x) = n) by by destruct x.
  assert (Hwk : w_key (write_of n x) = update_key x) by by destruct x.
  destruct (Z.lt_ge_cases s n) as [Hold|Hnew].
  - (* the snapshot does not see the last update *)
    rewrite takeZ_app_le by lia. destruct IH as [(w & (Hw & Hk & Hs & Hmax) & Hr)|[Hnone Hr]]; [left|right].
    + exists w. split; [|done]. split; [apply elem_of_app; by left|]. split; [done|]. split; [done|].
      intros w' [Hw'| ->]%Hin Hk' Hs'; [by apply Hmax|lia].
    + split; [|done]. intros w' [Hw'| ->]%Hin Hk'; [by apply Hnone|lia].
  - rewrite (takeZ_ge (s + 1 - s0) (us ++ _)) by (rewrite lengthZ_app; cbn; lia).
    rewrite takeZ_ge in IH by lia. unfold contents_of in *. rewrite foldl_app. cbn [foldl].
    destruct (Z.eq_dec (uorder (update_key x) u) 0) as [Ek|Ek].
    + left. exists (write_of n x). split.
      * split; [apply elem_of_app; right; by left|]. rewrite Hwn, Hwk. split; [done|]. split; [done|].
        intros w' [Hw'| ->]%Hin Hk' Hs'; [apply writes_of_seq in Hw'; lia|lia].
      * apply order_eq in Ek as <-; [|done|done]. unfold result_in, result_of.
        destruct x; cbn; by rewrite lookup_insert_eq.
    + assert (Hsame : result_in (apply_one (foldl apply_one ∅ us) x) u = result_in (foldl apply_one ∅ us) u).
      { assert (update_key x <> u) by (intros <-; by rewrite cmp_refl in Ek).
        unfold result_in. destruct x; cbn in *; by rewrite lookup_insert_ne. }
      rewrite Hsame. destruct IH as [(w & (Hw & Hk & Hs & Hmax) & Hr)|[Hnone Hr]]; [left|right].
      * exists w. split; [|done]. split; [apply elem_of_app; by left|]. split; [done|]. split; [done|].
        intros w' [Hw'| ->]%Hin Hk' Hs'; [by apply Hmax|]. congruence.
      * split; [|done]. intros w' [Hw'| ->]%Hin Hk'; [by apply Hnone|]. congruence.
Qed.

Lemma writes_of_unique s us w w' :
  w ∈ writes_of s us -> w' ∈ writes_of s us -> w_seq w = w_seq w' -> w = w'.
Proof.
  revert s. induction us as [|x us IH]; intros s; cbn [writes_of]; [by intros ?%elem_of_nil|].
  assert (Hx : w_seq (write_of s x) = s) by by destruct x.
  intros [->|Hw]%elem_of_cons [->|Hw']%elem_of_cons; [done|..|by eapply IH].
  - apply writes_of_seq in Hw'. lia.
  - apply writes_of_seq in Hw. lia.
Qed.

(** What a lookup may answer about a history is what the map after the part of
    it the snapshot sees answers. *)
Lemma answers_history s0 us u s r :
  key_valid (c := c) u -> Forall update_valid us -> answers (writes_of s0 us) u s r ->
  r = result_in (contents_of (takeZ (s + 1 - s0) us)) u.
Proof.
  intros Hu Hval Hr. destruct (newest_history s0 us u s Hu Hval) as [(w & Hw & <-)|[Hnone ->]],
    Hr as [(w' & Hw' & ->)|[-> Hnone']]; [|exfalso..|done].
  - destruct Hw as (Hin & Hk & Hseq & Hmax), Hw' as (Hin' & Hk' & Hseq' & Hmax').
    rewrite (writes_of_unique _ _ w' w Hin' Hin); [done|].
    specialize (Hmax _ Hin' Hk' Hseq'). specialize (Hmax' _ Hin Hk Hseq). lia.
  - destruct Hw as (Hin & Hk & Hseq & _). specialize (Hnone' _ Hin Hk). lia.
  - destruct Hw' as (Hin & Hk & Hseq & _). specialize (Hnone _ Hin Hk). lia.
Qed.

Lemma MemTable_Get_history m s0 us u s key :
  mem_repr m (writes_of s0 us) -> sequence_ok s -> key_valid (c := c) u -> lengthZ u + 8 < 2 ^ 32 ->
  Forall update_valid us -> LookupKey_new u s = Ok key ->
  MemTable_Get icmp m key = Ok (result_in (contents_of (takeZ (s + 1 - s0) us)) u).
Proof.
  intros Hm Hs Hu Hl Hval Hkey. destruct (MemTable_Get_ok m _ u s key Hm Hs Hu Hl Hkey) as (r & -> & Hr).
  by rewrite (answers_history s0 us u s r).
Qed.
End spec.
