(* ===== verification/Block.v ===== *)
(** * LevelDB: blocks (lib/leveldb/table/block_builder.cc, block.cc)

    Entries with prefix-compressed keys, then the offsets of the restart points
    and their number.  Pointers into a block are offsets; [takeZ] and [dropZ]
    stand for the ranges between two of them. *)

From S2P Require Import Prelude.
From S2P Require Import Bytes.
From S2P Require Import Coding.
From S2P Require Import Comparator.
From S2P Require Import DbFormat.
From stdpp Require Import base tactics numbers list strings.
From Stdlib Require Import Ascii ZArith Lia.

Open Scope Z_scope.

(** ** BlockBuilder *)

Record BlockBuilder : Type := mkBlockBuilder
  { buffer_ : bytes; restarts_ : list Z; counter_ : Z; finished_ : bool; last_key_ : bytes }.

Definition BlockBuilder_Reset : BlockBuilder := mkBlockBuilder [] [0] 0 false [].

Definition BlockBuilder_new (block_restart_interval : Z) : outcome BlockBuilder :=
  _ ← assert_ (1 <=? block_restart_interval); Ok BlockBuilder_Reset.

Definition CurrentSizeEstimate (b : BlockBuilder) : Z :=
  lengthZ (buffer_ b) + u64 (lengthZ (restarts_ b) * 4) + 4.

Definition BlockBuilder_empty (b : BlockBuilder) : bool := lengthZ (buffer_ b) =? 0.

Section BlockBuilder.
Context {platform : Platform} {C : Type} `{Comparator C} (comparator : C).
Context (block_restart_interval : Z).

Definition BlockBuilder_Finish (b : BlockBuilder) : BlockBuilder :=
  let buffer := foldl (PutFixed32 kLittleEndian) (buffer_ b) (restarts_ b) in
  mkBlockBuilder (PutFixed32 kLittleEndian buffer (u32 (lengthZ (restarts_ b)))) (restarts_ b)
    (counter_ b) true (last_key_ b).

(** With assertions on, as everywhere: the keys are compared. *)
Definition BlockBuilder_Add (b : BlockBuilder) (key value : bytes) : outcome BlockBuilder :=
  let last_key_piece := last_key_ b in
  _ ← assert_ (negb (finished_ b));
  _ ← assert_ (counter_ b <=? block_restart_interval);
  _ ← (if BlockBuilder_empty b then Ok ()
       else r ← Compare comparator key last_key_piece; assert_ (0 <? r));
  let '(shared, restarts, counter) :=
    if counter_ b <? block_restart_interval
    then (shared_prefix last_key_piece key, restarts_ b, counter_ b)
    else (0, restarts_ b ++ [u32 (lengthZ (buffer_ b))], 0) in
  let non_shared := lengthZ key - shared in
  let buffer := PutVarint32 (PutVarint32 (PutVarint32 (buffer_ b) (u32 shared)) (u32 non_shared))
                  (u32 (lengthZ value)) in
  let delta := takeZ non_shared (dropZ shared key) in
  let last_key := takeZ shared (last_key_ b) ++ delta in
  _ ← assert_ (bool_decide (last_key = key));
  Ok (mkBlockBuilder (buffer ++ delta ++ value) restarts (counter + 1) false last_key).
End BlockBuilder.

(** ** Block *)

Record Block : Type := mkBlock { data_ : bytes; size_ : Z; restart_offset_ : Z }.

(** [p]: the bytes up to the limit.  The lengths of the shared and of the other
    part of the key and of the value, and what follows them. *)
Definition DecodeEntry (p : bytes) : option (Z * Z * Z * bytes) :=
  match p with
  | b0 :: b1 :: b2 :: p' =>
      '(shared, non_shared, value_length, q) ←
        (if Z.lor (Z.lor (u8 b0) (u8 b1)) (u8 b2) <? 128 then Some (u8 b0, u8 b1, u8 b2, p')
         else
           '(shared, p1) ← GetVarint32Ptr p;
           '(non_shared, p2) ← GetVarint32Ptr p1;
           '(value_length, p3) ← GetVarint32Ptr p2;
           Some (shared, non_shared, value_length, p3));
      if u32 (lengthZ q) <? u32 (non_shared + value_length) then None
      else Some (shared, non_shared, value_length, q)
  | _ => None
  end.

(** [value_]: offset and length of the value; [None] when it was cleared. *)
Record Iter : Type := mkIter
  { current_ : Z; restart_index_ : Z; key_ : bytes; value_ : option (Z * Z); status_ : Status }.

Section Block.
Context {platform : Platform} {C : Type} `{Comparator C} (comparator_ : C).

Definition NumRestarts (data : bytes) (size : Z) : outcome Z :=
  _ ← assert_ (4 <=? size); DecodeFixed32 kLittleEndian (dropZ (size - 4) data).

Definition Block_new (contents : bytes) : outcome Block :=
  let size := lengthZ contents in
  if size <? 4 then Ok (mkBlock contents 0 0)
  else
    let max_restarts_allowed := (size - 4) / 4 in
    n ← NumRestarts contents size;
    if max_restarts_allowed <? n then Ok (mkBlock contents 0 0)
    else Ok (mkBlock contents size (u32 (size - (1 + n) * 4))).

(** *** Block::Iter *)

Section Iter.
Context (data : bytes) (restarts num_restarts : Z).
Implicit Types it : Iter.

Definition NextEntryOffset it : outcome Z := '(off, len) ← in_bounds (value_ it); Ok (u32 (off + len)).

Definition GetRestartPoint (index : Z) : outcome Z :=
  _ ← assert_ (index <? num_restarts); DecodeFixed32 kLittleEndian (dropZ (restarts + index * 4) data).

Definition SeekToRestartPoint (index : Z) it : outcome Iter :=
  offset ← GetRestartPoint index;
  Ok (mkIter (current_ it) index [] (Some (offset, 0)) (status_ it)).

Definition Iter_new : outcome Iter :=
  _ ← assert_ (0 <? num_restarts); Ok (mkIter restarts num_restarts [] None Status_ok).

Definition Valid it : bool := current_ it <? restarts.

Definition iter_key it : outcome bytes := _ ← assert_ (Valid it); Ok (key_ it).
Definition iter_value it : outcome bytes :=
  _ ← assert_ (Valid it);
  '(off, len) ← in_bounds (value_ it);
  _ ← require (off + len <=? lengthZ data);
  Ok (takeZ len (dropZ off data)).

Definition at_end it : Iter := mkIter restarts num_restarts (key_ it) (value_ it) (status_ it).
Definition CorruptionError it : Iter :=
  mkIter restarts num_restarts [] None (Corruption (str "bad entry in block")).

Fixpoint restart_loop (fuel : nat) (restart_index current : Z) : outcome Z :=
  match fuel with
  | O => NoFuel
  | S fuel' =>
      if u32 (restart_index + 1) <? num_restarts then
        offset ← GetRestartPoint (u32 (restart_index + 1));
        if offset <? current then restart_loop fuel' (u32 (restart_index + 1)) current else Ok restart_index
      else Ok restart_index
  end.

Definition restart_fuel : nat := S (Z.to_nat num_restarts).

Definition ParseNextKey it : outcome (bool * Iter) :=
  current ← NextEntryOffset it;
  if restarts <=? current then Ok (false, at_end it)
  else
    let p := takeZ (restarts - current) (dropZ current data) in
    match DecodeEntry p with
    | None => Ok (false, CorruptionError it)
    | Some (shared, non_shared, value_length, q) =>
        if lengthZ (key_ it) <? shared then Ok (false, CorruptionError it)
        else
          let off := restarts - lengthZ q in
          _ ← require (off + non_shared <=? lengthZ data);
          let key := takeZ shared (key_ it) ++ takeZ non_shared (dropZ off data) in
          index ← restart_loop restart_fuel (restart_index_ it) current;
          Ok (true, mkIter current index key (Some (off + non_shared, value_length)) (status_ it))
    end.

Definition Iter_Next it : outcome Iter :=
  _ ← assert_ (Valid it); '(_, it) ← ParseNextKey it; Ok it.

(** The restart point before [original]; [None] when there is none. *)
Fixpoint restart_before (fuel : nat) (restart_index original : Z) : outcome (option Z) :=
  match fuel with
  | O => NoFuel
  | S fuel' =>
      offset ← GetRestartPoint restart_index;
      if original <=? offset then
        if restart_index =? 0 then Ok None else restart_before fuel' (restart_index - 1) original
      else Ok (Some restart_index)
  end.

(** [while (ParseNextKey() && NextEntryOffset() < limit)], from [SeekToLast]
    and [Prev]. *)
Fixpoint parse_while (fuel : nat) (limit : Z) it : outcome Iter :=
  match fuel with
  | O => NoFuel
  | S fuel' =>
      '(more, it) ← ParseNextKey it;
      if (more : bool) then
        next ← NextEntryOffset it;
        if next <? limit then parse_while fuel' limit it else Ok it
      else Ok it
  end.

(** An entry has at least three bytes. *)
Definition entry_fuel : nat := S (length data).

Definition Iter_Prev it : outcome Iter :=
  _ ← assert_ (Valid it);
  let original := current_ it in
  r ← restart_before restart_fuel (restart_index_ it) original;
  match r with
  | None => Ok (at_end it)
  | Some index => it ← SeekToRestartPoint index it; parse_while entry_fuel original it
  end.

(** [None]: an entry at a restart point is corrupt. *)
Fixpoint binary_search (fuel : nat) (target : bytes) (left right : Z) : outcome (option Z) :=
  match fuel with
  | O => NoFuel
  | S fuel' =>
      if left <? right then
        let mid := u32 (left + right + 1) / 2 in
        region_offset ← GetRestartPoint mid;
        match DecodeEntry (takeZ (restarts - region_offset) (dropZ region_offset data)) with
        | Some (shared, non_shared, _, q) =>
            if negb (shared =? 0) then Ok None
            else
              let off := restarts - lengthZ q in
              _ ← require (off + non_shared <=? lengthZ data);
              r ← Compare comparator_ (takeZ non_shared (dropZ off data)) target;
              if r <? 0 then binary_search fuel' target mid right
              else binary_search fuel' target left (mid - 1)
        | None => Ok None
        end
      else Ok (Some left)
  end.

Fixpoint linear_search (fuel : nat) (target : bytes) it : outcome Iter :=
  match fuel with
  | O => NoFuel
  | S fuel' =>
      '(more, it) ← ParseNextKey it;
      if negb (more : bool) then Ok it
      else
        r ← Compare comparator_ (key_ it) target;
        if 0 <=? r then Ok it else linear_search fuel' target it
  end.

Definition Iter_Seek (target : bytes) it : outcome Iter :=
  r ← binary_search restart_fuel target 0 (num_restarts - 1);
  match r with
  | None => Ok (CorruptionError it)
  | Some index => it ← SeekToRestartPoint index it; linear_search entry_fuel target it
  end.

Definition Iter_SeekToFirst it : outcome Iter :=
  it ← SeekToRestartPoint 0 it; '(_, it) ← ParseNextKey it; Ok it.

Definition Iter_SeekToLast it : outcome Iter :=
  it ← SeekToRestartPoint (num_restarts - 1) it; parse_while entry_fuel restarts it.
End Iter.

(** What [NewIterator] gives: an [EmptyIterator], with its status, or one of
    the block. *)
Inductive block_iterator : Type :=
  | EmptyIterator (s : Status)
  | Block_iterator (data : bytes) (restarts num_restarts : Z) (it : Iter).

Definition NewErrorIterator (s : Status) : block_iterator := EmptyIterator s.
Definition NewEmptyIterator : block_iterator := EmptyIterator Status_ok.

Definition Block_NewIterator (b : Block) : outcome block_iterator :=
  if size_ b <? 4 then Ok (NewErrorIterator (Corruption (str "bad block contents")))
  else
    num_restarts ← NumRestarts (data_ b) (size_ b);
    if num_restarts =? 0 then Ok NewEmptyIterator
    else
      it ← Iter_new (restart_offset_ b) num_restarts;
      Ok (Block_iterator (data_ b) (restart_offset_ b) num_restarts it).

(** The operations of an [Iterator], on the two of them. *)
Definition on_iterator (f : bytes -> Z -> Z -> Iter -> outcome Iter) (i : block_iterator) : outcome block_iterator :=
  match i with
  | Block_iterator data restarts n it => it ← f data restarts n it; Ok (Block_iterator data restarts n it)
  | _ => Ok i
  end.

Definition bi_Valid (i : block_iterator) : bool :=
  match i with Block_iterator _ restarts _ it => Valid restarts it | _ => false end.
Definition bi_status (i : block_iterator) : Status :=
  match i with EmptyIterator s => s | Block_iterator _ _ _ it => status_ it end.
Definition bi_key (i : block_iterator) : outcome bytes :=
  match i with Block_iterator _ restarts _ it => iter_key restarts it | _ => Throw assertion_failed end.
Definition bi_value (i : block_iterator) : outcome bytes :=
  match i with Block_iterator data restarts _ it => iter_value data restarts it | _ => Throw assertion_failed end.
Definition bi_Seek (target : bytes) : block_iterator -> outcome block_iterator :=
  on_iterator (fun data restarts n => Iter_Seek data restarts n target).
Definition bi_SeekToFirst : block_iterator -> outcome block_iterator := on_iterator Iter_SeekToFirst.
Definition bi_SeekToLast : block_iterator -> outcome block_iterator := on_iterator Iter_SeekToLast.
Definition bi_Next (i : block_iterator) : outcome block_iterator :=
  _ ← assert_ (bi_Valid i); on_iterator Iter_Next i.
Definition bi_Prev (i : block_iterator) : outcome block_iterator :=
  _ ← assert_ (bi_Valid i); on_iterator Iter_Prev i.
End Block.
