(* ===== verification/BlockSpec.v ===== *)
(** * LevelDB: blocks hold their entries

    [block_layout] describes what a block builder writes: entries that share a
    prefix with the one before, and restart points at entries that share
    nothing.  The iterator stands at an entry, or at the end; every operation
    moves it to the entry it should. *)

From S2P Require Import Prelude.
From S2P Require Import Bytes.
From S2P Require Import Coding.
From S2P Require Import Comparator.
From S2P Require Import DbFormat.
From S2P Require Import Block.
From stdpp Require Import base tactics numbers list sorting strings.
From Stdlib Require Import Ascii ZArith Lia.

Open Scope Z_scope.

(** ** Entries *)

Record bentry : Type := mkEntry { e_shared : Z; e_key : bytes; e_value : bytes }.
Implicit Types e : bentry.
Implicit Types es : list bentry.

Definition ebytes e : bytes :=
  EncodeVarint32 (e_shared e) ++ EncodeVarint32 (lengthZ (e_key e) - e_shared e) ++
  EncodeVarint32 (lengthZ (e_value e)) ++ dropZ (e_shared e) (e_key e) ++ e_value e.

Definition entry_ok e : Prop :=
  0 <= e_shared e <= lengthZ (e_key e) /\ lengthZ (e_key e) < 2 ^ 32 /\ lengthZ (e_value e) < 2 ^ 32.

Lemma DecodeEntry_ok e l :
  entry_ok e -> lengthZ (ebytes e ++ l) < 2 ^ 32 ->
  DecodeEntry (ebytes e ++ l) =
    Some (e_shared e, lengthZ (e_key e) - e_shared e, lengthZ (e_value e),
      dropZ (e_shared e) (e_key e) ++ e_value e ++ l).
Proof.
  intros (Hs & Hk & Hv) Hlen. pose proof (lengthZ_nonneg (e_value e)) as Hv0.
  set (q := dropZ (e_shared e) (e_key e) ++ e_value e ++ l).
  assert (Hq : lengthZ q = lengthZ (e_key e) - e_shared e + lengthZ (e_value e) + lengthZ l).
  { unfold q. rewrite !lengthZ_app, lengthZ_dropZ by lia. lia. }
  pose proof (EncodeVarint32_lengthZ (e_shared e) ltac:(lia)).
  pose proof (EncodeVarint32_lengthZ (lengthZ (e_key e) - e_shared e) ltac:(lia)).
  pose proof (EncodeVarint32_lengthZ (lengthZ (e_value e)) ltac:(lia)).
  assert (E : ebytes e ++ l = EncodeVarint32 (e_shared e) ++ EncodeVarint32 (lengthZ (e_key e) - e_shared e) ++
    EncodeVarint32 (lengthZ (e_value e)) ++ q) by (unfold ebytes, q; by rewrite <- !app_assoc).
  rewrite E in Hlen |- *. rewrite !lengthZ_app, Hq in Hlen. pose proof (lengthZ_nonneg l).
  assert (Hdec : DecodeEntry (EncodeVarint32 (e_shared e) ++ EncodeVarint32 (lengthZ (e_key e) - e_shared e) ++
      EncodeVarint32 (lengthZ (e_value e)) ++ q) =
    if u32 (lengthZ q) <? u32 (lengthZ (e_key e) - e_shared e + lengthZ (e_value e)) then None
    else Some (e_shared e, lengthZ (e_key e) - e_shared e, lengthZ (e_value e), q)).
  2: { rewrite Hdec, !u32_small by lia. by rewrite (proj2 (Z.ltb_ge _ _)) by lia. }
  pose proof (GetVarint32_Put (e_shared e) (EncodeVarint32 (lengthZ (e_key e) - e_shared e) ++
    EncodeVarint32 (lengthZ (e_value e)) ++ q) ltac:(lia)) as G1.
  pose proof (GetVarint32_Put (lengthZ (e_key e) - e_shared e) (EncodeVarint32 (lengthZ (e_value e)) ++ q) ltac:(lia)) as G2.
  pose proof (GetVarint32_Put (lengthZ (e_value e)) q ltac:(lia)) as G3.
  unfold GetVarint32 in G1, G2, G3.
  destruct (EncodeVarint32_first (e_shared e) ltac:(lia)) as (b0 & l0 & E0 & Hb0).
  destruct (EncodeVarint32_first (lengthZ (e_key e) - e_shared e) ltac:(lia)) as (b1 & l1 & E1 & Hb1).
  destruct (EncodeVarint32_first (lengthZ (e_value e)) ltac:(lia)) as (b2 & l2 & E2 & Hb2).
  rewrite E0, E1, E2 in *. cbn [app] in *.
  assert (Hslow : exists c1 c2 r, l0 ++ b1 :: l1 ++ b2 :: l2 ++ q = c1 :: c2 :: r /\
    (Z.lor (Z.lor (u8 b0) (u8 c1)) (u8 c2) < 128 ->
     (l0 = [] /\ l1 = [] /\ l2 = []) /\
     e_shared e < 128 /\ lengthZ (e_key e) - e_shared e < 128 /\ lengthZ (e_value e) < 128)).
  { assert (Hlor : forall c1 c2, Z.lor (Z.lor (u8 b0) (u8 c1)) (u8 c2) < 128 -> u8 b0 < 128 /\ u8 c1 < 128 /\ u8 c2 < 128).
    { intros c1 c2. pose proof (u8_range b0). pose proof (u8_range c1). pose proof (u8_range c2).
      change 128 with (2 ^ 7). rewrite !lor_lt by (try apply Z.lor_nonneg; lia). tauto. }
    destruct l0 as [|c1 l0].
    - destruct l1 as [|c2 l1].
      + exists b1, b2, (l2 ++ q). split; [done|]. intros (H3 & H4 & H5)%Hlor. intuition lia.
      + cbn [app]. do 3 eexists. split; [done|]. intros (H3 & H4 & H5)%Hlor. intuition (try lia; done).
    - destruct (l0 ++ b1 :: l1 ++ b2 :: l2 ++ q) as [|c2 r] eqn:Er; [by destruct l0|].
      exists c1, c2, r. split; [cbn; by rewrite Er|]. intros (H3 & H4 & H5)%Hlor. intuition (try lia; done). }
  destruct Hslow as (c1 & c2 & r & Er & Hfast).
  unfold DecodeEntry. rewrite Er.
  destruct (Z.ltb_spec (Z.lor (Z.lor (u8 b0) (u8 c1)) (u8 c2)) 128) as [Hlt|Hge].
  - destruct (Hfast Hlt) as ((-> & -> & ->) & ? & ? & ?). cbn [app] in Er. injection Er as <- <- <-. cbn [mbind option_bind].
    destruct Hb0 as [(_ & -> & _)|[? ?]]; [|lia]. destruct Hb1 as [(_ & -> & _)|[? ?]]; [|lia].
    by destruct Hb2 as [(_ & -> & _)|[? ?]]; [|lia].
  - rewrite <- Er, G1. cbn [mbind option_bind]. rewrite G2. cbn [mbind option_bind]. by rewrite G3.
Qed.

(** ** The layout of a block *)

Definition off es (n : nat) : Z := lengthZ (take n es ≫= ebytes).

Lemma off_0 es : off es 0 = 0.
Proof. done. Qed.

Lemma ebytes_length e : entry_ok e -> 3 + lengthZ (e_key e) - e_shared e + lengthZ (e_value e) <= lengthZ (ebytes e)
    <= 15 + lengthZ (e_key e) - e_shared e + lengthZ (e_value e).
Proof.
  intros (Hs & Hk & Hv). unfold ebytes. rewrite !lengthZ_app, lengthZ_dropZ by lia. pose proof (lengthZ_nonneg (e_value e)).
  pose proof (EncodeVarint32_lengthZ (e_shared e) ltac:(lia)).
  pose proof (EncodeVarint32_lengthZ (lengthZ (e_key e) - e_shared e) ltac:(lia)).
  pose proof (EncodeVarint32_lengthZ (lengthZ (e_value e)) ltac:(lia)). lia.
Qed.

Lemma off_S es n e : es !! n = Some e -> off es (S n) = off es n + lengthZ (ebytes e).
Proof.
  intros He. unfold off. rewrite (take_S_r _ _ e He), bind_app, lengthZ_app. cbn. by rewrite app_nil_r.
Qed.

Lemma off_app es es' n : (n <= length es)%nat -> off (es ++ es') n = off es n.
Proof. intros Hn. unfold off. by rewrite take_app_le. Qed.

(** An entry shares a prefix with the one before. *)
Definition follows e e' : Prop :=
  e_shared e' <= lengthZ (e_key e) /\ takeZ (e_shared e') (e_key e) = takeZ (e_shared e') (e_key e').

(** [idx]: the entries at the restart points. *)
Record layout_ok es (idx : list nat) : Prop := {
  lo_entries : Forall entry_ok es;
  lo_follows n e e' : es !! n = Some e -> es !! S n = Some e' -> follows e e';
  lo_first : idx !! 0%nat = Some 0%nat;
  lo_sorted r s i j : idx !! r = Some i -> idx !! s = Some j -> (r < s)%nat -> (i < j)%nat;
  lo_restart i : i ∈ idx -> i = 0%nat \/ (i < length es)%nat;
  lo_shared i e : i ∈ idx -> es !! i = Some e -> e_shared e = 0
}.

Definition block_data es (idx : list nat) : bytes :=
  (es ≫= ebytes) ++ (idx ≫= fun i => le_bytes 4 (off es i)) ++ le_bytes 4 (Z.of_nat (length idx)).

Lemma off_length es : off es (length es) = lengthZ (es ≫= ebytes).
Proof. unfold off. by rewrite firstn_all. Qed.

Lemma offsets_length es (l : list nat) : lengthZ (l ≫= fun i => le_bytes 4 (off es i)) = 4 * Z.of_nat (length l).
Proof. induction l as [|i l IH]; [done|]. rewrite bind_cons, lengthZ_app, IH, le_bytes_lengthZ. cbn [length]. lia. Qed.

Section layout.
Context (es : list bentry) (idx : list nat) (Hok : layout_ok es idx).
Notation data := (block_data es idx).
Notation restarts := (off es (length es)).
Notation num := (Z.of_nat (length idx)).
Context (Hsize : lengthZ data < 2 ^ 32).

Lemma entry_at n e : es !! n = Some e -> entry_ok e.
Proof. intros He. eapply Forall_lookup_1; [apply (lo_entries _ _ Hok)|done]. Qed.

Lemma off_lt n m : (n < m <= length es)%nat -> off es n + 3 * (Z.of_nat m - Z.of_nat n) <= off es m.
Proof.
  intros [Hlt Hle]. induction Hlt as [|m Hlt IH].
  - destruct (lookup_lt_is_Some_2 es n ltac:(lia)) as [e He]. rewrite (off_S _ _ _ He).
    pose proof (entry_at _ _ He) as Ho. pose proof (ebytes_length e Ho). destruct Ho as (? & _ & _).
    pose proof (lengthZ_nonneg (e_value e)). lia.
  - destruct (lookup_lt_is_Some_2 es m ltac:(lia)) as [e He]. rewrite (off_S _ _ _ He).
    pose proof (entry_at _ _ He) as Ho. pose proof (ebytes_length e Ho). destruct Ho as (? & _ & _).
    pose proof (lengthZ_nonneg (e_value e)). specialize (IH ltac:(lia)). lia.
Qed.

Lemma off_le n m : (n <= m <= length es)%nat -> off es n <= off es m.
Proof. intros Hle. destruct (decide (n = m)) as [->|]; [lia|]. pose proof (off_lt n m). lia. Qed.

Lemma off_lt_iff n m : (n <= length es)%nat -> (m <= length es)%nat -> (off es n < off es m <-> (n < m)%nat).
Proof.
  intros Hn Hm. split; intros Hlt; [|pose proof (off_lt n m); lia].
  destruct (decide (n < m)%nat); [done|]. pose proof (off_le m n). lia.
Qed.

Lemma data_length : lengthZ data = restarts + 4 * num + 4.
Proof.
  unfold block_data. rewrite !lengthZ_app, <- off_length, le_bytes_lengthZ.
  rewrite offsets_length. lia.
Qed.

Lemma off_bound n : (n <= length es)%nat -> 0 <= off es n <= restarts /\ restarts < 2 ^ 32.
Proof.
  intros Hn. pose proof (off_le n (length es) ltac:(lia)). pose proof (off_le 0 n ltac:(lia)).
  rewrite off_0 in *. pose proof data_length. lia.
Qed.

Lemma restart_entry r i : idx !! r = Some i -> (i <= length es)%nat.
Proof. intros Hi. destruct (lo_restart _ _ Hok i) as [->|]; [by eapply list_elem_of_lookup_2|lia|lia]. Qed.

Lemma GetRestartPoint_ok {platform : Platform} r i :
  idx !! r = Some i -> GetRestartPoint data restarts num (Z.of_nat r) = Ok (off es i).
Proof.
  intros Hi. pose proof (lookup_lt_Some _ _ _ Hi) as Hr. unfold GetRestartPoint.
  rewrite bind_assert by (apply Z.ltb_lt; lia).
  pose proof (off_bound i (restart_entry _ _ Hi)).
  unfold block_data. rewrite off_length, <- dropZ_dropZ by (try apply lengthZ_nonneg; lia).
  rewrite dropZ_app_exact by done. rewrite <- (take_drop_middle idx r i Hi) at 1.
  rewrite bind_app, bind_cons, <- !app_assoc.
  rewrite dropZ_app_exact.
  - by rewrite <- (EncodeFixed32_le kLittleEndian (off es i)), DecodeFixed32_Encode by lia.
  - rewrite offsets_length, length_take. lia.
Qed.

(** ** The iterator *)

Section iter.
Context {platform : Platform}.
Implicit Types it : Iter.

(** It stands at the entry [n], before it, or past the last. *)
Record at_entry it (n : nat) e : Prop := {
  ae_entry : es !! n = Some e;
  ae_current : current_ it = off es n;
  ae_key : key_ it = e_key e;
  ae_value : value_ it = Some (off es (S n) - lengthZ (e_value e), lengthZ (e_value e));
  ae_status : status_ it = Status_ok;
  ae_index : exists r i, restart_index_ it = Z.of_nat r /\ idx !! r = Some i /\ (i <= n)%nat
}.

Record ready it (n : nat) : Prop := {
  rd_bound : (n <= length es)%nat;
  rd_value : exists o l, value_ it = Some (o, l) /\ o + l = off es n;
  rd_key e : es !! n = Some e -> e_shared e <= lengthZ (key_ it) /\ takeZ (e_shared e) (key_ it) = takeZ (e_shared e) (e_key e);
  rd_status : status_ it = Status_ok;
  rd_index : exists r i, restart_index_ it = Z.of_nat r /\ idx !! r = Some i /\ (i <= n)%nat
}.

Record past_end it : Prop := { pe_current : current_ it = restarts; pe_status : status_ it = Status_ok }.

Definition iter_pos it (n : nat) : Prop :=
  match es !! n with Some e => at_entry it n e | None => n = length es /\ past_end it end.

(** The bytes from within an entry on. *)
Lemma data_from n e k :
  es !! n = Some e -> 0 <= k ->
  exists tail, dropZ (off es n + k) data = dropZ k (ebytes e ++ (drop (S n) es ≫= ebytes) ++ tail).
Proof.
  intros He Hk. pose proof (lookup_lt_Some _ _ _ He) as Hn. pose proof (off_bound n ltac:(lia)) as Hb.
  eexists. rewrite <- dropZ_dropZ by lia. f_equal. unfold block_data.
  replace (es ≫= ebytes) with ((take n es ≫= ebytes) ++ ebytes e ++ (drop (S n) es ≫= ebytes)).
  - rewrite <- !app_assoc. by apply dropZ_app_exact.
  - rewrite <- bind_cons, <- bind_app. f_equal. by apply take_drop_middle.
Qed.

Lemma rest_length n : (n <= length es)%nat -> lengthZ (drop n es ≫= ebytes) = restarts - off es n.
Proof.
  intros Hn. rewrite off_length. unfold off. rewrite <- (take_drop n es) at 2. rewrite bind_app, lengthZ_app. lia.
Qed.

Lemma entry_region n e :
  es !! n = Some e ->
  takeZ (restarts - off es n) (dropZ (off es n) data) = ebytes e ++ (drop (S n) es ≫= ebytes).
Proof.
  intros He. pose proof (lookup_lt_Some _ _ _ He) as Hn. destruct (data_from n e 0 He ltac:(lia)) as [tail Et].
  rewrite Z.add_0_r, (dropZ_nonpos 0), app_assoc in Et by lia. rewrite Et. apply takeZ_app_exact.
  rewrite lengthZ_app, rest_length, (off_S _ _ _ He) by lia. lia.
Qed.

(** What the lengths that were decoded lead to. *)
Lemma entry_delta n e rest :
  es !! n = Some e -> rest = drop (S n) es ≫= ebytes ->
  let o := restarts - lengthZ (dropZ (e_shared e) (e_key e) ++ e_value e ++ rest) in
  o + (lengthZ (e_key e) - e_shared e) = off es (S n) - lengthZ (e_value e) /\
  o + (lengthZ (e_key e) - e_shared e) <= lengthZ data /\
  takeZ (lengthZ (e_key e) - e_shared e) (dropZ o data) = dropZ (e_shared e) (e_key e).
Proof.
  intros He ->. pose proof (lookup_lt_Some _ _ _ He) as Hn. pose proof (entry_at n e He) as (Hsh & Hkl & Hvl).
  pose proof (off_bound (S n) ltac:(lia)) as Hb. pose proof data_length. pose proof (lengthZ_nonneg (e_value e)).
  pose proof (off_S _ _ _ He) as HS.
  cbv zeta. rewrite !lengthZ_app, lengthZ_dropZ, rest_length by lia. split; [lia|]. split; [lia|].
  set (h := EncodeVarint32 (e_shared e) ++ EncodeVarint32 (lengthZ (e_key e) - e_shared e) ++ EncodeVarint32 (lengthZ (e_value e))).
  assert (Eb : ebytes e = h ++ dropZ (e_shared e) (e_key e) ++ e_value e) by (unfold h, ebytes; by rewrite <- !app_assoc).
  replace (restarts - _) with (off es n + lengthZ h).
  - destruct (data_from n e (lengthZ h) He (lengthZ_nonneg h)) as [tail ->]. rewrite Eb, <- !app_assoc, dropZ_app_exact by done.
    apply takeZ_app_exact. rewrite lengthZ_dropZ by lia. lia.
  - rewrite HS, Eb, !lengthZ_app, lengthZ_dropZ by lia. lia.
Qed.

Lemma DecodeEntry_at n e :
  es !! n = Some e ->
  DecodeEntry (takeZ (restarts - off es n) (dropZ (off es n) data)) =
    Some (e_shared e, lengthZ (e_key e) - e_shared e, lengthZ (e_value e),
      dropZ (e_shared e) (e_key e) ++ e_value e ++ (drop (S n) es ≫= ebytes)).
Proof.
  intros He. pose proof (lookup_lt_Some _ _ _ He) as Hn. rewrite (entry_region n e He). apply DecodeEntry_ok; [by eapply entry_at|].
  pose proof (off_bound (S n) ltac:(lia)). pose proof (off_bound n ltac:(lia)). pose proof (off_S _ _ _ He).
  rewrite lengthZ_app, rest_length by lia. lia.
Qed.

Lemma ready_next it n e : at_entry it n e -> ready it (S n).
Proof.
  intros [He Hc Hk Hv Hs (r & i & Hr & Hi & Hle)]. pose proof (lookup_lt_Some _ _ _ He). split; [lia| |intros e' He'|done|].
  - do 2 eexists. split; [exact Hv|]. lia.
  - rewrite Hk. apply (lo_follows _ _ Hok n e e' He He').
  - exists r, i. split_and!; (done || lia).
Qed.

Lemma SeekToRestartPoint_ok it r i :
  idx !! r = Some i -> status_ it = Status_ok ->
  exists it', SeekToRestartPoint data restarts num (Z.of_nat r) it = Ok it' /\ ready it' i.
Proof.
  intros Hi Hs. unfold SeekToRestartPoint. rewrite (GetRestartPoint_ok r i Hi). cbn [mbind outcome_bind].
  eexists. split; [done|]. split; cbn [value_ key_ status_ restart_index_].
  - by apply (restart_entry r).
  - exists (off es i), 0. split; [done|lia].
  - intros e He. rewrite (lo_shared _ _ Hok i e); [|by eapply list_elem_of_lookup_2|done].
    by rewrite !takeZ_nonpos.
  - done.
  - exists r, i. split_and!; (done || lia).
Qed.

Lemma NextEntryOffset_at it n e : at_entry it n e -> NextEntryOffset it = Ok (off es (S n)).
Proof.
  intros Ha. pose proof (lookup_lt_Some _ _ _ (ae_entry _ _ _ Ha)). pose proof (off_bound (S n) ltac:(lia)).
  unfold NextEntryOffset. rewrite (ae_value _ _ _ Ha). cbn [in_bounds mbind outcome_bind].
  by rewrite u32_small by lia; f_equal; lia.
Qed.

Lemma NextEntryOffset_ready it n : ready it n -> NextEntryOffset it = Ok (off es n).
Proof.
  intros Hr. destruct (rd_value _ _ Hr) as (o & l & Hv & Ho). pose proof (off_bound n (rd_bound _ _ Hr)).
  unfold NextEntryOffset. rewrite Hv. cbn [in_bounds mbind outcome_bind]. by rewrite u32_small by lia; f_equal; lia.
Qed.

Lemma num_small : num < 2 ^ 30.
Proof. pose proof data_length. pose proof (off_bound 0 ltac:(lia)). lia. Qed.

(** The restart index follows the entries. *)
Lemma restart_loop_ok fuel r i n :
  idx !! r = Some i -> (i <= n)%nat -> (n < length es)%nat -> (length idx < r + fuel)%nat ->
  exists r' i', restart_loop data restarts num fuel (Z.of_nat r) (off es n) = Ok (Z.of_nat r') /\
    idx !! r' = Some i' /\ (i' <= n)%nat.
Proof.
  revert r i. induction fuel as [|fuel IH]; intros r i Hi Hle Hn Hf; pose proof (lookup_lt_Some _ _ _ Hi) as Hr; [lia|].
  cbn [restart_loop]. pose proof num_small. rewrite u32_small by lia.
  replace (Z.of_nat r + 1) with (Z.of_nat (S r)) by lia.
  destruct (Z.ltb_spec (Z.of_nat (S r)) num) as [Hlt|]; [|by exists r, i].
  destruct (lookup_lt_is_Some_2 idx (S r) ltac:(lia)) as [j Hj]. rewrite (GetRestartPoint_ok _ j Hj).
  cbn [mbind outcome_bind]. pose proof (restart_entry _ _ Hj).
  destruct (Z.ltb_spec (off es j) (off es n)) as [Hoff|]; [|by exists r, i].
  apply off_lt_iff in Hoff; [|lia..]. apply (IH _ j Hj); lia.
Qed.

Lemma ParseNextKey_entry it n e :
  ready it n -> es !! n = Some e ->
  exists it', ParseNextKey data restarts num it = Ok (true, it') /\ at_entry it' n e.
Proof.
  intros Hr He. pose proof (lookup_lt_Some _ _ _ He) as Hn. pose proof (off_lt n (length es) ltac:(lia)).
  unfold ParseNextKey. rewrite (NextEntryOffset_ready _ _ Hr). cbn [mbind outcome_bind].
  rewrite (proj2 (Z.leb_gt _ _)) by lia. rewrite (DecodeEntry_at n e He).
  destruct (rd_key _ _ Hr e He) as [Hk1 Hk2]. rewrite (proj2 (Z.ltb_ge _ _)) by lia.
  destruct (entry_delta n e _ He eq_refl) as (Ho & Hle & Hdelta).
  rewrite bind_require by (by apply Z.leb_le). rewrite Hdelta, Hk2, takeZ_dropZ, Ho.
  destruct (rd_index _ _ Hr) as (r & i & Hri & Hi & Hin). rewrite Hri.
  destruct (restart_loop_ok (restart_fuel num) r i n Hi Hin Hn) as (r' & i' & -> & Hi' & Hin').
  { unfold restart_fuel. lia. }
  cbn [mbind outcome_bind]. eexists. split; [done|].
  split; cbn [current_ key_ value_ status_ restart_index_]; [done..|apply Hr|by exists r', i'].
Qed.

Lemma ParseNextKey_end it :
  ready it (length es) -> ParseNextKey data restarts num it = Ok (false, at_end restarts num it) /\
    past_end (at_end restarts num it).
Proof.
  intros Hr. unfold ParseNextKey. rewrite (NextEntryOffset_ready _ _ Hr). cbn [mbind outcome_bind].
  rewrite (proj2 (Z.leb_le _ _)) by done. split; [done|]. split; [done|apply Hr].
Qed.

(** The next entry, or the end. *)
Lemma ParseNextKey_ok it n :
  ready it n -> exists more it', ParseNextKey data restarts num it = Ok (more, it') /\ iter_pos it' n /\
    more = bool_decide (is_Some (es !! n)).
Proof.
  intros Hr. unfold iter_pos. destruct (es !! n) as [e|] eqn:He.
  - destruct (ParseNextKey_entry it n e Hr He) as (it' & -> & Ha). by exists true, it'.
  - apply lookup_ge_None in He. pose proof (rd_bound _ _ Hr). assert (n = length es) as -> by lia.
    destruct (ParseNextKey_end it Hr) as [-> Hp]. do 2 eexists. split; [done|]. split; [by split|done].
Qed.

Lemma at_entry_Valid it n e : at_entry it n e -> Valid restarts it = true.
Proof.
  intros Ha. pose proof (lookup_lt_Some _ _ _ (ae_entry _ _ _ Ha)) as Hn. unfold Valid.
  rewrite (ae_current _ _ _ Ha). apply Z.ltb_lt. pose proof (off_lt n (length es)). lia.
Qed.

Lemma iter_pos_Valid it n : iter_pos it n -> Valid restarts it = bool_decide (is_Some (es !! n)).
Proof.
  unfold iter_pos. destruct (es !! n) as [e|]; [by apply at_entry_Valid|].
  intros [_ [Hc _]]. unfold Valid. rewrite Hc. apply Z.ltb_irrefl.
Qed.

Lemma iter_pos_status it n : iter_pos it n -> status_ it = Status_ok.
Proof. unfold iter_pos. destruct (es !! n); [intros Ha; apply Ha|intros [_ Ha]; apply Ha]. Qed.

Lemma iter_key_ok it n e : at_entry it n e -> iter_key restarts it = Ok (e_key e).
Proof. intros Ha. unfold iter_key. rewrite (at_entry_Valid _ _ _ Ha). cbn. by rewrite (ae_key _ _ _ Ha). Qed.

Lemma iter_value_ok it n e : at_entry it n e -> iter_value data restarts it = Ok (e_value e).
Proof.
  intros Ha. pose proof (ae_entry _ _ _ Ha) as He. pose proof (lookup_lt_Some _ _ _ He) as Hn.
  unfold iter_value. rewrite (at_entry_Valid _ _ _ Ha). cbn [assert_ mbind outcome_bind].
  rewrite (ae_value _ _ _ Ha). cbn [in_bounds mbind outcome_bind].
  pose proof (off_bound (S n) ltac:(lia)). pose proof data_length.
  rewrite bind_require by (apply Z.leb_le; lia). f_equal. pose proof (entry_at n e He) as (Hsh & _).
  set (h := EncodeVarint32 (e_shared e) ++ EncodeVarint32 (lengthZ (e_key e) - e_shared e) ++ EncodeVarint32 (lengthZ (e_value e)) ++
    dropZ (e_shared e) (e_key e)).
  assert (Eb : ebytes e = h ++ e_value e) by (unfold h, ebytes; by rewrite <- !app_assoc).
  rewrite (off_S _ _ _ He), Eb, lengthZ_app, Z.add_assoc, Z.add_simpl_r.
  destruct (data_from n e (lengthZ h) He (lengthZ_nonneg h)) as [tail ->].
  rewrite Eb, <- !app_assoc, dropZ_app_exact by done. by apply takeZ_app_exact.
Qed.

Lemma Iter_Next_ok it n e :
  at_entry it n e -> exists it', Iter_Next data restarts num it = Ok it' /\ iter_pos it' (S n).
Proof.
  intros Ha. unfold Iter_Next. rewrite (at_entry_Valid _ _ _ Ha). cbn [assert_ mbind outcome_bind].
  destruct (ParseNextKey_ok it (S n) (ready_next _ _ _ Ha)) as (more & it' & -> & Hp & _). by exists it'.
Qed.

Lemma idx_first : idx !! 0%nat = Some 0%nat.
Proof. apply (lo_first _ _ Hok). Qed.

Lemma Iter_SeekToFirst_ok it :
  status_ it = Status_ok -> exists it', Iter_SeekToFirst data restarts num it = Ok it' /\ iter_pos it' 0.
Proof.
  intros Hs. unfold Iter_SeekToFirst. destruct (SeekToRestartPoint_ok it 0 0 idx_first Hs) as (it1 & E & Hr).
  change (Z.of_nat 0) with 0 in E. rewrite E.
  cbn [mbind outcome_bind]. destruct (ParseNextKey_ok it1 0 Hr) as (more & it' & -> & Hp & _). by exists it'.
Qed.

(** Parsing up to the entry that ends at the limit. *)
Lemma parse_while_ok fuel it m n :
  ready it m -> (m <= n < length es)%nat -> (n < m + fuel)%nat ->
  exists it', parse_while data restarts num fuel (off es (S n)) it = Ok it' /\ iter_pos it' n.
Proof.
  revert it m. induction fuel as [|fuel IH]; intros it m Hr Hmn Hf; [lia|]. cbn [parse_while].
  destruct (lookup_lt_is_Some_2 es m ltac:(lia)) as [e He].
  destruct (ParseNextKey_entry it m e Hr He) as (it1 & -> & Ha). cbn [mbind outcome_bind].
  rewrite (NextEntryOffset_at _ _ _ Ha). cbn [mbind outcome_bind].
  destruct (Z.ltb_spec (off es (S m)) (off es (S n))) as [Hlt|Hge].
  - apply off_lt_iff in Hlt; [|lia..]. apply (IH it1 (S m)); [by eapply ready_next|lia..].
  - assert (m = n) as ->.
    { destruct (decide (m = n)); [done|]. pose proof (proj2 (off_lt_iff (S m) (S n) ltac:(lia) ltac:(lia))). lia. }
    exists it1. split; [done|]. unfold iter_pos. by rewrite He.
Qed.

Lemma enough_fuel : (length es < entry_fuel data)%nat.
Proof.
  unfold entry_fuel. pose proof data_length. rewrite lengthZ_length in *.
  destruct (decide (0 < length es)%nat); [|lia]. pose proof (off_lt 0 (length es)). rewrite off_0 in *. lia.
Qed.

Lemma Iter_SeekToLast_ok it :
  status_ it = Status_ok -> exists it', Iter_SeekToLast data restarts num it = Ok it' /\ iter_pos it' (length es - 1).
Proof.
  intros Hs. unfold Iter_SeekToLast. pose proof (lookup_lt_Some _ _ _ idx_first) as Hl.
  destruct (lookup_lt_is_Some_2 idx (length idx - 1) ltac:(lia)) as [i Hi].
  replace (num - 1) with (Z.of_nat (length idx - 1)) by lia.
  destruct (SeekToRestartPoint_ok it _ i Hi Hs) as (it1 & -> & Hr). cbn [mbind outcome_bind].
  destruct (decide (length es = 0)%nat) as [E|E].
  - assert (i = 0%nat) as -> by (pose proof (restart_entry _ _ Hi); lia).
    unfold entry_fuel. cbn [parse_while]. rewrite <- E in Hr. destruct (ParseNextKey_end it1 Hr) as [-> Hp].
    cbn [mbind outcome_bind]. eexists. split; [done|]. unfold iter_pos. rewrite lookup_ge_None_2 by lia. split; [lia|done].
  - assert (Hin : (i < length es)%nat) by (destruct (lo_restart _ _ Hok i ltac:(by eapply list_elem_of_lookup_2)); lia).
    pose proof enough_fuel. destruct (parse_while_ok (entry_fuel data) it1 i (length es - 1) Hr) as (it' & E' & Hp); [lia..|].
    replace (S (length es - 1)) with (length es) in E' by lia. by exists it'.
Qed.

Lemma restart_before_ok fuel r i n :
  idx !! r = Some i -> (i <= n < length es)%nat -> (r < fuel)%nat ->
  match n with
  | O => restart_before data restarts num fuel (Z.of_nat r) (off es n) = Ok None
  | S m => exists r' i', restart_before data restarts num fuel (Z.of_nat r) (off es n) = Ok (Some (Z.of_nat r')) /\
             idx !! r' = Some i' /\ (i' <= m)%nat
  end.
Proof.
  revert r i. induction fuel as [|fuel IH]; intros r i Hi Hle Hf; [lia|]. cbn [restart_before].
  rewrite (GetRestartPoint_ok r i Hi). cbn [mbind outcome_bind].
  destruct (Z.leb_spec (off es n) (off es i)) as [Hge|Hlt].
  - assert (i = n) as ->.
    { destruct (decide (i = n)); [done|]. pose proof (proj2 (off_lt_iff i n ltac:(lia) ltac:(lia))). lia. }
    destruct (Z.eqb_spec (Z.of_nat r) 0) as [E|E].
    + assert (r = 0%nat) as -> by lia. rewrite idx_first in Hi. by simplify_eq.
    + destruct (lookup_lt_is_Some_2 idx (r - 1)) as [j Hj]; [apply lookup_lt_Some in Hi; lia|].
      pose proof (lo_sorted _ _ Hok _ _ _ _ Hj Hi ltac:(lia)).
      replace (Z.of_nat r - 1) with (Z.of_nat (r - 1)) by lia. apply (IH _ j); [done|lia..].
  - apply off_lt_iff in Hlt; [|lia..]. destruct n as [|m]; [lia|]. exists r, i. split_and!; (done || lia).
Qed.

(** [Prev] at the first entry goes to the end. *)
Lemma Iter_Prev_ok it n e :
  at_entry it n e ->
  exists it', Iter_Prev data restarts num it = Ok it' /\ match n with O => past_end it' | S m => iter_pos it' m end.
Proof.
  intros Ha. pose proof (lookup_lt_Some _ _ _ (ae_entry _ _ _ Ha)) as Hn. unfold Iter_Prev.
  rewrite (at_entry_Valid _ _ _ Ha). cbn [assert_ mbind outcome_bind].
  destruct (ae_index _ _ _ Ha) as (r & i & Hri & Hi & Hle). rewrite Hri, (ae_current _ _ _ Ha).
  pose proof (lookup_lt_Some _ _ _ Hi).
  pose proof (restart_before_ok (restart_fuel num) r i n Hi ltac:(lia) ltac:(unfold restart_fuel; lia)) as Hb.
  destruct n as [|m].
  - rewrite Hb. cbn [mbind outcome_bind]. eexists. split; [done|]. split; [done|apply Ha].
  - destruct Hb as (r' & i' & -> & Hi' & Hle'). cbn [mbind outcome_bind].
    destruct (SeekToRestartPoint_ok it r' i' Hi' (ae_status _ _ _ Ha)) as (it1 & -> & Hr). cbn [mbind outcome_bind].
    pose proof enough_fuel. apply (parse_while_ok _ _ i'); [done|lia..].
Qed.

(** ** Seek *)

Section seek.
Context {C : Type} `{Comparator C} (c : C) `{!ComparatorLaws C c}.
Notation order := (key_order (c := c)).
Context (Hvalid : Forall (fun e => key_valid (c := c) (e_key e)) es).
Context (Hsorted : forall i j e e', es !! i = Some e -> es !! j = Some e' -> (i < j)%nat -> order (e_key e) (e_key e') < 0).
Context (target : bytes) (Htarget : key_valid (c := c) target).

(** [n] is the first entry that is not before the target. *)
Definition first_ge (n : nat) : Prop :=
  (n <= length es)%nat /\
  (forall i e, es !! i = Some e -> (i < n)%nat -> order (e_key e) target < 0) /\
  (forall e, es !! n = Some e -> 0 <= order (e_key e) target).

Lemma first_ge_exists : exists n, first_ge n.
Proof.
  unfold first_ge. clear Hok Hsize Hsorted Hvalid Htarget. induction es as [|e l (n & Hn & H1 & H2)].
  - exists 0%nat. split; [done|]. split; [intros i e He; by rewrite lookup_nil in He|intros e He; by rewrite lookup_nil in He].
  - destruct (Z.lt_ge_cases (order (e_key e) target) 0).
    + exists (S n). cbn [length]. split; [lia|]. split.
      * intros [|i] e' He Hi; [by injection He as <-|]. apply (H1 i e' He). lia.
      * intros e' He. by apply H2.
    + exists 0%nat. split; [cbn; lia|]. split; [intros; lia|]. intros e' He. by injection He as <-.
Qed.

Lemma entry_valid_key i e : es !! i = Some e -> key_valid (c := c) (e_key e).
Proof. intros He. exact (Forall_lookup_1 _ _ _ _ Hvalid He). Qed.

(** A restart point with a key before the target is before what is sought. *)
Lemma before_first_ge n i e : first_ge n -> es !! i = Some e -> order (e_key e) target < 0 -> (i < n)%nat.
Proof.
  intros (Hn & _ & Hge) He Hlt. destruct (decide (i < n)%nat); [done|].
  destruct (lookup_lt_is_Some_2 es n) as [e' He']; [apply lookup_lt_Some in He; lia|].
  specialize (Hge e' He'). destruct (decide (i = n)) as [->|]; [simplify_eq; lia|].
  pose proof (Hsorted n i e' e He' He ltac:(lia)). pose proof (cmp_lt_trans _ _ _ H0 Hlt). lia.
Qed.

Lemma binary_search_ok fuel l r n i :
  first_ge n -> idx !! l = Some i -> (i <= n)%nat -> (l <= r < length idx)%nat -> (r < l + fuel)%nat ->
  exists l' i', binary_search c data restarts num fuel target (Z.of_nat l) (Z.of_nat r) = Ok (Some (Z.of_nat l')) /\
    idx !! l' = Some i' /\ (i' <= n)%nat.
Proof.
  intros Hn. revert l r i. induction fuel as [|fuel IH]; intros l r i Hi Hle Hlr Hf; [lia|]. cbn [binary_search].
  destruct (Z.ltb_spec (Z.of_nat l) (Z.of_nat r)) as [Hlt|]; [|by exists l, i].
  pose proof num_small. rewrite u32_small by lia. set (mid := Z.to_nat ((Z.of_nat l + Z.of_nat r + 1) / 2)).
  assert (Hmid : (Z.of_nat l + Z.of_nat r + 1) / 2 = Z.of_nat mid /\ (l < mid <= r)%nat).
  { unfold mid. assert (Z.of_nat l + 1 <= (Z.of_nat l + Z.of_nat r + 1) / 2 <= Z.of_nat r).
    { split; [apply Z.div_le_lower_bound; lia|apply Z.div_le_upper_bound; lia]. } lia. }
  clearbody mid. destruct Hmid as [-> Hmid].
  destruct (lookup_lt_is_Some_2 idx mid ltac:(lia)) as [j Hj]. rewrite (GetRestartPoint_ok mid j Hj). cbn [mbind outcome_bind].
  pose proof (lo_sorted _ _ Hok _ _ _ _ Hi Hj ltac:(lia)) as Hij.
  destruct (lo_restart _ _ Hok j ltac:(by eapply list_elem_of_lookup_2)) as [->|Hjl]; [lia|].
  destruct (lookup_lt_is_Some_2 es j Hjl) as [e He]. rewrite (DecodeEntry_at j e He).
  assert (Hsh : e_shared e = 0) by (apply (lo_shared _ _ Hok j); [by eapply list_elem_of_lookup_2|done]).
  rewrite (proj2 (Z.eqb_eq _ 0) Hsh). cbn [negb].
  destruct (entry_delta j e _ He eq_refl) as (Ho & Hdl & Hdelta). rewrite bind_require by (by apply Z.leb_le).
  rewrite Hdelta, Hsh, dropZ_nonpos by done. rewrite Compare_valid by (done || by eapply entry_valid_key).
  cbn [mbind outcome_bind]. destruct (Z.ltb_spec (order (e_key e) target) 0) as [Hcmp|Hcmp].
  - apply (IH mid r j); [done|pose proof (before_first_ge n j e Hn He Hcmp); lia|lia..].
  - replace (Z.of_nat mid - 1) with (Z.of_nat (mid - 1)) by lia. apply (IH l (mid - 1)%nat i); [done|lia..].
Qed.

Lemma linear_search_ok fuel it m n :
  first_ge n -> ready it m -> (m <= n)%nat -> (n < m + fuel)%nat ->
  exists it', linear_search c data restarts num fuel target it = Ok it' /\ iter_pos it' n.
Proof.
  intros Hn. revert it m. induction fuel as [|fuel IH]; intros it m Hr Hmn Hf; [lia|]. cbn [linear_search].
  destruct (ParseNextKey_ok it m Hr) as (more & it1 & -> & Hp & ->). cbn [mbind outcome_bind].
  pose proof Hn as (Hnl & Hlt & Hge). unfold iter_pos in Hp. destruct (es !! m) as [e|] eqn:He.
  - rewrite bool_decide_eq_true_2 by done. cbn [negb]. rewrite (ae_key _ _ _ Hp).
    rewrite Compare_valid by (done || by eapply entry_valid_key). cbn [mbind outcome_bind].
    destruct (Z.leb_spec 0 (order (e_key e) target)) as [Hcmp|Hcmp].
    + assert (m = n) as ->. { destruct (decide (m = n)); [done|]. specialize (Hlt m e He ltac:(lia)). lia. }
      exists it1. split; [done|]. unfold iter_pos. by rewrite He.
    + pose proof (before_first_ge n m e Hn He Hcmp). apply (IH it1 (S m)); [by eapply ready_next|lia..].
  - rewrite bool_decide_eq_false_2 by (intros []; done). cbn [negb]. destruct Hp as [-> Hp].
    assert (n = length es) as -> by lia. exists it1. split; [done|]. unfold iter_pos. rewrite He. by split.
Qed.

(** [Seek] finds the first entry that is not before the target, if there is
    one, and goes to the end otherwise. *)
Lemma Iter_Seek_ok it n :
  first_ge n -> status_ it = Status_ok ->
  exists it', Iter_Seek c data restarts num target it = Ok it' /\ iter_pos it' n.
Proof.
  intros Hn Hs. unfold Iter_Seek. pose proof (lookup_lt_Some _ _ _ idx_first).
  replace (num - 1) with (Z.of_nat (length idx - 1)) by lia.
  destruct (binary_search_ok (restart_fuel num) 0 (length idx - 1) n 0 Hn idx_first ltac:(lia) ltac:(lia)) as (l & i & E & Hi & Hle).
  { unfold restart_fuel. lia. }
  change (Z.of_nat 0) with 0 in E. rewrite E. cbn [mbind outcome_bind].
  destruct (SeekToRestartPoint_ok it l i Hi Hs) as (it1 & -> & Hr). cbn [mbind outcome_bind].
  pose proof enough_fuel. pose proof (proj1 Hn). apply (linear_search_ok _ _ i); [done|done|lia..].
Qed.
End seek.
End iter.
End layout.

(** ** The builder writes the layout *)

Definition last_key es : bytes := from_option e_key [] (last es).

Section builder.
Context {platform : Platform} {C : Type} `{Comparator C} (c : C) `{!ComparatorLaws C c} (interval : Z) (Hinterval : 1 <= interval).
Notation order := (key_order (c := c)).

Record builder_ok (b : BlockBuilder) es (idx : list nat) : Prop := {
  bo_layout : layout_ok es idx;
  bo_buffer : buffer_ b = es ≫= ebytes;
  bo_restarts : restarts_ b = off es <$> idx;
  bo_counter : exists i, last idx = Some i /\ (i <= length es)%nat /\ counter_ b = Z.of_nat (length es) - Z.of_nat i;
  bo_counter_max : counter_ b <= interval;
  bo_open : finished_ b = false;
  bo_last : last_key_ b = last_key es
}.

Lemma BlockBuilder_Reset_ok : builder_ok BlockBuilder_Reset [] [0%nat].
Proof.
  split; cbn; [|done|done|exists 0%nat; split_and!; (done || lia)|lia|done|done].
  split; cbn; [constructor|done|done| | |done].
  - intros [|r] [|s] i j Hi Hj Hlt; cbn in *; (lia || done).
  - intros i Hi%list_elem_of_singleton. by left.
Qed.

Lemma last_lookup_length {A} (l : list A) x : last l = Some x -> l !! (length l - 1)%nat = Some x.
Proof. rewrite last_lookup. by replace (Nat.pred (length l)) with (length l - 1)%nat by lia. Qed.

Lemma shared_prefix_take a b : takeZ (shared_prefix a b) a = takeZ (shared_prefix a b) b.
Proof.
  destruct (shared_prefix_spec a b) as (p & a' & b' & Ea & Eb & Hp & _). rewrite <- Hp.
  clear Hp. subst. by rewrite !takeZ_app_exact.
Qed.

(** An entry more, at a restart point or not. *)
Lemma layout_snoc es idx e :
  layout_ok es idx -> entry_ok e ->
  (forall e', last es = Some e' -> follows e' e) -> (es = [] -> e_shared e = 0) -> layout_ok (es ++ [e]) idx.
Proof.
  intros [H1 H2 H3 H4 H5 H6] He Hf H0. split; [by apply Forall_app; split; [|constructor]| |done|done| |].
  - intros n e1 e2 Hn HS. destruct (decide (S n < length es)%nat).
    + rewrite lookup_app_l in Hn, HS by lia. by eapply H2.
    + assert (n = length es - 1)%nat as -> by (apply lookup_lt_Some in HS; rewrite length_app in HS; cbn in HS; lia).
      destruct es as [|e0 es0]; [by cbn in HS|].
      rewrite lookup_app_l in Hn by (cbn; lia). rewrite lookup_app_r in HS by (cbn; lia).
      apply list_lookup_singleton_Some in HS as [_ <-]. apply Hf. rewrite last_lookup. by cbn in *; rewrite Nat.sub_0_r in Hn.
  - intros i Hi. rewrite length_app. cbn. destruct (H5 i Hi); lia.
  - intros i e' Hi He'. destruct (decide (i < length es)%nat).
    + rewrite lookup_app_l in He' by lia. by eapply H6.
    + destruct (H5 i Hi) as [->|]; [|lia]. destruct es; [|cbn in *; lia]. injection He' as <-. by apply H0.
Qed.

Lemma layout_restart es idx :
  layout_ok es idx -> (forall i, last idx = Some i -> (i < length es)%nat) ->
  forall e, entry_ok e -> e_shared e = 0 -> layout_ok (es ++ [e]) (idx ++ [length es]).
Proof.
  intros Hok Hlast e He Hsh.
  destruct (layout_snoc es idx e Hok He) as [H1 H2 H3 H4 H5 H6]; [|done|].
  { intros e' _. unfold follows. rewrite Hsh, !takeZ_nonpos by done. split; [apply lengthZ_nonneg|done]. }
  assert (Hlt : forall r i, idx !! r = Some i -> (i < length es)%nat).
  { intros r i Hi. destruct (lo_restart _ _ Hok i ltac:(by eapply list_elem_of_lookup_2)) as [->|]; [|done].
    destruct (last idx) as [l|] eqn:E; [specialize (Hlast l eq_refl); lia|]. apply last_None in E. subst. done. }
  split; [done|done| | | |].
  - rewrite lookup_app_l; [done|]. by eapply lookup_lt_Some.
  - intros r s i j Hi Hj Hrs. destruct (decide (s < length idx)%nat).
    + rewrite lookup_app_l in Hi, Hj by lia. by eapply (H4 r s).
    + assert (s = length idx) as -> by (apply lookup_lt_Some in Hj; rewrite length_app in Hj; cbn in Hj; lia).
      rewrite lookup_app_l in Hi by lia. rewrite lookup_app_r, Nat.sub_diag in Hj by lia. injection Hj as <-. by eapply Hlt.
  - intros i [Hi|Hi%list_elem_of_singleton]%elem_of_app; [by apply H5|]. subst. rewrite length_app. cbn. lia.
  - intros i e' [Hi|Hi%list_elem_of_singleton]%elem_of_app He'; [by eapply H6|]. subst.
    rewrite lookup_app_r, Nat.sub_diag in He' by lia. by injection He' as <-.
Qed.

Lemma BlockBuilder_Add_ok b es idx key value :
  builder_ok b es idx -> key_valid (c := c) key -> (forall e, last es = Some e -> key_valid (c := c) (e_key e) /\ order (e_key e) key < 0) ->
  lengthZ (es ≫= ebytes) + lengthZ key + lengthZ value + 15 < 2 ^ 32 ->
  exists b' e idx', BlockBuilder_Add c interval b key value = Ok b' /\ builder_ok b' (es ++ [e]) idx' /\
    e_key e = key /\ e_value e = value /\ (length idx' <= length idx + 1)%nat.
Proof.
  intros [Hl Hbuf Hr (i & Hi & Hile & Hcnt) Hmax Hopen Hlk] Hk Hlast Hsz.
  pose proof (lengthZ_nonneg (es ≫= ebytes)). pose proof (lengthZ_nonneg key). pose proof (lengthZ_nonneg value).
  unfold BlockBuilder_Add. rewrite Hopen, bind_assert, bind_assert by (try apply Z.leb_le; done).
  assert (Hcmp : (if BlockBuilder_empty b then Ok () else r ← Compare c key (last_key_ b); assert_ (0 <? r)) = Ok ()).
  { unfold BlockBuilder_empty. rewrite Hbuf, Hlk. unfold last_key. destruct (last es) as [e|] eqn:E.
    - destruct (Hlast e eq_refl) as [Hv Hlt]. cbn [from_option]. rewrite Compare_valid by done. cbn [mbind outcome_bind].
      apply cmp_lt_gt in Hlt. rewrite (proj2 (Z.ltb_lt _ _)) by done. by destruct (_ =? 0).
    - apply last_None in E. by subst. }
  rewrite Hcmp. cbn [mbind outcome_bind].
  set (sr := if counter_ b <? interval then _ else _).
  assert (Hsr : exists sh idx' cnt, sr = (sh, off es <$> idx', cnt) /\ (length idx' <= length idx + 1)%nat /\
    0 <= sh <= Z.min (lengthZ (last_key es)) (lengthZ key) /\ takeZ sh (last_key es) = takeZ sh key /\
    (forall e, entry_ok e -> e_key e = key -> e_shared e = sh -> layout_ok (es ++ [e]) idx') /\
    (exists j, last idx' = Some j /\ (j <= length es)%nat /\ cnt = Z.of_nat (length es) - Z.of_nat j) /\ cnt < interval).
  { unfold sr. rewrite Hlk, Hr, Hbuf. destruct (Z.ltb_spec (counter_ b) interval).
    - exists (shared_prefix (last_key es) key), idx, (counter_ b). split; [done|]. split; [lia|].
      pose proof (shared_prefix_bounds (last_key es) key). split; [done|]. split; [apply shared_prefix_take|].
      split; [|split; [by exists i|done]]. intros e He Eke Esh. apply layout_snoc; [done|done| |].
      + intros e' He'. unfold follows. rewrite Esh, Eke. unfold last_key in *. rewrite He' in *. cbn in *.
        split; [lia|apply shared_prefix_take].
      + intros ->. rewrite Esh. by destruct key.
    - exists 0, (idx ++ [length es]), 0. rewrite fmap_app. cbn [fmap list_fmap].
      rewrite off_length, u32_small by lia. split; [done|]. rewrite length_app. cbn [length]. split; [done|].
      pose proof (lengthZ_nonneg (last_key es)). split; [lia|]. split; [by rewrite !takeZ_nonpos|].
      split; [|split; [exists (length es); rewrite last_snoc; split_and!; (done || lia)|lia]].
      intros e He _ Esh. apply layout_restart; [done| |done|done]. intros i' Hi'. assert (i' = i) as -> by congruence. lia. }
  destruct Hsr as (sh & idx' & cnt & -> & Hil & Hsh & Htk & Hlay & Hj & Hcm). rewrite Hlk, Htk.
  rewrite (takeZ_ge (lengthZ key - sh)) by (rewrite lengthZ_dropZ by lia; lia). rewrite takeZ_dropZ.
  rewrite bind_assert by by apply bool_decide_eq_true_2.
  set (e := mkEntry sh key value). exists (mkBlockBuilder ((es ++ [e]) ≫= ebytes) (off (es ++ [e]) <$> idx') (cnt + 1) false key), e, idx'.
  assert (He : entry_ok e) by (unfold e, entry_ok; cbn; lia).
  assert (Hidx : Forall (fun i => (i <= length es)%nat) idx').
  { apply Forall_forall. intros k Hk'. pose proof (Hlay e He eq_refl eq_refl) as Hlo.
    destruct (lo_restart _ _ Hlo k Hk') as [->|Hlt]; [lia|]. rewrite length_app in Hlt. cbn in Hlt. lia. }
  assert (Eoff : off (es ++ [e]) <$> idx' = off es <$> idx').
  { apply list_fmap_ext. intros r k Hk'. apply off_app. by eapply Forall_lookup_1 in Hk'; [|exact Hidx]. }
  split; [|split; [|done]].
  - do 2 f_equal; [|by rewrite Eoff]. rewrite Hbuf, !u32_small by lia. unfold PutVarint32. rewrite bind_app, bind_cons.
    change (ebytes e) with (EncodeVarint32 sh ++ EncodeVarint32 (lengthZ key - sh) ++ EncodeVarint32 (lengthZ value) ++ dropZ sh key ++ value).
    cbn [mbind list_bind]. by rewrite app_nil_r, <- !app_assoc.
  - split; cbn [buffer_ restarts_ counter_ finished_ last_key_]; [by apply Hlay|done|done| |lia|done|].
    + destruct Hj as (j & Ej & Hjl & ->). exists j. rewrite length_app. cbn. split_and!; [done|lia..].
    + unfold last_key. by rewrite last_snoc.
Qed.

(** *** Whole blocks *)

Lemma builder_entries b es idx : builder_ok b es idx -> Forall entry_ok es.
Proof. intros Hb. apply (lo_entries _ _ (bo_layout _ _ _ Hb)). Qed.

Lemma block_entries_length es : Forall entry_ok es -> lengthZ (es ≫= ebytes) <= foldr (fun e n => lengthZ (e_key e) + lengthZ (e_value e) + 15 + n) 0 es.
Proof.
  induction 1 as [|e es He _ IH]; [done|]. rewrite bind_cons, lengthZ_app. cbn [foldr].
  pose proof (ebytes_length e He). destruct He as (? & _ & _). lia.
Qed.

Lemma idx_length es idx : layout_ok es idx -> (length idx <= length es + 1)%nat.
Proof.
  intros Hok. pose proof (lo_first _ _ Hok) as H0. pose proof (lookup_lt_Some _ _ _ H0) as Hl.
  assert (Hr : forall r i, idx !! r = Some i -> (r <= i)%nat).
  { induction r as [|r IH]; intros i Hi; [lia|]. destruct (lookup_lt_is_Some_2 idx r) as [j Hj].
    - apply lookup_lt_Some in Hi. lia.
    - pose proof (lo_sorted _ _ Hok r (S r) j i Hj Hi ltac:(lia)). specialize (IH j Hj). lia. }
  destruct (lookup_lt_is_Some_2 idx (length idx - 1) ltac:(lia)) as [i Hi]. specialize (Hr _ _ Hi).
  destruct (lo_restart _ _ Hok i ltac:(by eapply list_elem_of_lookup_2)); lia.
Qed.


Lemma foldl_PutFixed32 es (l : list nat) buf :
  foldl (PutFixed32 kLittleEndian) buf (off es <$> l) = buf ++ (l ≫= fun i => le_bytes 4 (off es i)).
Proof.
  revert buf. induction l as [|i l IH]; intros buf; cbn [foldl fmap list_fmap]; [by rewrite app_nil_r|].
  rewrite IH. unfold PutFixed32. by rewrite EncodeFixed32_le, bind_cons, <- app_assoc.
Qed.

Lemma BlockBuilder_Finish_ok b es idx :
  builder_ok b es idx -> Z.of_nat (length idx) < 2 ^ 32 ->
  buffer_ (BlockBuilder_Finish b) = block_data es idx.
Proof.
  intros Hb Hn. unfold BlockBuilder_Finish. cbn [buffer_]. rewrite (bo_buffer _ _ _ Hb), (bo_restarts _ _ _ Hb).
  rewrite foldl_PutFixed32. unfold PutFixed32, block_data. rewrite EncodeFixed32_le, lengthZ_length, length_fmap, <- app_assoc.
  by rewrite u32_small by lia.
Qed.

(** The contents are read back: the iterator starts nowhere. *)
Lemma Block_new_ok es idx :
  layout_ok es idx -> lengthZ (block_data es idx) < 2 ^ 32 ->
  let restarts := off es (length es) in
  let num := Z.of_nat (length idx) in
  Block_new (block_data es idx) = Ok (mkBlock (block_data es idx) (lengthZ (block_data es idx)) restarts) /\
  Block_NewIterator (mkBlock (block_data es idx) (lengthZ (block_data es idx)) restarts) =
    Ok (Block_iterator (block_data es idx) restarts num (mkIter restarts num [] None Status_ok)).
Proof.
  intros Hok Hsize. cbv zeta. pose proof (data_length es idx) as Hlen. pose proof (lookup_lt_Some _ _ _ (lo_first _ _ Hok)).
  pose proof (off_bound es idx Hok Hsize 0 ltac:(lia)) as [? _].
  assert (Hn : NumRestarts (block_data es idx) (lengthZ (block_data es idx)) = Ok (Z.of_nat (length idx))).
  { unfold NumRestarts. rewrite bind_assert by (apply Z.leb_le; lia). unfold block_data at 2. rewrite app_assoc, dropZ_app_exact.
    - rewrite <- (app_nil_r (le_bytes _ _)), <- (EncodeFixed32_le kLittleEndian). apply DecodeFixed32_Encode. lia.
    - unfold block_data. rewrite !lengthZ_app, le_bytes_lengthZ. lia. }
  split.
  - unfold Block_new. rewrite (proj2 (Z.ltb_ge _ _)) by lia. rewrite Hn. cbn [mbind outcome_bind].
    rewrite (proj2 (Z.ltb_ge _ _)).
    + rewrite u32_small by lia. do 3 f_equal. lia.
    + apply Z.div_le_lower_bound; lia.
  - unfold Block_NewIterator. cbn [size_ data_ restart_offset_]. rewrite (proj2 (Z.ltb_ge _ _)) by lia. rewrite Hn.
    cbn [mbind outcome_bind]. rewrite (proj2 (Z.eqb_neq _ _)) by lia. unfold Iter_new.
    by rewrite bind_assert by (apply Z.ltb_lt; lia).
Qed.

(** The keys of a builder stay sorted. *)
Definition keys_sorted es : Prop :=
  forall i j e e', es !! i = Some e -> es !! j = Some e' -> (i < j)%nat -> order (e_key e) (e_key e') < 0.

Lemma keys_sorted_snoc es e :
  keys_sorted es -> (forall e', last es = Some e' -> order (e_key e') (e_key e) < 0) -> keys_sorted (es ++ [e]).
Proof.
  intros Hs Hl i j e1 e2 Hi Hj Hij. destruct (decide (j < length es)%nat).
  - rewrite lookup_app_l in Hi, Hj by lia. by eapply Hs.
  - assert (j = length es) as -> by (apply lookup_lt_Some in Hj; rewrite length_app in Hj; cbn in Hj; lia).
    rewrite lookup_app_r, Nat.sub_diag in Hj by lia. injection Hj as <-. rewrite lookup_app_l in Hi by lia.
    destruct (last es) as [e'|] eqn:E; [|apply last_None in E; subst; by rewrite lookup_nil in Hi].
    specialize (Hl e' eq_refl). apply last_lookup_length in E. destruct (decide (i = length es - 1)%nat) as [->|]; [congruence|].
    eapply cmp_lt_trans; [|exact Hl]. eapply Hs; [done|done|lia].
Qed.
End builder.
