(* ===== verification/BlockIter.v ===== *)
(** * LevelDB: the iterator of a block implements the interface, and a block
      that was built from entries gives them back

    [block_of_entries] is the use of a builder. *)

From S2P Require Import Prelude.
From S2P Require Import Bytes.
From S2P Require Import Coding.
From S2P Require Import Comparator.
From S2P Require Import DbFormat.
From S2P Require Import Iterator.
From S2P Require Import Block.
From S2P Require Import BlockSpec.
From stdpp Require Import base tactics numbers list strings.
From Stdlib Require Import Ascii ZArith Lia.

Open Scope Z_scope.

#[local] Notation iter_pos := BlockSpec.iter_pos.

Definition kv (e : bentry) : bytes * bytes := (e_key e, e_value e).

Definition block_of (es : list bentry) (idx : list nat) : Block :=
  mkBlock (block_data es idx) (lengthZ (block_data es idx)) (off es (length es)).

Section iter.
Context {platform : Platform} {C : Type} `{Comparator C} (c : C) `{!ComparatorLaws C c}.
Notation valid_keys es := (Forall (fun e => key_valid (c := c) (e_key e)) es).

#[export] Instance block_Iterator : Iterator block_iterator := {
  it_Valid := bi_Valid;
  it_SeekToFirst := bi_SeekToFirst;
  it_SeekToLast := bi_SeekToLast;
  it_Seek := bi_Seek c;
  it_Next := bi_Next;
  it_Prev := bi_Prev;
  it_key := bi_key;
  it_value := bi_value;
  it_status := bi_status
}.

(** A block that can be searched. *)
Record block_ok (es : list bentry) (idx : list nat) : Prop := {
  bk_layout : layout_ok es idx;
  bk_size : lengthZ (block_data es idx) < 2 ^ 32;
  bk_valid : valid_keys es;
  bk_sorted : keys_sorted c es
}.

Definition block_iter_of (es : list bentry) (idx : list nat) (it : Iter) : block_iterator :=
  Block_iterator (block_data es idx) (off es (length es)) (Z.of_nat (length idx)) it.

Inductive block_iter_at : block_iterator -> list (bytes * bytes) -> nat -> Prop :=
  | at_block es idx it n : block_ok es idx -> iter_pos es idx it n ->
      block_iter_at (block_iter_of es idx it) (kv <$> es) n
  | at_nothing : block_iter_at NewEmptyIterator [] 0.

Lemma first_from_block es target n : first_from c (kv <$> es) target n <-> first_ge es c target n.
Proof.
  unfold first_from, first_ge. rewrite length_fmap. split; intros (Hn & Hlt & Hge); (split; [done|]); split.
  - intros i e He Hi. apply (Hlt i (kv e)); [|done]. by rewrite list_lookup_fmap, He.
  - intros e He. apply (Hge (kv e)). by rewrite list_lookup_fmap, He.
  - intros i e He Hi. rewrite list_lookup_fmap in He. destruct (es !! i) as [x|] eqn:E; [|done]. injection He as <-. by apply (Hlt i x).
  - intros e He. rewrite list_lookup_fmap in He. destruct (es !! n) as [x|] eqn:E; [|done]. injection He as <-. by apply Hge.
Qed.

Lemma iter_pos_bound es idx it n : iter_pos es idx it n -> (n <= length es)%nat.
Proof. unfold iter_pos. destruct (es !! n) eqn:E; [intros _; apply lookup_lt_Some in E; lia|intros []; lia]. Qed.

Lemma past_end_pos es idx it : past_end es it -> iter_pos es idx it (length es).
Proof. intros Hp. unfold iter_pos. by rewrite lookup_ge_None_2. Qed.

Lemma iter_pos_entry es idx it n : iter_pos es idx it n -> (n < length es)%nat -> exists e, es !! n = Some e /\ at_entry es idx it n e.
Proof. intros Hp Hn. destruct (lookup_lt_is_Some_2 es n Hn) as [e He]. exists e. split; [done|]. unfold iter_pos in Hp. by rewrite He in Hp. Qed.

(** An operation on the iterator of a block that moves it. *)
Lemma block_moves es idx it it' m (f : bytes -> Z -> Z -> Iter -> outcome Iter) :
  block_ok es idx -> f (block_data es idx) (off es (length es)) (Z.of_nat (length idx)) it = Ok it' -> iter_pos es idx it' m ->
  exists i', on_iterator f (block_iter_of es idx it) = Ok i' /\ block_iter_at i' (kv <$> es) m.
Proof.
  intros Hb E Hp. exists (block_iter_of es idx it'). cbn [on_iterator block_iter_of]. rewrite E. split; [done|]. by constructor.
Qed.

#[export, refine] Instance block_Iterator_laws : IteratorLaws c block_iterator := { iter_at := block_iter_at; seekable := key_valid (c := c) }.
Proof.
  - intros i es n [es0 idx it m _ Hp|]; [rewrite length_fmap; by eapply iter_pos_bound|done].
  - intros i es n [es0 idx it m [Hl Hs _ _] Hp|]; [|done]. rewrite list_lookup_fmap. cbn [it_Valid block_Iterator bi_Valid block_iter_of].
    rewrite (iter_pos_Valid es0 idx Hl it m Hp). apply bool_decide_ext. by rewrite fmap_is_Some.
  - intros i es n [es0 idx it m [Hl Hs _ _] Hp|]; [|done]. by eapply iter_pos_status.
  - intros i es n k v [es0 idx it m [Hl Hs _ _] Hp|]; [|done]. rewrite list_lookup_fmap. unfold iter_pos in Hp.
    destruct (es0 !! m) as [e|] eqn:E; [|done]. intros [= <- <-]. by eapply iter_key_ok.
  - intros i es n k v [es0 idx it m [Hl Hs _ _] Hp|]; [|done]. rewrite list_lookup_fmap. unfold iter_pos in Hp.
    destruct (es0 !! m) as [e|] eqn:E; [|done]. intros [= <- <-]. by eapply iter_value_ok.
  - intros i es n [es0 idx it m Hb Hp|]; [|by exists NewEmptyIterator; repeat constructor]. pose proof Hb as [Hl Hs _ _].
    destruct (Iter_SeekToFirst_ok es0 idx Hl Hs it (iter_pos_status _ _ _ _ Hp)) as (it' & E & Hp'). by eapply block_moves.
  - intros i es n [es0 idx it m Hb Hp|]; [|by exists NewEmptyIterator; repeat constructor]. pose proof Hb as [Hl Hs _ _].
    destruct (Iter_SeekToLast_ok es0 idx Hl Hs it (iter_pos_status _ _ _ _ Hp)) as (it' & E & Hp'). rewrite length_fmap. by eapply block_moves.
  - intros i es n k m [es0 idx it n0 Hb Hp|] Hk Hm; [|exists NewEmptyIterator; destruct Hm as [Hm _]; cbn in Hm; by replace m with 0%nat by lia; repeat constructor].
    pose proof Hb as [Hl Hs Hv Ho]. apply first_from_block in Hm.
    destruct (Iter_Seek_ok es0 idx Hl Hs c Hv Ho k Hk it m Hm (iter_pos_status _ _ _ _ Hp)) as (it' & E & Hp').
    by apply (block_moves _ _ _ it' _ (fun data restarts n => Iter_Seek c data restarts n k)).
  - intros i es n [es0 idx it m Hb Hp|] Hn; [|by cbn in Hn; lia]. rewrite length_fmap in Hn. pose proof Hb as [Hl Hs _ _].
    destruct (iter_pos_entry _ _ _ _ Hp Hn) as (e & He & Ha). cbn [it_Next block_Iterator]. unfold bi_Next. cbn [bi_Valid block_iter_of].
    rewrite bind_assert by (by eapply at_entry_Valid).
    destruct (Iter_Next_ok es0 idx Hl Hs it m e Ha) as (it' & E & Hp'). by eapply block_moves.
  - intros i es n [es0 idx it m Hb Hp|] Hn; [|by cbn in Hn; lia]. rewrite length_fmap in *. pose proof Hb as [Hl Hs _ _].
    destruct (iter_pos_entry _ _ _ _ Hp Hn) as (e & He & Ha). cbn [it_Prev block_Iterator]. unfold bi_Prev. cbn [bi_Valid block_iter_of].
    rewrite bind_assert by (by eapply at_entry_Valid).
    destruct (Iter_Prev_ok es0 idx Hl Hs it m e Ha) as (it' & E & Hp'). eapply block_moves; [done|exact E|].
    destruct m; [by apply past_end_pos|done].
Defined.

(** A new iterator is nowhere. *)
Lemma Block_NewIterator_at es idx :
  block_ok es idx ->
  Block_new (block_data es idx) = Ok (block_of es idx) /\
  exists i, Block_NewIterator (block_of es idx) = Ok i /\ iter_at c i (kv <$> es) (length es).
Proof.
  intros Hb. pose proof Hb as [Hl Hs _ _]. destruct (Block_new_ok es idx Hl Hs) as [E1 E2]. split; [done|].
  eexists. split; [exact E2|]. apply at_block; [done|]. by apply past_end_pos.
Qed.
End iter.

(** ** Building a block *)

Section build.
Context {platform : Platform} {C : Type} `{Comparator C} (c : C) `{!ComparatorLaws C c}.
Context (interval : Z) (Hinterval : 1 <= interval).
Notation order := (key_order (c := c)).

Fixpoint add_entries (es : list (bytes * bytes)) (b : BlockBuilder) : outcome BlockBuilder :=
  match es with [] => Ok b | (k, v) :: es' => b ← BlockBuilder_Add c interval b k v; add_entries es' b end.

Definition block_of_entries (es : list (bytes * bytes)) : outcome bytes :=
  b ← BlockBuilder_new interval; b ← add_entries es b; Ok (buffer_ (BlockBuilder_Finish b)).

(** What entries take in a block at most. *)
Fixpoint entries_size (es : list (bytes * bytes)) : Z :=
  match es with [] => 0 | (k, v) :: es' => lengthZ k + lengthZ v + 19 + entries_size es' end.

Lemma entries_size_nonneg es : 19 * Z.of_nat (length es) <= entries_size es.
Proof.
  induction es as [|[k v] es IH]; [done|]. cbn [entries_size length]. pose proof (lengthZ_nonneg k). pose proof (lengthZ_nonneg v). lia.
Qed.

Lemma ascending_cons e es : ascending c (e :: es) -> ascending c es /\ forall e', e' ∈ es -> order e.1 e'.1 < 0.
Proof.
  intros Ha. split.
  - intros i j x y Hi Hj Hij. apply (Ha (S i) (S j)); [done|done|lia].
  - intros e' [j Hj]%list_elem_of_lookup. apply (Ha 0%nat (S j)); [done|done|lia].
Qed.

Lemma entries_size_app es es' : entries_size (es ++ es') = entries_size es + entries_size es'.
Proof. induction es as [|[k v] es IH]; [done|]. cbn [entries_size app]. rewrite IH. lia. Qed.

Lemma block_size es idx : layout_ok es idx -> lengthZ (block_data es idx) <= entries_size (kv <$> es) + 8.
Proof.
  intros Hl. rewrite data_length, off_length. pose proof (idx_length es idx Hl).
  assert (lengthZ (es ≫= ebytes) + 4 * Z.of_nat (length es) <= entries_size (kv <$> es)); [|lia].
  pose proof (block_entries_length es (lo_entries _ _ Hl)) as Hs. etransitivity; [apply Z.add_le_mono_r; exact Hs|].
  clear. induction es as [|e es IH]; [done|]. cbn [foldr length fmap list_fmap entries_size kv]. lia.
Qed.

Lemma keys_sorted_ascending es : keys_sorted c es <-> ascending c (kv <$> es).
Proof.
  unfold keys_sorted, ascending. split; intros Hs i j x y Hi Hj Hij.
  - rewrite !list_lookup_fmap in *. destruct (es !! i) eqn:Ei; [|done]. destruct (es !! j) eqn:Ej; [|done].
    injection Hi as <-. injection Hj as <-. by apply (Hs i j).
  - apply (Hs i j (kv x) (kv y)); [by rewrite list_lookup_fmap, Hi|by rewrite list_lookup_fmap, Hj|done].
Qed.

Lemma ascending_last es e l : ascending c (es ++ [e]) -> last es = Some l -> order l.1 e.1 < 0.
Proof.
  intros Ha Hl. apply last_lookup_length in Hl. pose proof (lookup_lt_Some _ _ _ Hl). apply (Ha (length es - 1)%nat (length es)).
  - by apply lookup_app_l_Some.
  - by rewrite lookup_app_r, Nat.sub_diag by lia.
  - lia.
Qed.

Lemma ascending_app_l es es' : ascending c (es ++ es') -> ascending c es.
Proof. intros Ha i j x y Hi Hj. apply (Ha i j); by apply lookup_app_l_Some. Qed.

Lemma add_entries_ok es : forall b bes idx,
  builder_ok interval b bes idx -> ascending c ((kv <$> bes) ++ es) ->
  Forall (fun e => key_valid (c := c) e.1) ((kv <$> bes) ++ es) -> entries_size ((kv <$> bes) ++ es) < 2 ^ 31 ->
  exists b' bes' idx', add_entries es b = Ok b' /\ builder_ok interval b' bes' idx' /\ kv <$> bes' = (kv <$> bes) ++ es.
Proof.
  induction es as [|[k v] es IH]; intros b bes idx Hb Ha Hv Hs; cbn [add_entries].
  { exists b, bes, idx. by rewrite app_nil_r. }
  rewrite (cons_middle (k, v)), app_assoc in Ha, Hv, Hs.
  pose proof (ascending_app_l _ _ Ha) as Ha1. pose proof (proj1 (Forall_app _ _ _) Hv) as [Hv1 _].
  pose proof (proj1 (Forall_app _ _ _) Hv1) as [Hv0 Hk0].
  assert (Hk : key_valid (c := c) k) by (by apply Forall_cons in Hk0 as [Hk0 _]). clear Hk0.
  rewrite !entries_size_app in Hs. cbn [entries_size] in Hs. pose proof (entries_size_nonneg es).
  assert (Hlen : lengthZ (bes ≫= ebytes) <= entries_size (kv <$> bes)).
  { pose proof (block_size _ _ (bo_layout _ _ _ _ Hb)) as Hbs. rewrite data_length, off_length in Hbs.
    pose proof (lookup_lt_Some _ _ _ (lo_first _ _ (bo_layout _ _ _ _ Hb))). lia. }
  destruct (BlockBuilder_Add_ok c interval Hinterval b bes idx k v Hb Hk) as (b' & e & idx' & -> & Hb' & Hek & Hev & _); [|lia|].
  { intros x Hx. split.
    - rewrite Forall_fmap, Forall_forall in Hv0. apply (Hv0 x). apply last_lookup_length in Hx. by eapply list_elem_of_lookup_2.
    - apply (ascending_last _ _ (kv x) Ha1). by rewrite fmap_last, Hx. }
  cbn [mbind outcome_bind]. assert (Ee : kv <$> bes ++ [e] = (kv <$> bes) ++ [(k, v)]).
  { rewrite fmap_app. cbn. unfold kv at 2. by rewrite Hek, Hev. }
  destruct (IH b' (bes ++ [e]) idx' Hb') as (b2 & bes2 & idx2 & -> & Hb2 & E2).
  - by rewrite Ee.
  - by rewrite Ee.
  - rewrite Ee, !entries_size_app. cbn [entries_size]. lia.
  - exists b2, bes2, idx2. split; [done|]. split; [done|]. by rewrite E2, Ee, <- app_assoc.
Qed.

(** What was built from entries in ascending order is a block of them. *)
Lemma block_of_entries_ok es :
  ascending c es -> Forall (fun e => key_valid (c := c) e.1) es -> entries_size es < 2 ^ 31 ->
  exists bes idx, block_of_entries es = Ok (block_data bes idx) /\ block_ok c bes idx /\ kv <$> bes = es.
Proof.
  intros Ha Hv Hs. unfold block_of_entries, BlockBuilder_new. rewrite bind_assert by (by apply Z.leb_le). cbn [mbind outcome_bind].
  destruct (add_entries_ok es _ _ _ (BlockBuilder_Reset_ok interval Hinterval) Ha Hv Hs) as (b & bes & idx & -> & Hb & E).
  cbn [mbind outcome_bind fmap list_fmap app] in *. pose proof (bo_layout _ _ _ _ Hb) as Hl.
  pose proof (block_size bes idx Hl) as Hbs. rewrite E in Hbs.
  assert (Hn : Z.of_nat (length idx) < 2 ^ 32).
  { rewrite data_length, off_length in Hbs. pose proof (lengthZ_nonneg (bes ≫= ebytes)). lia. }
  exists bes, idx. rewrite (BlockBuilder_Finish_ok _ _ _ _ Hb Hn). split; [done|]. split; [|done].
  split; [done|lia| |].
  - rewrite <- E, Forall_fmap in Hv. exact Hv.
  - apply keys_sorted_ascending. by rewrite E.
Qed.
End build.
