(* ===== verification/Format.v ===== *)
(** * LevelDB: the table file's format (lib/leveldb/table/format.h, format.cc)

    Block handles, the footer, and reading a block.  A file for random access
    is a parameter, as is the compression library. *)

From S2P Require Import Prelude.
From S2P Require Import Bytes.
From S2P Require Import Coding.
From S2P Require Import DbFormat.
From S2P Require Import Crc32c.
From stdpp Require Import base tactics numbers list strings.
From Stdlib Require Import Ascii ZArith Lia.

Open Scope Z_scope.

(** ** BlockHandle *)

Record BlockHandle : Type := mkBlockHandle { offset_ : Z; bh_size : Z }.

Definition kMaxEncodedLength : Z := 10 + 10.

(** Both fields are [~0]: not set. *)
Definition BlockHandle_new : BlockHandle := mkBlockHandle (2 ^ 64 - 1) (2 ^ 64 - 1).

Definition BlockHandle_EncodeTo (h : BlockHandle) (dst : bytes) : outcome bytes :=
  _ ← assert_ (negb (offset_ h =? 2 ^ 64 - 1));
  _ ← assert_ (negb (bh_size h =? 2 ^ 64 - 1));
  dst ← PutVarint64 dst (offset_ h);
  PutVarint64 dst (bh_size h).

(** The handle and what is left of the input. *)
Definition BlockHandle_DecodeFrom (input : bytes) : Status * BlockHandle * bytes :=
  match GetVarint64 input with
  | Some (offset, input1) =>
      match GetVarint64 input1 with
      | Some (size, input2) => (Status_ok, mkBlockHandle offset size, input2)
      | None => (Corruption (str "bad block handle"), mkBlockHandle offset (2 ^ 64 - 1), input1)
      end
  | None => (Corruption (str "bad block handle"), BlockHandle_new, input)
  end.

(** ** Footer *)

Record Footer : Type := mkFooter { metaindex_handle_ : BlockHandle; index_handle_ : BlockHandle }.

Definition kEncodedLength : Z := 2 * kMaxEncodedLength + 8.
Definition kTableMagicNumber : Z := 0xdb4775248b80fb57.
Definition kBlockTrailerSize : Z := 5.

(** [std::string::resize]. *)
Definition string_resize (s : bytes) (n : Z) : bytes := takeZ n s ++ replicate (Z.to_nat (n - lengthZ s)) NUL.

Section Footer.
Context {platform : Platform}.

Definition Footer_EncodeTo (f : Footer) (dst : bytes) : outcome bytes :=
  let original_size := lengthZ dst in
  dst ← BlockHandle_EncodeTo (metaindex_handle_ f) dst;
  dst ← BlockHandle_EncodeTo (index_handle_ f) dst;
  let dst := string_resize dst (2 * kMaxEncodedLength) in
  let dst := PutFixed32 kLittleEndian dst (Z.land kTableMagicNumber 0xffffffff) in
  let dst := PutFixed32 kLittleEndian dst (Z.shiftr kTableMagicNumber 32) in
  _ ← assert_ (lengthZ dst =? original_size + kEncodedLength);
  Ok dst.

Definition Footer_DecodeFrom (input : bytes) : outcome (Status * Footer) :=
  let magic_ptr := dropZ (kEncodedLength - 8) input in
  magic_lo ← DecodeFixed32 kLittleEndian magic_ptr;
  magic_hi ← DecodeFixed32 kLittleEndian (dropZ 4 magic_ptr);
  let magic := Z.lor (u64 (Z.shiftl magic_hi 32)) magic_lo in
  if negb (magic =? kTableMagicNumber) then
    Ok (InvalidArgument (str "not an sstable (bad magic number)"), mkFooter BlockHandle_new BlockHandle_new)
  else
    let '(result, metaindex, input1) := BlockHandle_DecodeFrom input in
    if ok result then
      let '(result, index, _) := BlockHandle_DecodeFrom input1 in
      Ok (result, mkFooter metaindex index)
    else Ok (result, mkFooter metaindex BlockHandle_new).
End Footer.

(** ** ReadBlock *)

(** [Read] gives whether it succeeded, the bytes, and whether they are in the
    caller's buffer. *)
Class RandomAccessFile (R : Type) := RandomAccessFile_Read : R -> Z -> Z -> bool * bytes * bool.

(** The compression library, if there is one: [None] for false. *)
Class Snappy := {
  Snappy_Compress : bytes -> option bytes;
  Snappy_GetUncompressedLength : bytes -> option Z;
  Snappy_Uncompress : bytes -> option bytes
}.

Inductive CompressionType : Type := kNoCompression | kSnappyCompression.
Definition compression_value (t : CompressionType) : Z :=
  match t with kNoCompression => 0 | kSnappyCompression => 1 end.

Record BlockContents : Type := mkBlockContents { contents_data : bytes; cachable : bool; heap_allocated : bool }.
Definition BlockContents_new : BlockContents := mkBlockContents [] false false.

Section ReadBlock.
Context {platform : Platform} {R : Type} `{RandomAccessFile R} `{Snappy} (addr : bytes -> Z).

Definition ReadBlock (file : R) (verify_checksums : bool) (handle : BlockHandle) : outcome (Status * BlockContents) :=
  let n := bh_size handle in
  let len := u64 (n + kBlockTrailerSize) in
  let '(s, contents, in_buf) := RandomAccessFile_Read file (offset_ handle) len in
  if negb s then Ok (env_error, BlockContents_new)
  else if negb (lengthZ contents =? len) then Ok (Corruption (str "truncated block read"), BlockContents_new)
  else
    crc_ok ← (if verify_checksums then
        stored ← DecodeFixed32 kLittleEndian (dropZ (n + 1) contents);
        _ ← require (n + 1 <=? lengthZ contents);
        Ok (Value (addr contents) (takeZ (n + 1) contents) =? Unmask stored)
      else Ok true);
    if negb (crc_ok : bool) then Ok (Corruption (str "block checksum mismatch"), BlockContents_new)
    else
      type ← in_bounds (nthZ contents n);
      if u8 type =? compression_value kNoCompression then
        if in_buf : bool then Ok (Status_ok, mkBlockContents (takeZ n contents) true true)
        else Ok (Status_ok, mkBlockContents (takeZ n contents) false false)
      else if u8 type =? compression_value kSnappyCompression then
        match Snappy_GetUncompressedLength (takeZ n contents), Snappy_Uncompress (takeZ n contents) with
        | Some _, Some u => Ok (Status_ok, mkBlockContents u true true)
        | _, _ => Ok (Corruption (str "corrupted compressed block contents"), BlockContents_new)
        end
      else Ok (Corruption (str "bad block type"), BlockContents_new).
End ReadBlock.

(** * LevelDB: handles, footers and blocks are read back *)

Definition handle_ok (h : BlockHandle) : Prop := 0 <= offset_ h < 2 ^ 64 - 1 /\ 0 <= bh_size h < 2 ^ 64 - 1.

Definition handle_bytes (h : BlockHandle) : bytes := varint 9 (offset_ h) ++ varint 9 (bh_size h).

Lemma handle_bytes_length h : 2 <= lengthZ (handle_bytes h) <= 20.
Proof.
  unfold handle_bytes. rewrite lengthZ_app. pose proof (varint_lengthZ 9 (offset_ h)). pose proof (varint_lengthZ 9 (bh_size h)). lia.
Qed.

Lemma BlockHandle_EncodeTo_ok h dst : handle_ok h -> BlockHandle_EncodeTo h dst = Ok (dst ++ handle_bytes h).
Proof.
  intros [Ho Hs]. unfold BlockHandle_EncodeTo, PutVarint64.
  rewrite !bind_assert by (apply negb_true_iff, Z.eqb_neq; lia).
  rewrite !EncodeVarint64_varint by lia. cbn [mbind outcome_bind]. by rewrite <- app_assoc.
Qed.

Lemma GetVarint64_varint v l : 0 <= v < 2 ^ 64 -> GetVarint64 (varint 9 v ++ l) = Some (v, l).
Proof.
  intros Hv. destruct (GetVarint64_Put v l Hv) as (b & E & Hg). rewrite EncodeVarint64_varint in E by done. by injection E as <-.
Qed.

Lemma BlockHandle_DecodeFrom_ok h l : handle_ok h -> BlockHandle_DecodeFrom (handle_bytes h ++ l) = (Status_ok, h, l).
Proof.
  intros [Ho Hs]. unfold BlockHandle_DecodeFrom, handle_bytes. rewrite <- app_assoc, !GetVarint64_varint by lia. by destruct h.
Qed.

Section spec.
Context {platform : Platform}.

(** The footer: two handles, padding and the magic number. *)
Definition footer_bytes (f : Footer) : bytes :=
  string_resize (handle_bytes (metaindex_handle_ f) ++ handle_bytes (index_handle_ f)) 40 ++
  le_bytes 4 (Z.land kTableMagicNumber 0xffffffff) ++ le_bytes 4 (Z.shiftr kTableMagicNumber 32).

Lemma string_resize_length s n : 0 <= n -> lengthZ (string_resize s n) = n.
Proof.
  intros Hn. unfold string_resize. rewrite lengthZ_app, lengthZ_takeZ, (lengthZ_length (replicate _ _)), length_replicate by done.
  pose proof (lengthZ_nonneg s). lia.
Qed.

Lemma footer_bytes_length f : lengthZ (footer_bytes f) = kEncodedLength.
Proof. unfold footer_bytes. rewrite !lengthZ_app, string_resize_length, !le_bytes_lengthZ by lia. done. Qed.

Lemma Footer_EncodeTo_ok f :
  handle_ok (metaindex_handle_ f) -> handle_ok (index_handle_ f) -> Footer_EncodeTo f [] = Ok (footer_bytes f).
Proof.
  intros Hm Hi. unfold Footer_EncodeTo. rewrite BlockHandle_EncodeTo_ok by done. cbn [mbind outcome_bind].
  rewrite BlockHandle_EncodeTo_ok by done. cbn [mbind outcome_bind]. unfold PutFixed32. rewrite !EncodeFixed32_le, <- app_assoc.
  change (2 * kMaxEncodedLength) with 40.
  change (string_resize _ 40 ++ _ ++ _) with (footer_bytes f). rewrite bind_assert; [done|].
  apply Z.eqb_eq. rewrite footer_bytes_length. done.
Qed.

Lemma Footer_DecodeFrom_ok f l :
  handle_ok (metaindex_handle_ f) -> handle_ok (index_handle_ f) ->
  Footer_DecodeFrom (footer_bytes f ++ l) = Ok (Status_ok, f).
Proof.
  intros Hm Hi. unfold Footer_DecodeFrom. change (kEncodedLength - 8) with 40.
  assert (E40 : dropZ 40 (footer_bytes f ++ l) =
    EncodeFixed32 kLittleEndian (Z.land kTableMagicNumber 0xffffffff) ++
    EncodeFixed32 kLittleEndian (Z.shiftr kTableMagicNumber 32) ++ l).
  { unfold footer_bytes. rewrite <- !app_assoc, !EncodeFixed32_le. apply dropZ_app_exact. by rewrite string_resize_length. }
  rewrite E40, DecodeFixed32_Encode by done. cbn [mbind outcome_bind].
  rewrite EncodeFixed32_le, dropZ_app_exact, DecodeFixed32_Encode by done. cbn [mbind outcome_bind].
  change (Z.lor _ _ =? kTableMagicNumber) with true. cbn [negb].
  pose proof (handle_bytes_length (metaindex_handle_ f)). pose proof (handle_bytes_length (index_handle_ f)).
  assert (Eb : exists pad, footer_bytes f ++ l = handle_bytes (metaindex_handle_ f) ++ handle_bytes (index_handle_ f) ++ pad).
  { unfold footer_bytes, string_resize. rewrite takeZ_ge by (rewrite lengthZ_app; lia). rewrite <- !app_assoc. by eexists. }
  destruct Eb as [pad ->]. rewrite !BlockHandle_DecodeFrom_ok by done. cbn [ok]. by destruct f.
Qed.

(** ** Blocks in a file *)

(** The trailer: type and masked checksum. *)
Definition trailer (data : bytes) (t : CompressionType) : bytes :=
  chr (compression_value t) :: le_bytes 4 (Mask (crc32c 0 (data ++ [chr (compression_value t)]))).

Lemma trailer_length data t : lengthZ (trailer data t) = 5.
Proof. unfold trailer. cbn [lengthZ]. by rewrite le_bytes_lengthZ. Qed.

Context {R : Type} `{RandomAccessFile R} `{Snappy} (addr : bytes -> Z).

Lemma Mask_range crc : 0 <= crc < 2 ^ 32 -> 0 <= Mask crc < 2 ^ 32.
Proof. intros Hc. unfold Mask, u32. apply Z.mod_pos_bound. lia. Qed.

(** A handle of a block in a file. *)
Definition reads (file : R) (off : Z) (b : bytes) : Prop :=
  exists in_buf, RandomAccessFile_Read file off (lengthZ b) = (true, b, in_buf).

(** [c] is how [raw] is stored. *)
Definition stored (raw c : bytes) (t : CompressionType) : Prop :=
  match t with
  | kNoCompression => c = raw
  | kSnappyCompression => is_Some (Snappy_GetUncompressedLength c) /\ Snappy_Uncompress c = Some raw
  end.

Lemma trailer_crc file_bytes c t :
  let data := c ++ trailer c t in
  DecodeFixed32 kLittleEndian (dropZ (lengthZ c + 1) data) = Ok (Mask (crc32c 0 (c ++ [chr (compression_value t)]))) /\
  Value (addr file_bytes) (takeZ (lengthZ c + 1) data) = crc32c 0 (c ++ [chr (compression_value t)]).
Proof.
  cbv zeta. unfold trailer. set (b := chr (compression_value t)).
  assert (Hcrc : 0 <= crc32c 0 (c ++ [b]) < 2 ^ 32) by (by apply crc32c_range).
  rewrite (cons_middle b c), (app_assoc c [b]), dropZ_app_exact by (rewrite lengthZ_app; done).
  rewrite <- (app_nil_r (le_bytes _ _)) at 1. rewrite <- (EncodeFixed32_le kLittleEndian) at 1.
  rewrite DecodeFixed32_Encode by (by apply Mask_range). split; [done|].
  rewrite (takeZ_app_exact _ (c ++ [b])) by (rewrite lengthZ_app; done). unfold Value. by apply Extend_crc32c.
Qed.

Lemma ReadBlock_ok file verify off raw c t :
  lengthZ c < 2 ^ 63 -> reads file off (c ++ trailer c t) -> stored raw c t ->
  exists k h, ReadBlock addr file verify (mkBlockHandle off (lengthZ c)) = Ok (Status_ok, mkBlockContents raw k h).
Proof.
  intros Hlen [in_buf Hr] Hst. pose proof (lengthZ_nonneg c). rewrite lengthZ_app, trailer_length in Hr.
  unfold ReadBlock. cbn [bh_size offset_]. change kBlockTrailerSize with 5. rewrite u64_small by lia. rewrite Hr. cbn [negb].
  rewrite lengthZ_app, trailer_length, Z.eqb_refl. cbn [negb].
  destruct (trailer_crc (c ++ trailer c t) c t) as [Hd Hv]. rewrite Hd, Hv.
  set (crc_ok := if verify then _ else Ok true).
  assert (Hc : crc_ok = Ok true).
  { unfold crc_ok. destruct verify; [|done]. cbn [mbind outcome_bind]. rewrite bind_require by (apply Z.leb_le; lia).
    rewrite Unmask_Mask by (by apply crc32c_range). by rewrite Z.eqb_refl. }
  rewrite Hc. cbn [mbind outcome_bind negb]. unfold trailer. rewrite nthZ_app_mid. cbn [in_bounds mbind outcome_bind].
  rewrite !takeZ_app_exact by done. destruct t; cbn [stored] in Hst.
  - subst c. change (u8 (chr (compression_value kNoCompression)) =? compression_value kNoCompression) with true.
    destruct in_buf; eauto.
  - change (u8 (chr (compression_value kSnappyCompression)) =? compression_value kNoCompression) with false.
    change (u8 (chr (compression_value kSnappyCompression)) =? compression_value kSnappyCompression) with true.
    destruct Hst as [[n ->] ->]. eauto.
Qed.

(** With checksums, a block of which one byte was changed is not returned. *)
Lemma ReadBlock_changed file off p x y q t c :
  x <> y -> lengthZ (p ++ x :: q) < 2 ^ 63 ->
  (p ++ y :: q ++ [t] = c) ->
  reads file off (c ++ le_bytes 4 (Mask (crc32c 0 (p ++ x :: q ++ [t])))) ->
  ReadBlock addr file true (mkBlockHandle off (lengthZ (p ++ x :: q))) =
    Ok (Corruption (str "block checksum mismatch"), BlockContents_new).
Proof.
  intros Hxy Hlen <- [in_buf Hr]. pose proof (lengthZ_nonneg (p ++ x :: q)).
  assert (El : lengthZ (p ++ y :: q ++ [t]) = lengthZ (p ++ x :: q) + 1).
  { rewrite !lengthZ_app. cbn [lengthZ]. rewrite lengthZ_app. cbn [lengthZ]. lia. }
  rewrite lengthZ_app, El, le_bytes_lengthZ in Hr.
  unfold ReadBlock. cbn [bh_size offset_]. change kBlockTrailerSize with 5. rewrite u64_small by lia.
  replace (lengthZ (p ++ x :: q) + 5) with (lengthZ (p ++ x :: q) + 1 + Z.of_nat 4) by lia. rewrite Hr. cbn [negb].
  rewrite lengthZ_app, El, le_bytes_lengthZ, Z.eqb_refl. cbn [negb].
  assert (Hcrc : forall b, 0 <= crc32c 0 b < 2 ^ 32) by (intros b; by apply crc32c_range).
  rewrite dropZ_app_exact by done.
  rewrite <- (app_nil_r (le_bytes _ _)), <- (EncodeFixed32_le kLittleEndian), DecodeFixed32_Encode by (by apply Mask_range).
  cbn [mbind outcome_bind]. rewrite bind_require by (apply Z.leb_le; lia).
  rewrite (takeZ_app_exact (lengthZ (p ++ x :: q) + 1)) by done. unfold Value.
  rewrite Extend_crc32c, Unmask_Mask by (done || apply Hcrc). cbn [mbind outcome_bind].
  rewrite (proj2 (Z.eqb_neq _ _)); [done|]. intros E. symmetry in E. by eapply crc32c_byte in E.
Qed.
End spec.

(** What the compression library and a file promise. *)
Class SnappyLaws `{Snappy} : Prop :=
  Snappy_round_trip raw c : Snappy_Compress raw = Some c ->
    is_Some (Snappy_GetUncompressedLength c) /\ Snappy_Uncompress c = Some raw.

Class ReliableRandom (R : Type) `{RandomAccessFile R} := {
  file_bytes : R -> bytes;
  Read_file_bytes f off n : 0 <= off -> 0 <= n -> off + n <= lengthZ (file_bytes f) ->
    exists in_buf, RandomAccessFile_Read f off n = (true, takeZ n (dropZ off (file_bytes f)), in_buf)
}.
