(* ===== verification/Env.v ===== *)
(** * LevelDB: the environment (lib/leveldb/include/leveldb/env.h, util/env.cc)

    The operating system as a class of calls over a state, and what is written
    with them: whole files, and the file CURRENT that names the manifest
    (db/filename.cc).  A file that is being written is the value of its handle;
    closing the handle puts it in place under its name. *)

From S2P Require Import Prelude.
From S2P Require Import Bytes.
From S2P Require Import Coding.
From S2P Require Import Comparator.
From S2P Require Import Filename.
From S2P Require Import Log.
From S2P Require Import LogSpec.
From S2P Require Import Format.
From stdpp Require Import base tactics numbers list strings.
From Stdlib Require Import Ascii ZArith Lia.

Open Scope Z_scope.

(** [env_Close]: the handle of the file of a name is closed, and deleted;
    [env_Drop]: it is deleted without being closed.  [None] and [false] are
    failures. *)
Class Env (E F G R : Type) := {
  env_NewWritableFile : E -> bytes -> option F * E;
  env_Sync : F -> bool * F;
  env_Close : E -> bytes -> F -> bool * E;
  env_Drop : E -> bytes -> F -> E;
  env_NewSequentialFile : E -> bytes -> option G;
  env_NewRandomAccessFile : E -> bytes -> option R;
  env_RenameFile : E -> bytes -> bytes -> bool * E;
  env_DeleteFile : E -> bytes -> bool * E;
  env_FileExists : E -> bytes -> bool
}.

Section env.
Context {E F G R : Type} `{Env E F G R} `{WritableFile F} `{SequentialFile G}.
Implicit Types e : E.

(** ** util/env.cc *)

Definition DoWriteStringToFile e (data fname : bytes) (should_sync : bool) : bool * E :=
  match env_NewWritableFile e fname with
  | (None, e) => (false, e)
  | (Some file, e) =>
      let '(s, file) := Append file data in
      let '(s, file) := if (s : bool) && should_sync then env_Sync file else (s, file) in
      let '(s, e) := if (s : bool) then env_Close e fname file else (s, env_Drop e fname file) in
      if s : bool then (true, e) else let '(_, e) := env_DeleteFile e fname in (false, e)
  end.

Definition WriteStringToFile e (data fname : bytes) : bool * E := DoWriteStringToFile e data fname false.
Definition WriteStringToFileSync e (data fname : bytes) : bool * E := DoWriteStringToFile e data fname true.

Definition kBufferSize : Z := 8192.

Fixpoint read_file_loop (fuel : nat) (file : G) (data : bytes) : outcome (bool * bytes) :=
  match fuel with
  | O => NoFuel
  | S fuel' =>
      let '(s, fragment, file) := Read file kBufferSize in
      if negb s then Ok (false, data)
      else
        let data := data ++ fragment in
        if lengthZ fragment =? 0 then Ok (true, data) else read_file_loop fuel' file data
  end.

Definition ReadFileToString (fuel : nat) e (fname : bytes) : outcome (bool * bytes) :=
  match env_NewSequentialFile e fname with
  | None => Ok (false, [])
  | Some file => read_file_loop fuel file []
  end.

(** ** SetCurrentFile (db/filename.cc) *)

Definition SetCurrentFile e (dbname : bytes) (descriptor_number : Z) : outcome (bool * E) :=
  manifest ← DescriptorFileName dbname descriptor_number;
  starts ← starts_with manifest (dbname ++ str "/");
  _ ← assert_ starts;
  let contents := dropZ (lengthZ dbname + 1) manifest in
  tmp ← TempFileName dbname descriptor_number;
  let '(s, e) := WriteStringToFileSync e (contents ++ [chr 10]) tmp in
  let '(s, e) := if (s : bool) then env_RenameFile e tmp (CurrentFileName dbname) else (s, e) in
  Ok (if s : bool then (true, e) else let '(_, e) := env_DeleteFile e tmp in (false, e)).
End env.

(** ** An environment that does not fail

    [file_of]: the files that are in place. *)
Class ReliableEnv (E F G R : Type) `{Env E F G R} `{ReliableWritable F} `{ReliableSequential G} `{ReliableRandom R} := {
  file_of : E -> bytes -> option bytes;
  NewWritableFile_ok e n : exists f e', env_NewWritableFile e n = (Some f, e') /\ contents f = [] /\
    forall m, file_of e' m = if bool_decide (m = n) then Some [] else file_of e m;
  env_Sync_ok f : exists f', env_Sync f = (true, f') /\ contents f' = contents f;
  Close_ok e n f : exists e', env_Close e n f = (true, e') /\
    forall m, file_of e' m = if bool_decide (m = n) then Some (contents f) else file_of e m;
  NewSequentialFile_ok e n d : file_of e n = Some d -> exists g, env_NewSequentialFile e n = Some g /\ remaining g = d;
  NewRandomAccessFile_ok e n d : file_of e n = Some d -> exists r, env_NewRandomAccessFile e n = Some r /\ file_bytes r = d;
  RenameFile_ok e n n' d : file_of e n = Some d -> exists e', env_RenameFile e n n' = (true, e') /\
    forall m, file_of e' m = if bool_decide (m = n') then Some d else if bool_decide (m = n) then None else file_of e m;
  DeleteFile_ok e n : exists s e', env_DeleteFile e n = (s, e') /\
    forall m, file_of e' m = if bool_decide (m = n) then None else file_of e m;
  FileExists_ok e n : env_FileExists e n = bool_decide (is_Some (file_of e n))
}.

Section spec.
Context {E F G R : Type} `{ReliableEnv E F G R}.
Implicit Types e : E.

Lemma WriteStringToFileSync_ok e data n :
  exists e', WriteStringToFileSync e data n = (true, e') /\
    forall m, file_of e' m = if bool_decide (m = n) then Some data else file_of e m.
Proof.
  unfold WriteStringToFileSync, DoWriteStringToFile.
  destruct (NewWritableFile_ok e n) as (f & e1 & -> & Hf & He1). destruct (Append_contents f data) as (f1 & -> & Hf1). cbn [andb].
  destruct (env_Sync_ok f1) as (f2 & -> & Hf2). destruct (Close_ok e1 n f2) as (e2 & -> & He2).
  exists e2. split; [done|]. intros m. rewrite He2, Hf2, Hf1, Hf, He1. by case_bool_decide.
Qed.

Lemma read_file_loop_ok (g : G) fuel data :
  (length (remaining g) < fuel)%nat -> read_file_loop fuel g data = Ok (true, data ++ remaining g).
Proof.
  revert g data. induction fuel as [|fuel IH]; intros g data Hf; [lia|]. cbn [read_file_loop].
  destruct (Read_remaining g kBufferSize) as (g' & -> & Hg'); [done|]. cbn [negb].
  destruct (remaining g) as [|b l] eqn:E0; [done|].
  assert (Hl : 0 < lengthZ (takeZ kBufferSize (b :: l))).
  { rewrite lengthZ_takeZ by done. cbn [lengthZ]. pose proof (lengthZ_nonneg l). unfold kBufferSize. lia. }
  rewrite (proj2 (Z.eqb_neq _ _)) by lia. rewrite IH, Hg', <- app_assoc, takeZ_dropZ; [done|].
  rewrite Hg', dropZ_drop, length_drop. cbn [length] in *. unfold kBufferSize. lia.
Qed.

Lemma ReadFileToString_ok e n d fuel :
  file_of e n = Some d -> (length d < fuel)%nat -> ReadFileToString fuel e n = Ok (true, d).
Proof.
  intros Hn Hf. unfold ReadFileToString. destruct (NewSequentialFile_ok e n d Hn) as (g & -> & <-). by apply read_file_loop_ok.
Qed.

(** What the file CURRENT says: the name of a manifest. *)
Definition manifest_name (n : Z) : bytes := str "MANIFEST-" ++ pad6 n.

Lemma SetCurrentFile_ok e dbname n :
  0 < n -> exists e', SetCurrentFile e dbname n = Ok (true, e') /\
    file_of e' (CurrentFileName dbname) = Some (manifest_name n ++ [chr 10]) /\
    forall m, m <> CurrentFileName dbname -> m <> MakeFileName dbname n (str "dbtmp") -> file_of e' m = file_of e m.
Proof.
  intros Hn. assert (Hp : (0 <? n) = true) by by apply Z.ltb_lt.
  unfold SetCurrentFile, DescriptorFileName, TempFileName. rewrite !bind_assert by done. cbn [mbind outcome_bind].
  assert (Ed : dbname ++ str "/MANIFEST-" ++ pad6 n = (dbname ++ str "/") ++ manifest_name n).
  { unfold manifest_name. by rewrite <- app_assoc. }
  assert (Hl : lengthZ (dbname ++ str "/") = lengthZ dbname + 1) by by rewrite lengthZ_app.
  rewrite Ed, starts_with_app. cbn [mbind outcome_bind]. rewrite bind_assert by done. rewrite <- Hl, dropZ_app_exact by done.
  destruct (WriteStringToFileSync_ok e (manifest_name n ++ [chr 10]) (MakeFileName dbname n (str "dbtmp"))) as (e1 & -> & He1).
  destruct (RenameFile_ok e1 (MakeFileName dbname n (str "dbtmp")) (CurrentFileName dbname) (manifest_name n ++ [chr 10])) as (e2 & -> & He2).
  { rewrite He1. by rewrite bool_decide_eq_true_2. }
  exists e2. split; [done|]. split; [by rewrite He2, bool_decide_eq_true_2|].
  intros m Hm Hm'. by rewrite He2, !bool_decide_eq_false_2, He1, bool_decide_eq_false_2.
Qed.
End spec.
