(* ===== verification/Bloom.v ===== *)
(** * LevelDB: bloom filters (lib/leveldb/util/hash.cc, util/bloom.cc) *)

From S2P Require Import Prelude.
From S2P Require Import Bytes.
From S2P Require Import Coding.
From S2P Require Import DbFormat.
From stdpp Require Import base tactics numbers list strings.
From Stdlib Require Import Ascii ZArith Lia.

Open Scope Z_scope.

(** A [char] is signed, as on the platforms the program is built for. *)
Definition i8 (b : byte) : Z := if u8 b <? 128 then u8 b else u8 b - 256.

(** ** Hash *)

Section Hash.
Context {platform : Platform}.

Definition hash_m : Z := 0xc6a4a793.
Definition hash_r : Z := 24.

Definition hash_step (h w : Z) : Z :=
  let h := u32 (h + w) in
  let h := u32 (h * hash_m) in
  Z.lxor h (Z.shiftr h 16).

(** The last one to three bytes. *)
Definition hash_tail (h : Z) (data : bytes) : Z :=
  let finish h := let h := u32 (h * hash_m) in Z.lxor h (Z.shiftr h hash_r) in
  match data with
  | [d0; d1; d2] =>
      let h := u32 (h + i8 d2 * 2 ^ 16) in
      let h := u32 (h + i8 d1 * 2 ^ 8) in
      finish (u32 (h + i8 d0))
  | [d0; d1] =>
      let h := u32 (h + i8 d1 * 2 ^ 8) in
      finish (u32 (h + i8 d0))
  | [d0] => finish (u32 (h + i8 d0))
  | _ => h
  end.

Fixpoint hash_words (fuel : nat) (h : Z) (data : bytes) : outcome Z :=
  match fuel with
  | O => NoFuel
  | S fuel' =>
      if 4 <=? lengthZ data then
        w ← DecodeFixed32 kLittleEndian data; hash_words fuel' (hash_step h w) (dropZ 4 data)
      else Ok (hash_tail h data)
  end.

Definition Hash (data : bytes) (seed : Z) : outcome Z :=
  hash_words (S (length data)) (Z.lxor seed (u32 (u64 (lengthZ data * hash_m)))) data.

(** ** BloomFilterPolicy *)

Definition BloomHash (key : bytes) : outcome Z := Hash key 0xbc9f1d34.

Record BloomFilterPolicy : Type := mkBloom { bits_per_key_ : Z; k_ : Z }.

(** [bits_per_key * 0.69], rounded down; up to the bound of 30 the product of
    doubles is never rounded to another integer. *)
Definition BloomFilterPolicy_new (bits_per_key : Z) : BloomFilterPolicy :=
  let k := bits_per_key * 69 / 100 in
  let k := if k <? 1 then 1 else k in
  let k := if 30 <? k then 30 else k in
  mkBloom (u64 bits_per_key) k.

Definition rotate17 (h : Z) : Z := Z.lor (Z.shiftr h 17) (u32 (Z.shiftl h 15)).

(** [array[bitpos/8] |= (1 << (bitpos % 8))]. *)
Definition set_bit (array : bytes) (bitpos : Z) : outcome bytes :=
  b ← in_bounds (nthZ array (bitpos / 8));
  Ok (<[Z.to_nat (bitpos / 8) := chr (Z.lor (u8 b) (Z.shiftl 1 (bitpos mod 8)))]> array).

Fixpoint set_bits (k : nat) (bits h delta : Z) (array : bytes) : outcome bytes :=
  match k with
  | O => Ok array
  | S k' =>
      let bitpos := h mod bits in
      array ← set_bit array bitpos;
      set_bits k' bits (u32 (h + delta)) delta array
  end.

Fixpoint add_keys (k : nat) (bits : Z) (keys : list bytes) (array : bytes) : outcome bytes :=
  match keys with
  | [] => Ok array
  | key :: keys' =>
      h ← BloomHash key;
      array ← set_bits k bits h (rotate17 h) array;
      add_keys k bits keys' array
  end.

Definition BloomFilterPolicy_CreateFilter (p : BloomFilterPolicy) (keys : list bytes) (dst : bytes) : outcome bytes :=
  let bits := u64 (lengthZ keys * bits_per_key_ p) in
  let bits := if bits <? 64 then 64 else bits in
  let size := u64 (bits + 7) / 8 in
  let bits := u64 (size * 8) in
  array ← add_keys (Z.to_nat (k_ p)) bits keys (replicate (Z.to_nat size) NUL);
  Ok (dst ++ array ++ [chr (k_ p)]).

Fixpoint test_bits (k : nat) (bits h delta : Z) (array : bytes) : outcome bool :=
  match k with
  | O => Ok true
  | S k' =>
      let bitpos := h mod bits in
      b ← in_bounds (nthZ array (bitpos / 8));
      if Z.land (u8 b) (Z.shiftl 1 (bitpos mod 8)) =? 0 then Ok false
      else test_bits k' bits (u32 (h + delta)) delta array
  end.

Definition BloomFilterPolicy_KeyMayMatch (key bloom_filter : bytes) : outcome bool :=
  let len := lengthZ bloom_filter in
  if len <? 2 then Ok false
  else
    let bits := (len - 1) * 8 in
    last ← in_bounds (nthZ bloom_filter (len - 1));
    let k := u64 (i8 last) in
    if 30 <? k then Ok true
    else
      h ← BloomHash key;
      test_bits (Z.to_nat k) bits h (rotate17 h) bloom_filter.
End Hash.

(** ** No key is denied *)

Section spec.
Context {platform : Platform}.
Implicit Types array : bytes.

Lemma i8_small b : 0 <= u8 b < 128 -> i8 b = u8 b.
Proof. intros Hb. unfold i8. by rewrite (proj2 (Z.ltb_lt _ _)) by lia. Qed.

Lemma lxor_shift_range h n : 0 <= n -> 0 <= h < 2 ^ 32 -> 0 <= Z.lxor h (Z.shiftr h n) < 2 ^ 32.
Proof.
  intros Hn Hh. apply lxor_range; [lia|done|]. rewrite Z.shiftr_div_pow2 by done.
  assert (0 < 2 ^ n) by lia. split; [apply Z.div_pos; lia|].
  apply Z.div_lt_upper_bound; [done|]. nia.
Qed.

(** The hash is defined for every string. *)
Lemma hash_words_ok fuel h data :
  (length data < fuel)%nat -> 0 <= h < 2 ^ 32 -> exists r, hash_words fuel h data = Ok r /\ 0 <= r < 2 ^ 32.
Proof.
  revert h data. induction fuel as [|fuel IH]; intros h data Hf Hh; [lia|]. cbn [hash_words].
  destruct (Z.leb_spec 4 (lengthZ data)) as [H4|H4].
  - destruct data as [|b0 [|b1 [|b2 [|b3 l]]]]; cbn [lengthZ] in H4; try lia.
    rewrite DecodeFixed32_le. cbn [mbind outcome_bind]. apply IH.
    + rewrite !dropZ_cons, dropZ_nonpos by lia. cbn in Hf. lia.
    + apply lxor_shift_range; [lia|apply u32_range].
  - eexists. split; [done|]. unfold hash_tail.
    destruct data as [|b0 [|b1 [|b2 [|b3 l]]]]; try done;
      (apply lxor_shift_range; [unfold hash_r; lia|apply u32_range]).
Qed.

Lemma BloomHash_ok key : exists h, BloomHash key = Ok h /\ 0 <= h < 2 ^ 32.
Proof.
  apply hash_words_ok; [lia|]. apply lxor_range; [lia|lia|apply u32_range].
Qed.

Definition has_bit array (pos : Z) : Prop :=
  exists b, nthZ array (pos / 8) = Some b /\ Z.testbit (u8 b) (pos mod 8) = true.

Lemma set_bit_ok array bits pos :
  bits = lengthZ array * 8 -> 0 <= pos < bits ->
  exists array', set_bit array pos = Ok array' /\ lengthZ array' = lengthZ array /\ has_bit array' pos /\
    forall p, 0 <= p -> has_bit array p -> has_bit array' p.
Proof.
  intros -> Hpos. assert (Hi : 0 <= pos / 8 < lengthZ array).
  { split; [apply Z.div_pos; lia|apply Z.div_lt_upper_bound; lia]. }
  pose proof (Z.mod_pos_bound pos 8 ltac:(lia)) as Hm.
  rewrite lengthZ_length in Hi. destruct (lookup_lt_is_Some_2 array (Z.to_nat (pos / 8)) ltac:(lia)) as [b Hb].
  assert (Hn : nthZ array (pos / 8) = Some b) by (by rewrite nthZ_lookup by lia).
  unfold set_bit. rewrite Hn. cbn [in_bounds mbind outcome_bind].
  set (v := Z.lor (u8 b) (Z.shiftl 1 (pos mod 8))).
  assert (Hv : u8 (chr v) = v).
  { rewrite u8_chr, Z.mod_small; [done|]. unfold v. pose proof (u8_range b).
    assert (Z.shiftl 1 (pos mod 8) < 2 ^ 8 /\ 0 <= Z.shiftl 1 (pos mod 8)).
    { rewrite Z.shiftl_1_l. split; [apply Z.pow_lt_mono_r; lia|lia]. }
    change 256 with (2 ^ 8). split; [apply Z.lor_nonneg; lia|]. apply lor_lt; lia. }
  assert (Hbit : forall i, 0 <= i -> Z.testbit v i = Z.testbit (u8 b) i || (i =? pos mod 8)).
  { intros i Hi0. unfold v. rewrite Z.lor_spec, Z.shiftl_1_l, Z.pow2_bits_eqb by lia. by rewrite Z.eqb_sym. }
  eexists. split; [done|]. split; [by rewrite !lengthZ_length, length_insert|]. split.
  - exists (chr v). rewrite nthZ_lookup, list_lookup_insert_eq by lia. split; [done|].
    rewrite Hv, Hbit, Z.eqb_refl by lia. apply orb_true_r.
  - intros p Hp (b' & Hb' & Ht). destruct (Z.eq_dec (p / 8) (pos / 8)) as [E|E].
    + exists (chr v). rewrite E, nthZ_lookup, list_lookup_insert_eq by lia. split; [done|].
      rewrite E, Hn in Hb'. injection Hb' as <-. pose proof (Z.mod_pos_bound p 8). by rewrite Hv, Hbit, Ht by lia.
    + exists b'. split; [|done]. assert (0 <= p / 8) by (apply Z.div_pos; lia).
      rewrite nthZ_lookup in Hb' |- * by lia. by rewrite list_lookup_insert_ne by lia.
Qed.

(** The positions of the probes. *)
Fixpoint probes (k : nat) (bits h delta : Z) : list Z :=
  match k with O => [] | S k' => h mod bits :: probes k' bits (u32 (h + delta)) delta end.

Definition has_probes array (ps : list Z) : Prop := Forall (fun p => 0 <= p /\ has_bit array p) ps.

Lemma has_probes_mono array array' ps :
  (forall p, 0 <= p -> has_bit array p -> has_bit array' p) -> has_probes array ps -> has_probes array' ps.
Proof. intros Hm Hps. eapply Forall_impl; [exact Hps|]. intros p [Hp Hb]. split; [done|by apply Hm]. Qed.

Lemma set_bits_ok k : forall bits h delta array,
  bits = lengthZ array * 8 -> 0 < bits -> 
  exists array', set_bits k bits h delta array = Ok array' /\ lengthZ array' = lengthZ array /\
    has_probes array' (probes k bits h delta) /\ forall p, 0 <= p -> has_bit array p -> has_bit array' p.
Proof.
  induction k as [|k IH]; intros bits h delta array Hb Hpos; cbn [set_bits probes].
  - exists array. split_and!; try done. constructor.
  - pose proof (Z.mod_pos_bound h bits Hpos) as Hm.
    destruct (set_bit_ok array bits (h mod bits) Hb Hm) as (a1 & -> & Hl1 & Hs1 & Hm1). cbn [mbind outcome_bind].
    destruct (IH bits (u32 (h + delta)) delta a1) as (a2 & -> & Hl2 & Hs2 & Hm2); [by rewrite Hl1|done|].
    exists a2. split; [done|]. split; [lia|]. split; [|intros p Hp Hbit; by apply Hm2, Hm1].
    constructor; [|done]. split; [lia|]. by apply Hm2; [lia|].
Qed.

Definition key_probes (k : nat) (bits : Z) (key : bytes) (ps : list Z) : Prop :=
  exists h, BloomHash key = Ok h /\ ps = probes k bits h (rotate17 h).

Lemma add_keys_ok k bits keys : forall array,
  bits = lengthZ array * 8 -> 0 < bits ->
  exists array', add_keys k bits keys array = Ok array' /\ lengthZ array' = lengthZ array /\
    (forall p, 0 <= p -> has_bit array p -> has_bit array' p) /\
    forall key, key ∈ keys -> exists ps, key_probes k bits key ps /\ has_probes array' ps.
Proof.
  induction keys as [|key keys IH]; intros array Hb Hpos; cbn [add_keys].
  { exists array. split_and!; try done. by intros key Hk%elem_of_nil. }
  destruct (BloomHash_ok key) as (h & Eh & Hh). rewrite Eh. cbn [mbind outcome_bind].
  destruct (set_bits_ok k bits h (rotate17 h) array Hb Hpos) as (a1 & -> & Hl1 & Hs1 & Hm1). cbn [mbind outcome_bind].
  destruct (IH a1) as (a2 & -> & Hl2 & Hm2 & Hs2); [by rewrite Hl1|done|].
  exists a2. split; [done|]. split; [lia|]. split; [intros p Hp Hbit; by apply Hm2, Hm1|].
  intros key' [->|Hk]%elem_of_cons; [|by apply Hs2].
  eexists. split; [by exists h|]. by eapply has_probes_mono.
Qed.

Lemma land_bit v i : 0 <= i -> Z.testbit v i = true -> (Z.land v (Z.shiftl 1 i) =? 0) = false.
Proof.
  intros Hi Ht. apply Z.eqb_neq. intros E. apply (f_equal (fun z => Z.testbit z i)) in E.
  rewrite Z.land_spec, Ht, Z.shiftl_1_l, Z.pow2_bits_true, Z.bits_0 in E by done. done.
Qed.

Lemma test_bits_ok k : forall bits h delta array,
  has_probes array (probes k bits h delta) -> test_bits k bits h delta array = Ok true.
Proof.
  induction k as [|k IH]; intros bits h delta array Hp; [done|]. cbn [test_bits probes] in *.
  apply Forall_cons in Hp as [(Hpos & b & Hb & Ht) Hp]. rewrite Hb. cbn [in_bounds mbind outcome_bind].
  rewrite land_bit by (done || by apply Z.mod_pos_bound). by apply IH.
Qed.

Definition policy_ok (p : BloomFilterPolicy) : Prop := 1 <= k_ p <= 30 /\ 0 <= bits_per_key_ p < 2 ^ 31.

Lemma BloomFilterPolicy_new_ok n : 0 <= n < 2 ^ 31 -> policy_ok (BloomFilterPolicy_new n).
Proof.
  intros Hn. unfold policy_ok, BloomFilterPolicy_new. cbn [k_ bits_per_key_]. rewrite u64_small by lia. split; [|done].
  repeat case_match; bools; lia.
Qed.

(** The filter of some keys is defined, and every one of them may match. *)
Lemma bloom_ok p keys dst :
  policy_ok p -> lengthZ keys < 2 ^ 31 ->
  exists filter, BloomFilterPolicy_CreateFilter p keys dst = Ok (dst ++ filter) /\
    forall key, key ∈ keys -> BloomFilterPolicy_KeyMayMatch key filter = Ok true.
Proof.
  intros [Hk Hbpk] Hn. pose proof (lengthZ_nonneg keys). unfold BloomFilterPolicy_CreateFilter.
  assert (Hmul : 0 <= lengthZ keys * bits_per_key_ p < 2 ^ 62).
  { split; [apply Z.mul_nonneg_nonneg; lia|]. change (2 ^ 62) with (2 ^ 31 * 2 ^ 31). apply Z.mul_lt_mono_nonneg; lia. }
  rewrite (u64_small (lengthZ keys * bits_per_key_ p)) by lia. set (bits := if _ <? 64 then 64 else _).
  assert (Hbits : 64 <= bits < 2 ^ 62 + 64).
  { unfold bits. destruct (Z.ltb_spec (lengthZ keys * bits_per_key_ p) 64); lia. }
  rewrite (u64_small (bits + 7)) by lia. set (size := (bits + 7) / 8).
  assert (Hsize : 8 <= size < 2 ^ 60).
  { unfold size. split; [apply Z.div_le_lower_bound; lia|apply Z.div_lt_upper_bound; lia]. }
  rewrite u64_small by lia.
  assert (Hrep : lengthZ (replicate (Z.to_nat size) NUL) = size) by (rewrite lengthZ_length, length_replicate; lia).
  destruct (add_keys_ok (Z.to_nat (k_ p)) (size * 8) keys (replicate (Z.to_nat size) NUL)) as (array & -> & Hl & _ & Hkeys);
    [by rewrite Hrep|lia|]. cbn [mbind outcome_bind].
  exists (array ++ [chr (k_ p)]). split; [done|]. intros key Hkey. rewrite Hrep in Hl.
  unfold BloomFilterPolicy_KeyMayMatch. rewrite lengthZ_app, Hl. cbn [lengthZ].
  rewrite (proj2 (Z.ltb_ge _ _)) by lia. rewrite Z.add_simpl_r.
  assert (Hlast : nthZ (array ++ [chr (k_ p)]) size = Some (chr (k_ p))) by (rewrite <- Hl; apply nthZ_app_mid).
  replace (size + (1 + 0) - 1) with size by lia. rewrite Hlast. cbn [in_bounds mbind outcome_bind].
  assert (Hki : i8 (chr (k_ p)) = k_ p) by (rewrite i8_small; rewrite u8_chr, Z.mod_small; lia).
  rewrite Hki, u64_small by lia. rewrite (proj2 (Z.ltb_ge _ _)) by lia.
  destruct (Hkeys key Hkey) as (ps & (h & -> & ->) & Hps). cbn [mbind outcome_bind].
  apply test_bits_ok. eapply has_probes_mono; [|exact Hps].
  intros q Hq (b & Hb & Ht). exists b. split; [|done]. rewrite nthZ_app_l; [done|]. apply nthZ_lt in Hb. lia.
Qed.
End spec.
