(* ===== verification/FilterBlock.v ===== *)
(** * LevelDB: filter blocks (lib/leveldb/table/filter_block.cc)

    One filter for every 2KB of data.  The policy is an interface, which the
    bloom filter implements, and so does the policy for internal keys, on top of
    any other. *)

From S2P Require Import Prelude.
From S2P Require Import Bytes.
From S2P Require Import Coding.
From S2P Require Import DbFormat.
From S2P Require Import Bloom.
From stdpp Require Import base tactics numbers list strings.
From Stdlib Require Import Ascii ZArith Lia.
From stdpp Require Import base tactics numbers list sorting strings.

Open Scope Z_scope.

(** ** FilterPolicy *)

Class FilterPolicy (P : Type) := {
  policy_Name : P -> bytes;
  CreateFilter : P -> list bytes -> bytes -> outcome bytes;
  KeyMayMatch : P -> bytes -> bytes -> outcome bool
}.

(** What a policy promises, for the keys it can be given. *)
Class FilterPolicyLaws (P : Type) `{FilterPolicy P} (p : P) := {
  filter_key : bytes -> Prop;
  CreateFilter_ok keys dst : Forall filter_key keys -> lengthZ keys < 2 ^ 31 ->
    exists filter, CreateFilter p keys dst = Ok (dst ++ filter) /\
      forall key, key ∈ keys -> KeyMayMatch p key filter = Ok true
}.

#[export] Instance bloom_policy {platform : Platform} : FilterPolicy BloomFilterPolicy := {
  policy_Name _ := str "leveldb.BuiltinBloomFilter";
  CreateFilter := BloomFilterPolicy_CreateFilter;
  KeyMayMatch _ := BloomFilterPolicy_KeyMayMatch
}.

#[export, refine] Instance bloom_laws {platform : Platform} n (Hn : 0 <= n < 2 ^ 31) :
  FilterPolicyLaws BloomFilterPolicy (BloomFilterPolicy_new n) := { filter_key _ := True }.
Proof. intros keys dst _ Hk. by apply bloom_ok; [apply BloomFilterPolicy_new_ok|]. Defined.

(** [InternalFilterPolicy] of dbformat.cc: the filter is over user keys. *)
Record InternalFilterPolicy (P : Type) : Type := mkInternalFilterPolicy { user_policy_ : P }.
Arguments mkInternalFilterPolicy {P} _.
Arguments user_policy_ {P} _.

Fixpoint user_keys (keys : list bytes) : outcome (list bytes) :=
  match keys with
  | [] => Ok []
  | key :: keys' => u ← ExtractUserKey key; us ← user_keys keys'; Ok (u :: us)
  end.

#[export] Instance internal_policy {P : Type} `{FilterPolicy P} : FilterPolicy (InternalFilterPolicy P) := {
  policy_Name p := policy_Name (user_policy_ p);
  CreateFilter p keys dst := us ← user_keys keys; CreateFilter (user_policy_ p) us dst;
  KeyMayMatch p key f := u ← ExtractUserKey key; KeyMayMatch (user_policy_ p) u f
}.

Lemma user_keys_ok keys : Forall (fun k => 8 <= lengthZ k) keys -> user_keys keys = Ok (user_part <$> keys).
Proof.
  induction 1 as [|key keys Hk _ IH]; [done|]. cbn [user_keys]. rewrite ExtractUserKey_ok by done.
  cbn [mbind outcome_bind]. by rewrite IH.
Qed.

#[export, refine] Instance internal_policy_laws {P : Type} `{FilterPolicyLaws P p} :
  FilterPolicyLaws (InternalFilterPolicy P) (mkInternalFilterPolicy p) :=
  { filter_key k := 8 <= lengthZ k /\ filter_key (p := p) (user_part k) }.
Proof.
  intros keys dst Hk Hn. cbn [CreateFilter KeyMayMatch internal_policy user_policy_].
  rewrite user_keys_ok by (eapply Forall_impl; [exact Hk|by intros k []]). cbn [mbind outcome_bind].
  destruct (CreateFilter_ok (p := p) (user_part <$> keys) dst) as (f & Ef & Hf).
  - apply Forall_fmap. eapply Forall_impl; [exact Hk|by intros k []].
  - by rewrite lengthZ_length, length_fmap, <- lengthZ_length.
  - exists f. split; [done|]. intros key Hin. rewrite Forall_forall in Hk. specialize (Hk key Hin) as [H8 _].
    rewrite ExtractUserKey_ok by done. apply Hf. by apply list_elem_of_fmap_2.
Defined.

(** ** FilterBlockBuilder *)

Definition kFilterBaseLg : Z := 11.
Definition kFilterBase : Z := Z.shiftl 1 kFilterBaseLg.

Record FilterBlockBuilder : Type := mkFilterBlockBuilder
  { fb_keys : bytes; fb_start : list Z; fb_result : bytes; filter_offsets_ : list Z }.

Definition FilterBlockBuilder_new : FilterBlockBuilder := mkFilterBlockBuilder [] [] [] [].

Section FilterBlock.
Context {platform : Platform} {P : Type} `{FilterPolicy P} (policy_ : P).

(** The keys, from their start positions. *)
Fixpoint tmp_keys (keys : bytes) (start : list Z) : list bytes :=
  match start with
  | s :: (s' :: _) as start' => takeZ (s' - s) (dropZ s keys) :: tmp_keys keys start'
  | _ => []
  end.

Definition GenerateFilter (b : FilterBlockBuilder) : outcome FilterBlockBuilder :=
  let num_keys := lengthZ (fb_start b) in
  let offsets := filter_offsets_ b ++ [u32 (lengthZ (fb_result b))] in
  if num_keys =? 0 then Ok (mkFilterBlockBuilder (fb_keys b) (fb_start b) (fb_result b) offsets)
  else
    let start := fb_start b ++ [lengthZ (fb_keys b)] in
    result ← CreateFilter policy_ (tmp_keys (fb_keys b) start) (fb_result b);
    Ok (mkFilterBlockBuilder [] [] result offsets).

Fixpoint start_loop (n : nat) (b : FilterBlockBuilder) : outcome FilterBlockBuilder :=
  match n with O => Ok b | S n' => b ← GenerateFilter b; start_loop n' b end.

(** The loop runs until there is a filter for every index before. *)
Definition StartBlock (block_offset : Z) (b : FilterBlockBuilder) : outcome FilterBlockBuilder :=
  let filter_index := block_offset / kFilterBase in
  _ ← assert_ (lengthZ (filter_offsets_ b) <=? filter_index);
  start_loop (Z.to_nat (filter_index - lengthZ (filter_offsets_ b))) b.

Definition AddKey (key : bytes) (b : FilterBlockBuilder) : FilterBlockBuilder :=
  mkFilterBlockBuilder (fb_keys b ++ key) (fb_start b ++ [lengthZ (fb_keys b)]) (fb_result b) (filter_offsets_ b).

Definition FilterBlockBuilder_Finish (b : FilterBlockBuilder) : outcome FilterBlockBuilder :=
  b ← (if negb (lengthZ (fb_start b) =? 0) then GenerateFilter b else Ok b);
  let array_offset := u32 (lengthZ (fb_result b)) in
  let result := foldl (PutFixed32 kLittleEndian) (fb_result b) (filter_offsets_ b) in
  let result := PutFixed32 kLittleEndian result array_offset ++ [chr kFilterBaseLg] in
  Ok (mkFilterBlockBuilder (fb_keys b) (fb_start b) result (filter_offsets_ b)).

(** ** FilterBlockReader *)

Record FilterBlockReader : Type := mkFilterBlockReader
  { fr_data : bytes; fr_offset : Z; fr_num : Z; fr_base_lg : Z }.

Definition FilterBlockReader_new (contents : bytes) : outcome FilterBlockReader :=
  let n := lengthZ contents in
  if n <? 5 then Ok (mkFilterBlockReader [] 0 0 0)
  else
    base_lg ← in_bounds (nthZ contents (n - 1));
    last_word ← DecodeFixed32 kLittleEndian (dropZ (n - 5) contents);
    if n - 5 <? last_word then Ok (mkFilterBlockReader [] 0 0 (u64 (i8 base_lg)))
    else Ok (mkFilterBlockReader contents last_word ((n - 5 - last_word) / 4) (u64 (i8 base_lg))).

(** A shift by 64 bits or more is undefined. *)
Definition FilterBlockReader_KeyMayMatch (r : FilterBlockReader) (block_offset : Z) (key : bytes) : outcome bool :=
  _ ← require (fr_base_lg r <? 64);
  let index := Z.shiftr block_offset (fr_base_lg r) in
  if index <? fr_num r then
    start ← DecodeFixed32 kLittleEndian (dropZ (fr_offset r + index * 4) (fr_data r));
    limit ← DecodeFixed32 kLittleEndian (dropZ (fr_offset r + index * 4 + 4) (fr_data r));
    if (start <=? limit) && (limit <=? fr_offset r) then
      KeyMayMatch policy_ key (takeZ (limit - start) (dropZ start (fr_data r)))
    else if start =? limit then Ok false
    else Ok true
  else Ok true.
End FilterBlock.

(** * LevelDB: filter blocks deny no key *)

(** A filter and the keys it is for. *)
Record filter : Type := mkFilter { f_bytes : bytes; f_keys : list bytes }.
Implicit Types f : filter.
Implicit Types fs : list filter.

Definition filters_data fs : bytes := fs ≫= f_bytes.

(** The offsets of the filters. *)
Definition foff fs (i : nat) : Z := lengthZ (filters_data (take i fs)).

Fixpoint starts (off : Z) (ks : list bytes) : list Z :=
  match ks with [] => [] | k :: ks' => off :: starts (off + lengthZ k) ks' end.

Lemma starts_snoc off ks k : starts off (ks ++ [k]) = starts off ks ++ [off + lengthZ (concat ks)].
Proof.
  revert off. induction ks as [|x ks IH]; intros off; cbn [starts app concat lengthZ]; [by rewrite Z.add_0_r|].
  rewrite IH, lengthZ_app. by rewrite Z.add_assoc.
Qed.

Lemma starts_length off ks : length (starts off ks) = length ks.
Proof. revert off. induction ks as [|k ks IH]; intros off; [done|]. cbn. by rewrite IH. Qed.

Lemma tmp_keys_starts pre ks :
  tmp_keys (pre ++ concat ks) (starts (lengthZ pre) ks ++ [lengthZ (pre ++ concat ks)]) = ks.
Proof.
  revert pre. induction ks as [|k ks IH]; intros pre; [done|]. cbn [starts concat app].
  specialize (IH (pre ++ k)). rewrite <- !app_assoc, lengthZ_app in IH.
  destruct ks as [|k' ks]; cbn [starts app tmp_keys] in *; rewrite dropZ_app_exact by done; f_equal; try done.
  - cbn [concat]. rewrite !app_nil_r, lengthZ_app. apply takeZ_ge. lia.
  - rewrite Z.add_simpl_l. by apply takeZ_app_exact.
Qed.

Section spec.
Context {platform : Platform} {P : Type} `{FilterPolicyLaws P policy}.

Definition answers f : Prop := forall key, key ∈ f_keys f -> KeyMayMatch policy key (f_bytes f) = Ok true.

Record fb_ok (b : FilterBlockBuilder) fs (pending : list bytes) : Prop := {
  fo_result : fb_result b = filters_data fs;
  fo_offsets : filter_offsets_ b = (fun i => u32 (foff fs i)) <$> seq 0 (length fs);
  fo_keys : fb_keys b = concat pending;
  fo_start : fb_start b = starts 0 pending;
  fo_answers : Forall answers fs;
  fo_pending : Forall (filter_key (p := policy)) pending
}.

Lemma FilterBlockBuilder_new_ok : fb_ok FilterBlockBuilder_new [] [].
Proof. split; try done; constructor. Qed.

Lemma AddKey_ok b fs pending key :
  fb_ok b fs pending -> filter_key (p := policy) key -> fb_ok (AddKey key b) fs (pending ++ [key]).
Proof.
  intros [H1 H2 H3 H4 H5 H6] Hk. split; cbn [AddKey fb_result filter_offsets_ fb_keys fb_start]; try done.
  - by rewrite H3, concat_app; cbn; rewrite app_nil_r.
  - by rewrite H3, H4, starts_snoc.
  - by apply Forall_app; split; [|constructor].
Qed.

Lemma foff_snoc fs f i : (i <= length fs)%nat -> foff (fs ++ [f]) i = foff fs i.
Proof. intros Hi. unfold foff. by rewrite take_app_le. Qed.

Lemma offsets_snoc fs f :
  (fun i => u32 (foff (fs ++ [f]) i)) <$> seq 0 (length (fs ++ [f])) =
  ((fun i => u32 (foff fs i)) <$> seq 0 (length fs)) ++ [u32 (lengthZ (filters_data fs))].
Proof.
  rewrite length_app. cbn [length]. rewrite Nat.add_1_r, seq_S, fmap_app. cbn [fmap list_fmap]. f_equal.
  - apply list_fmap_ext. intros k i Hi. apply lookup_seq in Hi as [-> Hi]. by rewrite foff_snoc by lia.
  - do 2 f_equal. rewrite Nat.add_0_l, foff_snoc by lia. unfold foff. by rewrite firstn_all.
Qed.

Lemma GenerateFilter_ok b fs pending :
  fb_ok b fs pending -> lengthZ pending < 2 ^ 31 ->
  exists b' f, GenerateFilter policy b = Ok b' /\ fb_ok b' (fs ++ [f]) [] /\ f_keys f = pending.
Proof.
  intros [H1 H2 H3 H4 H5 H6] Hn. unfold GenerateFilter.
  assert (Hl : lengthZ (fb_start b) = lengthZ pending) by (by rewrite H4, !lengthZ_length, starts_length).
  assert (Hdata : forall f, filters_data (fs ++ [f]) = fb_result b ++ f_bytes f).
  { intros f. rewrite H1. unfold filters_data. rewrite bind_app. cbn. by rewrite app_nil_r. }
  rewrite Hl. destruct (Z.eqb_spec (lengthZ pending) 0) as [E|E].
  - destruct pending; [|cbn in E; pose proof (lengthZ_nonneg pending); lia].
    exists (mkFilterBlockBuilder (fb_keys b) (fb_start b) (fb_result b) (filter_offsets_ b ++ [u32 (lengthZ (fb_result b))])), (mkFilter [] []).
    split; [done|]. split; [|done]. split; cbn [fb_result filter_offsets_ fb_keys fb_start]; try done.
    + by rewrite Hdata, app_nil_r.
    + by rewrite offsets_snoc, H2, H1.
    + apply Forall_app. split; [done|]. apply Forall_singleton. by intros key Hk%elem_of_nil.
  - destruct (CreateFilter_ok (p := policy) pending (fb_result b) H6 Hn) as (f & Ef & Hf).
    pose proof (tmp_keys_starts [] pending) as Ht. cbn [app lengthZ] in Ht.
    rewrite H3, H4, Ht, Ef. cbn [mbind outcome_bind]. eexists _, (mkFilter f pending). split; [done|]. split; [|done].
    split; cbn [fb_result filter_offsets_ fb_keys fb_start]; try done.
    + by rewrite offsets_snoc, H2, H1.
    + apply Forall_app. split; [done|]. by apply Forall_singleton.
Qed.

Lemma start_loop_ok n b fs :
  fb_ok b fs [] -> exists b' fs', start_loop policy n b = Ok b' /\ fb_ok b' (fs ++ fs') [] /\ length fs' = n.
Proof.
  revert b fs. induction n as [|n IH]; intros b fs Hb; cbn [start_loop].
  - exists b, []. by rewrite app_nil_r.
  - destruct (GenerateFilter_ok b fs [] Hb) as (b1 & f & -> & Hb1 & _); [done|]. cbn [mbind outcome_bind].
    destruct (IH b1 _ Hb1) as (b' & fs' & -> & Hb' & Hl). exists b', (f :: fs'). rewrite <- app_assoc in Hb'. cbn in *. auto.
Qed.

(** The keys that are pending go to the filter of the block they were added
    for. *)
Lemma StartBlock_ok b fs pending off :
  fb_ok b fs pending -> lengthZ pending < 2 ^ 31 -> Z.of_nat (length fs) <= off / kFilterBase ->
  exists b' fs' pending', StartBlock policy off b = Ok b' /\ fb_ok b' fs' pending' /\
    Z.of_nat (length fs') = off / kFilterBase /\
    ((fs' = fs /\ pending' = pending) \/
     (pending' = [] /\ exists f fs1, fs' = fs ++ f :: fs1 /\ f_keys f = pending)).
Proof.
  intros Hb Hn Hoff. unfold StartBlock. rewrite (fo_offsets _ _ _ Hb), lengthZ_length, length_fmap, length_seq.
  rewrite bind_assert by by apply Z.leb_le. rewrite Z2Nat.inj_sub, Nat2Z.id by lia.
  set (n := Z.to_nat (off / kFilterBase)). assert (Hnn : off / kFilterBase = Z.of_nat n) by (unfold n; lia).
  destruct (n - length fs)%nat as [|k] eqn:Ek; cbn [start_loop].
  - exists b, fs, pending. split; [done|]. split; [done|]. split; [lia|by left].
  - destruct (GenerateFilter_ok b fs pending Hb Hn) as (b1 & f & -> & Hb1 & Hf). cbn [mbind outcome_bind].
    destruct (start_loop_ok k b1 _ Hb1) as (b' & fs' & -> & Hb' & Hl). rewrite <- app_assoc in Hb'. cbn [app] in Hb'.
    exists b', (fs ++ f :: fs'), []. split; [done|]. split; [done|]. rewrite length_app. cbn [length]. split; [lia|].
    right. split; [done|]. by exists f, fs'.
Qed.

(** ** The finished block *)

Definition filter_block fs : bytes :=
  filters_data fs ++ (seq 0 (length fs) ≫= fun i => le_bytes 4 (foff fs i)) ++
  le_bytes 4 (lengthZ (filters_data fs)) ++ [chr kFilterBaseLg].

Lemma foff_le fs i : 0 <= foff fs i <= lengthZ (filters_data fs).
Proof.
  unfold foff, filters_data. split; [apply lengthZ_nonneg|]. rewrite <- (take_drop i fs) at 2. rewrite bind_app, lengthZ_app.
  pose proof (lengthZ_nonneg (drop i fs ≫= f_bytes)). lia.
Qed.

Lemma foff_array_length fs (l : list nat) : lengthZ (l ≫= fun i => le_bytes 4 (foff fs i)) = 4 * Z.of_nat (length l).
Proof. induction l as [|i l IH]; [done|]. rewrite bind_cons, lengthZ_app, IH, le_bytes_lengthZ. cbn [length]. lia. Qed.

Lemma filter_block_length fs : lengthZ (filter_block fs) = lengthZ (filters_data fs) + 4 * Z.of_nat (length fs) + 5.
Proof. unfold filter_block. rewrite !lengthZ_app, foff_array_length, length_seq, le_bytes_lengthZ. cbn [lengthZ]. lia. Qed.

(** Only the low 32 bits are encoded. *)
Lemma le_bytes_u32 v : le_bytes 4 (u32 v) = le_bytes 4 v.
Proof.
  assert (E : le_value (le_bytes 4 (u32 v)) = le_value (le_bytes 4 v)).
  { rewrite !le_value_bytes. change (256 ^ Z.of_nat 4) with (2 ^ 32). unfold u32. by rewrite Z.mod_mod by lia. }
  rewrite <- (le_bytes_value (le_bytes 4 (u32 v))), E, !le_bytes_length. by rewrite <- (le_bytes_value (le_bytes 4 v)) at 2; rewrite le_bytes_length.
Qed.

Lemma foldl_offsets fs (l : list nat) buf :
  foldl (PutFixed32 kLittleEndian) buf ((fun i => u32 (foff fs i)) <$> l) = buf ++ (l ≫= fun i => le_bytes 4 (foff fs i)).
Proof.
  revert buf. induction l as [|i l IH]; intros buf; cbn [foldl fmap list_fmap]; [by rewrite app_nil_r|].
  rewrite IH. unfold PutFixed32. by rewrite EncodeFixed32_le, le_bytes_u32, bind_cons, <- app_assoc.
Qed.

Lemma FilterBlockBuilder_Finish_ok b fs pending :
  fb_ok b fs pending -> lengthZ pending < 2 ^ 31 ->
  exists b' fs', FilterBlockBuilder_Finish policy b = Ok b' /\ Forall answers fs' /\
    fb_result b' = filter_block fs' /\
    ((fs' = fs /\ pending = []) \/ exists f, fs' = fs ++ [f] /\ f_keys f = pending).
Proof.
  intros Hb Hn. unfold FilterBlockBuilder_Finish.
  assert (Hl : lengthZ (fb_start b) = lengthZ pending) by (by rewrite (fo_start _ _ _ Hb), !lengthZ_length, starts_length).
  assert (Hfin : forall b1 fs1, fb_ok b1 fs1 [] ->
    PutFixed32 kLittleEndian (foldl (PutFixed32 kLittleEndian) (fb_result b1) (filter_offsets_ b1)) (u32 (lengthZ (fb_result b1))) ++
      [chr kFilterBaseLg] = filter_block fs1).
  { intros b1 fs1 Hb1. rewrite (fo_result _ _ _ Hb1), (fo_offsets _ _ _ Hb1), foldl_offsets. unfold PutFixed32, filter_block.
    rewrite EncodeFixed32_le, le_bytes_u32. by rewrite <- !app_assoc. }
  rewrite Hl. destruct (Z.eqb_spec (lengthZ pending) 0) as [E|E]; cbn [negb].
  - destruct pending; [|cbn in E; pose proof (lengthZ_nonneg pending); lia]. cbn [mbind outcome_bind].
    eexists _, fs. split; [done|]. split; [apply Hb|]. split; [by apply Hfin|by left].
  - destruct (GenerateFilter_ok b fs pending Hb Hn) as (b1 & f & -> & Hb1 & Hf). cbn [mbind outcome_bind].
    eexists _, (fs ++ [f]). split; [done|]. split; [apply Hb1|]. split; [by apply Hfin|]. right. by exists f.
Qed.

(** A reader of the block finds the filter of an offset. *)
Lemma filter_at fs i f :
  fs !! i = Some f -> takeZ (foff fs (S i) - foff fs i) (dropZ (foff fs i) (filter_block fs)) = f_bytes f.
Proof.
  intros Hf. assert (E : foff fs (S i) = foff fs i + lengthZ (f_bytes f)).
  { unfold foff, filters_data. rewrite (take_S_r _ _ f Hf), bind_app, lengthZ_app. cbn. by rewrite app_nil_r. }
  rewrite E, Z.add_simpl_l. unfold filter_block.
  assert (E2 : filters_data fs = filters_data (take i fs) ++ f_bytes f ++ filters_data (drop (S i) fs)).
  { unfold filters_data. rewrite <- bind_cons, <- bind_app. f_equal. symmetry. by apply take_drop_middle. }
  rewrite E2 at 1. rewrite <- !app_assoc, dropZ_app_exact by done. by apply takeZ_app_exact.
Qed.

Lemma foff_length fs : foff fs (length fs) = lengthZ (filters_data fs).
Proof. unfold foff. by rewrite firstn_all. Qed.

(** The offset array ends with its own offset. *)
Lemma array_at fs i :
  lengthZ (filters_data fs) < 2 ^ 32 -> (i <= length fs)%nat ->
  DecodeFixed32 kLittleEndian (dropZ (lengthZ (filters_data fs) + Z.of_nat i * 4) (filter_block fs)) = Ok (foff fs i).
Proof.
  intros Hlen Hi. unfold filter_block. rewrite <- dropZ_dropZ by (try apply lengthZ_nonneg; lia).
  rewrite dropZ_app_exact by done. pose proof (foff_le fs i) as Hle.
  assert (Hgo : forall l r j, l = take i (seq 0 (length fs)) -> foff fs j = foff fs i ->
    DecodeFixed32 kLittleEndian (dropZ (Z.of_nat i * 4) ((l ≫= fun i => le_bytes 4 (foff fs i)) ++ le_bytes 4 (foff fs j) ++ r)) = Ok (foff fs i)).
  { intros l r j -> ->. rewrite dropZ_app_exact.
    - rewrite <- (EncodeFixed32_le kLittleEndian). apply DecodeFixed32_Encode. lia.
    - rewrite foff_array_length, length_take, length_seq. lia. }
  destruct (decide (i = length fs)) as [->|Hne].
  - rewrite <- foff_length. apply Hgo; [|done]. by rewrite take_ge by (by rewrite length_seq).
  - assert (Hs : seq 0 (length fs) !! i = Some i) by (apply lookup_seq; lia).
    rewrite <- (take_drop_middle _ i i Hs) at 1. rewrite bind_app, bind_cons, <- !app_assoc. by apply Hgo.
Qed.

Lemma FilterBlockReader_new_ok fs :
  lengthZ (filter_block fs) < 2 ^ 32 ->
  FilterBlockReader_new (filter_block fs) = Ok (mkFilterBlockReader (filter_block fs) (lengthZ (filters_data fs)) (Z.of_nat (length fs)) 11).
Proof.
  intros Hlen. rewrite filter_block_length in Hlen. pose proof (lengthZ_nonneg (filters_data fs)).
  unfold FilterBlockReader_new. rewrite filter_block_length, (proj2 (Z.ltb_ge _ _)) by lia.
  set (pre := filters_data fs ++ (seq 0 (length fs) ≫= fun i => le_bytes 4 (foff fs i))).
  assert (Hpre : lengthZ pre = lengthZ (filters_data fs) + 4 * Z.of_nat (length fs)).
  { unfold pre. by rewrite lengthZ_app, foff_array_length, length_seq. }
  assert (E : filter_block fs = pre ++ le_bytes 4 (lengthZ (filters_data fs)) ++ [chr kFilterBaseLg]).
  { unfold pre, filter_block. by rewrite <- app_assoc. }
  rewrite E at 1. rewrite (app_assoc pre). replace (_ - 1) with (lengthZ (pre ++ le_bytes 4 (lengthZ (filters_data fs))))
    by (rewrite lengthZ_app, le_bytes_lengthZ; lia).
  rewrite nthZ_app_mid. cbn [in_bounds mbind outcome_bind]. rewrite E at 1. rewrite dropZ_app_exact by lia.
  rewrite <- (EncodeFixed32_le kLittleEndian), DecodeFixed32_Encode by lia. cbn [mbind outcome_bind].
  rewrite (proj2 (Z.ltb_ge _ _)) by lia. do 2 f_equal. symmetry. apply Z.div_unique_exact; lia.
Qed.

Lemma FilterBlock_ok fs off key f :
  Forall answers fs -> lengthZ (filter_block fs) < 2 ^ 32 -> 0 <= off ->
  fs !! Z.to_nat (off / kFilterBase) = Some f -> key ∈ f_keys f ->
  FilterBlockReader_KeyMayMatch policy (mkFilterBlockReader (filter_block fs) (lengthZ (filters_data fs)) (Z.of_nat (length fs)) 11) off key = Ok true.
Proof.
  intros Hans Hlen Hoff Hf Hkey. rewrite filter_block_length in Hlen.
  pose proof (lengthZ_nonneg (filters_data fs)).
  pose proof (lookup_lt_Some _ _ _ Hf) as Hi. set (i := Z.to_nat (off / kFilterBase)) in *.
  unfold FilterBlockReader_KeyMayMatch. cbn [fr_base_lg fr_num fr_offset fr_data].
  rewrite bind_require by done. rewrite Z.shiftr_div_pow2 by lia. change (2 ^ 11) with kFilterBase.
  assert (Hidx : off / kFilterBase = Z.of_nat i) by (unfold i; rewrite Z2Nat.id; [done|apply Z.div_pos; done]).
  rewrite Hidx, (proj2 (Z.ltb_lt _ _)) by lia.
  rewrite array_at by lia. cbn [mbind outcome_bind].
  replace (lengthZ (filters_data fs) + Z.of_nat i * 4 + 4) with (lengthZ (filters_data fs) + Z.of_nat (S i) * 4) by lia.
  rewrite array_at by lia. cbn [mbind outcome_bind]. pose proof (foff_le fs (S i)).
  assert (foff fs i <= foff fs (S i)).
  { unfold foff, filters_data. rewrite (take_S_r _ _ f Hf), bind_app, lengthZ_app. pose proof (lengthZ_nonneg ([f] ≫= f_bytes)). lia. }
  rewrite !(proj2 (Z.leb_le _ _)) by lia. cbn [andb]. rewrite (filter_at fs i f Hf).
  by apply (Forall_lookup_1 _ _ _ _ Hans Hf).
Qed.

(** ** Building a whole block

    The keys of each data block, with its offset. *)

Fixpoint add_keys_of (blocks : list (Z * list bytes)) (b : FilterBlockBuilder) : outcome FilterBlockBuilder :=
  match blocks with
  | [] => Ok b
  | (off, keys) :: blocks' => b ← StartBlock policy off b; add_keys_of blocks' (foldl (fun b key => AddKey key b) b keys)
  end.

Definition build_filter (blocks : list (Z * list bytes)) : outcome bytes :=
  b ← add_keys_of blocks FilterBlockBuilder_new; b ← FilterBlockBuilder_Finish policy b; Ok (fb_result b).

(** A key of a block is in the filter of its offset, or is to be. *)
Definition covered fs (pending : list bytes) (off : Z) (key : bytes) : Prop :=
  (exists f, fs !! Z.to_nat (off / kFilterBase) = Some f /\ key ∈ f_keys f) \/ (off / kFilterBase = Z.of_nat (length fs) /\ key ∈ pending).

Lemma covered_start fs pending fs' pending' off key :
  (fs' = fs /\ pending' = pending) \/ (pending' = [] /\ exists f fs1, fs' = fs ++ f :: fs1 /\ f_keys f = pending) ->
  covered fs pending off key -> covered fs' pending' off key.
Proof.
  intros [[-> ->]|[-> (f & fs1 & -> & Hf)]] Hc; [done|]. left. destruct Hc as [(g & Hg & Hk)|[Hoff Hk]].
  - exists g. split; [|done]. by apply lookup_app_l_Some.
  - exists f. split; [|by rewrite Hf]. rewrite Hoff, Nat2Z.id, lookup_app_r, Nat.sub_diag by lia. done.
Qed.

Lemma filter_add_keys_ok keys : forall b fs pending,
  fb_ok b fs pending -> Forall (filter_key (p := policy)) keys ->
  fb_ok (foldl (fun b key => AddKey key b) b keys) fs (pending ++ keys).
Proof.
  induction keys as [|key keys IH]; intros b fs pending Hb Hk; cbn [foldl]; [by rewrite app_nil_r|].
  apply Forall_cons in Hk as [Hk Hks]. rewrite (cons_middle key), app_assoc. apply IH; [|done]. by apply AddKey_ok.
Qed.

Lemma add_keys_of_ok blocks : forall b fs pending (earlier : list (Z * list bytes)),
  fb_ok b fs pending -> Forall (fun x => 0 <= x.1 /\ Forall (filter_key (p := policy)) x.2) blocks ->
  StronglySorted Z.le (Z.of_nat (length fs) * kFilterBase :: blocks.*1) -> lengthZ pending + lengthZ (concat blocks.*2) < 2 ^ 31 ->
  (forall off keys key, (off, keys) ∈ earlier -> key ∈ keys -> covered fs pending off key) ->
  exists b' fs' pending', add_keys_of blocks b = Ok b' /\ fb_ok b' fs' pending' /\ lengthZ pending' < 2 ^ 31 /\
    (forall off keys key, (off, keys) ∈ earlier ++ blocks -> key ∈ keys -> covered fs' pending' off key).
Proof.
  induction blocks as [|[off keys] blocks IH]; intros b fs pending earlier Hb Hv Hs Hn He; cbn [add_keys_of].
  { exists b, fs, pending. rewrite app_nil_r. split; [done|]. split; [done|]. split; [cbn in Hn; lia|done]. }
  apply Forall_cons in Hv as [[Hoff Hk] Hv]. cbn [fst snd] in *. cbn [fmap list_fmap concat] in *. rewrite lengthZ_app in Hn.
  pose proof (lengthZ_nonneg keys). pose proof (lengthZ_nonneg (concat blocks.*2)). pose proof (lengthZ_nonneg pending).
  apply StronglySorted_cons in Hs as [Hle Hs]. apply Forall_cons in Hle as [Hle _]. cbn [fst snd] in Hle, Hn, Hs. change kFilterBase with 2048 in *.
  destruct (StartBlock_ok b fs pending off Hb ltac:(lia)) as (b1 & fs1 & p1 & -> & Hb1 & Hl1 & Hmove).
  { change kFilterBase with 2048. apply Z.div_le_lower_bound; lia. }
  cbn [mbind outcome_bind]. change kFilterBase with 2048 in Hl1. pose proof (filter_add_keys_ok keys b1 fs1 p1 Hb1 Hk) as Hb2.
  assert (Hp1 : lengthZ p1 <= lengthZ pending) by (destruct Hmove as [[_ ->]|[-> _]]; cbn; lia).
  destruct (IH _ fs1 (p1 ++ keys) (earlier ++ [(off, keys)]) Hb2 Hv) as (b' & fs' & p' & -> & Hb' & Hp' & Hc).
  - rewrite Hl1. apply StronglySorted_cons. apply StronglySorted_cons in Hs as [Hle' Hs]. split; [|done].
    eapply Forall_impl; [exact Hle'|]. intros x Hx. etransitivity; [|exact Hx]. rewrite Z.mul_comm. apply Z.mul_div_le. lia.
  - rewrite lengthZ_app. lia.
  - intros o ks key [Hin|Hin%list_elem_of_singleton]%elem_of_app Hkey.
    + specialize (covered_start _ _ _ _ o key Hmove (He o ks key Hin Hkey)) as [Hf|[Ho Hkp]]; [by left|right]. split; [done|].
      apply elem_of_app. by left.
    + injection Hin as -> ->. right. change kFilterBase with 2048. split; [lia|]. apply elem_of_app. by right.
  - exists b', fs', p'. split; [done|]. split; [done|]. split; [done|]. intros o ks key Hin. apply Hc. by rewrite <- app_assoc.
Qed.

Lemma build_filter_ok blocks :
  Forall (fun x => 0 <= x.1 /\ Forall (filter_key (p := policy)) x.2) blocks -> StronglySorted Z.le blocks.*1 ->
  lengthZ (concat blocks.*2) < 2 ^ 31 ->
  exists raw, build_filter blocks = Ok raw /\
    (lengthZ raw < 2 ^ 32 -> exists r, FilterBlockReader_new raw = Ok r /\
       forall off keys key, (off, keys) ∈ blocks -> key ∈ keys -> FilterBlockReader_KeyMayMatch policy r off key = Ok true).
Proof.
  intros Hv Hs Hn. unfold build_filter.
  destruct (add_keys_of_ok blocks FilterBlockBuilder_new [] [] [] FilterBlockBuilder_new_ok Hv) as (b & fs & p & -> & Hb & Hp & Hc);
    [|done|by intros ? ? ? ?%elem_of_nil|].
  { apply StronglySorted_cons. split; [|done]. apply Forall_forall. intros x (y & -> & Hy)%list_elem_of_fmap.
    rewrite Forall_forall in Hv. by destruct (Hv y Hy). }
  cbn [mbind outcome_bind app] in *. destruct (FilterBlockBuilder_Finish_ok b fs p Hb Hp) as (b' & fs' & -> & Hans & Hr & Hfin). cbn [mbind outcome_bind].
  exists (fb_result b'). split; [done|]. rewrite Hr. intros Hlen.
  assert (Hin : forall off keys key, (off, keys) ∈ blocks -> key ∈ keys -> exists f, fs' !! Z.to_nat (off / kFilterBase) = Some f /\ key ∈ f_keys f).
  { intros off keys key Hbl Hkey. destruct (Hc off keys key Hbl Hkey) as [(f & Hf & Hk)|[Hoff Hk]].
    - exists f. split; [|done]. destruct Hfin as [[-> _]|(g & -> & _)]; [done|by apply lookup_app_l_Some].
    - destruct Hfin as [[_ ->]|(g & -> & Hg)]; [by apply elem_of_nil in Hk|]. exists g. rewrite Hg. split; [|done].
      by rewrite Hoff, Nat2Z.id, lookup_app_r, Nat.sub_diag by lia. }
  eexists. split; [by apply FilterBlockReader_new_ok|]. intros off keys key Hbl Hkey. destruct (Hin off keys key Hbl Hkey) as (f & Hf & Hk).
  apply (FilterBlock_ok fs' off key f); try done. rewrite Forall_forall in Hv. apply (Hv _ Hbl).
Qed.
End spec.
