(* ===== verification/Table.v ===== *)
(** * LevelDB: table files (lib/leveldb/table/table_builder.cc, table.cc)

    A builder appends data blocks, a filter block, a metaindex block, an index
    block and a footer to a file; a table finds keys in such a file.  The block
    cache is an interface. *)

From S2P Require Import Prelude.
From S2P Require Import Bytes.
From S2P Require Import Coding.
From S2P Require Import Crc32c.
From S2P Require Import Comparator.
From S2P Require Import DbFormat.
From S2P Require Import Log.
From S2P Require Import Block.
From S2P Require Import Format.
From S2P Require Import FilterBlock.
From stdpp Require Import base tactics numbers list strings.
From Stdlib Require Import Ascii ZArith Lia.

Open Scope Z_scope.

Definition file_status (b : bool) : Status := if b then Status_ok else env_error.

(** ** TableBuilder *)

Record TableBuilder (F : Type) : Type := mkTableBuilder
  { tb_file : F; tb_offset : Z; tb_status : Status; data_block : BlockBuilder; index_block : BlockBuilder;
    tb_last_key : bytes; num_entries : Z; closed : bool; filter_block : option FilterBlockBuilder;
    pending_index_entry : bool; pending_handle : BlockHandle }.
Arguments mkTableBuilder {F} _ _ _ _ _ _ _ _ _ _ _.
Arguments tb_file {F} _.
Arguments tb_offset {F} _.
Arguments tb_status {F} _.
Arguments data_block {F} _.
Arguments index_block {F} _.
Arguments tb_last_key {F} _.
Arguments num_entries {F} _.
Arguments closed {F} _.
Arguments filter_block {F} _.
Arguments pending_index_entry {F} _.
Arguments pending_handle {F} _.

Section TableBuilder.
Context {platform : Platform} {C : Type} `{Comparator C} (comparator : C).
Context {P : Type} `{FilterPolicy P} (filter_policy : option P).
Context `{Snappy} (addr : bytes -> Z) {F : Type} `{WritableFile F}.
Context (block_size block_restart_interval : Z) (compression : CompressionType).
Implicit Types r : TableBuilder F.

Definition with_data (b : BlockBuilder) r : TableBuilder F :=
  mkTableBuilder (tb_file r) (tb_offset r) (tb_status r) b (index_block r) (tb_last_key r) (num_entries r)
    (closed r) (filter_block r) (pending_index_entry r) (pending_handle r).
Definition with_index (b : BlockBuilder) r : TableBuilder F :=
  mkTableBuilder (tb_file r) (tb_offset r) (tb_status r) (data_block r) b (tb_last_key r) (num_entries r)
    (closed r) (filter_block r) (pending_index_entry r) (pending_handle r).
Definition with_filter (f : option FilterBlockBuilder) r : TableBuilder F :=
  mkTableBuilder (tb_file r) (tb_offset r) (tb_status r) (data_block r) (index_block r) (tb_last_key r) (num_entries r)
    (closed r) f (pending_index_entry r) (pending_handle r).
Definition with_pending (p : bool) (h : BlockHandle) r : TableBuilder F :=
  mkTableBuilder (tb_file r) (tb_offset r) (tb_status r) (data_block r) (index_block r) (tb_last_key r) (num_entries r)
    (closed r) (filter_block r) p h.
Definition with_table_file (f : F) (off : Z) (s : Status) r : TableBuilder F :=
  mkTableBuilder f off s (data_block r) (index_block r) (tb_last_key r) (num_entries r)
    (closed r) (filter_block r) (pending_index_entry r) (pending_handle r).
Definition with_last (key : bytes) (n : Z) r : TableBuilder F :=
  mkTableBuilder (tb_file r) (tb_offset r) (tb_status r) (data_block r) (index_block r) key n
    (closed r) (filter_block r) (pending_index_entry r) (pending_handle r).
Definition close r : TableBuilder F :=
  mkTableBuilder (tb_file r) (tb_offset r) (tb_status r) (data_block r) (index_block r) (tb_last_key r) (num_entries r)
    true (filter_block r) (pending_index_entry r) (pending_handle r).

Definition TableBuilder_new (file : F) : outcome (TableBuilder F) :=
  d ← BlockBuilder_new block_restart_interval;
  i ← BlockBuilder_new 1;
  f ← match filter_policy with
      | Some p => f ← StartBlock p 0 FilterBlockBuilder_new; Ok (Some f)
      | None => Ok None
      end;
  Ok (mkTableBuilder file 0 Status_ok d i [] 0 false f false BlockHandle_new).

Definition WriteRawBlock (block_contents : bytes) (type : CompressionType) r : TableBuilder F * BlockHandle :=
  let handle := mkBlockHandle (tb_offset r) (lengthZ block_contents) in
  let '(s, file) := Append (tb_file r) block_contents in
  if s : bool then
    let t := [chr (compression_value type)] in
    let crc := Extend (addr t) (Value (addr block_contents) block_contents) t in
    let trailer := t ++ EncodeFixed32 kLittleEndian (Mask crc) in
    let '(s, file) := Append file trailer in
    let offset := if s : bool then u64 (tb_offset r + u64 (lengthZ block_contents + kBlockTrailerSize)) else tb_offset r in
    (with_table_file file offset (file_status s) r, handle)
  else (with_table_file file (tb_offset r) env_error r, handle).

(** What is written of a block, and how. *)
Definition compressed (raw : bytes) : bytes * CompressionType :=
  match compression with
  | kNoCompression => (raw, kNoCompression)
  | kSnappyCompression =>
      match Snappy_Compress raw with
      | Some c => if lengthZ c <? lengthZ raw - lengthZ raw / 8 then (c, kSnappyCompression) else (raw, kNoCompression)
      | None => (raw, kNoCompression)
      end
  end.

(** The block is reset: it is [BlockBuilder_Reset] afterwards. *)
Definition WriteBlock (block : BlockBuilder) r : outcome (TableBuilder F * BlockHandle) :=
  _ ← assert_ (ok (tb_status r));
  let raw := buffer_ (BlockBuilder_Finish block) in
  let '(contents, type) := compressed raw in
  Ok (WriteRawBlock contents type r).

Definition TableBuilder_Flush r : outcome (TableBuilder F) :=
  _ ← assert_ (negb (closed r));
  if negb (ok (tb_status r)) then Ok r
  else if BlockBuilder_empty (data_block r) then Ok r
  else
    _ ← assert_ (negb (pending_index_entry r));
    '(r, handle) ← WriteBlock (data_block r) r;
    let r := with_data BlockBuilder_Reset r in
    let r := with_pending (pending_index_entry r) handle r in
    let r :=
      if ok (tb_status r) then
        let '(s, file) := Flush (tb_file r) in
        with_table_file file (tb_offset r) (file_status s) (with_pending true handle r)
      else r in
    match filter_block r, filter_policy with
    | Some f, Some p => f ← StartBlock p (tb_offset r) f; Ok (with_filter (Some f) r)
    | _, _ => Ok r
    end.

(** The index entry of the last block, with a key that separates it from the
    next. *)
Definition add_index_entry (key : bytes) r : outcome (TableBuilder F) :=
  handle_encoding ← BlockHandle_EncodeTo (pending_handle r) [];
  index ← BlockBuilder_Add comparator 1 (index_block r) key handle_encoding;
  Ok (with_pending false (pending_handle r) (with_index index r)).

Definition TableBuilder_Add (key value : bytes) r : outcome (TableBuilder F) :=
  _ ← assert_ (negb (closed r));
  if negb (ok (tb_status r)) then Ok r
  else
    _ ← (if 0 <? num_entries r then c ← Compare comparator key (tb_last_key r); assert_ (0 <? c) else Ok ());
    r ← (if pending_index_entry r then
           _ ← assert_ (BlockBuilder_empty (data_block r));
           last_key ← FindShortestSeparator comparator (tb_last_key r) key;
           add_index_entry last_key r
         else Ok r);
    let r := with_filter (AddKey key <$> filter_block r) r in
    let r := with_last key (num_entries r + 1) r in
    d ← BlockBuilder_Add comparator block_restart_interval (data_block r) key value;
    let r := with_data d r in
    if block_size <=? CurrentSizeEstimate d then TableBuilder_Flush r else Ok r.

Definition filter_name (p : P) : bytes := str "filter." ++ policy_Name p.

Definition TableBuilder_Finish r : outcome (TableBuilder F) :=
  r ← TableBuilder_Flush r;
  _ ← assert_ (negb (closed r));
  let r := close r in
  '(r, filter_block_handle) ←
    (match ok (tb_status r), filter_block r, filter_policy with
     | true, Some f, Some p =>
         f ← FilterBlockBuilder_Finish p f;
         Ok (WriteRawBlock (fb_result f) kNoCompression (with_filter (Some f) r))
     | _, _, _ => Ok (r, BlockHandle_new)
     end);
  '(r, metaindex_block_handle) ←
    (if ok (tb_status r) then
       meta ← BlockBuilder_new block_restart_interval;
       meta ← match filter_block r, filter_policy with
              | Some _, Some p =>
                  handle_encoding ← BlockHandle_EncodeTo filter_block_handle [];
                  BlockBuilder_Add comparator block_restart_interval meta (filter_name p) handle_encoding
              | _, _ => Ok meta
              end;
       WriteBlock meta r
     else Ok (r, BlockHandle_new));
  '(r, index_block_handle) ←
    (if ok (tb_status r) then
       r ← (if pending_index_entry r then
              last_key ← FindShortSuccessor comparator (tb_last_key r); add_index_entry last_key r
            else Ok r);
       '(r, handle) ← WriteBlock (index_block r) r;
       Ok (with_index BlockBuilder_Reset r, handle)
     else Ok (r, BlockHandle_new));
  if ok (tb_status r) then
    footer_encoding ← Footer_EncodeTo (mkFooter metaindex_block_handle index_block_handle) [];
    let '(s, file) := Append (tb_file r) footer_encoding in
    let offset := if s : bool then u64 (tb_offset r + lengthZ footer_encoding) else tb_offset r in
    Ok (with_table_file file offset (file_status s) r)
  else Ok r.

Definition Abandon r : outcome (TableBuilder F) := _ ← assert_ (negb (closed r)); Ok (close r).
End TableBuilder.

(** ** Table *)

(** The block cache, seen from a table: what it holds for a key, if anything. *)
Class BlockCache (K : Type) := {
  cache_Lookup : K -> bytes -> option Block * K;
  cache_Insert : K -> bytes -> Block -> K;
  cache_NewId : K -> Z * K
}.

Record Table (R : Type) : Type := mkTable
  { t_file : R; t_cache_id : Z; t_filter : option FilterBlockReader; t_metaindex_handle : BlockHandle; t_index_block : Block }.
Arguments mkTable {R} _ _ _ _ _.
Arguments t_file {R} _.
Arguments t_cache_id {R} _.
Arguments t_filter {R} _.
Arguments t_metaindex_handle {R} _.
Arguments t_index_block {R} _.

Section Table.
Context {platform : Platform} {C : Type} `{Comparator C} (comparator : C).
Context {P : Type} `{FilterPolicy P} (filter_policy : option P).
Context `{Snappy} (addr : bytes -> Z) {R : Type} `{RandomAccessFile R} {K : Type} `{BlockCache K}.
Implicit Types t : Table R.
Implicit Types cache : option K.

Definition ReadFilter (file : R) (filter_handle_value : bytes) : outcome (option FilterBlockReader) :=
  let '(s, filter_handle, _) := BlockHandle_DecodeFrom filter_handle_value in
  if negb (ok s) then Ok None
  else
    '(s, block) ← ReadBlock addr file false filter_handle;
    if negb (ok s) then Ok None
    else f ← FilterBlockReader_new (contents_data block); Ok (Some f).

Definition ReadMeta (file : R) (footer : Footer) : outcome (option FilterBlockReader) :=
  match filter_policy with
  | None => Ok None
  | Some p =>
      '(s, contents) ← ReadBlock addr file false (metaindex_handle_ footer);
      if negb (ok s) then Ok None
      else
        meta ← Block_new (contents_data contents);
        iter ← Block_NewIterator meta;
        let key := filter_name p in
        iter ← bi_Seek BytewiseComparator key iter;
        if bi_Valid iter then
          k ← bi_key iter;
          if bool_decide (k = key) then v ← bi_value iter; ReadFilter file v else Ok None
        else Ok None
  end.

(** The status and the table; the cache gives out an id. *)
Definition Table_Open (file : R) (size : Z) cache : outcome (Status * option (Table R) * option K) :=
  if size <? kEncodedLength then Ok (InvalidArgument (str "file is too short to be an sstable"), None, cache)
  else
    let '(s, footer_input, _) := RandomAccessFile_Read file (size - kEncodedLength) kEncodedLength in
    if negb (s : bool) then Ok (env_error, None, cache)
    else
      '(s, footer) ← Footer_DecodeFrom footer_input;
      if negb (ok s) then Ok (s, None, cache)
      else
        '(s, contents) ← ReadBlock addr file false (index_handle_ footer);
        if negb (ok s) then Ok (s, None, cache)
        else
          index_block ← Block_new (contents_data contents);
          let '(id, cache) := match cache with Some k => let '(id, k) := cache_NewId k in (id, Some k) | None => (0, None) end in
          filter ← ReadMeta file footer;
          Ok (s, Some (mkTable file id filter (metaindex_handle_ footer) index_block), cache).

(** An iterator over the block an index value points to. *)
Definition BlockReader (verify_checksums fill_cache : bool) t (index_value : bytes) cache :
    outcome (block_iterator * option K) :=
  let '(s, handle, _) := BlockHandle_DecodeFrom index_value in
  '(s, block, cache) ←
    (if ok s then
       let read :=
         '(s, contents) ← ReadBlock addr (t_file t) verify_checksums handle;
         if ok s then b ← Block_new (contents_data contents); Ok (s, Some b, cachable contents) else Ok (s, None, false) in
       match cache with
       | Some k =>
           let key := EncodeFixed64 kLittleEndian (t_cache_id t) ++ EncodeFixed64 kLittleEndian (offset_ handle) in
           match cache_Lookup k key with
           | (Some b, k) => Ok (s, Some b, Some k)
           | (None, k) =>
               '(s, block, cachable) ← read;
               Ok (s, block,
                 match (block : option Block) with
                 | Some b => if (cachable : bool) && fill_cache then Some (cache_Insert k key b) else Some k
                 | None => Some k
                 end)
           end
       | None => '(s, block, _) ← read; Ok (s, block, None)
       end
     else Ok (s, None, cache));
  match (block : option Block) with
  | Some b => iter ← Block_NewIterator b; Ok (iter, cache)
  | None => Ok (NewErrorIterator s, cache)
  end.

(** [saver]: what is called with the entry that is found. *)
Definition InternalGet {A : Type} (verify_checksums fill_cache : bool) t (k : bytes) (arg : A)
    (saver : A -> bytes -> bytes -> outcome A) cache : outcome (Status * A * option K) :=
  iiter ← Block_NewIterator (t_index_block t);
  iiter ← bi_Seek comparator k iiter;
  '(s, arg, cache) ←
    (if bi_Valid iiter then
       handle_value ← bi_value iiter;
       let '(hs, handle, _) := BlockHandle_DecodeFrom handle_value in
       may ← match t_filter t, filter_policy with
             | Some f, Some p => if ok hs then FilterBlockReader_KeyMayMatch p f (offset_ handle) k else Ok true
             | _, _ => Ok true
             end;
       if negb (may : bool) then Ok (Status_ok, arg, cache)
       else
         '(block_iter, cache) ← BlockReader verify_checksums fill_cache t handle_value cache;
         block_iter ← bi_Seek comparator k block_iter;
         arg ← (if bi_Valid block_iter then
                  key ← bi_key block_iter; value ← bi_value block_iter; saver arg key value
                else Ok arg);
         Ok (bi_status block_iter, arg, cache)
     else Ok (Status_ok, arg, cache));
  Ok (if ok s then bi_status iiter else s, arg, cache).

Definition ApproximateOffsetOf t (key : bytes) : outcome Z :=
  index_iter ← Block_NewIterator (t_index_block t);
  index_iter ← bi_Seek comparator key index_iter;
  if bi_Valid index_iter then
    input ← bi_value index_iter;
    let '(s, handle, _) := BlockHandle_DecodeFrom input in
    Ok (if ok s then offset_ handle else offset_ (t_metaindex_handle t))
  else Ok (offset_ (t_metaindex_handle t)).
End Table.
