(* ===== verification/TableSpec.v ===== *)
(** * LevelDB: a table finds what was added

    For tables without a filter policy, which is how the program opens its
    databases.  [tb_ok] is the invariant of a builder: the blocks written, the
    one that waits for its index entry, and the one being filled.  [table_file]
    is what it leaves in the file. *)

From S2P Require Import Prelude.
From S2P Require Import Bytes.
From S2P Require Import Coding.
From S2P Require Import Crc32c.
From S2P Require Import Comparator.
From S2P Require Import DbFormat.
From S2P Require Import Log.
From S2P Require Import LogSpec.
From S2P Require Import Block.
From S2P Require Import BlockSpec.
From S2P Require Import BlockIter.
From S2P Require Import Format.
From S2P Require Import FilterBlock.
From S2P Require Import Table.
From stdpp Require Import base tactics numbers list sorting strings.
From Stdlib Require Import Ascii ZArith Lia.

Open Scope Z_scope.

(** ** Blocks in a file *)

Record tblock : Type := mkTBlock { t_es : list bentry; t_idx : list nat; t_handle : BlockHandle; t_sep : bytes }.
Implicit Types b : tblock.
Implicit Types bs : list tblock.

Definition block_entries bs : list bentry := bs ≫= t_es.

(** What an entry adds to the file at most. *)
Fixpoint cost (es : list bentry) : Z :=
  match es with [] => 0 | e :: es' => 2 * lengthZ (e_key e) + lengthZ (e_value e) + 100 + cost es' end.

Lemma cost_app es es' : cost (es ++ es') = cost es + cost es'.
Proof. induction es as [|e es IH]; [done|]. cbn [cost app]. rewrite IH. lia. Qed.

Lemma cost_nonneg es : 100 * Z.of_nat (length es) <= cost es.
Proof.
  induction es as [|e es IH]; [done|]. cbn [cost length]. pose proof (lengthZ_nonneg (e_key e)).
  pose proof (lengthZ_nonneg (e_value e)). lia.
Qed.

Lemma entries_cost es : Forall entry_ok es -> lengthZ (es ≫= ebytes) + 85 * Z.of_nat (length es) <= cost es.
Proof.
  induction 1 as [|e es He _ IH]; [done|]. rewrite bind_cons, lengthZ_app. cbn [cost length].
  pose proof (ebytes_length e He). destruct He as (? & _ & _). pose proof (lengthZ_nonneg (e_key e)). lia.
Qed.

Lemma last_key_cost es : es <> [] -> 2 * lengthZ (last_key es) + 100 <= cost es.
Proof.
  destruct es as [|e es _] using rev_ind; [done|]. intros _. unfold last_key. rewrite last_snoc, cost_app. cbn.
  pose proof (cost_nonneg es). pose proof (lengthZ_nonneg (e_value e)). lia.
Qed.

Lemma block_cost es idx : layout_ok es idx -> es <> [] -> lengthZ (block_data es idx) + 5 <= cost es.
Proof.
  intros Hok Hne. rewrite data_length, off_length. pose proof (idx_length es idx Hok). pose proof (entries_cost es (lo_entries _ _ Hok)).
  destruct es; [done|]. cbn [length] in *. lia.
Qed.

Section spec.
Context {platform : Platform} {C : Type} `{Comparator C} (c : C) `{!ComparatorLaws C c}.
Context {P : Type} `{FilterPolicy P} `{SnappyLaws} (addr : bytes -> Z).
Context (block_size interval : Z) (compression : CompressionType) (Hinterval : 1 <= interval).
Notation order := (key_order (c := c)).

(** The block [raw] at a handle in the file [d]. *)
Definition data_at (d : bytes) (h : BlockHandle) (raw : bytes) : Prop :=
  exists pre s t post, d = pre ++ s ++ trailer s t ++ post /\ offset_ h = lengthZ pre /\ bh_size h = lengthZ s /\ stored raw s t.

Lemma data_at_app d d' h raw : data_at d h raw -> data_at (d ++ d') h raw.
Proof.
  intros (pre & s & t & post & -> & Ho & Hs & Hst). exists pre, s, t, (post ++ d'). split; [by rewrite <- !app_assoc|done].
Qed.

Definition block_in (d : bytes) b : Prop :=
  t_es b <> [] /\ layout_ok (t_es b) (t_idx b) /\ data_at d (t_handle b) (block_data (t_es b) (t_idx b)) /\
  handle_ok (t_handle b) /\ lengthZ (block_data (t_es b) (t_idx b)) < 2 ^ 32.

Lemma block_in_app d d' b : block_in d b -> block_in (d ++ d') b.
Proof. intros (Hne & Hl & Hd & Hh & Hz). split_and!; try done. by apply data_at_app. Qed.

Lemma compressed_stored raw s t :
  compressed compression raw = (s, t) -> stored raw s t /\ lengthZ s <= lengthZ raw.
Proof.
  unfold compressed. pose proof (lengthZ_nonneg raw). destruct compression; [by intros [= <- <-]|].
  destruct (Snappy_Compress raw) as [x|] eqn:E; [|by intros [= <- <-]].
  destruct (Z.ltb_spec (lengthZ x) (lengthZ raw - lengthZ raw / 8)); intros [= <- <-]; [|done].
  assert (0 <= lengthZ raw / 8) by (apply Z.div_pos; lia). split; [|lia]. by apply Snappy_round_trip.
Qed.

Section build.
Context {F : Type} `{ReliableWritable F}.
Implicit Types r : TableBuilder F.

Lemma WriteRawBlock_ok s t r :
  tb_status r = Status_ok -> tb_offset r = lengthZ (contents (tb_file r)) ->
  tb_offset r + lengthZ s + 5 < 2 ^ 64 ->
  exists f, WriteRawBlock addr s t r = (with_table_file f (tb_offset r + lengthZ s + 5) Status_ok r, mkBlockHandle (tb_offset r) (lengthZ s)) /\
    contents f = contents (tb_file r) ++ s ++ trailer s t.
Proof.
  intros Hs Ho Hlt. pose proof (lengthZ_nonneg s). pose proof (lengthZ_nonneg (contents (tb_file r))). unfold WriteRawBlock.
  destruct (Append_contents (tb_file r) s) as (f1 & -> & Hf1).
  set (tr := [chr (compression_value t)] ++ _).
  assert (Htr : tr = trailer s t).
  { unfold tr, trailer. cbn [app]. f_equal. rewrite EncodeFixed32_le. unfold Value.
    rewrite (Extend_crc32c (addr s)) by done. rewrite Extend_crc32c by (by apply crc32c_range). by rewrite <- crc32c_app. }
  destruct (Append_contents f1 tr) as (f2 & -> & Hf2). change kBlockTrailerSize with 5. cbn [file_status].
  exists f2. rewrite !u64_small by (rewrite ?u64_small; lia). rewrite Z.add_assoc. split; [done|]. by rewrite Hf2, Hf1, Htr, <- app_assoc.
Qed.

Lemma WriteBlock_ok bb es idx n r :
  builder_ok n bb es idx -> Z.of_nat (length idx) < 2 ^ 32 -> lengthZ (block_data es idx) < 2 ^ 32 ->
  tb_status r = Status_ok -> tb_offset r = lengthZ (contents (tb_file r)) -> tb_offset r < 2 ^ 63 ->
  exists f h d, WriteBlock addr compression bb r = Ok (with_table_file f (lengthZ d) Status_ok r, h) /\
    contents f = d /\ (exists d', d = contents (tb_file r) ++ d') /\ data_at d h (block_data es idx) /\ handle_ok h /\
    lengthZ d <= lengthZ (contents (tb_file r)) + lengthZ (block_data es idx) + 5 /\
    offset_ h = tb_offset r /\ tb_offset r < lengthZ d.
Proof.
  intros Hb Hn Hsz Hs Ho Hlt. unfold WriteBlock. rewrite Hs. cbn [ok assert_ mbind outcome_bind].
  rewrite (BlockBuilder_Finish_ok _ _ _ _ Hb Hn). destruct (compressed compression (block_data es idx)) as [s t] eqn:Ec.
  destruct (compressed_stored _ _ _ Ec) as [Hst Hle]. pose proof (lengthZ_nonneg s). pose proof (lengthZ_nonneg (contents (tb_file r))).
  destruct (WriteRawBlock_ok s t r Hs Ho) as (f & -> & Hf); [lia|].
  exists f, (mkBlockHandle (tb_offset r) (lengthZ s)), (contents f). rewrite Hf, !lengthZ_app, trailer_length.
  split; [by rewrite Ho, Z.add_assoc|]. split; [done|]. split; [by eexists|]. split.
  - exists (contents (tb_file r)), s, t, []. rewrite app_nil_r. done.
  - split; [unfold handle_ok; cbn; lia|]. split_and!; [lia|done|lia].
Qed.

(** ** The invariant *)

Definition boff b : Z := offset_ (t_handle b).
Definition pend_list (pend : option tblock) : list tblock := match pend with Some b => [b] | None => [] end.

(** Ascending, and before the end. *)
Definition offsets_below (l : list Z) (o : Z) : Prop := StronglySorted Z.lt (l ++ [o]).

Lemma offsets_below_snoc l o o' : offsets_below l o -> o < o' -> offsets_below (l ++ [o]) o'.
Proof.
  unfold offsets_below. intros Hs Hlt. apply StronglySorted_app. split_and!; [|done|by repeat constructor].
  intros x y Hx ->%list_elem_of_singleton. apply elem_of_app in Hx as [Hx| ->%list_elem_of_singleton]; [|done].
  apply StronglySorted_app in Hs as (Hs & _ & _). apply (Z.lt_trans _ o); [|done]. apply Hs; [done|by apply list_elem_of_singleton].
Qed.

Definition pend_es (pend : option tblock) : list bentry := from_option t_es [] pend.

(** The index key of a block separates it from the entry that follows. *)
Fixpoint sep_chain bs (rest : list bentry) : Prop :=
  match bs with
  | [] => True
  | b :: bs' =>
      (exists e, head (block_entries bs' ++ rest) = Some e /\
         FindShortestSeparator c (last_key (t_es b)) (e_key e) = Ok (t_sep b)) /\
      sep_chain bs' rest
  end.

Lemma sep_chain_app bs rest more : sep_chain bs rest -> sep_chain bs (rest ++ more).
Proof.
  induction bs as [|b bs IH]; [done|]. intros [(e & He & Hs) Hc]. split; [|by apply IH].
  exists e. split; [|done]. rewrite app_assoc. by destruct (block_entries bs ++ rest).
Qed.

Lemma sep_chain_snoc bs b e rest :
  sep_chain bs (t_es b ++ e :: rest) -> FindShortestSeparator c (last_key (t_es b)) (e_key e) = Ok (t_sep b) ->
  sep_chain (bs ++ [b]) (e :: rest).
Proof.
  intros Hc Hs. induction bs as [|b' bs IH]; cbn [app sep_chain] in *.
  - split; [|done]. exists e. done.
  - destruct Hc as [(e' & He' & Hs') Hc]. split; [|by apply IH]. exists e'. split; [|done].
    unfold block_entries in *. rewrite bind_app. cbn [mbind list_bind]. by rewrite app_nil_r, <- app_assoc.
Qed.

Lemma sep_chain_key bs l e e' : sep_chain bs (l ++ [e]) -> e_key e' = e_key e -> sep_chain bs (l ++ [e']).
Proof.
  intros Hc Ek. induction bs as [|b bs IH]; [done|]. destruct Hc as [(x & Hx & Hs) Hc]. split; [|by apply IH].
  rewrite app_assoc in Hx |- *. destruct (block_entries bs ++ l) as [|y tl]; [|by exists x].
  cbn in Hx. injection Hx as <-. exists e'. by rewrite Ek.
Qed.

(** The index entry of a block. *)
Definition index_entry_of (ie : bentry) b : Prop := e_key ie = t_sep b /\ e_value ie = handle_bytes (t_handle b).

Record tb_ok r bs (pend : option tblock) (es : list bentry) (idx : list nat) (ies : list bentry) (iidx : list nat) : Prop := {
  tk_status : tb_status r = Status_ok;
  tk_closed : closed r = false;
  tk_offset : tb_offset r = lengthZ (contents (tb_file r));
  tk_data : builder_ok interval (data_block r) es idx;
  tk_index : builder_ok 1 (index_block r) ies iidx;
  tk_entries : Forall2 index_entry_of ies bs;
  tk_blocks : Forall (block_in (contents (tb_file r))) bs;
  tk_pend : match pend with
            | Some b => pending_index_entry r = true /\ pending_handle r = t_handle b /\ block_in (contents (tb_file r)) b /\ es = []
            | None => pending_index_entry r = false
            end;
  tk_chain : sep_chain bs (pend_es pend ++ es);
  tk_sorted : keys_sorted c (block_entries bs ++ pend_es pend ++ es);
  tk_valid : Forall (fun e => key_valid (c := c) (e_key e)) (block_entries bs ++ pend_es pend ++ es);
  tk_last : tb_last_key r = last_key (block_entries bs ++ pend_es pend ++ es);
  tk_count : num_entries r = Z.of_nat (length (block_entries bs ++ pend_es pend ++ es));
  tk_filter : filter_block r = None;
  tk_file_cost : lengthZ (contents (tb_file r)) <= cost (block_entries bs ++ pend_es pend);
  tk_index_cost : lengthZ (ies ≫= ebytes) <= cost (block_entries bs);
  tk_none : pend = None -> es = [] -> bs = [];
  tk_order : offsets_below (boff <$> (bs ++ pend_list pend)) (tb_offset r)
}.

Lemma TableBuilder_new_ok (f : F) :
  contents f = [] -> exists r, TableBuilder_new (P := P) None interval f = Ok r /\ tb_ok r [] None [] [0%nat] [] [0%nat] /\ tb_file r = f.
Proof.
  intros Hf. unfold TableBuilder_new, BlockBuilder_new. rewrite !bind_assert by (apply Z.leb_le; lia). cbn [mbind outcome_bind].
  eexists. split; [done|]. split; [|done].
  split; cbn [tb_status closed tb_offset tb_file data_block index_block pending_index_entry tb_last_key num_entries filter_block]; try done.
  - by rewrite Hf.
  - apply (BlockBuilder_Reset_ok interval Hinterval).
  - apply (BlockBuilder_Reset_ok 1). lia.
  - by rewrite Hf.
  - repeat constructor.
Qed.

(** *** Order *)

Lemma keys_sorted_app l1 l2 :
  keys_sorted c (l1 ++ l2) <->
  keys_sorted c l1 /\ keys_sorted c l2 /\ forall x y, x ∈ l1 -> y ∈ l2 -> order (e_key x) (e_key y) < 0.
Proof.
  split.
  - intros Hs. split_and!.
    + intros i j e e' Hi Hj Hij. apply (Hs i j); [by apply lookup_app_l_Some|by apply lookup_app_l_Some|done].
    + intros i j e e' Hi Hj Hij. apply (Hs (length l1 + i) (length l1 + j))%nat; [rewrite lookup_app_r, Nat.add_sub' by lia; done..|lia].
    + intros x y [i Hi]%list_elem_of_lookup [j Hj]%list_elem_of_lookup. apply (Hs i (length l1 + j)%nat).
      * by apply lookup_app_l_Some.
      * by rewrite lookup_app_r, Nat.add_sub' by lia.
      * apply lookup_lt_Some in Hi. lia.
  - intros (Hs1 & Hs2 & Hs12) i j e e' Hi Hj Hij. destruct (decide (j < length l1)%nat).
    + rewrite lookup_app_l in Hi, Hj by lia. by eapply Hs1.
    + rewrite lookup_app_r in Hj by lia. destruct (decide (i < length l1)%nat).
      * rewrite lookup_app_l in Hi by lia. apply Hs12; by eapply list_elem_of_lookup_2.
      * rewrite lookup_app_r in Hi by lia. eapply Hs2; [done|done|lia].
Qed.

Lemma last_key_elem es : es <> [] -> exists e, e ∈ es /\ last_key es = e_key e.
Proof.
  destruct es as [|e es _] using rev_ind; [done|]. intros _. exists e. unfold last_key. rewrite last_snoc.
  split; [apply elem_of_app; right; by apply list_elem_of_singleton|done].
Qed.

Lemma last_key_app es es' : es' <> [] -> last_key (es ++ es') = last_key es'.
Proof.
  destruct es' as [|e es' _] using rev_ind; [done|]. intros _. unfold last_key. by rewrite app_assoc, !last_snoc.
Qed.

Lemma last_key_max es x : keys_sorted c es -> x ∈ es -> order (e_key x) (last_key es) <= 0.
Proof.
  destruct es as [|e es _] using rev_ind; [by intros _ ?%elem_of_nil|]. intros Hs Hx. unfold last_key. rewrite last_snoc. cbn.
  apply keys_sorted_app in Hs as (_ & _ & Hs). apply elem_of_app in Hx as [Hx|Hx%list_elem_of_singleton].
  - apply Z.lt_le_incl. apply Hs; [done|by apply list_elem_of_singleton].
  - subst. by rewrite cmp_refl.
Qed.

Notation valid_keys es := (Forall (fun e => key_valid (c := c) (e_key e)) es).

(** What a separator of the index is good for. *)
Lemma sep_facts bs1 b bs2 rest :
  sep_chain (bs1 ++ b :: bs2) rest -> Forall (fun b => t_es b <> []) (bs1 ++ b :: bs2) ->
  keys_sorted c (block_entries (bs1 ++ b :: bs2) ++ rest) -> valid_keys (block_entries (bs1 ++ b :: bs2) ++ rest) ->
  key_valid (c := c) (t_sep b) /\ lengthZ (t_sep b) <= lengthZ (last_key (t_es b)) /\
  order (last_key (t_es b)) (t_sep b) <= 0 /\ forall y, y ∈ block_entries bs2 ++ rest -> order (t_sep b) (e_key y) < 0.
Proof.
  induction bs1 as [|b1 bs1 IH]; cbn [app sep_chain].
  - intros [(e & He & Hsep) _] Hne Hs Hv. unfold block_entries in *. rewrite bind_cons, <- app_assoc in Hs, Hv.
    apply Forall_cons in Hne as [Hne _]. destruct (last_key_elem _ Hne) as (l & Hl & El). rewrite El in *.
    apply keys_sorted_app in Hs as (_ & Hs2 & Hs). apply Forall_app in Hv as [Hv1 Hv2].
    apply head_Some in He as [tl Etl]. rewrite Etl in *.
    assert (Hel : e ∈ e :: tl) by left.
    rewrite Forall_forall in Hv1, Hv2. pose proof (Hs l e Hl Hel) as Hlt.
    destruct (separator_lt (c := c) (e_key l) (e_key e) (Hv1 l Hl) (Hv2 e Hel) Hlt) as (s & Es & Hsv & Hslen & Hge & Hslt).
    assert (s = t_sep b) as -> by congruence. split_and!; try done.
    intros y [->|Hy]%elem_of_cons; [done|]. apply (cmp_lt_trans _ (e_key e)); [done|].
    apply (keys_sorted_app [e] tl) in Hs2 as (_ & _ & Hs2). apply Hs2; [by apply list_elem_of_singleton|done].
  - intros [_ Hc] Hne Hs Hv. unfold block_entries in *. rewrite bind_cons, <- app_assoc in Hs, Hv. apply IH; [done| | |].
    + by apply Forall_cons in Hne as [_ Hne].
    + by apply keys_sorted_app in Hs as (_ & Hs & _).
    + by apply Forall_app in Hv as [_ Hv].
Qed.

Lemma blocks_nonempty d bs : Forall (block_in d) bs -> Forall (fun b => t_es b <> []) bs.
Proof. intros Hb. eapply Forall_impl; [exact Hb|]. by intros b []. Qed.

(** The index entry of the pending block. *)
Lemma index_built r bs b idx ies iidx sep :
  tb_ok r bs (Some b) [] idx ies iidx -> key_valid (c := c) sep -> lengthZ sep <= lengthZ (last_key (t_es b)) ->
  order (last_key (t_es b)) sep <= 0 -> cost (block_entries bs ++ t_es b) < 2 ^ 31 ->
  exists i ie iidx', BlockBuilder_Add c 1 (index_block r) sep (handle_bytes (t_handle b)) = Ok i /\
    builder_ok 1 i (ies ++ [ie]) iidx' /\ index_entry_of ie (mkTBlock (t_es b) (t_idx b) (t_handle b) sep) /\
    lengthZ ((ies ++ [ie]) ≫= ebytes) <= cost (block_entries bs ++ t_es b).
Proof.
  intros Hok Hsv Hslen Hsge Hcost. destruct (tk_pend _ _ _ _ _ _ _ Hok) as (_ & _ & (Hne & _) & _).
  pose proof (tk_index _ _ _ _ _ _ _ Hok) as Hib. pose proof (tk_index_cost _ _ _ _ _ _ _ Hok) as Hic.
  pose proof (last_key_cost _ Hne) as Hlc. rewrite cost_app in *. pose proof (cost_nonneg (block_entries bs)).
  pose proof (handle_bytes_length (t_handle b)) as Hhl. pose proof (lengthZ_nonneg sep). pose proof (lengthZ_nonneg (ies ≫= ebytes)).
  destruct (BlockBuilder_Add_ok c 1 ltac:(lia) (index_block r) ies iidx sep (handle_bytes (t_handle b)) Hib Hsv)
    as (i & ie & iidx' & -> & Hib' & Hk & Hval & _); [|lia|].
  - intros ie Hie. destruct ies as [|ie0 ies0 _] using rev_ind; [done|]. rewrite last_snoc in Hie. injection Hie as ->.
    pose proof (tk_entries _ _ _ _ _ _ _ Hok) as He. apply Forall2_app_inv_l in He as (bs1 & bs2 & _ & He & ->).
    apply Forall2_cons_inv_l in He as (b0 & bs3 & [Hk0 _] & He & ->). apply Forall2_nil_inv_l in He as ->.
    pose proof (tk_chain _ _ _ _ _ _ _ Hok) as Hc. pose proof (tk_sorted _ _ _ _ _ _ _ Hok) as Hs. pose proof (tk_valid _ _ _ _ _ _ _ Hok) as Hv.
    cbn [pend_es from_option] in *. rewrite app_nil_r in *.
    destruct (sep_facts bs1 b0 [] (t_es b) Hc (blocks_nonempty _ _ (tk_blocks _ _ _ _ _ _ _ Hok)) Hs Hv) as (Hv0 & _ & _ & Hlt).
    rewrite Hk0. split; [done|]. destruct (last_key_elem _ Hne) as (l & Hl & El). rewrite El in Hsge.
    eapply cmp_lt_le_trans; [|exact Hsge]. apply Hlt. by cbn.
  - exists i, ie, iidx'. split; [done|]. split; [done|]. split; [done|].
    pose proof (builder_entries _ _ _ _ Hib') as Hent. apply Forall_app in Hent as [_ Hent]. apply Forall_cons in Hent as [Hent _].
    rewrite bind_app, lengthZ_app. cbn [mbind list_bind]. rewrite app_nil_r. pose proof (ebytes_length ie Hent).
    destruct Hent as (? & _ & _). rewrite Hk, Hval in *. lia.
Qed.

Lemma add_index_entry_ok r h i sep :
  pending_handle r = h -> handle_ok h -> BlockBuilder_Add c 1 (index_block r) sep (handle_bytes h) = Ok i ->
  add_index_entry c sep r = Ok (with_pending false h (with_index i r)).
Proof.
  intros Hph Hh Hi. unfold add_index_entry. rewrite Hph, BlockHandle_EncodeTo_ok by done. cbn [mbind outcome_bind app]. by rewrite Hi.
Qed.

(** Flushing makes the entries of the data block a block that is pending. *)
Lemma TableBuilder_Flush_ok r bs es idx ies iidx :
  tb_ok r bs None es idx ies iidx -> es <> [] -> cost (block_entries bs ++ es) < 2 ^ 31 ->
  exists r' b, TableBuilder_Flush (P := P) None addr compression r = Ok r' /\ t_es b = es /\
    tb_ok r' bs (Some b) [] [0%nat] ies iidx.
Proof.
  intros [Hst Hcl Hoff Hd Hi He Hb Hp Hch Hso Hv Hl Hn Hf Hfc Hic _ Hord] Hne Hcost. cbn [pend_es from_option app] in *.
  rewrite app_nil_r in Hfc. rewrite cost_app in Hcost.
  pose proof (cost_nonneg (block_entries bs)). pose proof (bo_layout _ _ _ _ Hd) as Hlay.
  pose proof (block_cost es idx Hlay Hne) as Hbc. pose proof (idx_length es idx Hlay) as Hidx.
  pose proof (cost_nonneg es). pose proof (lengthZ_nonneg (contents (tb_file r))).
  unfold TableBuilder_Flush. rewrite Hcl, Hst. cbn [negb assert_ mbind outcome_bind ok].
  assert (Hemp : BlockBuilder_empty (data_block r) = false).
  { unfold BlockBuilder_empty. rewrite (bo_buffer _ _ _ _ Hd). destruct es as [|e es']; [done|]. rewrite bind_cons, lengthZ_app.
    pose proof (lo_entries _ _ Hlay) as Hent. apply Forall_cons in Hent as [Hent _]. pose proof (ebytes_length e Hent).
    destruct Hent as (? & _ & _). pose proof (lengthZ_nonneg (e_value e)). pose proof (lengthZ_nonneg (es' ≫= ebytes)). apply Z.eqb_neq. lia. }
  rewrite Hemp, Hp. cbn [negb assert_ mbind outcome_bind].
  destruct (WriteBlock_ok (data_block r) es idx interval r Hd) as (f & h & d & -> & Hcf & [d' Hd'] & Hat & Hh & Hlen & Hho & Hod); [lia|lia|done|done|lia|].
  cbn [mbind outcome_bind]. destruct (Flush_contents f) as (f' & Efl & Hcf').
  cbn [with_data with_pending with_table_file tb_status ok tb_file tb_offset].
  rewrite Efl. cbn [filter_block with_data with_pending with_table_file]. rewrite Hf. cbn [file_status].
  eexists _, (mkTBlock es idx h []). split; [done|]. split; [done|].
  assert (Hcont : contents f' = contents (tb_file r) ++ d') by by rewrite Hcf', Hcf.
  split; cbn [with_data with_pending with_table_file tb_status closed tb_offset tb_file data_block index_block pending_index_entry
    pending_handle tb_last_key num_entries filter_block pend_es from_option t_es t_handle]; rewrite ?app_nil_r; try done.
  - by rewrite Hcf', Hcf.
  - apply (BlockBuilder_Reset_ok interval Hinterval).
  - rewrite Hcont. eapply Forall_impl; [exact Hb|]. intros b. apply block_in_app.
  - split; [done|]. split; [done|]. split; [|done]. split_and!; try done; [by rewrite Hcf', Hcf|cbn [t_es t_idx]; lia].
  - rewrite Hcf', Hcf, cost_app. lia.
  - cbn [pend_list] in *. rewrite app_nil_r in Hord. rewrite fmap_app. change (boff <$> [mkTBlock es idx h []]) with [offset_ h].
    rewrite Hho. by eapply offsets_below_snoc.
Qed.

(** *** Adding an entry *)

Definition all_entries bs (pend : option tblock) (es : list bentry) : list bentry := block_entries bs ++ pend_es pend ++ es.

(** After the index entry, if one was due. *)
Lemma index_added r bs pend es idx ies iidx e :
  tb_ok r bs pend es idx ies iidx -> key_valid (c := c) (e_key e) ->
  (forall l, last (all_entries bs pend es) = Some l -> order (e_key l) (e_key e) < 0) ->
  cost (all_entries bs pend es) < 2 ^ 31 ->
  exists r1 bs' ies' iidx',
    (if pending_index_entry r then
       _ ← assert_ (BlockBuilder_empty (data_block r));
       last_key ← FindShortestSeparator c (tb_last_key r) (e_key e);
       add_index_entry c last_key r
     else Ok r) = Ok r1 /\
    r1 = with_pending false (pending_handle r) (with_index (index_block r1) r) /\
    builder_ok 1 (index_block r1) ies' iidx' /\ Forall2 index_entry_of ies' bs' /\
    Forall (block_in (contents (tb_file r))) bs' /\ block_entries bs' = block_entries bs ++ pend_es pend /\
    boff <$> bs' = boff <$> (bs ++ pend_list pend) /\ sep_chain bs' (es ++ [e]) /\ lengthZ (ies' ≫= ebytes) <= cost (block_entries bs').
Proof.
  intros Hok Hev Hlast Hcost. pose proof (tk_pend _ _ _ _ _ _ _ Hok) as Hp. unfold all_entries in *.
  destruct pend as [b|]; cbn [pend_es from_option app] in *.
  - destruct Hp as (Hpe & Hph & Hbin & ->). rewrite Hpe. pose proof Hbin as (Hne & _ & _ & Hh & _).
    unfold BlockBuilder_empty. rewrite (bo_buffer _ _ _ _ (tk_data _ _ _ _ _ _ _ Hok)). cbn [mbind list_bind lengthZ Z.eqb].
    rewrite bind_assert by done. rewrite (tk_last _ _ _ _ _ _ _ Hok). cbn [pend_es from_option]. rewrite app_nil_r in *.
    rewrite last_key_app by done. destruct (last_key_elem _ Hne) as (l & Hl & El).
    assert (Hlv : key_valid (c := c) (last_key (t_es b))).
    { pose proof (tk_valid _ _ _ _ _ _ _ Hok) as Hv. cbn [pend_es from_option] in Hv. rewrite app_nil_r in Hv.
      apply Forall_app in Hv as [_ Hv]. rewrite Forall_forall in Hv. rewrite El. by apply Hv. }
    assert (Hlt : order (last_key (t_es b)) (e_key e) < 0).
    { unfold last_key in *. destruct (last (t_es b)) as [x|] eqn:Ex; [|by apply last_None in Ex].
      apply Hlast. rewrite last_app, Ex. done. }
    destruct (separator_lt (c := c) _ _ Hlv Hev Hlt) as (sep & Es & Hsv & Hslen & Hge & _). rewrite Es. cbn [mbind outcome_bind].
    destruct (index_built r bs b idx ies iidx sep Hok Hsv Hslen Hge Hcost) as (i & ie & iidx' & Ei & Hib & Hie & Hic).
    rewrite (add_index_entry_ok r (t_handle b) i sep Hph Hh Ei).
    set (b' := mkTBlock (t_es b) (t_idx b) (t_handle b) sep).
    assert (Ebs : block_entries (bs ++ [b']) = block_entries bs ++ t_es b).
    { unfold block_entries. rewrite bind_app. cbn. by rewrite app_nil_r. }
    exists (with_pending false (t_handle b) (with_index i r)), (bs ++ [b']), (ies ++ [ie]), iidx'.
    split; [done|]. split; [by rewrite Hph|]. split; [done|].
    split; [apply Forall2_app; [apply (tk_entries _ _ _ _ _ _ _ Hok)|by constructor]|].
    split; [apply Forall_app; split; [apply (tk_blocks _ _ _ _ _ _ _ Hok)|by apply Forall_singleton]|].
    split; [done|]. split; [by rewrite !fmap_app|]. split; [|by rewrite Ebs].
    apply (sep_chain_snoc bs b' e []); [|done]. cbn [t_es b'].
    pose proof (tk_chain _ _ _ _ _ _ _ Hok) as Hc. cbn [pend_es from_option] in Hc. rewrite app_nil_r in Hc. by apply sep_chain_app.
  - rewrite Hp. exists r, bs, ies, iidx. rewrite app_nil_r. split; [done|]. split.
    + unfold with_pending, with_index. cbn. rewrite <- Hp. by destruct r.
    + pose proof (tk_chain _ _ _ _ _ _ _ Hok) as Hc. cbn [pend_es from_option app] in Hc. destruct Hok.
      split_and!; try done; [by cbn; rewrite app_nil_r|by apply sep_chain_app].
Qed.

(** The new state, before a flush. *)
Lemma data_added r r1 bs pend es idx ies iidx bs' ies' iidx' e d idx' :
  tb_ok r bs pend es idx ies iidx ->
  r1 = with_pending false (pending_handle r) (with_index (index_block r1) r) ->
  builder_ok 1 (index_block r1) ies' iidx' -> Forall2 index_entry_of ies' bs' ->
  Forall (block_in (contents (tb_file r))) bs' -> block_entries bs' = block_entries bs ++ pend_es pend ->
  boff <$> bs' = boff <$> (bs ++ pend_list pend) -> sep_chain bs' (es ++ [e]) -> lengthZ (ies' ≫= ebytes) <= cost (block_entries bs') ->
  key_valid (c := c) (e_key e) -> (forall l, last (all_entries bs pend es) = Some l -> order (e_key l) (e_key e) < 0) ->
  builder_ok interval d (es ++ [e]) idx' ->
  tb_ok (with_data d (with_last (e_key e) (num_entries r1 + 1) (with_filter (AddKey (e_key e) <$> filter_block r1) r1)))
    bs' None (es ++ [e]) idx' ies' iidx'.
Proof.
  intros Hok Er1 Hib Hent Hbs Ebs Eoff Hchain Hic Hev Hlast Hd. unfold all_entries in Hlast. rewrite app_assoc, <- Ebs in Hlast.
  pose proof (tk_sorted _ _ _ _ _ _ _ Hok) as Hs. pose proof (tk_valid _ _ _ _ _ _ _ Hok) as Hv.
  pose proof (tk_count _ _ _ _ _ _ _ Hok) as Hn. pose proof (tk_file_cost _ _ _ _ _ _ _ Hok) as Hfc.
  rewrite app_assoc, <- Ebs in Hs, Hv, Hn. rewrite <- Ebs in Hfc. destruct Hok as [Hst Hcl Hoff _ _ _ _ _ _ _ _ _ _ Hf _ _ _ Hord].
  rewrite Er1. split; cbn [with_data with_pending with_index with_last with_filter tb_status closed tb_offset tb_file data_block index_block
    pending_index_entry pending_handle tb_last_key num_entries filter_block pend_es from_option app]; try done.
  - rewrite app_assoc. apply keys_sorted_snoc; [done|exact Hlast].
  - rewrite app_assoc. apply Forall_app. split; [done|]. by apply Forall_singleton.
  - unfold last_key. by rewrite app_assoc, last_snoc.
  - rewrite Hn, app_assoc, (length_app (block_entries bs' ++ es)). cbn. lia.
  - by rewrite Hf.
  - by rewrite app_nil_r.
  - intros _ E. by destruct es.
  - cbn [pend_list]. by rewrite app_nil_r, Eoff.
Qed.

Lemma TableBuilder_Add_ok r bs pend es idx ies iidx key value :
  tb_ok r bs pend es idx ies iidx -> key_valid (c := c) key ->
  (forall l, last (all_entries bs pend es) = Some l -> order (e_key l) key < 0) ->
  cost (all_entries bs pend es) + 2 * lengthZ key + lengthZ value + 100 < 2 ^ 31 ->
  exists r' bs' pend' es' idx' ies' iidx' e,
    TableBuilder_Add c (P := P) None addr block_size interval compression key value r = Ok r' /\
    tb_ok r' bs' pend' es' idx' ies' iidx' /\ kv e = (key, value) /\
    all_entries bs' pend' es' = all_entries bs pend es ++ [e].
Proof.
  intros Hok Hkv Hlast Hcost. pose proof (lengthZ_nonneg key). pose proof (lengthZ_nonneg value).
  unfold TableBuilder_Add. rewrite (tk_closed _ _ _ _ _ _ _ Hok), (tk_status _ _ _ _ _ _ _ Hok). cbn [negb ok].
  rewrite bind_assert by done.
  set (cmp := if 0 <? num_entries r then _ else Ok ()).
  assert (Hcmp : cmp = Ok ()).
  { unfold cmp. rewrite (tk_count _ _ _ _ _ _ _ Hok), (tk_last _ _ _ _ _ _ _ Hok). fold (all_entries bs pend es).
    pose proof (tk_valid _ _ _ _ _ _ _ Hok) as Hv. fold (all_entries bs pend es) in Hv. unfold last_key.
    destruct (last (all_entries bs pend es)) as [l|] eqn:El.
    - rewrite (proj2 (Z.ltb_lt _ _)) by (destruct (all_entries bs pend es); [done|cbn; lia]). cbn [from_option].
      assert (Hl : l ∈ all_entries bs pend es) by (apply last_lookup_length in El; by eapply list_elem_of_lookup_2).
      rewrite Forall_forall in Hv. rewrite Compare_valid by (done || by apply Hv). cbn [mbind outcome_bind].
      unfold assert_. rewrite (proj2 (Z.ltb_lt _ _)); [done|]. apply cmp_lt_gt. by apply Hlast.
    - apply last_None in El. by rewrite El. }
  rewrite Hcmp. cbn [mbind outcome_bind].
  destruct (index_added r bs pend es idx ies iidx (mkEntry 0 key value) Hok Hkv Hlast ltac:(lia))
    as (r1 & bs' & ies' & iidx' & E & Er1 & Hib & Hent & Hbs & Ebs & Eoff & Hchain & Hic). cbn [e_key] in E. rewrite E. cbn [mbind outcome_bind].
  assert (Edata : data_block (with_last key (num_entries r1 + 1) (with_filter (AddKey key <$> filter_block r1) r1)) = data_block r) by (by rewrite Er1).
  cbv zeta. change (num_entries (with_filter _ r1)) with (num_entries r1). rewrite Edata.
  pose proof (tk_data _ _ _ _ _ _ _ Hok) as Hd. pose proof (entries_cost es (builder_entries _ _ _ _ Hd)).
  pose proof (cost_nonneg (block_entries bs)). pose proof (cost_nonneg (pend_es pend)).
  unfold all_entries in Hcost. rewrite !cost_app in Hcost.
  destruct (BlockBuilder_Add_ok c interval Hinterval (data_block r) es idx key value Hd Hkv) as (d & e & idx' & -> & Hd' & Hek & Hev & _); [|lia|].
  { intros l Hl. split.
    - pose proof (tk_valid _ _ _ _ _ _ _ Hok) as Hv. apply Forall_app in Hv as [_ Hv]. apply Forall_app in Hv as [_ Hv].
      rewrite Forall_forall in Hv. apply Hv. apply last_lookup_length in Hl. by eapply list_elem_of_lookup_2.
    - apply Hlast. unfold all_entries. by rewrite !last_app, Hl. }
  cbn [mbind outcome_bind].
  assert (Hchain' : sep_chain bs' (es ++ [e])) by (eapply sep_chain_key; [exact Hchain|by rewrite Hek]).
  subst key.
  pose proof (data_added r r1 bs pend es idx ies iidx bs' ies' iidx' e d idx' Hok Er1 Hib Hent Hbs Ebs Eoff Hchain' Hic Hkv Hlast Hd') as Hok'.
  assert (Eall : all_entries bs' None (es ++ [e]) = all_entries bs pend es ++ [e]).
  { unfold all_entries. cbn [pend_es from_option app]. rewrite Ebs. by rewrite <- !app_assoc. }
  destruct (block_size <=? CurrentSizeEstimate d).
  - destruct (TableBuilder_Flush_ok _ bs' (es ++ [e]) idx' ies' iidx' Hok') as (r' & b & -> & Eb & Hok''); [by destruct es| |].
    + rewrite Ebs, !cost_app. cbn [cost]. rewrite Hev. lia.
    + exists r', bs', (Some b), [], [0%nat], ies', iidx', e. split; [done|]. split; [done|]. split; [unfold kv; by rewrite Hev|].
      rewrite <- Eall. unfold all_entries. cbn [pend_es from_option app]. by rewrite Eb, app_nil_r.
  - do 7 eexists. exists e. split; [done|]. split; [exact Hok'|]. split; [unfold kv; by rewrite Hev|exact Eall].
Qed.

(** ** The finished file *)

(** The last block's index key follows its keys. *)
Definition final_chain bs : Prop :=
  bs = [] \/ exists bs0 b, bs = bs0 ++ [b] /\ sep_chain bs0 (t_es b) /\ FindShortSuccessor c (last_key (t_es b)) = Ok (t_sep b).

Record table_file (d : bytes) bs (ies : list bentry) (iidx : list nat) (mh ih : BlockHandle) : Prop := {
  tf_blocks : Forall (block_in d) bs;
  tf_entries : Forall2 index_entry_of ies bs;
  tf_layout : layout_ok ies iidx;
  tf_index : data_at d ih (block_data ies iidx);
  tf_index_size : lengthZ (block_data ies iidx) < 2 ^ 32;
  tf_handles : handle_ok mh /\ handle_ok ih;
  tf_footer : exists d0, d = d0 ++ footer_bytes (mkFooter mh ih);
  tf_chain : final_chain bs;
  tf_order : StronglySorted Z.lt (boff <$> bs);
  tf_sorted : keys_sorted c (block_entries bs);
  tf_valid : valid_keys (block_entries bs);
  tf_size : lengthZ d < 2 ^ 33
}.

(** What is to be written when the data blocks are flushed. *)
Lemma index_finished r bs pend idx ies iidx :
  tb_ok r bs pend [] idx ies iidx -> cost (block_entries bs ++ pend_es pend) < 2 ^ 31 ->
  forall r2, pending_index_entry r2 = pending_index_entry r -> pending_handle r2 = pending_handle r ->
  index_block r2 = index_block r -> tb_last_key r2 = tb_last_key r ->
  exists i bs' ies' iidx',
    (if pending_index_entry r2 then
       last_key ← FindShortSuccessor c (tb_last_key r2); add_index_entry c last_key r2
     else Ok r2) = Ok (with_pending false (pending_handle r2) (with_index i r2)) /\
    builder_ok 1 i ies' iidx' /\ Forall2 index_entry_of ies' bs' /\ Forall (block_in (contents (tb_file r))) bs' /\
    block_entries bs' = block_entries bs ++ pend_es pend /\ boff <$> bs' = boff <$> (bs ++ pend_list pend) /\ final_chain bs' /\
    lengthZ (ies' ≫= ebytes) <= cost (block_entries bs ++ pend_es pend).
Proof.
  intros Hok Hcost r2 E1 E2 E3 E4. rewrite E1, E2, E4. pose proof (tk_pend _ _ _ _ _ _ _ Hok) as Hp.
  destruct pend as [b|]; cbn [pend_es from_option] in *.
  - destruct Hp as (Hpe & Hph & Hbin & _). rewrite Hpe, Hph. pose proof Hbin as (Hne & _ & _ & Hh & _).
    rewrite (tk_last _ _ _ _ _ _ _ Hok). cbn [pend_es from_option]. rewrite app_nil_r, last_key_app by done.
    destruct (last_key_elem _ Hne) as (l & Hl & El).
    assert (Hlv : key_valid (c := c) (last_key (t_es b))).
    { pose proof (tk_valid _ _ _ _ _ _ _ Hok) as Hv. cbn [pend_es from_option] in Hv. rewrite app_nil_r in Hv.
      apply Forall_app in Hv as [_ Hv]. rewrite Forall_forall in Hv. rewrite El. by apply Hv. }
    destruct (successor_ge (c := c) _ Hlv) as (sep & Es & Hsv & Hslen & Hge). rewrite Es. cbn [mbind outcome_bind].
    destruct (index_built r bs b idx ies iidx sep Hok Hsv Hslen Hge Hcost) as (i & ie & iidx' & Ei & Hib & Hie & Hic).
    rewrite (add_index_entry_ok r2 (t_handle b) i sep); [|congruence|done|by rewrite E3].
    set (b' := mkTBlock (t_es b) (t_idx b) (t_handle b) sep).
    exists i, (bs ++ [b']), (ies ++ [ie]), iidx'. split; [done|]. split; [done|].
    split; [apply Forall2_app; [apply (tk_entries _ _ _ _ _ _ _ Hok)|by constructor]|].
    split; [apply Forall_app; split; [apply (tk_blocks _ _ _ _ _ _ _ Hok)|by apply Forall_singleton]|].
    split; [unfold block_entries; rewrite bind_app; cbn; by rewrite app_nil_r|].
    split; [by rewrite !fmap_app|]. split; [|done]. right. exists bs, b'. split; [done|]. split; [|done].
    pose proof (tk_chain _ _ _ _ _ _ _ Hok) as Hc. cbn [pend_es from_option] in Hc. by rewrite app_nil_r in Hc.
  - rewrite Hp. exists (index_block r2), bs, ies, iidx. rewrite app_nil_r in *. split.
    + do 1 f_equal. unfold with_pending, with_index. rewrite <- Hp, <- E1, <- E2. by destruct r2.
    + rewrite E3. split; [apply Hok|]. split; [apply Hok|]. split; [apply Hok|].
      split; [done|]. split; [by cbn; rewrite app_nil_r|]. split; [|apply Hok].
      (* no block is waiting: nothing was written since the index entry *)
      left. exact (tk_none _ _ _ _ _ _ _ Hok eq_refl eq_refl).
Qed.

Lemma blocks_length bs d : Forall (block_in d) bs -> (length bs <= length (block_entries bs))%nat.
Proof.
  induction 1 as [|b bs (Hne & _) _ IH]; [done|]. unfold block_entries in *. rewrite bind_cons, length_app. cbn [length].
  destruct (t_es b); [done|]. cbn [length]. lia.
Qed.

(** An empty block. *)
Lemma empty_layout : layout_ok [] [0%nat].
Proof. apply (bo_layout _ _ _ _ (BlockBuilder_Reset_ok 1 ltac:(lia))). Qed.

(** The rest of [Finish], when nothing is left in the data block. *)
Lemma Finish_rest r bs pend idx ies iidx :
  tb_ok r bs pend [] idx ies iidx -> cost (block_entries bs ++ pend_es pend) < 2 ^ 31 ->
  exists r' bs' ies' iidx' mh ih,
    (_ ← assert_ (negb (closed r));
     let r := close r in
     '(r, filter_block_handle) ←
       (match ok (tb_status r), filter_block r, (None : option P) with
        | true, Some f, Some p =>
            f ← FilterBlockBuilder_Finish p f;
            Ok (WriteRawBlock addr (fb_result f) kNoCompression (with_filter (Some f) r))
        | _, _, _ => Ok (r, BlockHandle_new)
        end);
     '(r, metaindex_block_handle) ←
       (if ok (tb_status r) then
          meta ← BlockBuilder_new interval;
          meta ← match filter_block r, (None : option P) with
                 | Some _, Some p =>
                     handle_encoding ← BlockHandle_EncodeTo filter_block_handle [];
                     BlockBuilder_Add c interval meta (filter_name p) handle_encoding
                 | _, _ => Ok meta
                 end;
          WriteBlock addr compression meta r
        else Ok (r, BlockHandle_new));
     '(r, index_block_handle) ←
       (if ok (tb_status r) then
          r ← (if pending_index_entry r then
                 last_key ← FindShortSuccessor c (tb_last_key r); add_index_entry c last_key r
               else Ok r);
          '(r, handle) ← WriteBlock addr compression (index_block r) r;
          Ok (with_index BlockBuilder_Reset r, handle)
        else Ok (r, BlockHandle_new));
     if ok (tb_status r) then
       footer_encoding ← Footer_EncodeTo (mkFooter metaindex_block_handle index_block_handle) [];
       let '(s, file) := Append (tb_file r) footer_encoding in
       let offset := if s : bool then u64 (tb_offset r + lengthZ footer_encoding) else tb_offset r in
       Ok (with_table_file file offset (file_status s) r)
     else Ok r) = Ok r' /\
    tb_status r' = Status_ok /\ tb_offset r' = lengthZ (contents (tb_file r')) /\
    table_file (contents (tb_file r')) bs' ies' iidx' mh ih /\ block_entries bs' = block_entries bs ++ pend_es pend.
Proof.
  intros Hok Hcost. rewrite (tk_closed _ _ _ _ _ _ _ Hok). cbn [negb]. rewrite bind_assert by done. cbv zeta.
  change (tb_status (close r)) with (tb_status r). rewrite (tk_status _ _ _ _ _ _ _ Hok). cbn [ok].
  change (filter_block (close r)) with (filter_block r). rewrite (tk_filter _ _ _ _ _ _ _ Hok). cbn [mbind outcome_bind].
  change (tb_status (close r)) with (tb_status r). rewrite (tk_status _ _ _ _ _ _ _ Hok). cbn [ok].
  unfold BlockBuilder_new. rewrite bind_assert by (by apply Z.leb_le). cbn [mbind outcome_bind].
  change (filter_block (close r)) with (filter_block r). rewrite (tk_filter _ _ _ _ _ _ _ Hok). cbn [mbind outcome_bind].
  pose proof (tk_file_cost _ _ _ _ _ _ _ Hok) as Hfc. pose proof (lengthZ_nonneg (contents (tb_file r))) as Hc0.
  pose proof (tk_offset _ _ _ _ _ _ _ Hok) as Hoff.
  destruct (WriteBlock_ok BlockBuilder_Reset [] [0%nat] 1 (close r) (BlockBuilder_Reset_ok 1 ltac:(lia)))
    as (f1 & mh & d1 & -> & Hf1 & [x1 Hd1] & _ & Hmh & Hl1 & _ & _); [cbn; lia|rewrite data_length; cbn; lia|by apply Hok|by apply Hok|cbn; lia|].
  rewrite data_length in Hl1. cbn [length off lengthZ take mbind list_bind close tb_file] in Hl1, Hd1.
  cbn [mbind outcome_bind tb_status with_table_file ok].
  destruct (index_finished r bs pend idx ies iidx Hok Hcost (with_table_file f1 (lengthZ d1) Status_ok (close r)) eq_refl eq_refl eq_refl eq_refl)
    as (i & bs' & ies' & iidx' & E & Hib & Hent & Hbs & Ebs & Eoff & Hchain & Hic).
  rewrite E. cbn [mbind outcome_bind].
  pose proof (bo_layout _ _ _ _ Hib) as Hil. pose proof (idx_length _ _ Hil) as Hin.
  pose proof (Forall2_length _ _ _ Hent) as Hnb. pose proof (blocks_length _ _ Hbs) as Hnb2. rewrite Ebs in Hnb2.
  pose proof (cost_nonneg (block_entries bs ++ pend_es pend)).
  assert (Hisz : lengthZ (block_data ies' iidx') < 2 ^ 31 + 2 ^ 28).
  { rewrite data_length, off_length. lia. }
  set (r2 := with_pending _ _ _). change (index_block r2) with i.
  destruct (WriteBlock_ok i ies' iidx' 1 r2 Hib) as (f2 & ih & d2 & -> & Hf2 & [x2 Hd2] & Hat & Hih & Hl2 & _ & _);
    [lia|lia|done|cbn; by rewrite Hf1|cbn; lia|].
  cbn [mbind outcome_bind tb_status with_table_file with_index with_pending ok r2]. cbn [r2 with_pending with_index with_table_file tb_file] in Hd2, Hl2.
  rewrite Footer_EncodeTo_ok by done. cbn [mbind outcome_bind].
  cbn [tb_file with_index with_table_file].
  destruct (Append_contents f2 (footer_bytes (mkFooter mh ih))) as (f3 & -> & Hf3).
  eexists _, bs', ies', iidx', mh, ih. split; [done|]. cbn [with_table_file tb_status tb_offset tb_file file_status].
  pose proof (footer_bytes_length (mkFooter mh ih)) as Hfl. unfold kEncodedLength, kMaxEncodedLength in Hfl.
  pose proof (lengthZ_nonneg d2). rewrite Hf1 in Hl2.
  split; [done|]. split.
  { cbn [tb_offset with_index with_table_file]. rewrite Hf3, Hf2, lengthZ_app, u64_small by lia. done. }
  split; [|done]. pose proof (tk_sorted _ _ _ _ _ _ _ Hok) as Hs. pose proof (tk_valid _ _ _ _ _ _ _ Hok) as Hv.
  rewrite app_nil_r, <- Ebs in Hs, Hv. rewrite Hf3, Hf2. split; try done.
  - rewrite Hd2, Hf1, Hd1, <- !app_assoc. eapply Forall_impl; [exact Hbs|]. intros b. apply block_in_app.
  - by apply data_at_app.
  - lia.
  - by exists d2.
  - rewrite Eoff. pose proof (tk_order _ _ _ _ _ _ _ Hok) as Ho. by apply StronglySorted_app in Ho as (_ & Ho & _).
  - rewrite lengthZ_app. lia.
Qed.

Lemma TableBuilder_Finish_ok r bs pend es idx ies iidx :
  tb_ok r bs pend es idx ies iidx -> cost (all_entries bs pend es) < 2 ^ 31 ->
  exists r' bs' ies' iidx' mh ih,
    TableBuilder_Finish c (P := P) None addr interval compression r = Ok r' /\
    tb_status r' = Status_ok /\ tb_offset r' = lengthZ (contents (tb_file r')) /\
    table_file (contents (tb_file r')) bs' ies' iidx' mh ih /\ block_entries bs' = all_entries bs pend es.
Proof.
  intros Hok Hcost. unfold TableBuilder_Finish. unfold all_entries in *. destruct (decide (es = [])) as [->|Hne].
  - rewrite app_nil_r in *.
    assert (E : TableBuilder_Flush (P := P) None addr compression r = Ok r).
    { unfold TableBuilder_Flush. rewrite (tk_closed _ _ _ _ _ _ _ Hok), (tk_status _ _ _ _ _ _ _ Hok). cbn [negb ok].
      rewrite bind_assert by done. unfold BlockBuilder_empty. by rewrite (bo_buffer _ _ _ _ (tk_data _ _ _ _ _ _ _ Hok)). }
    rewrite E. cbn [mbind outcome_bind]. by eapply Finish_rest.
  - assert (pend = None) as ->.
    { pose proof (tk_pend _ _ _ _ _ _ _ Hok) as Hp. destruct pend; [|done]. by destruct Hp as (_ & _ & _ & ?). }
    cbn [pend_es from_option app] in *. destruct (TableBuilder_Flush_ok r bs es idx ies iidx Hok Hne Hcost) as (r' & b & -> & <- & Hok').
    cbn [mbind outcome_bind]. by eapply (Finish_rest _ _ (Some b)).
Qed.
End build.
End spec.
