(* ===== verification/TableGet.v ===== *)
(** * LevelDB: reading a finished table

    Opening the file and [InternalGet], with or without a block cache. *)

From S2P Require Import Prelude.
From S2P Require Import Bytes.
From S2P Require Import Coding.
From S2P Require Import Comparator.
From S2P Require Import DbFormat.
From S2P Require Import Log.
From S2P Require Import LogSpec.
From S2P Require Import Iterator.
From S2P Require Import Block.
From S2P Require Import BlockSpec.
From S2P Require Import BlockIter.
From S2P Require Import Format.
From S2P Require Import FilterBlock.
From S2P Require Import Table.
From S2P Require Import TableSpec.
From stdpp Require Import base tactics numbers list sorting strings.
From Stdlib Require Import Ascii ZArith Lia.

Open Scope Z_scope.

(** What a table relies on in a cache: it gives back what was put in, under
    the key it was put in with; it may forget. *)
Class BlockCacheLaws (K : Type) `{BlockCache K} := {
  cached : K -> bytes -> option Block;
  Lookup_cached k key : exists k', cache_Lookup k key = (cached k key, k') /\ forall key', cached k' key' = cached k key';
  Insert_cached k key b key' b' : cached (cache_Insert k key b) key' = Some b' ->
    (key' = key /\ b' = b) \/ cached k key' = Some b'
}.

Section read.
Context {platform : Platform} {C : Type} `{Comparator C} (c : C) `{!ComparatorLaws C c}.
Context {P : Type} `{FilterPolicy P} `{SnappyLaws} (addr : bytes -> Z).
Context {R : Type} `{ReliableRandom R} {K : Type} `{BlockCacheLaws K}.
Notation order := (key_order (c := c)).
Notation valid_keys es := (Forall (fun e => key_valid (c := c) (e_key e)) es).
Implicit Types file : R.
Implicit Types t : Table R.

(** ** Blocks *)

Lemma reads_at file d pre s post :
  file_bytes file = d -> d = pre ++ s ++ post -> reads file (lengthZ pre) s.
Proof.
  intros Hf ->. pose proof (lengthZ_nonneg pre). pose proof (lengthZ_nonneg s). pose proof (lengthZ_nonneg post).
  destruct (Read_file_bytes file (lengthZ pre) (lengthZ s)) as (in_buf & E); [done|done|rewrite Hf, !lengthZ_app; lia|].
  exists in_buf. rewrite E, Hf, dropZ_app_exact by done. by rewrite takeZ_app_exact.
Qed.

Lemma ReadBlock_at file d verify h raw :
  file_bytes file = d -> lengthZ d < 2 ^ 33 -> data_at d h raw ->
  exists k o, ReadBlock addr file verify h = Ok (Status_ok, mkBlockContents raw k o).
Proof.
  intros Hf Hd (pre & s & t & post & Ed & Ho & Hs & Hst).
  assert (Hr : reads file (lengthZ pre) (s ++ trailer s t)) by (eapply reads_at; [exact Hf|by rewrite Ed, <- !app_assoc]).
  assert (Hlen : lengthZ s < 2 ^ 63).
  { rewrite Ed, !lengthZ_app in Hd. pose proof (lengthZ_nonneg pre). pose proof (lengthZ_nonneg post).
    pose proof (lengthZ_nonneg (trailer s t)). lia. }
  destruct (ReadBlock_ok addr file verify (lengthZ pre) raw s t Hlen Hr Hst) as (k & o & E). exists k, o.
  destruct h as [ho hs]. cbn [offset_ bh_size] in *. by subst.
Qed.

(** Seeking in a block, from a new iterator. *)
Lemma block_seek es idx k n :
  layout_ok es idx -> lengthZ (block_data es idx) < 2 ^ 32 -> valid_keys es -> keys_sorted c es ->
  key_valid (c := c) k -> first_ge es c k n ->
  exists i0 i, Block_NewIterator (block_of es idx) = Ok i0 /\ bi_Seek c k i0 = Ok i /\
    bi_Valid i = bool_decide (is_Some (es !! n)) /\ bi_status i = Status_ok /\
    forall e, es !! n = Some e -> bi_key i = Ok (e_key e) /\ bi_value i = Ok (e_value e).
Proof.
  intros Hok Hsz Hv Hs Hk Hn. destruct (Block_new_ok es idx Hok Hsz) as [_ E]. cbv zeta in E. unfold block_of. rewrite E.
  eexists. unfold bi_Seek, on_iterator.
  destruct (Iter_Seek_ok es idx Hok Hsz c Hv Hs k Hk (mkIter (off es (length es)) (Z.of_nat (length idx)) [] None Status_ok) n Hn eq_refl)
    as (it' & Es & Hp).
  eexists. split; [done|]. cbn beta iota. rewrite Es. cbn [mbind outcome_bind]. split; [done|]. cbn [bi_Valid bi_status bi_key bi_value].
  split; [by eapply iter_pos_Valid|]. split; [by eapply iter_pos_status|].
  intros e He. unfold BlockSpec.iter_pos in Hp. rewrite He in Hp.
  split; [by eapply iter_key_ok|by eapply iter_value_ok].
Qed.

(** ** Open *)

Context (file : R) (bs : list tblock) (ies : list bentry) (iidx : list nat) (mh ih : BlockHandle).
Notation d := (file_bytes file).
Context (Hfile : table_file c d bs ies iidx mh ih).

Definition opened_table (id : Z) : Table R := mkTable file id None mh (block_of ies iidx).

Lemma Table_Open_ok (cache : option K) :
  exists id cache', Table_Open (P := P) None addr file (lengthZ d) cache = Ok (Status_ok, Some (opened_table id), cache') /\
    match cache with Some k => id = fst (cache_NewId k) /\ cache' = Some (snd (cache_NewId k)) | None => cache' = None end.
Proof.
  destruct Hfile as [_ _ Hlay Hidx Hisz [Hmh Hih] [d0 Hd0] _ _ _ _ Hsz].
  pose proof (footer_bytes_length (mkFooter mh ih)) as Hfl. pose proof (lengthZ_nonneg d0) as Hd00.
  assert (Hdl : lengthZ d = lengthZ d0 + kEncodedLength) by (by rewrite Hd0, lengthZ_app, Hfl).
  change kEncodedLength with 48 in *.
  unfold Table_Open. change kEncodedLength with 48. rewrite (proj2 (Z.ltb_ge _ _)) by lia.
  rewrite Hdl, Z.add_simpl_r.
  destruct (reads_at file d d0 (footer_bytes (mkFooter mh ih)) [] eq_refl ltac:(by rewrite app_nil_r)) as [in_buf Hr].
  rewrite Hfl in Hr. rewrite Hr. cbn [negb].
  pose proof (Footer_DecodeFrom_ok (mkFooter mh ih) [] Hmh Hih) as Hfd. rewrite app_nil_r in Hfd. rewrite Hfd.
  cbn [mbind outcome_bind ok negb index_handle_ metaindex_handle_].
  destruct (ReadBlock_at file d false ih _ eq_refl Hsz Hidx) as (k & o & ->). cbn [mbind outcome_bind ok negb contents_data].
  destruct (Block_new_ok ies iidx Hlay Hisz) as [-> _]. cbn [mbind outcome_bind ReadMeta].
  destruct cache as [kc|].
  - destruct (cache_NewId kc) as [id kc']. cbn [mbind outcome_bind]. by exists id, (Some kc').
  - cbn [mbind outcome_bind]. by exists 0, None.
Qed.

(** ** The block cache *)

Definition cache_key (id o : Z) : bytes := EncodeFixed64 kLittleEndian id ++ EncodeFixed64 kLittleEndian o.

(** What is cached under the table's id are its blocks. *)
Definition cache_ok (id : Z) (cache : option K) : Prop :=
  match cache with
  | Some k => forall b blk, b ∈ bs -> cached k (cache_key id (boff b)) = Some blk -> blk = block_of (t_es b) (t_idx b)
  | None => True
  end.

Lemma cache_key_inj id o o' : 0 <= o < 2 ^ 64 -> 0 <= o' < 2 ^ 64 -> cache_key id o = cache_key id o' -> o = o'.
Proof.
  intros Ho Ho' E. unfold cache_key in E. apply app_inv_head in E. rewrite !EncodeFixed64_le in E.
  apply (f_equal le_value) in E. by rewrite !le_value_bytes_small in E.
Qed.

Lemma boff_unique b b' : b ∈ bs -> b' ∈ bs -> boff b = boff b' -> b = b'.
Proof.
  pose proof (tf_order _ _ _ _ _ _ _ Hfile) as Ho. clear Hfile. induction bs as [|b0 l IH]; [by intros ?%elem_of_nil|].
  cbn in Ho. apply StronglySorted_inv in Ho as [Ho Hlt]. rewrite Forall_forall in Hlt.
  assert (Hb0 : forall x, x ∈ l -> boff b0 < boff x) by (intros x Hx; apply Hlt; by apply list_elem_of_fmap_2).
  intros [->|Hb]%elem_of_cons [->|Hb']%elem_of_cons E; [done|..|by apply IH].
  - specialize (Hb0 _ Hb'). lia.
  - specialize (Hb0 _ Hb). lia.
Qed.

Lemma block_handle b : b ∈ bs -> block_in d b.
Proof. pose proof (tf_blocks _ _ _ _ _ _ _ Hfile) as Hb. rewrite Forall_forall in Hb. apply Hb. Qed.

Lemma BlockReader_ok verify fill id cache b :
  b ∈ bs -> cache_ok id cache ->
  exists i0 cache', BlockReader addr verify fill (opened_table id) (handle_bytes (t_handle b)) cache = Ok (i0, cache') /\
    Block_NewIterator (block_of (t_es b) (t_idx b)) = Ok i0 /\ cache_ok id cache'.
Proof.
  intros Hb Hc. destruct (block_handle b Hb) as (Hne & Hlay & Hat & Hh & Hsz).
  destruct (Block_new_ok _ _ Hlay Hsz) as [Hnew Hit]. cbv zeta in *. fold (block_of (t_es b) (t_idx b)) in *.
  unfold BlockReader. rewrite <- (app_nil_r (handle_bytes _)), BlockHandle_DecodeFrom_ok by done. cbn [ok].
  destruct (ReadBlock_at file d verify (t_handle b) _ eq_refl (tf_size _ _ _ _ _ _ _ Hfile) Hat) as (ck & o & Hread).
  cbn [t_file t_cache_id opened_table]. rewrite Hread. cbn [mbind outcome_bind ok contents_data cachable]. rewrite Hnew. cbn [mbind outcome_bind].
  destruct cache as [k|]; cbn [mbind outcome_bind]; [|rewrite Hit; cbn [mbind outcome_bind]; eauto].
  change (EncodeFixed64 kLittleEndian id ++ EncodeFixed64 kLittleEndian (offset_ (t_handle b))) with (cache_key id (boff b)).
  destruct (Lookup_cached k (cache_key id (boff b))) as (k' & -> & Hk'). destruct (cached k (cache_key id (boff b))) as [blk|] eqn:Eb.
  - pose proof (Hc b blk Hb Eb) as ->. cbn [mbind outcome_bind]. rewrite Hit. cbn [mbind outcome_bind]. do 2 eexists.
    split; [done|]. split; [done|]. intros b' blk' Hb' Hcb. rewrite Hk' in Hcb. by apply Hc.
  - cbn [mbind outcome_bind]. fold (block_of (t_es b) (t_idx b)). rewrite Hit. cbn [mbind outcome_bind]. do 2 eexists.
    split; [done|]. split; [done|].
    assert (Hk'ok : cache_ok id (Some k')) by (intros b' blk' Hb' Hcb; rewrite Hk' in Hcb; by apply Hc).
    destruct (ck && fill); [|done]. intros b' blk' Hb' Hcb. apply Insert_cached in Hcb as [[Ek ->]|Hcb]; [|by apply Hk'ok].
    destruct (block_handle b' Hb') as (_ & _ & _ & [Hh' _] & _). destruct Hh as [Hh _].
    apply cache_key_inj in Ek; [|unfold boff; lia..]. by rewrite (boff_unique b' b).
Qed.

(** ** The index *)

Lemma chain_facts bs1 b bs2 :
  bs = bs1 ++ b :: bs2 ->
  key_valid (c := c) (t_sep b) /\ order (last_key (t_es b)) (t_sep b) <= 0 /\
  (forall y, y ∈ block_entries bs2 -> order (t_sep b) (e_key y) < 0) /\
  (forall e l, block_entries bs2 = e :: l -> FindShortestSeparator c (last_key (t_es b)) (e_key e) = Ok (t_sep b)).
Proof.
  intros E. destruct Hfile as [Hb _ _ _ _ _ _ Hch _ Hs Hv _]. apply blocks_nonempty in Hb.
  destruct Hch as [->|(bs0 & b0 & E0 & Hc & Hsucc)]; [by destruct bs1|]. rewrite E0 in E.
  assert (Hbe : block_entries bs = block_entries bs0 ++ t_es b0).
  { rewrite E0. unfold block_entries. rewrite bind_app. cbn. by rewrite app_nil_r. }
  rewrite Hbe in Hs, Hv. destruct bs2 as [|b2 bs2 _] using rev_ind.
  - apply app_inj_tail in E as [-> ->]. rewrite E0 in Hb. apply Forall_app in Hb as [_ Hb]. apply Forall_cons in Hb as [Hne _].
    destruct (last_key_elem _ Hne) as (x & Hx & Ex). apply Forall_app in Hv as [_ Hv]. rewrite Forall_forall in Hv.
    assert (Hlv : key_valid (c := c) (last_key (t_es b))) by (rewrite Ex; by apply Hv).
    destruct (successor_ge (c := c) _ Hlv) as (s & Es & Hsv & _ & Hge). assert (s = t_sep b) as -> by congruence.
    split; [done|]. split; [done|]. split; [by intros y ?%elem_of_nil|done].
  - rewrite app_comm_cons, app_assoc in E. apply app_inj_tail in E as [-> <-].
    assert (Hbe2 : block_entries (bs2 ++ [b0]) = block_entries bs2 ++ t_es b0).
    { unfold block_entries. rewrite bind_app. cbn. by rewrite app_nil_r. }
    rewrite E0 in Hb. apply Forall_app in Hb as [Hb _]. rewrite Hbe2.
    destruct (sep_facts c bs1 b bs2 (t_es b0) Hc Hb Hs Hv) as (Hsv & _ & Hge & Hlt).
    split; [done|]. split; [done|]. split; [done|]. intros e l He.
    clear -Hc He. induction bs1 as [|b1 bs1 IH]; [|by apply IH; destruct Hc].
    destruct Hc as [(e' & He' & Hsep) _]. rewrite He in He'. cbn in He'. by injection He' as <-.
Qed.

Lemma index_sorted : valid_keys ies /\ keys_sorted c ies.
Proof.
  pose proof (tf_entries _ _ _ _ _ _ _ Hfile) as He. split.
  - apply Forall_forall. intros ie [i Hi]%list_elem_of_lookup.
    destruct (Forall2_lookup_l _ _ _ _ _ He Hi) as (b & Hb & Hk & _). rewrite Hk.
    apply (chain_facts (take i bs) b (drop (S i) bs)). by rewrite take_drop_middle.
  - intros i j x y Hi Hj Hij. destruct (Forall2_lookup_l _ _ _ _ _ He Hi) as (b & Hb & Hk & _).
    destruct (Forall2_lookup_l _ _ _ _ _ He Hj) as (b' & Hb' & Hk' & _). rewrite Hk, Hk'.
    destruct (chain_facts (take i bs) b (drop (S i) bs)) as (_ & _ & Hlt & _); [by rewrite take_drop_middle|].
    destruct (chain_facts (take j bs) b' (drop (S j) bs)) as (_ & Hge & _); [by rewrite take_drop_middle|].
    destruct (block_handle b') as (Hne & _); [by eapply list_elem_of_lookup_2|].
    destruct (last_key_elem _ Hne) as (x' & Hx & Ex). rewrite Ex in Hge. eapply cmp_lt_le_trans; [|exact Hge].
    apply Hlt. apply list_elem_of_bind. exists b'. split; [done|]. apply list_elem_of_lookup. exists (j - S i)%nat.
    rewrite lookup_drop, <- Hb'. f_equal. lia.
Qed.

Lemma block_sorted n b : bs !! n = Some b -> keys_sorted c (t_es b) /\ valid_keys (t_es b).
Proof.
  intros Hb. pose proof (tf_sorted _ _ _ _ _ _ _ Hfile) as Hs. pose proof (tf_valid _ _ _ _ _ _ _ Hfile) as Hv.
  rewrite <- (take_drop_middle bs n b Hb) in Hs, Hv. unfold block_entries in Hs, Hv. rewrite bind_app, bind_cons in Hs, Hv.
  apply keys_sorted_app in Hs as (_ & Hs & _). apply keys_sorted_app in Hs as (Hs & _).
  apply Forall_app in Hv as [_ Hv]. by apply Forall_app in Hv as [Hv _].
Qed.

(** The entries of the blocks with index keys before a key are before it. *)
Lemma blocks_before n k (P' : nat -> Prop) :
  (forall i ie, ies !! i = Some ie -> P' i -> order (e_key ie) k < 0) ->
  (forall i, (i < n)%nat -> P' i) -> Forall (fun x => order (e_key x) k < 0) (block_entries (take n bs)).
Proof.
  intros Hi Hn. apply Forall_forall. intros x (b & Hx & Hb)%list_elem_of_bind. apply list_elem_of_lookup in Hb as [i Hb].
  apply lookup_take_Some in Hb as [Hb Hin].
  destruct (Forall2_lookup_r _ _ _ _ _ (tf_entries _ _ _ _ _ _ _ Hfile) Hb) as (ie & Hie & Hik & _).
  destruct (chain_facts (take i bs) b (drop (S i) bs)) as (_ & Hge & _); [by rewrite take_drop_middle|].
  rewrite <- Hik in Hge. eapply cmp_le_lt_trans; [|apply (Hi i ie Hie (Hn i Hin))].
  eapply (cmp_trans (cmp := order)); [|exact Hge]. apply last_key_max; [|done]. by apply (block_sorted i b).
Qed.

(** ** InternalGet *)

(** What is found for a key: the first entry that is not before it; nothing
    when there is none, or when the key falls between the last key of a block
    and the index key of that block. *)
Definition found (es : list (bytes * bytes)) (k : bytes) (r : option (bytes * bytes)) : Prop :=
  match r with
  | Some e => exists n, first_from c es k n /\ es !! n = Some e
  | None => first_from c es k (length es) \/
      exists n a b s, first_from c es k (S n) /\ es !! n = Some a /\ es !! S n = Some b /\
        FindShortestSeparator c a.1 b.1 = Ok s /\ order k s <= 0
  end.

Lemma first_from_all es k : Forall (fun e => order (e_key e) k < 0) es -> first_from c (kv <$> es) k (length (kv <$> es)).
Proof.
  intros Hall. rewrite <- (app_nil_r (kv <$> es)) at 1. apply first_from_split; [|done]. by apply Forall_fmap.
Qed.

Lemma before_first_ge_all (es : list bentry) k : first_ge es c k (length es) -> Forall (fun x => order (e_key x) k < 0) es.
Proof.
  intros (_ & Hlt & _). apply Forall_forall. intros x [i Hi]%list_elem_of_lookup. apply (Hlt i x Hi). by eapply lookup_lt_Some.
Qed.

Lemma first_ge_take (es : list bentry) k n e : first_ge es c k n -> es !! n = Some e ->
  es = take n es ++ e :: drop (S n) es /\ Forall (fun x => order (e_key x) k < 0) (take n es) /\ 0 <= order (e_key e) k.
Proof.
  intros (_ & Hlt & Hge) He. split; [by rewrite take_drop_middle|]. split; [|by apply Hge].
  apply Forall_forall. intros x [i Hi]%list_elem_of_lookup. apply lookup_take_Some in Hi as [Hi Hin]. by apply (Hlt i x).
Qed.

(** Seeking the index, then the block. *)
Lemma found_in_block n m b k :
  bs !! n = Some b -> key_valid (c := c) k -> first_ge ies c k n -> first_ge (t_es b) c k m ->
  found (kv <$> block_entries bs) k (kv <$> (t_es b !! m)).
Proof.
  intros Hb Hk Hn Hm. pose proof (tf_entries _ _ _ _ _ _ _ Hfile) as He.
  pose proof (take_drop_middle bs n b Hb) as E. set (bs1 := take n bs) in *. set (bs2 := drop (S n) bs) in *.
  destruct (chain_facts bs1 b bs2 (eq_sym E)) as (_ & Hge & Hlt & Hsep).
  assert (Ebs : block_entries bs = block_entries bs1 ++ t_es b ++ block_entries bs2).
  { rewrite <- E. unfold block_entries. by rewrite bind_app. }
  assert (Hk1 : Forall (fun x => order (e_key x) k < 0) (block_entries bs1)).
  { destruct Hn as (_ & Hn & _). by apply (blocks_before n k (fun i => i < n)%nat). }
  rewrite Ebs. destruct (t_es b !! m) as [e|] eqn:Em.
  - destruct (first_ge_take _ _ _ _ Hm Em) as (E1 & E2 & E3). cbn [found fmap option_fmap option_map].
    exists (length (kv <$> (block_entries bs1 ++ take m (t_es b)))).
    assert (Ek : block_entries bs1 ++ t_es b ++ block_entries bs2 =
      (block_entries bs1 ++ take m (t_es b)) ++ e :: drop (S m) (t_es b) ++ block_entries bs2).
    { rewrite E1 at 1. by rewrite <- !app_assoc. }
    rewrite Ek, fmap_app. split.
    + apply first_from_split; [apply Forall_fmap; by apply Forall_app|]. by intros e' [= <-].
    + by rewrite lookup_app_r, Nat.sub_diag by lia.
  - assert (m = length (t_es b)) as ->. { apply lookup_ge_None in Em. destruct Hm. lia. }
    pose proof (before_first_ge_all _ _ Hm) as Hall. destruct (block_entries bs2) as [|e2 l2] eqn:E2.
    + left. rewrite app_nil_r. apply first_from_all. by apply Forall_app.
    + right. destruct (block_handle b) as (Hne & _); [by eapply list_elem_of_lookup_2|].
      destruct (Forall2_lookup_r _ _ _ _ _ He Hb) as (ie & Hie & Hik & _).
      assert (Hks : order k (t_sep b) <= 0). { apply cmp_le_ge. rewrite <- Hik. by apply Hn. }
      destruct (t_es b) as [|a l _] using rev_ind; [done|]. exists (length (block_entries bs1 ++ l)), (kv a), (kv e2), (t_sep b).
      rewrite <- app_assoc, app_assoc, fmap_app. cbn [app fmap list_fmap].
      assert (El : length (kv <$> (block_entries bs1 ++ l)) = length (block_entries bs1 ++ l)) by apply length_fmap.
      split; [|split; [by rewrite lookup_app_r, El, Nat.sub_diag by lia|split; [|split; [|done]]]].
      * rewrite (cons_middle (kv a)), app_assoc.
        replace (S (length (block_entries bs1 ++ l))) with (length ((kv <$> (block_entries bs1 ++ l)) ++ [kv a])) by (rewrite length_app, El; cbn; lia).
        change [kv a] with (kv <$> [a]). rewrite <- fmap_app. apply first_from_split.
        -- apply Forall_fmap. rewrite <- app_assoc. by apply Forall_app.
        -- intros e' [= <-]. apply Z.lt_le_incl, cmp_lt_gt. eapply cmp_le_lt_trans; [exact Hks|]. apply Hlt. by left.
      * rewrite lookup_app_r, El by lia. by replace (S (length (block_entries bs1 ++ l)) - length (block_entries bs1 ++ l))%nat with 1%nat by lia.
      * specialize (Hsep e2 l2 eq_refl). unfold last_key in Hsep. by rewrite last_snoc in Hsep.
Qed.

Lemma InternalGet_ok {A : Type} verify fill id (k : bytes) (arg : A) (saver : A -> bytes -> bytes -> outcome A) cache :
  key_valid (c := c) k -> cache_ok id cache ->
  exists r cache', found (kv <$> block_entries bs) k r /\ cache_ok id cache' /\
    InternalGet c (P := P) None addr verify fill (opened_table id) k arg saver cache =
      (arg' ← match r with Some (key, value) => saver arg key value | None => Ok arg end; Ok (Status_ok, arg', cache')).
Proof.
  intros Hk Hc. pose proof (tf_entries _ _ _ _ _ _ _ Hfile) as He. destruct index_sorted as [Hiv His].
  destruct (first_ge_exists ies c k) as [n Hn].
  destruct (block_seek ies iidx k n (tf_layout _ _ _ _ _ _ _ Hfile) (tf_index_size _ _ _ _ _ _ _ Hfile) Hiv His Hk Hn)
    as (i0 & i & Ei0 & Ei & Hival & Hist & Hikv).
  unfold InternalGet. cbn [t_index_block opened_table]. rewrite Ei0. cbn [mbind outcome_bind]. rewrite Ei. cbn [mbind outcome_bind].
  rewrite Hival, Hist. destruct (ies !! n) as [ie|] eqn:Eie.
  - rewrite bool_decide_eq_true_2 by done. destruct (Hikv ie eq_refl) as [_ ->]. cbn [mbind outcome_bind].
    destruct (Forall2_lookup_l _ _ _ _ _ He Eie) as (b & Hb & _ & Hval). rewrite Hval.
    assert (Hbin : b ∈ bs) by (by eapply list_elem_of_lookup_2).
    destruct (block_handle b Hbin) as (_ & Hlay & _ & Hh & Hsz).
    rewrite <- (app_nil_r (handle_bytes _)), BlockHandle_DecodeFrom_ok by done. rewrite app_nil_r.
    cbn [t_filter opened_table mbind outcome_bind negb].
    destruct (BlockReader_ok verify fill id cache b Hbin Hc) as (j0 & cache' & -> & Ej0 & Hc'). cbn [mbind outcome_bind].
    destruct (first_ge_exists (t_es b) c k) as [m Hm].
    destruct (block_sorted n b Hb) as [Hs Hv].
    destruct (block_seek (t_es b) (t_idx b) k m Hlay Hsz Hv Hs Hk Hm) as (j0' & j & Ej0' & Ej & Hjv & Hjs & Hjkv).
    assert (j0' = j0) as -> by congruence. rewrite Ej. cbn [mbind outcome_bind]. rewrite Hjv.
    exists (kv <$> (t_es b !! m)), cache'. split; [by eapply found_in_block|]. split; [done|].
    destruct (t_es b !! m) as [e|] eqn:Em.
    + rewrite bool_decide_eq_true_2 by done. destruct (Hjkv e eq_refl) as [-> ->]. cbn [mbind outcome_bind].
      cbn [kv fmap option_fmap option_map]. destruct (saver arg (e_key e) (e_value e)); cbn [mbind outcome_bind ok]; by rewrite ?Hjs.
    + rewrite bool_decide_eq_false_2 by (intros []; done). cbn [kv fmap option_fmap option_map mbind outcome_bind]. by rewrite Hjs.
  - rewrite bool_decide_eq_false_2 by (intros []; done). cbn [mbind outcome_bind ok].
    exists None, cache. split; [|by split]. left. apply first_from_all.
    assert (n = length ies) as ->. { apply lookup_ge_None in Eie. destruct Hn. lia. }
    rewrite <- (firstn_all bs), <- (Forall2_length _ _ _ He).
    apply (blocks_before (length ies) k (fun i => i < length ies)%nat); [|done]. destruct Hn as (_ & Hn & _). exact Hn.
Qed.
End read.

(** * LevelDB: a table built from entries finds them

    [build_table] is the use of a builder that [BuildTable] and compactions
    make; [table_ok] says that a file is a table of some entries. *)

(** What entries add to a file at most. *)
Fixpoint kv_cost (es : list (bytes * bytes)) : Z :=
  match es with [] => 0 | (k, v) :: es' => 2 * lengthZ k + lengthZ v + 100 + kv_cost es' end.

Lemma cost_kv es : cost es = kv_cost (kv <$> es).
Proof. induction es as [|e es IH]; [done|]. cbn [cost fmap list_fmap kv_cost kv]. by rewrite IH. Qed.

Lemma kv_cost_app es es' : kv_cost (es ++ es') = kv_cost es + kv_cost es'.
Proof. induction es as [|[k v] es IH]; [done|]. cbn [kv_cost app]. rewrite IH. lia. Qed.

Lemma kv_cost_nonneg es : 0 <= kv_cost es.
Proof.
  induction es as [|[k v] es IH]; [done|]. cbn [kv_cost]. pose proof (lengthZ_nonneg k). pose proof (lengthZ_nonneg v). lia.
Qed.

Section build.
Context {platform : Platform} {C : Type} `{Comparator C} (c : C) `{!ComparatorLaws C c}.
Context {P : Type} `{FilterPolicy P} `{SnappyLaws} (addr : bytes -> Z).
Context (block_size interval : Z) (compression : CompressionType) (Hinterval : 1 <= interval).
Context {F : Type} `{ReliableWritable F}.
Notation order := (key_order (c := c)).
Notation valid_entries es := (Forall (fun e => key_valid (c := c) e.1) es).
Implicit Types r : TableBuilder F.

Fixpoint add_all (es : list (bytes * bytes)) r : outcome (TableBuilder F) :=
  match es with
  | [] => Ok r
  | (k, v) :: es' => r ← TableBuilder_Add c (P := P) None addr block_size interval compression k v r; add_all es' r
  end.

Definition build_table (file : F) (es : list (bytes * bytes)) : outcome (TableBuilder F) :=
  r ← TableBuilder_new (P := P) None interval file;
  r ← add_all es r;
  TableBuilder_Finish c (P := P) None addr interval compression r.

Notation tb_ok := (tb_ok c interval).

Lemma add_all_ok es : forall r bs pend es0 idx ies iidx,
  tb_ok r bs pend es0 idx ies iidx ->
  ascending c ((kv <$> all_entries bs pend es0) ++ es) -> valid_entries ((kv <$> all_entries bs pend es0) ++ es) ->
  kv_cost ((kv <$> all_entries bs pend es0) ++ es) < 2 ^ 31 ->
  exists r' bs' pend' es' idx' ies' iidx', add_all es r = Ok r' /\ tb_ok r' bs' pend' es' idx' ies' iidx' /\
    kv <$> all_entries bs' pend' es' = (kv <$> all_entries bs pend es0) ++ es.
Proof.
  induction es as [|[k v] es IH]; intros r bs pend es0 idx ies iidx Hok Ha Hv Hc; cbn [add_all].
  { do 7 eexists. split; [done|]. split; [exact Hok|]. by rewrite app_nil_r. }
  rewrite (cons_middle (k, v)), app_assoc in Ha, Hv, Hc. pose proof (ascending_app_l _ _ _ Ha) as Ha1.
  pose proof (proj1 (Forall_app _ _ _) Hv) as [Hv1 _]. apply Forall_app in Hv1 as [_ Hk]. apply Forall_cons in Hk as [Hk _].
  rewrite !kv_cost_app in Hc. cbn [kv_cost] in Hc. pose proof (kv_cost_nonneg es).
  destruct (TableBuilder_Add_ok c addr block_size interval compression Hinterval r bs pend es0 idx ies iidx k v Hok Hk)
    as (r' & bs' & pend' & es' & idx' & ies' & iidx' & e & -> & Hok' & Ee & Eall).
  { intros l Hl. apply (ascending_last _ _ _ (kv l) Ha1). by rewrite fmap_last, Hl. }
  { rewrite cost_kv. lia. }
  cbn [mbind outcome_bind]. assert (Ekv : kv <$> all_entries bs' pend' es' = (kv <$> all_entries bs pend es0) ++ [(k, v)]).
  { rewrite Eall, fmap_app. cbn. by rewrite Ee. }
  destruct (IH r' bs' pend' es' idx' ies' iidx' Hok') as (r2 & bs2 & pend2 & es2 & idx2 & ies2 & iidx2 & -> & Hok2 & E2).
  - by rewrite Ekv.
  - by rewrite Ekv.
  - rewrite Ekv, !kv_cost_app. cbn [kv_cost]. lia.
  - do 7 eexists. split; [done|]. split; [exact Hok2|]. by rewrite E2, Ekv, <- app_assoc.
Qed.

(** A file that is a table of entries. *)
Definition table_ok (d : bytes) (es : list (bytes * bytes)) : Prop :=
  exists bs ies iidx mh ih, table_file c d bs ies iidx mh ih /\ kv <$> block_entries bs = es.

Lemma build_table_ok (file : F) es :
  contents file = [] -> ascending c es -> valid_entries es -> kv_cost es < 2 ^ 31 ->
  exists r, build_table file es = Ok r /\ tb_status r = Status_ok /\ tb_offset r = lengthZ (contents (tb_file r)) /\
    table_ok (contents (tb_file r)) es.
Proof.
  intros Hf Ha Hv Hc. unfold build_table. destruct (TableBuilder_new_ok c interval Hinterval file Hf) as (r & -> & Hok & _).
  cbn [mbind outcome_bind].
  destruct (add_all_ok es r [] None [] [0%nat] [] [0%nat] Hok Ha Hv Hc) as (r1 & bs & pend & es1 & idx & ies & iidx & -> & Hok1 & E1).
  cbn [mbind outcome_bind]. cbn in E1.
  destruct (TableBuilder_Finish_ok c addr interval compression Hinterval r1 bs pend es1 idx ies iidx Hok1) as
    (r' & bs' & ies' & iidx' & mh & ih & -> & Hst & Hoff & Htf & Ebs).
  { by rewrite cost_kv, E1. }
  exists r'. split; [done|]. split; [done|]. split; [done|]. exists bs', ies', iidx', mh, ih. split; [done|]. by rewrite Ebs, E1.
Qed.
End build.

Section read.
Context {platform : Platform} {C : Type} `{Comparator C} (c : C) `{!ComparatorLaws C c}.
Context {P : Type} `{FilterPolicy P} `{SnappyLaws} (addr : bytes -> Z).
Context {R : Type} `{ReliableRandom R} {K : Type} `{BlockCacheLaws K}.
Implicit Types file : R.

(** An open table of a file, and a cache that has nothing wrong of it. *)
Definition open_table file (es : list (bytes * bytes)) (t : Table R) (cache : option K) : Prop :=
  exists bs ies iidx mh ih id, table_file c (file_bytes file) bs ies iidx mh ih /\ kv <$> block_entries bs = es /\
    t = opened_table file ies iidx mh id /\ cache_ok bs id cache.

(** Opening a table of which the cache does not know the identifier. *)
Lemma Table_Open_table file es cache :
  table_ok c (file_bytes file) es ->
  (forall k, cache = Some k -> forall o b, cached (snd (cache_NewId k)) (cache_key (fst (cache_NewId k)) o) = Some b -> False) ->
  exists t cache', Table_Open (P := P) None addr file (lengthZ (file_bytes file)) cache = Ok (Status_ok, Some t, cache') /\
    open_table file es t cache'.
Proof.
  intros (bs & ies & iidx & mh & ih & Htf & Ees) Hfresh.
  destruct (Table_Open_ok c addr file bs ies iidx mh ih Htf cache) as (id & cache' & -> & Hc').
  exists (opened_table file ies iidx mh id), cache'. split; [done|]. exists bs, ies, iidx, mh, ih, id.
  split; [done|]. split; [done|]. split; [done|]. destruct cache as [k|]; [|by subst].
  destruct Hc' as [-> ->]. intros b blk Hb Hin. exfalso. by eapply (Hfresh k eq_refl).
Qed.

Lemma InternalGet_table {A : Type} verify fill file es t cache (k : bytes) (arg : A) (saver : A -> bytes -> bytes -> outcome A) :
  open_table file es t cache -> key_valid (c := c) k ->
  exists r cache', found c es k r /\ open_table file es t cache' /\
    InternalGet c (P := P) None addr verify fill t k arg saver cache =
      (arg' ← match r with Some (key, value) => saver arg key value | None => Ok arg end; Ok (Status_ok, arg', cache')).
Proof.
  intros (bs & ies & iidx & mh & ih & id & Htf & <- & -> & Hc) Hk.
  destruct (InternalGet_ok c addr file bs ies iidx mh ih Htf verify fill id k arg saver cache Hk Hc) as (r & cache' & Hr & Hc' & E).
  exists r, cache'. split; [done|]. split; [|exact E]. by exists bs, ies, iidx, mh, ih, id.
Qed.
End read.
