(* ===== verification/Version.v ===== *)
(** * LevelDB: versions (lib/leveldb/db/version_set.cc)

    The files of the levels, the searches in them, and [Version::Get].  A table
    of the cache is reached through the class [Tables]. *)

From S2P Require Import Prelude.
From S2P Require Import Bytes.
From S2P Require Import Coding.
From S2P Require Import Comparator.
From S2P Require Import DbFormat.
From S2P Require Import VersionEdit.
From stdpp Require Import base tactics numbers list sorting strings.
From Stdlib Require Import Ascii ZArith Lia.

Open Scope Z_scope.

Definition kTargetFileSize : Z := 2 * 1048576.
Definition kMaxGrandParentOverlapBytes : Z := 10 * kTargetFileSize.
Definition kExpandedCompactionByteSizeLimit : Z := 25 * kTargetFileSize.
Definition kMaxMemCompactLevel : Z := 2.

(** The double is an integer for the levels there are. *)
Definition MaxBytesForLevel (level : Z) : Z := 10 * 1048576 * 10 ^ Z.max 0 (level - 1).
Definition MaxFileSizeForLevel (level : Z) : Z := kTargetFileSize.

Definition TotalFileSize (files : list FileMetaData) : Z :=
  foldl (fun sum f => i64 (sum + f_file_size f)) 0 files.

(** ** The cache of open tables, seen from a version *)

Class Tables (T : Type) := {
  Tables_Get {A : Type} : T -> Z -> Z -> bytes -> A -> (A -> bytes -> bytes -> outcome A) -> outcome (Status * A * T)
}.

(** [std::vector<FileMetaData*> files_[kNumLevels]]: the levels. *)
Record Version : Type := mkVersion { files_ : list (list FileMetaData) }.

Inductive SaverState : Type := kNotFound | kFound | kDeleted | kCorrupt.
Record Saver : Type := mkSaver { sv_state : SaverState; sv_user_key : bytes; sv_value : option bytes }.

Record GetStats : Type := mkStats { seek_file : option FileMetaData; seek_file_level : Z }.

Section Version.
Context {platform : Platform} {C : Type} `{Comparator C} (icmp : InternalKeyComparator C).
Notation ucmp := (user_comparator icmp).
Implicit Types files : list FileMetaData.
Implicit Types f : FileMetaData.

(** ** Searching the files of a level *)

Fixpoint find_loop (fuel : nat) files (key : bytes) (left right : Z) : outcome Z :=
  match fuel with
  | O => NoFuel
  | S fuel' =>
      if left <? right then
        let mid := u32 (left + right) / 2 in
        f ← in_bounds (nthZ files mid);
        largest ← InternalKey_Encode (f_largest f);
        r ← internal_Compare icmp largest key;
        if r <? 0 then find_loop fuel' files key (u32 (mid + 1)) right else find_loop fuel' files key left mid
      else Ok right
  end.

Definition FindFile files (key : bytes) : outcome Z :=
  find_loop (S (length files)) files key 0 (u32 (lengthZ files)).

(** A NULL key is before, or after, all keys. *)
Definition AfterFile (user_key : option bytes) f : outcome bool :=
  match user_key with
  | Some u => l ← ExtractUserKey (f_largest f); r ← Compare ucmp u l; Ok (0 <? r)
  | None => Ok false
  end.

Definition BeforeFile (user_key : option bytes) f : outcome bool :=
  match user_key with
  | Some u => s ← ExtractUserKey (f_smallest f); r ← Compare ucmp u s; Ok (r <? 0)
  | None => Ok false
  end.

Fixpoint any_overlap files (smallest_user_key largest_user_key : option bytes) : outcome bool :=
  match files with
  | [] => Ok false
  | f :: files' =>
      after ← AfterFile smallest_user_key f;
      outside ← (if after : bool then Ok true else BeforeFile largest_user_key f);
      if outside : bool then any_overlap files' smallest_user_key largest_user_key else Ok true
  end.

Definition SomeFileOverlapsRange (disjoint_sorted_files : bool) files
    (smallest_user_key largest_user_key : option bytes) : outcome bool :=
  if negb disjoint_sorted_files then any_overlap files smallest_user_key largest_user_key
  else
    index ← (match smallest_user_key with
             | Some u =>
                 small ← AppendInternalKey [] (mkParsed u kMaxSequenceNumber kValueTypeForSeek);
                 FindFile files small
             | None => Ok 0
             end);
    match nthZ files index with
    | Some f => before ← BeforeFile largest_user_key f; Ok (negb before)
    | None => Ok false
    end.

(** *** LevelFileNumIterator: the index, over the files *)

Definition lf_Valid files (index : Z) : bool := index <? lengthZ files.
Definition lf_Seek files (target : bytes) : outcome Z := FindFile files target.
Definition lf_SeekToLast files : Z := if lengthZ files =? 0 then 0 else u32 (lengthZ files - 1).
Definition lf_Next files (index : Z) : outcome Z := _ ← assert_ (lf_Valid files index); Ok (u32 (index + 1)).
Definition lf_Prev files (index : Z) : outcome Z :=
  _ ← assert_ (lf_Valid files index); Ok (if index =? 0 then u32 (lengthZ files) else u32 (index - 1)).
Definition lf_key files (index : Z) : outcome bytes :=
  _ ← assert_ (lf_Valid files index); f ← in_bounds (nthZ files index); InternalKey_Encode (f_largest f).
Definition lf_value files (index : Z) : outcome bytes :=
  _ ← assert_ (lf_Valid files index); f ← in_bounds (nthZ files index);
  Ok (EncodeFixed64 kLittleEndian (f_number f) ++ EncodeFixed64 kLittleEndian (f_file_size f)).

(** ** GetOverlappingInputs *)

(** The loop: the files from [i] on, the range, what was pushed.  At level 0 the
    range grows to the bounds of a file and the search starts again. *)
Fixpoint overlap_loop (fuel : nat) (level : Z) (all rest : list FileMetaData) (user_begin user_end : option bytes)
    (inputs : list FileMetaData) : outcome (list FileMetaData) :=
  match fuel with
  | O => NoFuel
  | S fuel' =>
      match rest with
      | [] => Ok inputs
      | f :: rest' =>
          file_start ← ExtractUserKey (f_smallest f);
          file_limit ← ExtractUserKey (f_largest f);
          before ← (match user_begin with Some b => r ← Compare ucmp file_limit b; Ok (r <? 0) | None => Ok false end);
          if before : bool then overlap_loop fuel' level all rest' user_begin user_end inputs
          else
            after ← (match user_end with Some e => r ← Compare ucmp file_start e; Ok (0 <? r) | None => Ok false end);
            if after : bool then overlap_loop fuel' level all rest' user_begin user_end inputs
            else if level =? 0 then
              below ← (match user_begin with Some b => r ← Compare ucmp file_start b; Ok (r <? 0) | None => Ok false end);
              if below : bool then overlap_loop fuel' level all all (Some file_start) user_end []
              else
                above ← (match user_end with Some e => r ← Compare ucmp file_limit e; Ok (0 <? r) | None => Ok false end);
                if above : bool then overlap_loop fuel' level all all user_begin (Some file_limit) []
                else overlap_loop fuel' level all rest' user_begin user_end (inputs ++ [f])
            else overlap_loop fuel' level all rest' user_begin user_end (inputs ++ [f])
      end
  end.

(** Each restart makes one of the two bounds that of another file. *)
Definition overlap_fuel (n : nat) : nat := S ((2 * n + 1) * S n).

Definition level_files (v : Version) (level : Z) : outcome (list FileMetaData) := in_bounds (nthZ (files_ v) level).

Definition GetOverlappingInputs (v : Version) (level : Z) (begin_key end_key : option bytes) : outcome (list FileMetaData) :=
  _ ← assert_ (0 <=? level);
  _ ← assert_ (level <? kNumLevels);
  user_begin ← (match begin_key with Some k => u ← ExtractUserKey k; Ok (Some u) | None => Ok None end);
  user_end ← (match end_key with Some k => u ← ExtractUserKey k; Ok (Some u) | None => Ok None end);
  files ← level_files v level;
  overlap_loop (overlap_fuel (length files)) level files files user_begin user_end [].

Definition OverlapInLevel (v : Version) (level : Z) (smallest_user_key largest_user_key : option bytes) : outcome bool :=
  files ← level_files v level;
  SomeFileOverlapsRange (0 <? level) files smallest_user_key largest_user_key.

Fixpoint pick_loop (fuel : nat) (v : Version) (smallest largest start limit : bytes) (level : Z) : outcome Z :=
  match fuel with
  | O => NoFuel
  | S fuel' =>
      if level <? kMaxMemCompactLevel then
        overlap ← OverlapInLevel v (level + 1) (Some smallest) (Some largest);
        if overlap : bool then Ok level
        else
          too_many ← (if level + 2 <? kNumLevels then
                        overlaps ← GetOverlappingInputs v (level + 2) (Some start) (Some limit);
                        Ok (kMaxGrandParentOverlapBytes <? TotalFileSize overlaps)
                      else Ok false);
          if too_many : bool then Ok level else pick_loop fuel' v smallest largest start limit (level + 1)
      else Ok level
  end.

Definition PickLevelForMemTableOutput (v : Version) (smallest_user_key largest_user_key : bytes) : outcome Z :=
  overlap ← OverlapInLevel v 0 (Some smallest_user_key) (Some largest_user_key);
  if overlap : bool then Ok 0
  else
    start ← AppendInternalKey [] (mkParsed smallest_user_key kMaxSequenceNumber kValueTypeForSeek);
    limit ← AppendInternalKey [] (mkParsed largest_user_key 0 kTypeDeletion);
    pick_loop 3 v smallest_user_key largest_user_key start limit 0.

(** ** Version::Get *)

Definition SaveValue (s : Saver) (ikey v : bytes) : outcome Saver :=
  parsed ← ParseInternalKey ikey;
  match parsed with
  | None => Ok (mkSaver kCorrupt (sv_user_key s) (sv_value s))
  | Some parsed_key =>
      r ← Compare ucmp (pk_user_key parsed_key) (sv_user_key s);
      if r =? 0 then
        match pk_type parsed_key with
        | kTypeValue => Ok (mkSaver kFound (sv_user_key s) (Some v))
        | kTypeDeletion => Ok (mkSaver kDeleted (sv_user_key s) (sv_value s))
        end
      else Ok s
  end.

Definition newest_first f g : Prop := f_number g <= f_number f.
#[export] Instance newest_first_dec f g : Decision (newest_first f g).
Proof. unfold newest_first. apply _. Defined.

(** The files of level 0 with the key in their range. *)
Fixpoint overlapping files (user_key : bytes) : outcome (list FileMetaData) :=
  match files with
  | [] => Ok []
  | f :: files' =>
      s ← ExtractUserKey (f_smallest f);
      r ← Compare ucmp user_key s;
      inside ← (if 0 <=? r then l ← ExtractUserKey (f_largest f); r ← Compare ucmp user_key l; Ok (r <=? 0) else Ok false);
      fs ← overlapping files' user_key;
      Ok (if inside : bool then f :: fs else fs)
  end.

(** What is to be searched of a level. *)
Definition files_to_search (level : Z) files (ikey user_key : bytes) : outcome (list FileMetaData) :=
  if lengthZ files =? 0 then Ok []
  else if level =? 0 then
    tmp ← overlapping files user_key; Ok (merge_sort newest_first tmp)
  else
    index ← FindFile files ikey;
    match nthZ files index with
    | Some f =>
        s ← ExtractUserKey (f_smallest f);
        r ← Compare ucmp user_key s;
        Ok (if r <? 0 then [] else [f])
    | None => Ok []
    end.

Context {T : Type} `{Tables T}.

Record getting : Type := mkGetting { g_stats : GetStats; g_last : option (FileMetaData * Z); g_tables : T }.
Implicit Types g : getting.

(** The status and the value of a search that ends; [None]: go on. *)
Fixpoint search_files (level : Z) files (ikey user_key : bytes) g : outcome (option (Status * option bytes) * getting) :=
  match files with
  | [] => Ok (None, g)
  | f :: files' =>
      let stats :=
        match g_last g, seek_file (g_stats g) with
        | Some (last, last_level), None => mkStats (Some last) last_level
        | _, _ => g_stats g
        end in
      '(s, saver, t) ← Tables_Get (g_tables g) (f_number f) (f_file_size f) ikey (mkSaver kNotFound user_key None) SaveValue;
      let g := mkGetting stats (Some (f, level)) t in
      if negb (ok s) then Ok (Some (s, sv_value saver), g)
      else
        match sv_state saver with
        | kNotFound => search_files level files' ikey user_key g
        | kFound => Ok (Some (s, sv_value saver), g)
        | kDeleted => Ok (Some (NotFound [], None), g)
        | kCorrupt => Ok (Some (Corruption (Status_message (str "corrupted key for ") user_key), None), g)
        end
  end.

Fixpoint search_levels (level : Z) (levels : list (list FileMetaData)) (ikey user_key : bytes) g :
    outcome (option (Status * option bytes) * getting) :=
  match levels with
  | [] => Ok (None, g)
  | files :: levels' =>
      fs ← files_to_search level files ikey user_key;
      '(r, g) ← search_files level fs ikey user_key g;
      match (r : option (Status * option bytes)) with
      | Some r => Ok (Some r, g)
      | None => search_levels (level + 1) levels' ikey user_key g
      end
  end.

Definition Version_Get (v : Version) (t : T) (k : LookupKey) : outcome (Status * option bytes * GetStats * T) :=
  '(r, g) ← search_levels 0 (files_ v) (lookup_internal_key k) (lookup_user_key k) (mkGetting (mkStats None (-1)) None t);
  match (r : option (Status * option bytes)) with
  | Some (s, value) => Ok (s, value, g_stats g, g_tables g)
  | None => Ok (NotFound [], None, g_stats g, g_tables g)
  end.
End Version.
