(* ===== verification/VersionSet.v ===== *)
(** * LevelDB: the set of versions (lib/leveldb/db/version_set.cc)

    The builder that applies edits to a version, the manifest that records
    edits ([LogAndApply], [WriteSnapshot]) and its recovery.  The versions
    that readers still hold, the counts of references of files and versions,
    which only decide when memory is freed, and the lock that is given up while
    the manifest is written are left out. *)

From S2P Require Import Prelude.
From S2P Require Import Bytes.
From S2P Require Import Coding.
From S2P Require Import Comparator.
From S2P Require Import DbFormat.
From S2P Require Import Filename.
From S2P Require Import VersionEdit.
From S2P Require Import Log.
From S2P Require Import Env.
From S2P Require Import Version.
From stdpp Require Import base tactics numbers list gmap strings.
From Stdlib Require Import Ascii ZArith Lia.

Open Scope Z_scope.

(** ** VersionSet::Builder *)

(** [deleted_files]; [added_files] is a set in ascending order. *)
Record LevelState : Type := mkLevelState { deleted_numbers : gset Z; added_files : list FileMetaData }.
Record Builder : Type := mkBuilder { base_ : Version; levels_ : list LevelState }.

Record VersionSet (F : Type) : Type := mkVersionSet
  { vs_next_file_number : Z; manifest_file_number_ : Z; vs_last_sequence : Z; vs_log_number : Z; vs_prev_log_number : Z;
    descriptor_log_ : option (Writer F); current_ : Version; compact_pointer_ : list bytes }.
Arguments mkVersionSet {F} _ _ _ _ _ _ _ _.
Arguments vs_next_file_number {F} _.
Arguments manifest_file_number_ {F} _.
Arguments vs_last_sequence {F} _.
Arguments vs_log_number {F} _.
Arguments vs_prev_log_number {F} _.
Arguments descriptor_log_ {F} _.
Arguments current_ {F} _.
Arguments compact_pointer_ {F} _.

Definition Version_new : Version := mkVersion (replicate (Z.to_nat kNumLevels) []).

Section Builder.
Context {platform : Platform} {C : Type} `{Comparator C} (icmp : InternalKeyComparator C).
Implicit Types f g : FileMetaData.
Implicit Types files : list FileMetaData.
Implicit Types b : Builder.

(** [icmp->Compare] of two [InternalKey]. *)
Definition Compare_keys (x y : bytes) : outcome Z :=
  x ← InternalKey_Encode x; y ← InternalKey_Encode y; Compare icmp x y.

Definition BySmallestKey f g : outcome bool :=
  r ← Compare_keys (f_smallest f) (f_smallest g);
  Ok (if negb (r =? 0) then r <? 0 else f_number f <? f_number g).

(** [std::set::insert]. *)
Fixpoint FileSet_insert f files : outcome (list FileMetaData) :=
  match files with
  | [] => Ok [f]
  | g :: files' =>
      before ← BySmallestKey f g;
      if before : bool then Ok (f :: files)
      else
        after ← BySmallestKey g f;
        if after : bool then files' ← FileSet_insert f files'; Ok (g :: files') else Ok files
  end.

Definition Builder_new (base : Version) : Builder :=
  mkBuilder base (replicate (Z.to_nat kNumLevels) (mkLevelState ∅ [])).

(** [levels_[level]]. *)
Definition on_level (level : Z) (change : LevelState -> outcome LevelState) b : outcome Builder :=
  l ← in_bounds (nthZ (levels_ b) level);
  l ← change l;
  Ok (mkBuilder (base_ b) (<[Z.to_nat level := l]> (levels_ b))).

Fixpoint apply_pointers_to (ps : list (Z * bytes)) (compact_pointer : list bytes) : outcome (list bytes) :=
  match ps with
  | [] => Ok compact_pointer
  | (level, key) :: ps' =>
      _ ← in_bounds (nthZ compact_pointer level);
      key ← InternalKey_Encode key;
      apply_pointers_to ps' (<[Z.to_nat level := key]> compact_pointer)
  end.

Fixpoint apply_deletions (ds : list (Z * Z)) b : outcome Builder :=
  match ds with
  | [] => Ok b
  | (level, number) :: ds' =>
      b ← on_level level (fun l => Ok (mkLevelState ({[number]} ∪ deleted_numbers l) (added_files l))) b;
      apply_deletions ds' b
  end.

(** The copy of a file the builder makes: one compaction for every 16 KB, at
    least after 100 seeks. *)
Definition applied f : FileMetaData :=
  let seeks := i32 (f_file_size f / 16384) in
  mkFile 1 (if seeks <? 100 then 100 else seeks) (f_number f) (f_file_size f) (f_smallest f) (f_largest f).

Fixpoint apply_additions (fs : list (Z * FileMetaData)) b : outcome Builder :=
  match fs with
  | [] => Ok b
  | (level, f) :: fs' =>
      let f := applied f in
      b ← on_level level (fun l =>
            added ← FileSet_insert f (added_files l);
            Ok (mkLevelState (deleted_numbers l ∖ {[f_number f]}) added)) b;
      apply_additions fs' b
  end.

(** The pointers are those of the [VersionSet]. *)
Definition Builder_Apply (edit : VersionEdit) b (compact_pointer : list bytes) : outcome (Builder * list bytes) :=
  compact_pointer ← apply_pointers_to (compact_pointers_ edit) compact_pointer;
  b ← apply_deletions (deleted_files_ edit) b;
  b ← apply_additions (new_files_ edit) b;
  Ok (b, compact_pointer).

(** [files]: those of the level of the new version so far. *)
Definition MaybeAddFile (level : Z) (deleted : gset Z) f files : outcome (list FileMetaData) :=
  if bool_decide (f_number f ∈ deleted) then Ok files
  else
    _ ← (match last files with
         | Some l => if 0 <? level then r ← Compare_keys (f_largest l) (f_smallest f); assert_ (r <? 0) else Ok ()
         | None => Ok ()
         end);
    Ok (files ++ [f]).

Fixpoint maybe_add_all (level : Z) (deleted : gset Z) (fs : list FileMetaData) files : outcome (list FileMetaData) :=
  match fs with
  | [] => Ok files
  | f :: fs' => files ← MaybeAddFile level deleted f files; maybe_add_all level deleted fs' files
  end.

(** [std::upper_bound] in a sorted range: what is before the bound, and the
    rest. *)
Fixpoint upper_bound f files : outcome (list FileMetaData * list FileMetaData) :=
  match files with
  | [] => Ok ([], [])
  | g :: files' =>
      above ← BySmallestKey f g;
      if above : bool then Ok ([], files) else '(pre, rest) ← upper_bound f files'; Ok (g :: pre, rest)
  end.

Fixpoint save_loop (level : Z) (deleted : gset Z) (base added files : list FileMetaData) : outcome (list FileMetaData) :=
  match added with
  | [] => maybe_add_all level deleted base files
  | f :: added' =>
      '(pre, base) ← upper_bound f base;
      files ← maybe_add_all level deleted pre files;
      files ← MaybeAddFile level deleted f files;
      save_loop level deleted base added' files
  end.

(** The check of a build with assertions: [abort()] where files of a level
    overlap. *)
Fixpoint check_overlap files : outcome unit :=
  match files with
  | f :: (g :: _) as files' =>
      r ← Compare_keys (f_largest f) (f_smallest g);
      if 0 <=? r then Throw assertion_failed else check_overlap files'
  | _ => Ok ()
  end.

Fixpoint save_levels (level : Z) (ls : list LevelState) (bases : list (list FileMetaData)) : outcome (list (list FileMetaData)) :=
  match ls, bases with
  | l :: ls', base :: bases' =>
      files ← save_loop level (deleted_numbers l) base (added_files l) [];
      _ ← (if 0 <? level then check_overlap files else Ok ());
      rest ← save_levels (level + 1) ls' bases';
      Ok (files :: rest)
  | _, _ => Ok []
  end.

Definition SaveTo b : outcome Version :=
  levels ← save_levels 0 (levels_ b) (files_ (base_ b)); Ok (mkVersion levels).
End Builder.

(** ** The manifest *)

Section VersionSet.
Context {platform : Platform} {C : Type} `{Comparator C} (icmp : InternalKeyComparator C).
Context {E F G R : Type} `{Env E F G R} `{WritableFile F} `{SequentialFile G}.
Context (addr : bytes -> Z) (dbname : bytes).
Implicit Types vs : VersionSet F.

(** [current_] is a version without files. *)
Definition VersionSet_new : VersionSet F :=
  mkVersionSet 2 0 0 0 0 None Version_new (replicate (Z.to_nat kNumLevels) []).

Definition MarkFileNumberUsed (number : Z) (next_file_number : Z) : Z :=
  if next_file_number <=? number then u64 (number + 1) else next_file_number.

(** The files of the levels, from [level] on, as additions. *)
Fixpoint snapshot_files (level : Z) (levels : list (list FileMetaData)) (e : VersionEdit) : VersionEdit :=
  match levels with
  | [] => e
  | files :: levels' =>
      snapshot_files (level + 1) levels'
        (foldl (fun e f => AddFile level (f_number f) (f_file_size f) (f_smallest f) (f_largest f) e) e files)
  end.

Fixpoint snapshot_pointers (level : Z) (ps : list bytes) (e : VersionEdit) : VersionEdit :=
  match ps with
  | [] => e
  | p :: ps' => snapshot_pointers (level + 1) ps' (if lengthZ p =? 0 then e else SetCompactPointer level p e)
  end.

Definition snapshot_edit vs : VersionEdit :=
  snapshot_files 0 (files_ (current_ vs))
    (snapshot_pointers 0 (compact_pointer_ vs) (SetComparatorName (comparator_Name (user_comparator icmp)) VersionEdit_new)).

Definition WriteSnapshot vs (log : Writer F) : outcome (bool * Writer F) :=
  record ← VersionEdit_EncodeTo (snapshot_edit vs) [];
  AddRecord kLittleEndian addr record log.

(** What [LogAndApply] sets in the edit. *)
Definition complete_edit vs (edit : VersionEdit) : outcome VersionEdit :=
  edit ← (if has_log_number_ edit then
            _ ← assert_ (vs_log_number vs <=? log_number_ edit);
            _ ← assert_ (log_number_ edit <? vs_next_file_number vs);
            Ok edit
          else Ok (SetLogNumber (vs_log_number vs) edit));
  let edit := if has_prev_log_number_ edit then edit else SetPrevLogNumber (vs_prev_log_number vs) edit in
  Ok (edit_SetLastSequence (vs_last_sequence vs) (SetNextFile (vs_next_file_number vs) edit)).

(** The manifest to write to, and the name of a new one; a new one starts with
    a snapshot. *)
Definition open_descriptor vs (e : E) : outcome (bool * option (Writer F) * option bytes * E) :=
  match descriptor_log_ vs with
  | Some log => Ok (true, Some log, None, e)
  | None =>
      name ← DescriptorFileName dbname (manifest_file_number_ vs);
      match env_NewWritableFile e name with
      | (None, e) => Ok (false, None, Some name, e)
      | (Some file, e) =>
          '(s, log) ← WriteSnapshot vs (Writer_new addr file);
          Ok (s, Some log, Some name, e)
      end
  end.

Definition write_edit (edit : VersionEdit) (log : Writer F) : outcome (bool * Writer F) :=
  record ← VersionEdit_EncodeTo edit [];
  '(s, log) ← AddRecord kLittleEndian addr record log;
  if (s : bool) then
    let '(s, f) := env_Sync (dest_ log) in Ok (s, mkWriter f (block_offset_ log) (type_crc_ log))
  else Ok (false, log).

(** The status, the edit with what was set, the versions and the files. *)
Definition LogAndApply (edit : VersionEdit) vs (e : E) : outcome (bool * VersionEdit * VersionSet F * E) :=
  edit ← complete_edit vs edit;
  '(builder, compact_pointer) ← Builder_Apply icmp edit (Builder_new (current_ vs)) (compact_pointer_ vs);
  v ← SaveTo icmp builder;
  let vs := mkVersionSet (vs_next_file_number vs) (manifest_file_number_ vs) (vs_last_sequence vs) (vs_log_number vs)
              (vs_prev_log_number vs) (descriptor_log_ vs) (current_ vs) compact_pointer in
  '(s, descriptor, new_manifest_file, e) ← open_descriptor vs e;
  '(s, descriptor) ←
    (match (descriptor : option (Writer F)) with
     | Some log => if (s : bool) then '(s, log) ← write_edit edit log; Ok (s, Some log) else Ok (s, Some log)
     | None => Ok (s, None)
     end);
  '(s, e) ← (if (s : bool) && bool_decide (is_Some new_manifest_file) then SetCurrentFile e dbname (manifest_file_number_ vs)
             else Ok (s, e));
  if (s : bool) then
    Ok (true, edit,
        mkVersionSet (vs_next_file_number vs) (manifest_file_number_ vs) (vs_last_sequence vs) (log_number_ edit)
          (ve_prev_log_number edit) descriptor v compact_pointer, e)
  else
    match new_manifest_file with
    | Some name =>
        let e := match descriptor with Some log => env_Drop e name (dest_ log) | None => e end in
        let '(_, e) := env_DeleteFile e name in
        Ok (false, edit,
            mkVersionSet (vs_next_file_number vs) (manifest_file_number_ vs) (vs_last_sequence vs) (vs_log_number vs)
              (vs_prev_log_number vs) None (current_ vs) compact_pointer, e)
    | None =>
        Ok (false, edit,
            mkVersionSet (vs_next_file_number vs) (manifest_file_number_ vs) (vs_last_sequence vs) (vs_log_number vs)
              (vs_prev_log_number vs) descriptor (current_ vs) compact_pointer, e)
    end.

(** ** Recover *)

(** What the reporter of the log does: the first corruption is the status. *)
Definition report_to (status : Status) (before after : list (Z * bytes)) : Status :=
  match status, drop (length before) after with
  | Status_ok, (_, msg) :: _ => Corruption msg
  | _, _ => status
  end.

(** The variables of the loop: numbers the edits have set, the builder and the
    pointers. *)
Record Recovering : Type := mkRecovering
  { rv_log_number : option Z; rv_prev_log_number : option Z; rv_next_file : option Z; rv_last_sequence : option Z;
    rv_builder : Builder; rv_pointers : list bytes }.

Definition set_if (has : bool) (n : Z) (before : option Z) : option Z := if has then Some n else before.

Definition recover_edit (s : Status) (edit : VersionEdit) (x : Recovering) : outcome (Status * Recovering) :=
  let name := comparator_Name (user_comparator icmp) in
  let s :=
    if ok s && has_comparator_ edit && negb (bool_decide (comparator_ edit = name)) then
      InvalidArgument (Status_message (comparator_ edit ++ str " does not match existing comparator ") name)
    else s in
  '(builder, pointers) ← (if ok s then Builder_Apply icmp edit (rv_builder x) (rv_pointers x)
                          else Ok (rv_builder x, rv_pointers x));
  Ok (s, mkRecovering (set_if (has_log_number_ edit) (log_number_ edit) (rv_log_number x))
           (set_if (has_prev_log_number_ edit) (ve_prev_log_number edit) (rv_prev_log_number x))
           (set_if (has_next_file_number_ edit) (ve_next_file_number edit) (rv_next_file x))
           (set_if (has_last_sequence_ edit) (ve_last_sequence edit) (rv_last_sequence x)) builder pointers).

(** [fuel]: records; [rfuel]: fragments of a record. *)
Fixpoint recover_edits (fuel rfuel : nat) (r : Reader G) (s : Status) (x : Recovering) : outcome (Status * Recovering) :=
  match fuel with
  | O => NoFuel
  | S fuel' =>
      '(record, r1) ← ReadRecord kLittleEndian addr rfuel r;
      let s := report_to s (dropped r) (dropped r1) in
      match (record : option bytes) with
      | Some record =>
          if ok s then
            '(s, edit) ← VersionEdit_DecodeFrom record VersionEdit_new;
            '(s, x) ← recover_edit s edit x;
            recover_edits fuel' rfuel r1 s x
          else Ok (s, x)
      | None => Ok (s, x)
      end
  end.

(** The numbers after the loop, and what has to be there. *)
Definition recovered_numbers (s : Status) (x : Recovering) : Status :=
  if ok s then
    match rv_next_file x, rv_log_number x, rv_last_sequence x with
    | None, _, _ => Corruption (str "no meta-nextfile entry in descriptor")
    | _, None, _ => Corruption (str "no meta-lognumber entry in descriptor")
    | _, _, None => Corruption (str "no last-sequence-number entry in descriptor")
    | _, _, _ => s
    end
  else s.

Definition number_or_0 (n : option Z) : Z := match n with Some n => n | None => 0 end.

Definition Recover (fuel rfuel : nat) (e : E) vs : outcome (Status * VersionSet F) :=
  '(s, current) ← ReadFileToString fuel e (CurrentFileName dbname);
  if negb s then Ok (env_error, vs)
  else if (lengthZ current =? 0) || negb (bool_decide (last current = Some (chr 10))) then
    Ok (Corruption (str "CURRENT file does not end with newline"), vs)
  else
    let current := takeZ (lengthZ current - 1) current in
    match env_NewSequentialFile e (dbname ++ str "/" ++ current) with
    | None => Ok (env_error, vs)
    | Some file =>
        '(s, x) ← recover_edits fuel rfuel (Reader_new file true true 0) Status_ok
                    (mkRecovering None None None None (Builder_new (current_ vs)) (compact_pointer_ vs));
        let prev_log_number := number_or_0 (rv_prev_log_number x) in
        let log_number := number_or_0 (rv_log_number x) in
        let next_file := number_or_0 (rv_next_file x) in
        let marked := MarkFileNumberUsed log_number (MarkFileNumberUsed prev_log_number (vs_next_file_number vs)) in
        let next := if ok s then marked else vs_next_file_number vs in
        let s := recovered_numbers s x in
        if ok s then
          v ← SaveTo icmp (rv_builder x);
          Ok (s, mkVersionSet (u64 (next_file + 1)) next_file (number_or_0 (rv_last_sequence x)) log_number prev_log_number
                   (descriptor_log_ vs) v (rv_pointers x))
        else
          Ok (s, mkVersionSet next (manifest_file_number_ vs) (vs_last_sequence vs) (vs_log_number vs)
                   (vs_prev_log_number vs) (descriptor_log_ vs) (current_ vs) (rv_pointers x))
    end.

(** ** Other operations of the set *)

Definition vs_NewFileNumber vs : Z * VersionSet F :=
  (vs_next_file_number vs,
   mkVersionSet (u64 (vs_next_file_number vs + 1)) (manifest_file_number_ vs) (vs_last_sequence vs) (vs_log_number vs)
     (vs_prev_log_number vs) (descriptor_log_ vs) (current_ vs) (compact_pointer_ vs)).

Definition vs_ReuseFileNumber (file_number : Z) vs : VersionSet F :=
  if vs_next_file_number vs =? u64 (file_number + 1) then
    mkVersionSet file_number (manifest_file_number_ vs) (vs_last_sequence vs) (vs_log_number vs)
      (vs_prev_log_number vs) (descriptor_log_ vs) (current_ vs) (compact_pointer_ vs)
  else vs.

Definition vs_SetLastSequence (s : Z) vs : outcome (VersionSet F) :=
  _ ← assert_ (vs_last_sequence vs <=? s);
  Ok (mkVersionSet (vs_next_file_number vs) (manifest_file_number_ vs) s (vs_log_number vs)
        (vs_prev_log_number vs) (descriptor_log_ vs) (current_ vs) (compact_pointer_ vs)).

Definition NumLevelFiles (level : Z) vs : outcome Z :=
  _ ← assert_ (0 <=? level); _ ← assert_ (level <? kNumLevels);
  files ← in_bounds (nthZ (files_ (current_ vs)) level); Ok (i32 (lengthZ files)).

Definition NumLevelBytes (level : Z) vs : outcome Z :=
  _ ← assert_ (0 <=? level); _ ← assert_ (level <? kNumLevels);
  files ← in_bounds (nthZ (files_ (current_ vs)) level); Ok (TotalFileSize files).

(** [versions]: those of the list of versions. *)
Definition AddLiveFiles (versions : list Version) (live : gset Z) : gset Z :=
  foldl (fun live f => {[f_number f]} ∪ live) live (v ← versions; concat (files_ v)).
End VersionSet.
