(* ===== verification/VersionSpec.v ===== *)
(** * LevelDB: what lookups in several places and in a version answer

    How the answers of places with newer and older writes combine, and that
    the search of a version answers for the writes of all its files. *)

From S2P Require Import Prelude.
From S2P Require Import Bytes.
From S2P Require Import Coding.
From S2P Require Import Comparator.
From S2P Require Import DbFormat.
From S2P Require Import VersionEdit.
From S2P Require Import Iterator.
From S2P Require Import MemTable.
From S2P Require Import MemTableSpec.
From S2P Require Import TableGet.
From S2P Require Import Version.
From stdpp Require Import base tactics numbers list strings.
From Stdlib Require Import Ascii ZArith Lia.
From stdpp Require Import base tactics numbers list sorting strings.

Open Scope Z_scope.

(** * LevelDB: lookups in several places

    A database keeps writes in a memory table, in one that is being written to
    a file, and in the files of the levels.  What a lookup may answer is
    [answers] of the writes of the place; this file says how answers combine
    when a place has the newer writes, and what a table answers. *)

Section answers.
Context {platform : Platform} {C : Type} `{Comparator C} (c : C) `{!ComparatorLaws C c}.
Notation icmp := (mkInternalKeyComparator c).
Notation uorder := (key_order (c := c)).
Notation iorder := (internal_order uorder).
Notation answers := (answers c).
Notation hidden := (hidden c).
Notation newest := (newest c).
Notation write_fits := (write_fits c).
Notation target_key u s := (internal_key u s kValueTypeForSeek).
Implicit Types ws : list write.

(** Only the writes of the key matter. *)
Lemma answers_same ws ws' u s r :
  (forall w, uorder (w_key w) u = 0 -> w ∈ ws <-> w ∈ ws') -> answers ws u s r -> answers ws' u s r.
Proof.
  intros Hsame [(w & (Hin & Hk & Hs & Hmax) & ->)|[-> Hh]].
  - left. exists w. split; [|done]. split; [by apply Hsame|]. split; [done|]. split; [done|].
    intros w' Hw' Hk'. apply Hmax; [by apply Hsame|done].
  - right. split; [done|]. intros w' Hw' Hk'. apply Hh; [by apply Hsame|done].
Qed.

(** The writes of a key in the first place are newer. *)
Definition newer ws ws' : Prop :=
  forall w w', w ∈ ws -> w' ∈ ws' -> uorder (w_key w) (w_key w') = 0 -> w_seq w' < w_seq w.

Lemma key_eq_trans a b u : uorder a u = 0 -> uorder b u = 0 -> uorder a b = 0.
Proof.
  intros Ha Hb. pose proof (cmp_eq_l (cmp := uorder) a u b Ha) as E. apply cmp_eq_sym in Hb. rewrite Hb in E. cbn in E. lia.
Qed.

(** What the first place has is the answer; when it has nothing the other is
    asked. *)
Lemma answers_first ws ws' u s r : newer ws ws' -> answers ws u s r -> r <> Missing -> answers (ws ++ ws') u s r.
Proof.
  intros Hn [(w & (Hin & Hk & Hs & Hmax) & ->)|[-> _]] Hr; [|done]. left. exists w. split; [|done].
  split; [apply elem_of_app; by left|]. split; [done|]. split; [done|].
  intros w' [Hw'|Hw']%elem_of_app Hk' Hs'; [by apply Hmax|]. apply Z.lt_le_incl. apply Hn; [done|done|by eapply key_eq_trans].
Qed.

Lemma answers_next ws ws' u s r : answers ws u s Missing -> answers ws' u s r -> answers (ws ++ ws') u s r.
Proof.
  intros [(w & _ & Hr)|[_ Hh]] Hr'; [by unfold result_of in Hr; destruct (w_type w)|].
  destruct Hr' as [(w & (Hin & Hk & Hs & Hmax) & ->)|[-> Hh']].
  - left. exists w. split; [|done]. split; [apply elem_of_app; by right|]. split; [done|]. split; [done|].
    intros w' [Hw'|Hw']%elem_of_app Hk' Hs'; [|by apply Hmax]. specialize (Hh w' Hw' Hk'). lia.
  - right. split; [done|]. intros w' [Hw'|Hw']%elem_of_app Hk'; [by apply Hh|by apply Hh'].
Qed.

(** ** Separators hide no key *)

Lemma internal_separator_user a b s :
  internal_valid c a -> internal_valid c b -> iorder a b < 0 -> internal_separator icmp a b = Ok s ->
  s = a \/ uorder (user_part s) (user_part b) < 0.
Proof.
  intros Va Vb Hlt E. pose proof Va as [Ha Hua]. pose proof Vb as [Hb Hub]. unfold internal_separator in E.
  rewrite !ExtractUserKey_ok in E by done. cbn [mbind outcome_bind user_comparator] in E.
  assert (Hle : uorder (user_part a) (user_part b) <= 0) by (pose proof (iorder_user c a b); lia).
  destruct (Z.eq_dec (uorder (user_part a) (user_part b)) 0) as [E0|E0].
  - rewrite separator_ge in E by (done || lia). cbn [mbind outcome_bind] in E.
    rewrite (proj2 (Z.ltb_ge _ _)) in E by lia. left. by injection E.
  - destruct (separator_lt (c := c) (user_part a) (user_part b)) as (tmp & Etmp & Vt & _ & Hge & Hlim); [done|done|lia|].
    rewrite Etmp in E. cbn [mbind outcome_bind] in E.
    destruct (Z.ltb_spec (lengthZ tmp) (lengthZ (user_part a))); [|left; by injection E].
    rewrite Compare_valid in E by done. cbn [mbind outcome_bind] in E.
    destruct (Z.ltb_spec (uorder (user_part a) tmp) 0) as [Hgt|]; [|left; by injection E].
    destruct (shortened_key c tmp Vt) as (k & Ek & Vk & Hk & Hord). rewrite Ek in E. cbn [mbind outcome_bind] in E.
    rewrite (internal_Compare_ok c a _ Va Vk), (internal_Compare_ok c _ b Vk Vb) in E. cbn [mbind outcome_bind] in E.
    rewrite bind_assert in E by (apply Z.ltb_lt; by apply Hord). rewrite ?internal_Compare_ok in E by done. cbn [mbind outcome_bind] in E.
    rewrite ?bind_assert in E by (apply Z.ltb_lt; by apply Hord). injection E as <-. right.
    unfold PutFixed64. rewrite user_part_app by (by rewrite EncodeFixed64_le). done.
Qed.

(** ** What a table answers *)

(** What [saver] is to do with the entry. *)
Definition entry_answer (r : option (bytes * bytes)) (u : bytes) (a : lookup_result) : Prop :=
  match r with
  | Some e => exists w, write_fits w /\ e = w_kv w /\ a = if uorder (w_key w) u =? 0 then result_of w else Missing
  | None => a = Missing
  end.

Lemma found_answers ws u s r :
  Forall write_fits ws -> ascending icmp (w_kv <$> ws) -> sequence_ok s -> key_valid (c := c) u ->
  TableGet.found icmp (w_kv <$> ws) (target_key u s) r ->
  exists a, entry_answer r u a /\ answers ws u s a.
Proof.
  intros Hf Ha Hs Hu Hfound.
  assert (Hw : forall n w, ws !! n = Some w -> write_fits w) by (intros n w; by apply Forall_lookup_1).
  assert (Hl : forall n e, (w_kv <$> ws) !! n = Some e -> exists w, ws !! n = Some w /\ e = w_kv w).
  { intros n e. rewrite list_lookup_fmap. destruct (ws !! n) as [w|]; [|done]. intros [= <-]. by exists w. }
  destruct r as [e|]; cbn [TableGet.found] in Hfound.
  - destruct Hfound as (n & Hn & He). destruct (Hl n e He) as (w & Ew & ->). pose proof (search_newest c ws u s n Hf Ha Hs Hu Hn) as Hsn.
    rewrite Ew in Hsn. eexists. split; [exists w; split; [by eapply Hw|]; split; [done|reflexivity]|].
    destruct (uorder (w_key w) u =? 0); [left; by exists w|by right].
  - exists Missing. split; [done|]. right. split; [done|]. destruct Hfound as [Hn|(n & x & y & sep & Hn & Hx & Hy & Hsep & Hks)].
    + pose proof (search_newest c ws u s _ Hf Ha Hs Hu Hn) as Hsn. rewrite length_fmap, lookup_ge_None_2 in Hsn by done. done.
    + destruct (Hl n x Hx) as (wx & Ex & ->). destruct (Hl (S n) y Hy) as (wy & Ey & ->). cbn [w_kv fst] in *.
      pose proof (search_newest c ws u s _ Hf Ha Hs Hu Hn) as Hsn. rewrite Ey in Hsn.
      assert (Hxy : iorder (w_internal wx) (w_internal wy) < 0) by (apply (Ha n (S n) (w_kv wx) (w_kv wy)); (done || lia)).
      destruct Hn as (_ & Hlt & _). specialize (Hlt n (w_kv wx) Hx ltac:(lia)). cbn [w_kv fst key_order internal_laws] in Hlt, Hks.
      pose proof (w_internal_valid c wx (Hw _ _ Ex)) as Vx. pose proof (w_internal_valid c wy (Hw _ _ Ey)) as Vy.
      destruct (internal_separator_user _ _ sep Vx Vy Hxy Hsep) as [->|Hu'].
      * apply cmp_le_ge in Hks. lia.
      * pose proof (iorder_user c _ _ Hks) as Hks'. clear Hks. rename Hks' into Hks. rewrite user_part_key in Hks. unfold w_internal in Hu'. rewrite user_part_key in Hu'.
        pose proof (cmp_le_lt_trans (cmp := uorder) _ _ _ Hks Hu') as Huy. apply cmp_lt_gt in Huy.
        by rewrite (proj2 (Z.eqb_neq _ 0)) in Hsn by lia.
Qed.
End answers.

(** * LevelDB: searching the files of a version

    [FindFile] finds the first file that reaches a key, overlap tests are what
    they say, and [Version::Get] answers what the writes of all files answer
    ([version_ok]: what the levels are). *)

Section spec.
Context {platform : Platform} {C : Type} `{Comparator C} (c : C) `{!ComparatorLaws C c}.
Notation icmp := (mkInternalKeyComparator c).
Notation uorder := (key_order (c := c)).
Notation uvalid := (key_valid (c := c)).
Notation iorder := (internal_order uorder).
Notation ivalid := (internal_valid c).
Notation answers := (answers c).
Notation hidden := (hidden c).
Notation newer := (newer c).
Notation write_fits := (write_fits c).
Notation target_key u s := (internal_key u s kValueTypeForSeek).
Implicit Types f g : FileMetaData.
Implicit Types files : list FileMetaData.
Implicit Types ws : list write.

(** ** FindFile *)

Definition file_keys_ok f : Prop := ivalid (f_smallest f) /\ ivalid (f_largest f) /\ iorder (f_smallest f) (f_largest f) <= 0.

(** A file with its greatest key first. *)
Definition by_largest f : bytes * bytes := (f_largest f, f_smallest f).

Lemma Encode_valid k : ivalid k -> InternalKey_Encode k = Ok k.
Proof. intros [Hk _]. unfold InternalKey_Encode. by rewrite (proj2 (Z.eqb_neq _ 0)) by lia. Qed.

Lemma find_loop_ok files key n fuel : forall l r,
  Forall file_keys_ok files -> ivalid key -> lengthZ files < 2 ^ 31 -> ascending icmp (by_largest <$> files) ->
  first_from icmp (by_largest <$> files) key n -> (l <= n <= r)%nat -> (r <= length files)%nat -> (r - l < fuel)%nat ->
  find_loop icmp fuel files key (Z.of_nat l) (Z.of_nat r) = Ok (Z.of_nat n).
Proof.
  induction fuel as [|fuel IH]; intros l r Hf Hk Hsz Ha Hn Hlr Hr Hfuel; [lia|]. cbn [find_loop]. pose proof Hsz as Hsz'. rewrite lengthZ_length in Hsz'.
  destruct (Z.ltb_spec (Z.of_nat l) (Z.of_nat r)) as [Hlt|]; [|do 2 f_equal; lia].
  rewrite (u32_small (Z.of_nat l + Z.of_nat r)) by lia. set (mid := Z.to_nat ((Z.of_nat l + Z.of_nat r) / 2)).
  assert (Hmid : (Z.of_nat l + Z.of_nat r) / 2 = Z.of_nat mid /\ (l <= mid < r)%nat).
  { unfold mid. assert (Z.of_nat l <= (Z.of_nat l + Z.of_nat r) / 2 < Z.of_nat r); [|lia].
    split; [apply Z.div_le_lower_bound; lia|apply Z.div_lt_upper_bound; lia]. }
  clearbody mid. destruct Hmid as [-> Hmid]. destruct (lookup_lt_is_Some_2 files mid ltac:(lia)) as [f Hfm].
  rewrite nthZ_lookup, Nat2Z.id, Hfm by lia. cbn [in_bounds mbind outcome_bind].
  destruct (Forall_lookup_1 _ _ _ _ Hf Hfm) as (_ & Vl & _). rewrite (Encode_valid _ Vl). cbn [mbind outcome_bind].
  rewrite (internal_Compare_ok c _ _ Vl Hk). cbn [mbind outcome_bind].
  assert (Hm : (by_largest <$> files) !! mid = Some (by_largest f)) by by rewrite list_lookup_fmap, Hfm.
  pose proof Hn as (Hnl & Hbefore & Hat). destruct (Z.ltb_spec (iorder (f_largest f) key) 0) as [Hcmp|Hcmp].
  - rewrite u32_small by lia. replace (Z.of_nat mid + 1) with (Z.of_nat (S mid)) by lia. apply IH; try assumption; try lia.
    split; [|lia]. destruct (decide (mid < n)%nat); [lia|exfalso].
    destruct (lookup_lt_is_Some_2 (by_largest <$> files) n) as [e He]; [rewrite length_fmap; lia|].
    specialize (Hat e He). destruct (decide (n = mid)) as [->|]; [simplify_eq; cbn in Hat; lia|].
    pose proof (Ha n mid e _ He Hm ltac:(lia)) as Hnm. cbn [by_largest fst] in Hnm.
    pose proof (cmp_lt_trans (cmp := key_order (c := icmp)) _ _ _ Hnm Hcmp). lia.
  - apply IH; try assumption; try lia. split; [lia|]. destruct (decide (n <= mid)%nat); [done|exfalso].
    specialize (Hbefore mid _ Hm ltac:(lia)). cbn in Hbefore. lia.
Qed.

Lemma FindFile_ok files key :
  Forall file_keys_ok files -> ivalid key -> lengthZ files < 2 ^ 31 -> ascending icmp (by_largest <$> files) ->
  exists n, FindFile icmp files key = Ok (Z.of_nat n) /\ first_from icmp (by_largest <$> files) key n.
Proof.
  intros Hf Hk Hsz Ha. destruct (first_from_exists icmp (by_largest <$> files) key) as [n Hn]. exists n. split; [|done].
  unfold FindFile. pose proof (proj1 Hn) as Hnl. rewrite length_fmap in Hnl. rewrite u32_small by (pose proof (lengthZ_nonneg files); lia).
  rewrite lengthZ_length. change 0 with (Z.of_nat 0). by apply find_loop_ok; try lia.
Qed.

(** ** Overlap *)

(** The keys of writes have no greater tag. *)
Definition tag_ok k : Prop := tag_part k <= pack_tag kMaxSequenceNumber kValueTypeForSeek.
Definition file_bounds_ok f : Prop := file_keys_ok f /\ tag_ok (f_largest f).

(** The keys of a file and a range of user keys, open where there is no bound. *)
Definition file_overlaps f (lo hi : option bytes) : Prop :=
  (forall u, lo = Some u -> uorder u (user_part (f_largest f)) <= 0) /\
  (forall u, hi = Some u -> uorder (user_part (f_smallest f)) u <= 0).

Definition bound_valid (b : option bytes) : Prop := forall u, b = Some u -> uvalid u.

(** The files of a level other than the first. *)
Definition files_disjoint files : Prop :=
  forall i j f g, files !! i = Some f -> files !! j = Some g -> (i < j)%nat -> iorder (f_largest f) (f_smallest g) < 0.

Lemma disjoint_ascending files : Forall file_keys_ok files -> files_disjoint files -> ascending icmp (by_largest <$> files).
Proof.
  intros Hf Hd i j e e' Hi Hj Hij. rewrite list_lookup_fmap in Hi, Hj. destruct (files !! i) as [f|] eqn:Ei; [|done].
  destruct (files !! j) as [g|] eqn:Ej; [|done]. injection Hi as <-. injection Hj as <-. cbn [by_largest fst].
  destruct (Forall_lookup_1 _ _ _ _ Hf Ej) as (_ & _ & Hle). eapply (cmp_lt_le_trans (cmp := iorder)); [|exact Hle]. by eapply Hd.
Qed.

Lemma AfterFile_ok lo f : file_keys_ok f -> bound_valid lo ->
  exists b, AfterFile icmp lo f = Ok b /\ (b = true <-> ~ forall u, lo = Some u -> uorder u (user_part (f_largest f)) <= 0).
Proof.
  intros (_ & [Hl Vl] & _) Hb. unfold AfterFile. destruct lo as [u|].
  - rewrite ExtractUserKey_ok by done. cbn [mbind outcome_bind user_comparator]. rewrite Compare_valid by (done || by apply Hb).
    cbn [mbind outcome_bind]. eexists. split; [done|]. rewrite Z.ltb_lt. split.
    + intros Hlt Hle. specialize (Hle u eq_refl). lia.
    + intros Hn. apply Z.nle_gt. intros Hle. apply Hn. by intros u' [= <-].
  - exists false. split; [done|]. split; [done|]. intros Hn. exfalso. apply Hn. done.
Qed.

Lemma BeforeFile_ok hi f : file_keys_ok f -> bound_valid hi ->
  exists b, BeforeFile icmp hi f = Ok b /\ (b = true <-> ~ forall u, hi = Some u -> uorder (user_part (f_smallest f)) u <= 0).
Proof.
  intros ([Hl Vl] & _ & _) Hb. unfold BeforeFile. destruct hi as [u|].
  - rewrite ExtractUserKey_ok by done. cbn [mbind outcome_bind user_comparator]. rewrite Compare_valid by (done || by apply Hb).
    cbn [mbind outcome_bind]. eexists. split; [done|]. rewrite Z.ltb_lt. split.
    + intros Hlt Hle. specialize (Hle u eq_refl). apply cmp_le_ge in Hle. lia.
    + intros Hn. apply Z.nle_gt. intros Hle. apply Hn. intros u' [= <-]. by apply cmp_le_ge.
  - exists false. split; [done|]. split; [done|]. intros Hn. exfalso. apply Hn. done.
Qed.

Lemma overlaps_bools f lo hi (a b : bool) :
  (a = true <-> ~ forall u, lo = Some u -> uorder u (user_part (f_largest f)) <= 0) ->
  (b = true <-> ~ forall u, hi = Some u -> uorder (user_part (f_smallest f)) u <= 0) ->
  (a || b = false <-> file_overlaps f lo hi).
Proof.
  intros Ha Hb. unfold file_overlaps. rewrite orb_false_iff. split.
  - intros [-> ->]. split; intros u Hu; apply Z.nlt_ge; intros Hlt.
    + assert (false = true); [|done]. apply Ha. intros Hle. specialize (Hle u Hu). lia.
    + assert (false = true); [|done]. apply Hb. intros Hle. specialize (Hle u Hu). lia.
  - intros [H1 H2]. split; [destruct a|destruct b]; try done; exfalso; [by apply Ha|by apply Hb].
Qed.

Lemma any_overlap_ok files lo hi : Forall file_keys_ok files -> bound_valid lo -> bound_valid hi ->
  exists b, any_overlap icmp files lo hi = Ok b /\ (b = true <-> Exists (fun f => file_overlaps f lo hi) files).
Proof.
  intros Hf Hlo Hhi. induction Hf as [|f files Hf _ (b & E & Hb)]; [exists false; split; [done|]; by rewrite Exists_nil|].
  cbn [any_overlap]. destruct (AfterFile_ok lo f Hf Hlo) as (x & -> & Hx). destruct (BeforeFile_ok hi f Hf Hhi) as (y & Ey & Hy).
  pose proof (overlaps_bools f lo hi x y Hx Hy) as Hxy. cbn [mbind outcome_bind]. setoid_rewrite Exists_cons.
  destruct x; cbn [mbind outcome_bind orb] in *.
  - exists b. split; [done|]. rewrite Hb. split; [by right|]. intros [Ho|Ho]; [by apply Hxy in Ho|done].
  - rewrite Ey. cbn [mbind outcome_bind]. destruct y.
    + exists b. split; [done|]. rewrite Hb. split; [by right|]. intros [Ho|Ho]; [by apply Hxy in Ho|done].
    + exists true. split; [done|]. split; [|done]. intros _. left. by apply Hxy.
Qed.

Lemma max_sequence_ok : sequence_ok kMaxSequenceNumber.
Proof. by split; vm_compute. Qed.

(** A file that ends before the earliest internal key of a user key. *)
Lemma largest_before f u :
  file_bounds_ok f -> iorder (f_largest f) (internal_key u kMaxSequenceNumber kValueTypeForSeek) < 0 -> uorder (user_part (f_largest f)) u < 0.
Proof.
  intros [_ Ht] Hlt. pose proof (iorder_user c _ _ (Z.lt_le_incl _ _ Hlt)) as Hle. rewrite user_part_key in Hle.
  destruct (Z.eq_dec (uorder (user_part (f_largest f)) u) 0) as [E|]; [exfalso|lia].
  destruct (iorder_same c (f_largest f) (internal_key u kMaxSequenceNumber kValueTypeForSeek)) as [Hi _]; [by rewrite user_part_key|].
  apply Hi in Hlt. rewrite tag_part_key in Hlt by apply max_sequence_ok. unfold tag_ok in Ht. lia.
Qed.

Lemma SomeFileOverlapsRange_ok (sorted : bool) files lo hi :
  Forall file_bounds_ok files -> lengthZ files < 2 ^ 31 -> (sorted = true -> files_disjoint files) -> bound_valid lo -> bound_valid hi ->
  exists b, SomeFileOverlapsRange icmp sorted files lo hi = Ok b /\ (b = true <-> Exists (fun f => file_overlaps f lo hi) files).
Proof.
  intros Hf Hsz Hd Hlo Hhi.
  assert (Hfk : Forall file_keys_ok files) by (eapply Forall_impl; [exact Hf|by intros f []]).
  unfold SomeFileOverlapsRange. destruct sorted; cbn [negb]; [|by apply any_overlap_ok]. specialize (Hd eq_refl).
  set (index := match lo with Some _ => _ | None => Ok 0 end).
  assert (Hindex : exists n, index = Ok (Z.of_nat n) /\
    (forall i f, files !! i = Some f -> (i < n)%nat -> ~ file_overlaps f lo hi) /\
    (forall f, files !! n = Some f -> forall u, lo = Some u -> uorder u (user_part (f_largest f)) <= 0)).
  { unfold index. destruct lo as [u|].
    - assert (Hu : uvalid u) by by apply Hlo. rewrite AppendInternalKey_ok by apply max_sequence_ok. cbn [mbind outcome_bind app].
      destruct (FindFile_ok files (internal_key u kMaxSequenceNumber kValueTypeForSeek) Hfk) as (n & -> & _ & Hb & Ha);
        [by apply internal_key_valid|done|by apply disjoint_ascending|].
      exists n. split; [done|]. split.
      + intros i f Hi Hin [Ho _]. specialize (Hb i (by_largest f) ltac:(by rewrite list_lookup_fmap, Hi) Hin).
        pose proof (largest_before f u (Forall_lookup_1 _ _ _ _ Hf Hi) Hb) as Hlt. specialize (Ho u eq_refl). apply cmp_le_ge in Ho. lia.
      + intros f Hn u' [= <-]. specialize (Ha (by_largest f) ltac:(by rewrite list_lookup_fmap, Hn)). cbn in Ha. apply cmp_le_ge in Ha.
        pose proof (iorder_user c _ _ Ha) as Hu'. by rewrite user_part_key in Hu'.
    - exists 0%nat. split; [done|]. split; [lia|]. by intros. }
  destruct Hindex as (n & -> & Hbefore & Hat). cbn [mbind outcome_bind]. rewrite nthZ_lookup, Nat2Z.id by lia.
  destruct (files !! n) as [f|] eqn:En.
  - destruct (BeforeFile_ok hi f (Forall_lookup_1 _ _ _ _ Hfk En) Hhi) as (y & -> & Hy). cbn [mbind outcome_bind].
    exists (negb y). split; [done|].
    pose proof (overlaps_bools f lo hi false y) as Hxy. cbn [orb] in Hxy. rewrite negb_true_iff, Hxy; [|by split; [|intros Hn; exfalso; apply Hn; by apply Hat]|done].
    split; [intros Ho; rewrite Exists_exists; exists f; split; [by eapply list_elem_of_lookup_2|done]|].
    rewrite Exists_exists. intros (g & [j Hj]%list_elem_of_lookup & Ho). destruct (decide (j < n)%nat); [by apply (Hbefore j g) in Ho|].
    destruct (decide (j = n)) as [->|]; [by simplify_eq|]. split; [by apply Hat|]. intros u Hu. destruct Ho as [_ Ho]. specialize (Ho u Hu).
    eapply (cmp_trans (cmp := uorder)); [|exact Ho]. apply (iorder_user c). eapply (cmp_trans (cmp := iorder)).
    + by destruct (Forall_lookup_1 _ _ _ _ Hfk En) as (_ & _ & Hle).
    + apply Z.lt_le_incl. eapply Hd; [done|done|lia].
  - exists false. split; [done|]. split; [done|]. rewrite Exists_exists. intros (g & [j Hj]%list_elem_of_lookup & Ho). exfalso.
    apply (Hbefore j g Hj); [|done]. apply lookup_lt_Some in Hj. apply lookup_ge_None in En. lia.
Qed.

(** ** Version::Get *)

(** What the cache of tables promises: a table is searched as [found] says, and
    remains what it was. *)
Class TablesLaws (T : Type) `{Tables T} := {
  table_has : T -> Z -> Z -> list (bytes * bytes) -> Prop;
  Tables_Get_found {A} t number size es k (arg : A) saver :
    table_has t number size es -> ivalid k ->
    exists r t', TableGet.found icmp es k r /\ (forall n sz es, table_has t n sz es -> table_has t' n sz es) /\
      Tables_Get t number size k arg saver =
        (arg' ← match r with Some (key, value) => saver arg key value | None => Ok arg end; Ok (Status_ok, arg', t'))
}.

Context {T : Type} `{TablesLaws T} (W : FileMetaData -> list write).
Implicit Types t : T.

(** A file holds its writes, in order, between its bounds. *)
Record file_ok t f : Prop := {
  fo_entries : table_has t (f_number f) (f_file_size f) (w_kv <$> W f);
  fo_fits : Forall write_fits (W f);
  fo_sorted : ascending icmp (w_kv <$> W f);
  fo_smallest : ivalid (f_smallest f) /\ forall w, w ∈ W f -> iorder (f_smallest f) (w_internal w) <= 0;
  fo_largest : exists w, w ∈ W f /\ f_largest f = w_internal w /\ forall w', w' ∈ W f -> iorder (w_internal w') (w_internal w) <= 0
}.

Lemma file_ok_bounds t f : file_ok t f -> file_bounds_ok f.
Proof.
  intros [_ Hf _ [Vs Hs] (w & Hw & El & Hmax)]. rewrite Forall_forall in Hf. pose proof (Hf w Hw) as Hfw. split.
  - unfold file_keys_ok. rewrite El. split; [done|]. split; [by apply w_internal_valid|]. by apply Hs.
  - unfold tag_ok. rewrite El. destruct Hfw as ([Hs0 Hs1] & _). unfold w_internal. rewrite tag_part_key by done. unfold pack_tag.
    pose proof (value_type_range (w_type w)). change kMaxSequenceNumber with (2 ^ 56 - 1). change (value_type kValueTypeForSeek) with 1. lia.
Qed.

(** A file from its first to its last write. *)
Lemma file_ok_of t f a b :
  table_has t (f_number f) (f_file_size f) (w_kv <$> W f) -> Forall write_fits (W f) -> ascending icmp (w_kv <$> W f) ->
  head (W f) = Some a -> last (W f) = Some b -> f_smallest f = w_internal a -> f_largest f = w_internal b -> file_ok t f.
Proof.
  intros Ht Hf Ha Hh Hl Es El. rewrite head_lookup in Hh. rewrite last_lookup in Hl.
  assert (Hle : forall i j w w', W f !! i = Some w -> W f !! j = Some w' -> (i <= j)%nat -> iorder (w_internal w) (w_internal w') <= 0).
  { intros i j w w' Hi Hj Hij. destruct (decide (i = j)) as [->|]; [simplify_eq; by rewrite (cmp_refl (cmp := iorder))|].
    apply Z.lt_le_incl. eapply (Ha i j (w_kv w) (w_kv w')); [by rewrite list_lookup_fmap, Hi|by rewrite list_lookup_fmap, Hj|lia]. }
  split; [done..| |].
  - rewrite Es. split; [apply w_internal_valid; by eapply Forall_lookup_1|]. intros w [i Hi]%list_elem_of_lookup. eapply Hle; [done..|lia].
  - exists b. split; [by eapply list_elem_of_lookup_2|]. split; [done|]. intros w [i Hi]%list_elem_of_lookup. eapply Hle; [done..|].
    apply lookup_lt_Some in Hi. lia.
Qed.

Lemma file_ok_same t t' f : (forall n sz es, table_has t n sz es -> table_has t' n sz es) -> file_ok t f -> file_ok t' f.
Proof. intros Ht [He H2 H3 H4 H5]. split; [by apply Ht|done..]. Qed.

(** The writes of a list of files. *)
Definition writes_in files : list write := files ≫= W.

(** What the saver of a found entry is left with. *)
Definition saver_of u (a : lookup_result) : Saver :=
  match a with
  | Value_of v => mkSaver kFound u (Some v)
  | Not_found => mkSaver kDeleted u None
  | Missing => mkSaver kNotFound u None
  end.

Lemma SaveValue_ok u w : write_fits w -> uvalid u ->
  SaveValue icmp (mkSaver kNotFound u None) (w_internal w) (w_value w) =
    Ok (saver_of u (if uorder (w_key w) u =? 0 then result_of w else Missing)).
Proof.
  intros (Hs & Hk & _) Hu. unfold SaveValue, w_internal. rewrite ParseInternalKey_key by done.
  cbn [mbind outcome_bind pk_user_key pk_type sv_user_key sv_value user_comparator]. rewrite Compare_valid by done. cbn [mbind outcome_bind].
  destruct (uorder (w_key w) u =? 0); [|done]. unfold result_of. by destruct (w_type w).
Qed.

Lemma search_file t f u s :
  file_ok t f -> sequence_ok s -> uvalid u ->
  exists a t', Tables_Get t (f_number f) (f_file_size f) (target_key u s) (mkSaver kNotFound u None) (SaveValue icmp) =
      Ok (Status_ok, saver_of u a, t') /\ answers (W f) u s a /\ (forall n sz es, table_has t n sz es -> table_has t' n sz es).
Proof.
  intros [He Hf Ha _ _] Hs Hu.
  destruct (Tables_Get_found t _ _ _ (target_key u s) (mkSaver kNotFound u None) (SaveValue icmp) He) as (r & t' & Hr & Ht & E);
    [by apply internal_key_valid|].
  destruct (found_answers c (W f) u s r Hf Ha Hs Hu Hr) as (a & Hea & Hans). exists a, t'. split; [|done]. rewrite E.
  destruct r as [[k v]|]; cbn [entry_answer] in Hea.
  - destruct Hea as (w & Hw & [= -> ->] & ->). by rewrite SaveValue_ok.
  - by subst.
Qed.

(** What a search that ends gives. *)
Definition outcome_of (a : lookup_result) : option (Status * option bytes) :=
  match a with
  | Value_of v => Some (Status_ok, Some v)
  | Not_found => Some (NotFound [], None)
  | Missing => None
  end.

(** Each file has newer writes than those behind it. *)
Definition newest_in_front files : Prop :=
  forall i j f g, files !! i = Some f -> files !! j = Some g -> (i < j)%nat -> newer (W f) (W g).

Lemma newest_in_front_cons f files : newest_in_front (f :: files) -> newer (W f) (writes_in files) /\ newest_in_front files.
Proof.
  intros Hn. split.
  - intros w w' Hw (g & Hw' & [j Hj]%list_elem_of_lookup)%list_elem_of_bind. apply (Hn 0%nat (S j) f g); (done || lia).
  - intros i j x y Hi Hj Hij. apply (Hn (S i) (S j) x y); (done || lia).
Qed.

Lemma search_files_ok level files u s : forall x : getting,
  Forall (file_ok (g_tables x)) files -> newest_in_front files -> sequence_ok s -> uvalid u ->
  exists a x', search_files icmp level files (target_key u s) u x = Ok (outcome_of a, x') /\
    answers (writes_in files) u s a /\ (forall n sz es, table_has (g_tables x) n sz es -> table_has (g_tables x') n sz es).
Proof.
  induction files as [|f files IH]; intros x Hf Hn Hs Hu; cbn [search_files].
  { exists Missing, x. split; [done|]. split; [|done]. right. split; [done|]. by intros w ?%elem_of_nil. }
  apply Forall_cons in Hf as [Hf Hfs]. destruct (newest_in_front_cons _ _ Hn) as [Hnf Hns].
  destruct (search_file _ f u s Hf Hs Hu) as (a & t' & -> & Ha & Ht). cbn [mbind outcome_bind ok negb].
  set (stats := match g_last x with Some (last, last_level) => _ | None => g_stats x end).
  assert (Hin : writes_in (f :: files) = W f ++ writes_in files) by done. rewrite Hin.
  destruct (decide (a = Missing)) as [->|Hne].
  - cbn [saver_of sv_state]. destruct (IH (mkGetting stats (Some (f, level)) t')) as (a' & x' & -> & Ha' & Ht'); [|done..|].
    + eapply Forall_impl; [exact Hfs|]. intros y. by apply file_ok_same.
    + exists a', x'. split; [done|]. split; [by apply answers_next|]. intros n sz es He. by apply Ht', Ht.
  - exists a. destruct a as [v| |]; [| |done]; cbn [saver_of sv_state sv_value outcome_of]; eexists; (split; [reflexivity|]); (split; [by apply answers_first|exact Ht]).
Qed.

(** *** Level 0 *)

Lemma overlapping_ok files u : Forall file_keys_ok files -> uvalid u ->
  exists fs, overlapping icmp files u = Ok fs /\ fs `sublist_of` files /\
    forall f, f ∈ files -> uorder (user_part (f_smallest f)) u <= 0 -> uorder u (user_part (f_largest f)) <= 0 -> f ∈ fs.
Proof.
  intros Hf Hu. induction Hf as [|f files ([Hs Vs] & [Hl Vl] & _) _ (fs & E & Hsub & Hin)]; [by exists []|].
  cbn [overlapping]. rewrite (ExtractUserKey_ok _ Hs), (ExtractUserKey_ok _ Hl). cbn [mbind outcome_bind user_comparator].
  rewrite !Compare_valid by done. cbn [mbind outcome_bind].
  assert (Ei : exists b, (if 0 <=? uorder u (user_part (f_smallest f)) then Ok (uorder u (user_part (f_largest f)) <=? 0) else Ok false) = Ok b /\
    (uorder (user_part (f_smallest f)) u <= 0 -> uorder u (user_part (f_largest f)) <= 0 -> b = true)).
  { destruct (Z.leb_spec 0 (uorder u (user_part (f_smallest f)))) as [|Hlt].
    - eexists. split; [done|]. intros _ Hle. by apply Z.leb_le.
    - exists false. split; [done|]. intros Hle%cmp_le_ge. lia. }
  destruct Ei as (b & -> & Hb). rewrite E. cbn [mbind outcome_bind]. exists (if b then f :: fs else fs). split; [done|]. split.
  - destruct b; by constructor.
  - intros g [->|Hg]%elem_of_cons Hg1 Hg2; [rewrite (Hb Hg1 Hg2); by left|]. destruct b; [right|]; by apply Hin.
Qed.

(** A file with a write of the key has it in its range. *)
Lemma key_in_range t f w u : file_ok t f -> w ∈ W f -> uorder (w_key w) u = 0 ->
  uorder (user_part (f_smallest f)) u <= 0 /\ uorder u (user_part (f_largest f)) <= 0.
Proof.
  intros [_ _ _ [_ Hs] (l & Hl & El & Hmax)] Hw Ek. specialize (Hs w Hw). specialize (Hmax w Hw). rewrite El.
  apply (iorder_user c) in Hs, Hmax. unfold w_internal in Hs, Hmax |- *. rewrite !user_part_key in *. split.
  - eapply (cmp_trans (cmp := uorder)); [exact Hs|]. lia.
  - eapply (cmp_trans (cmp := uorder)); [|exact Hmax]. apply cmp_eq_sym in Ek. lia.
Qed.

#[local] Instance newest_first_total : Total newest_first.
Proof. intros f g. unfold newest_first. lia. Qed.
#[local] Instance newest_first_trans : Transitive newest_first.
Proof. intros f g h. unfold newest_first. lia. Qed.

(** Level 0: the higher the number the newer the writes. *)
Definition level0_ok files : Prop :=
  NoDup (f_number <$> files) /\ forall f g, f ∈ files -> g ∈ files -> f_number g < f_number f -> newer (W f) (W g).

Definition level_ok (level : Z) files : Prop :=
  if level =? 0 then level0_ok files else ascending icmp (w_kv <$> writes_in files) /\ lengthZ files < 2 ^ 31.

Lemma sorted_newest files fs : level0_ok files -> fs `sublist_of` files -> newest_in_front (merge_sort newest_first fs).
Proof.
  intros [Hnd Hn] Hsub. pose proof (merge_sort_Permutation newest_first fs) as Hp.
  assert (Hnd' : NoDup (f_number <$> merge_sort newest_first fs)).
  { rewrite Hp. eapply sublist_NoDup; [exact Hnd|]. by apply fmap_sublist. }
  assert (Hin : forall f, f ∈ merge_sort newest_first fs -> f ∈ files).
  { intros f. rewrite Hp. intros Hf. by eapply elem_of_sublist. }
  intros i j f g Hi Hj Hij. apply Hn; [apply Hin; by eapply list_elem_of_lookup_2|apply Hin; by eapply list_elem_of_lookup_2|].
  pose proof (StronglySorted_lookup newest_first _ i j f g (StronglySorted_merge_sort newest_first fs) Hi Hj Hij) as Hle. unfold newest_first in Hle.
  assert (f_number f <> f_number g); [|lia]. intros E. assert (i = j); [|lia].
  apply (NoDup_lookup _ i j (f_number f) Hnd'); [by rewrite list_lookup_fmap, Hi|]. rewrite list_lookup_fmap, Hj. cbn. by rewrite E.
Qed.

(** *** The other levels *)

Lemma level_lookup files i f w : files !! i = Some f -> w ∈ W f ->
  exists n m, W f !! m = Some w /\ n = (length (writes_in (take i files)) + m)%nat /\ writes_in files !! n = Some w.
Proof.
  intros Hi [m Hm]%list_elem_of_lookup. exists (length (writes_in (take i files)) + m)%nat, m. split; [done|]. split; [done|].
  rewrite <- (take_drop_middle files i f Hi) at 2. unfold writes_in. rewrite bind_app, bind_cons, lookup_app_r, Nat.add_sub' by lia.
  by apply lookup_app_l_Some.
Qed.

(** The writes of a file are before those of the files behind it. *)
Lemma level_order files i j f g w w' :
  ascending icmp (w_kv <$> writes_in files) -> files !! i = Some f -> files !! j = Some g -> (i < j)%nat -> w ∈ W f -> w' ∈ W g ->
  iorder (w_internal w) (w_internal w') < 0.
Proof.
  intros Ha Hi Hj Hij Hw Hw'. destruct (level_lookup files i f w Hi Hw) as (n & m & Hm & -> & Hn).
  destruct (level_lookup files j g w' Hj Hw') as (n' & m' & Hm' & -> & Hn').
  apply (Ha (length (writes_in (take i files)) + m)%nat (length (writes_in (take j files)) + m')%nat (w_kv w) (w_kv w')).
  - by rewrite list_lookup_fmap, Hn.
  - by rewrite list_lookup_fmap, Hn'.
  - assert (Et : take j files = take i files ++ f :: drop (S i) (take j files)).
    { rewrite <- (take_drop_middle (take j files) i f) at 1 by (by rewrite lookup_take_lt). by rewrite take_take, Nat.min_l by lia. }
    rewrite Et. unfold writes_in. rewrite bind_app, bind_cons, !length_app. apply lookup_lt_Some in Hm. lia.
Qed.

Lemma level_ascending t files : Forall (file_ok t) files -> ascending icmp (w_kv <$> writes_in files) -> ascending icmp (by_largest <$> files).
Proof.
  intros Hf Ha i j e e' Hi Hj Hij. rewrite list_lookup_fmap in Hi, Hj. destruct (files !! i) as [f|] eqn:Ei; [|done].
  destruct (files !! j) as [g|] eqn:Ej; [|done]. injection Hi as <-. injection Hj as <-. cbn [by_largest fst].
  destruct (fo_largest _ _ (Forall_lookup_1 _ _ _ _ Hf Ei)) as (w & Hw & -> & _).
  destruct (fo_largest _ _ (Forall_lookup_1 _ _ _ _ Hf Ej)) as (w' & Hw' & -> & _). exact (level_order files i j f g w w' Ha Ei Ej Hij Hw Hw').
Qed.

(** Searching the one file that may have the key is searching the level. *)
Lemma one_file_answers t files n f u s a :
  Forall (file_ok t) files -> ascending icmp (w_kv <$> writes_in files) -> sequence_ok s -> uvalid u ->
  first_from icmp (by_largest <$> files) (target_key u s) n -> files !! n = Some f -> answers (W f) u s a -> answers (writes_in files) u s a.
Proof.
  intros Hf Ha Hs Hu (_ & Hbefore & Hat) Hn Hans.
  assert (Hfit : forall g w, g ∈ files -> w ∈ W g -> write_fits w).
  { intros g w Hg Hw. rewrite Forall_forall in Hf. pose proof (fo_fits _ _ (Hf g Hg)) as Hfi. rewrite Forall_forall in Hfi. by apply Hfi. }
  assert (Hfront : forall i g w, files !! i = Some g -> (i < n)%nat -> w ∈ W g -> uorder (w_key w) u = 0 -> s < w_seq w).
  { intros i g w Hi Hin Hw Ek. apply (write_before_target c w u s); [by apply (Hfit g); [eapply list_elem_of_lookup_2|]|done|done|].
    specialize (Hbefore i (by_largest g) ltac:(by rewrite list_lookup_fmap, Hi) Hin). cbn in Hbefore.
    destruct (fo_largest _ _ (Forall_lookup_1 _ _ _ _ Hf Hi)) as (l & _ & El & Hmax). rewrite El in Hbefore.
    eapply (cmp_le_lt_trans (cmp := iorder)); [by apply Hmax|exact Hbefore]. }
  assert (Hin : forall w, w ∈ writes_in files -> exists i g, files !! i = Some g /\ w ∈ W g).
  { intros w (g & Hw & [i Hi]%list_elem_of_lookup)%list_elem_of_bind. by exists i, g. }
  assert (Hnf : f ∈ files) by by eapply list_elem_of_lookup_2.
  destruct Hans as [(w & (Hw & Hk & Hsw & Hmax) & ->)|[-> Hh]].
  - left. exists w. split; [|done]. split; [apply list_elem_of_bind; by exists f|]. split; [done|]. split; [done|].
    intros w' (i & g & Hi & Hw')%Hin Hk' Hs'. destruct (Nat.lt_total i n) as [Hlt|[->|Hgt]].
    + specialize (Hfront i g w' Hi Hlt Hw' Hk'). lia.
    + simplify_eq. by apply Hmax.
    + apply (newer_write c); [by apply (Hfit f)|by apply (Hfit g); [eapply list_elem_of_lookup_2|]|by eapply key_eq_trans|].
      apply Z.lt_le_incl. exact (level_order files n i f g w w' Ha Hn Hi Hgt Hw Hw').
  - right. split; [done|]. intros w' (i & g & Hi & Hw')%Hin Hk'. destruct (Nat.lt_total i n) as [Hlt|[->|Hgt]].
    + by eapply Hfront.
    + simplify_eq. by apply Hh.
    + (* the greatest key of the file would be visible *)
      destruct (fo_largest _ _ (Forall_lookup_1 _ _ _ _ Hf Hn)) as (l & Hl & El & _).
      specialize (Hat (by_largest f) ltac:(by rewrite list_lookup_fmap, Hn)). cbn [by_largest fst] in Hat. rewrite El in Hat. cbn [key_order internal_laws] in Hat.
      pose proof (level_order files n i f g l w' Ha Hn Hi Hgt Hl Hw') as Hlt.
      assert (Ekl : uorder (w_key l) u = 0).
      { apply cmp_le_ge in Hat. apply (iorder_user c) in Hat. pose proof (iorder_user c _ _ (Z.lt_le_incl _ _ Hlt)) as Hlu.
        unfold w_internal in Hat, Hlu. rewrite !user_part_key in *.
        pose proof (cmp_trans (cmp := uorder) _ _ u Hlu ltac:(lia)) as Hle. apply cmp_le_ge in Hat. lia. }
      exfalso. specialize (Hh l Hl Ekl). apply (write_before_target c l u s) in Hh; [|by apply (Hfit f)|done|done]. lia.
Qed.

Lemma no_file_answers t files n u s :
  Forall (file_ok t) files -> sequence_ok s -> uvalid u -> ascending icmp (w_kv <$> writes_in files) ->
  first_from icmp (by_largest <$> files) (target_key u s) n ->
  (forall f, files !! n = Some f -> uorder u (user_part (f_smallest f)) < 0) -> answers (writes_in files) u s Missing.
Proof.
  intros Hf Hs Hu Ha (_ & Hbefore & _) Hn. right. split; [done|].
  intros w (g & Hw & [i Hi]%list_elem_of_lookup)%list_elem_of_bind Ek. pose proof (Forall_lookup_1 _ _ _ _ Hf Hi) as Hg.
  destruct (decide (i < n)%nat) as [Hin|Hin].
  - apply (write_before_target c w u s); [pose proof (fo_fits _ _ Hg) as Hfi; rewrite Forall_forall in Hfi; by apply Hfi|done|done|].
    specialize (Hbefore i (by_largest g) ltac:(by rewrite list_lookup_fmap, Hi) Hin). cbn in Hbefore.
    destruct (fo_largest _ _ Hg) as (l & _ & El & Hmax). rewrite El in Hbefore. eapply (cmp_le_lt_trans (cmp := iorder)); [by apply Hmax|exact Hbefore].
  - exfalso. destruct (lookup_lt_is_Some_2 files n) as [f Hfn]; [apply lookup_lt_Some in Hi; lia|]. specialize (Hn f Hfn).
    pose proof (Forall_lookup_1 _ _ _ _ Hf Hfn) as Hff.
    assert (Hle : iorder (f_smallest f) (w_internal w) <= 0).
    { destruct (decide (i = n)) as [->|]; [simplify_eq; by apply (fo_smallest _ _ Hff)|].
      destruct (fo_largest _ _ Hff) as (l & Hl & _). apply Z.lt_le_incl. eapply (cmp_le_lt_trans (cmp := iorder)); [by apply (fo_smallest _ _ Hff)|].
      eapply level_order; [exact Ha|exact Hfn|exact Hi|lia|exact Hl|exact Hw]. }
    apply (iorder_user c) in Hle. unfold w_internal in Hle. rewrite user_part_key in Hle.
    pose proof (cmp_trans (cmp := uorder) _ _ u Hle ltac:(lia)). apply cmp_lt_gt in Hn. lia.
Qed.

(** What is searched of a level answers for the level. *)
Lemma files_to_search_ok t level files u s :
  Forall (file_ok t) files -> level_ok level files -> sequence_ok s -> uvalid u ->
  exists fs, files_to_search icmp level files (target_key u s) u = Ok fs /\ Forall (file_ok t) fs /\ newest_in_front fs /\
    forall a, answers (writes_in fs) u s a -> answers (writes_in files) u s a.
Proof.
  intros Hf Hlev Hs Hu. unfold files_to_search.
  assert (Hfk : Forall file_keys_ok files) by (eapply Forall_impl; [exact Hf|by intros f [? _]%file_ok_bounds]).
  destruct (Z.eqb_spec (lengthZ files) 0) as [E0|E0].
  { exists []. destruct files; [|cbn in E0; pose proof (lengthZ_nonneg files); lia]. split; [done|]. split; [done|]. split; [|done]. by intros i j ? ? ?. }
  unfold level_ok in Hlev. destruct (level =? 0).
  - destruct (overlapping_ok files u Hfk Hu) as (fs & -> & Hsub & Hin). cbn [mbind outcome_bind].
    pose proof (merge_sort_Permutation newest_first fs) as Hp. exists (merge_sort newest_first fs). split; [done|]. split.
    + rewrite Hp. rewrite Forall_forall in *. intros f Hff. apply Hf. by eapply elem_of_sublist.
    + split; [by apply (sorted_newest files)|]. intros a. apply answers_same. intros w Ek. unfold writes_in. rewrite !list_elem_of_bind. split.
      * intros (f & Hw & Hff). exists f. split; [done|]. rewrite Hp in Hff. by eapply elem_of_sublist.
      * intros (f & Hw & Hff). exists f. split; [done|]. rewrite Hp. rewrite Forall_forall in Hf.
        destruct (key_in_range t f w u (Hf f Hff) Hw Ek). by apply Hin.
  - destruct Hlev as [Ha Hsz]. destruct (FindFile_ok files (target_key u s) Hfk ltac:(by apply internal_key_valid) Hsz (level_ascending t files Hf Ha)) as (n & -> & Hn).
    cbn [mbind outcome_bind]. rewrite nthZ_lookup, Nat2Z.id by lia. destruct (files !! n) as [f|] eqn:En.
    + destruct (Forall_lookup_1 _ _ _ _ Hfk En) as ([Hfs Vs] & _). rewrite ExtractUserKey_ok by done. cbn [mbind outcome_bind user_comparator].
      rewrite Compare_valid by done. cbn [mbind outcome_bind]. destruct (Z.ltb_spec (uorder u (user_part (f_smallest f))) 0) as [Hlt|Hge].
      * exists []. split; [done|]. split; [done|]. split; [by intros i j ? ? ?|]. intros a Ha'. assert (a = Missing) as ->.
        { destruct Ha' as [(w & (Hw & _) & _)|[? _]]; [by apply elem_of_nil in Hw|done]. }
        eapply no_file_answers; try done. intros f' [= <-]%(eq_trans (eq_sym En)). done.
      * exists [f]. split; [done|]. split; [constructor; [|done]; by eapply Forall_lookup_1|]. split.
        -- intros [|i] [|j] x y Hi Hj Hij; try lia; by rewrite ?lookup_nil in *.
        -- intros a. unfold writes_in at 1. cbn [mbind list_bind]. rewrite app_nil_r. by eapply one_file_answers.
    + exists []. split; [done|]. split; [done|]. split; [by intros i j ? ? ?|]. intros a Ha'. assert (a = Missing) as ->.
      { destruct Ha' as [(w & (Hw & _) & _)|[? _]]; [by apply elem_of_nil in Hw|done]. }
      eapply no_file_answers; try done. intros f' Hf'. by rewrite En in Hf'.
Qed.

(** *** All levels *)

(** From level [l] on: the files of each, and the writes of a level are newer
    than those of the levels behind it. *)
Fixpoint levels_ok t (l : Z) (levels : list (list FileMetaData)) : Prop :=
  match levels with
  | [] => True
  | files :: levels' => Forall (file_ok t) files /\ level_ok l files /\ newer (writes_in files) (writes_in (concat levels')) /\ levels_ok t (l + 1) levels'
  end.

Definition version_ok t (v : Version) : Prop := levels_ok t 0 (files_ v).
Definition version_writes (v : Version) : list write := writes_in (concat (files_ v)).

Lemma levels_ok_same t t' l levels :
  (forall n sz es, table_has t n sz es -> table_has t' n sz es) -> levels_ok t l levels -> levels_ok t' l levels.
Proof.
  intros Ht. revert l. induction levels as [|files levels IH]; intros l; [done|]. intros (Hf & Hl & Hn & Hlev).
  split; [eapply Forall_impl; [exact Hf|]; intros f; by apply file_ok_same|]. split; [done|]. split; [done|]. by apply IH.
Qed.

Lemma search_levels_ok levels u s : forall l (x : getting),
  levels_ok (g_tables x) l levels -> sequence_ok s -> uvalid u ->
  exists a x', search_levels icmp l levels (target_key u s) u x = Ok (outcome_of a, x') /\
    answers (writes_in (concat levels)) u s a /\ (forall n sz es, table_has (g_tables x) n sz es -> table_has (g_tables x') n sz es).
Proof.
  induction levels as [|files levels IH]; intros l x Hlev Hs Hu; cbn [search_levels concat].
  { exists Missing, x. split; [done|]. split; [|done]. right. split; [done|]. by intros w ?%elem_of_nil. }
  destruct Hlev as (Hf & Hl & Hn & Hlev). destruct (files_to_search_ok _ l files u s Hf Hl Hs Hu) as (fs & -> & Hfs & Hnf & Hans).
  cbn [mbind outcome_bind]. destruct (search_files_ok l fs u s x Hfs Hnf Hs Hu) as (a & x1 & -> & Ha & Ht). cbn [mbind outcome_bind].
  apply Hans in Ha. assert (Hin : writes_in (files ++ concat levels) = writes_in files ++ writes_in (concat levels)) by (unfold writes_in; by rewrite bind_app).
  rewrite Hin. destruct (decide (a = Missing)) as [->|Hne].
  - cbn [outcome_of]. destruct (IH (l + 1) x1) as (a' & x' & -> & Ha' & Ht'); [by eapply levels_ok_same|done..|].
    exists a', x'. split; [done|]. split; [by apply answers_next|]. intros n sz es He. by apply Ht', Ht.
  - exists a, x1. destruct a; (split; [done|]); (split; [by apply answers_first|done]).
Qed.

(** What the caller gets. *)
Definition get_result (a : lookup_result) : Status * option bytes :=
  match a with Value_of v => (Status_ok, Some v) | _ => (NotFound [], None) end.

Lemma Version_Get_ok v t u s key :
  version_ok t v -> sequence_ok s -> uvalid u -> lengthZ u + 8 < 2 ^ 32 -> LookupKey_new u s = Ok key ->
  exists a stats t', Version_Get icmp v t key = Ok (get_result a, stats, t') /\ answers (version_writes v) u s a /\ version_ok t' v.
Proof.
  intros Hv Hs Hu Hl Hkey. destruct (LookupKey_new_ok u s Hs Hl) as (key' & E & _ & Hik & Huk). assert (key' = key) as -> by congruence.
  unfold Version_Get. rewrite Hik, Huk.
  destruct (search_levels_ok (files_ v) u s 0 (mkGetting (mkStats None (-1)) None t) Hv Hs Hu) as (a & x & -> & Ha & Ht). cbn [mbind outcome_bind g_tables] in *.
  exists a, (g_stats x), (g_tables x). split; [by destruct a|]. split; [done|]. by eapply levels_ok_same.
Qed.
End spec.
