(* ===== verification/VersionSetSpec.v ===== *)
(** * LevelDB: what edits do to the files of the levels

    The builder merges the files an edit adds with those of the base version,
    in the order of their keys, without those that are deleted; the manifest
    that [LogAndApply] writes holds what [Recover] builds the version from. *)

From S2P Require Import Prelude.
From S2P Require Import Bytes.
From S2P Require Import Coding.
From S2P Require Import Comparator.
From S2P Require Import DbFormat.
From S2P Require Import Filename.
From S2P Require Import VersionEdit.
From S2P Require Import Log.
From S2P Require Import LogSpec.
From S2P Require Import Iterator.
From S2P Require Import Env.
From S2P Require Import Version.
From S2P Require Import VersionSet.
From S2P Require Import VersionSpec.
From stdpp Require Import base tactics numbers list sorting gmap strings.
From Stdlib Require Import Ascii ZArith Lia.

Open Scope Z_scope.

#[local] Notation level_ok := VersionEdit.level_ok.

Section builder.
Context {platform : Platform} {C : Type} `{Comparator C} (c : C) `{!ComparatorLaws C c}.
Notation icmp := (mkInternalKeyComparator c).
Notation uorder := (key_order (c := c)).
Notation iorder := (internal_order uorder).
Notation ivalid := (internal_valid c).
Notation file_keys_ok := (file_keys_ok c).
Notation files_disjoint := (files_disjoint c).
Implicit Types f g : FileMetaData.
Implicit Types fs base added files : list FileMetaData.
Implicit Types del : gset Z.

(** ** The order of the files *)

Definition file_lt f g : Prop :=
  iorder (f_smallest f) (f_smallest g) < 0 \/ (iorder (f_smallest f) (f_smallest g) = 0 /\ f_number f < f_number g).

#[local] Instance file_lt_dec f g : Decision (file_lt f g).
Proof. unfold file_lt. apply _. Defined.

#[local] Instance file_lt_trans : Transitive file_lt.
Proof.
  intros x y z [Hxy|[Hxy Nxy]] [Hyz|[Hyz Nyz]]; unfold file_lt.
  - left. eapply (cmp_lt_trans (cmp := iorder)); eassumption.
  - left. eapply (cmp_lt_le_trans (cmp := iorder)); [eassumption|lia].
  - left. eapply (cmp_le_lt_trans (cmp := iorder)); [|eassumption]. lia.
  - right. split; [|lia]. pose proof (cmp_eq_l (cmp := iorder) _ _ (f_smallest z) Hxy) as E. rewrite Hyz in E. cbn in E. lia.
Qed.

Lemma file_lt_irrefl f : ~ file_lt f f.
Proof. unfold file_lt. rewrite (cmp_refl (cmp := iorder)). lia. Qed.

(** Files of different numbers are in one order or the other. *)
Lemma file_lt_total f g : f_number f <> f_number g -> ~ file_lt f g -> file_lt g f.
Proof.
  unfold file_lt. intros Hn Hfg. destruct (Z.eq_dec (iorder (f_smallest f) (f_smallest g)) 0) as [E|E].
  - right. split; [by apply (cmp_eq_sym (cmp := iorder))|lia].
  - left. apply (cmp_lt_gt (cmp := iorder)). lia.
Qed.

Lemma Compare_keys_ok x y : ivalid x -> ivalid y -> Compare_keys icmp x y = Ok (iorder x y).
Proof.
  intros Vx Vy. unfold Compare_keys. rewrite !(Encode_valid c) by done. cbn [mbind outcome_bind]. by apply internal_Compare_ok.
Qed.

Lemma BySmallestKey_ok f g : file_keys_ok f -> file_keys_ok g -> BySmallestKey icmp f g = Ok (bool_decide (file_lt f g)).
Proof.
  intros (Vf & _) (Vg & _). unfold BySmallestKey. rewrite Compare_keys_ok by done. cbn [mbind outcome_bind]. f_equal.
  unfold file_lt. destruct (Z.eqb_spec (iorder (f_smallest f) (f_smallest g)) 0) as [E|E]; cbn [negb]; case_bool_decide; try (apply Z.ltb_lt; lia); apply Z.ltb_ge; lia.
Qed.

Definition in_order files : Prop := StronglySorted file_lt files.

(** There is one order. *)
Lemma in_order_unique files files' : in_order files -> in_order files' -> files ≡ₚ files' -> files = files'.
Proof.
  intros Hf Hf' HP. apply (StronglySorted_unique_strong file_lt); [|done..].
  intros x y _ _ Hxy Hyx. exfalso. eapply file_lt_irrefl. by etrans.
Qed.

Lemma StronglySorted_insert pre f rest :
  in_order (pre ++ rest) -> Forall (fun g => file_lt g f) pre -> Forall (file_lt f) rest -> in_order (pre ++ f :: rest).
Proof.
  intros Hs Hp Hr. apply StronglySorted_app in Hs as (Hpr & Hsp & Hsr). apply StronglySorted_app_2.
  - intros x y Hx [->|Hy]%elem_of_cons; [by rewrite Forall_forall in Hp; apply Hp|by apply Hpr].
  - done.
  - by constructor.
Qed.

(** ** Insertion *)

Lemma FileSet_insert_ok f files :
  file_keys_ok f -> Forall file_keys_ok files -> in_order files -> f_number f ∉ (f_number <$> files) ->
  exists files', FileSet_insert icmp f files = Ok files' /\ in_order files' /\ files' ≡ₚ f :: files.
Proof.
  intros Vf Vfs. induction Vfs as [|g fs Vg Vfs IH]; intros Hs Hn; cbn [FileSet_insert].
  { exists [f]. split; [done|]. split; [repeat constructor|done]. }
  rewrite (BySmallestKey_ok f g) by done. cbn [mbind outcome_bind]. rewrite fmap_cons in Hn. apply not_elem_of_cons in Hn as [Hn Hns].
  pose proof Hs as Hs'. inversion Hs' as [|?? Hs1 Hg]; subst. case_bool_decide as Hfg.
  { exists (f :: g :: fs). split; [done|]. split; [|done]. constructor; [done|]. constructor; [done|].
    eapply Forall_impl; [exact Hg|]. intros x Hx. by etrans. }
  rewrite (BySmallestKey_ok g f) by done. cbn [mbind outcome_bind].
  pose proof (file_lt_total f g Hn Hfg) as Hgf. rewrite bool_decide_eq_true_2 by done.
  destruct (IH Hs1 Hns) as (files' & -> & Hs2 & HP). cbn [mbind outcome_bind]. exists (g :: files'). split; [done|].
  split; [|rewrite HP; apply Permutation_swap]. constructor; [done|]. apply Forall_forall. intros x Hx. rewrite HP in Hx.
  apply elem_of_cons in Hx as [->|Hx]; [done|]. rewrite Forall_forall in Hg. by apply Hg.
Qed.

(** ** The merge of a level *)

Fixpoint split_at f base : list FileMetaData * list FileMetaData :=
  match base with
  | [] => ([], [])
  | g :: base' => if bool_decide (file_lt f g) then ([], base) else let '(pre, rest) := split_at f base' in (g :: pre, rest)
  end.

Fixpoint merged base added : list FileMetaData :=
  match added with
  | [] => base
  | f :: added' => let '(pre, rest) := split_at f base in pre ++ f :: merged rest added'
  end.

Lemma split_at_app f base pre rest : split_at f base = (pre, rest) -> base = pre ++ rest.
Proof.
  revert pre rest. induction base as [|g base IH]; intros pre rest; cbn [split_at]; [by intros [= <- <-]|].
  case_bool_decide; [by intros [= <- <-]|]. destruct (split_at f base) as [p r]. intros [= <- <-]. cbn [app]. f_equal. by apply IH.
Qed.

Lemma upper_bound_ok f base :
  file_keys_ok f -> Forall file_keys_ok base -> upper_bound icmp f base = Ok (split_at f base).
Proof.
  intros Vf. induction 1 as [|g base Vg _ IH]; [done|]. cbn [upper_bound split_at]. rewrite BySmallestKey_ok by done.
  cbn [mbind outcome_bind]. case_bool_decide; [done|]. rewrite IH. cbn [mbind outcome_bind]. by destruct (split_at f base).
Qed.

Lemma merged_Permutation added : forall base, merged base added ≡ₚ base ++ added.
Proof.
  induction added as [|f added IH]; intros base; cbn [merged]; [by rewrite app_nil_r|].
  destruct (split_at f base) as [pre rest] eqn:E. apply split_at_app in E as ->. rewrite IH, <- app_assoc. f_equiv. apply Permutation_middle.
Qed.

(** The numbers of the two are different. *)
Definition numbers_apart base added : Prop := forall f g, f ∈ base -> g ∈ added -> f_number f <> f_number g.

Lemma split_at_order f base pre rest :
  in_order base -> (forall g, g ∈ base -> f_number g <> f_number f) -> split_at f base = (pre, rest) ->
  Forall (fun g => file_lt g f) pre /\ Forall (file_lt f) rest.
Proof.
  intros Hs Hn. revert pre rest. induction Hs as [|g base Hs IH Hg]; intros pre rest; cbn [split_at]; [by intros [= <- <-]|].
  case_bool_decide as Hfg.
  - intros [= <- <-]. split; [constructor|]. constructor; [done|]. eapply Forall_impl; [exact Hg|]. intros x Hx. by etrans.
  - destruct (split_at f base) as [p r]. intros [= <- <-]. destruct (IH (fun x Hx => Hn x ltac:(by right)) p r eq_refl) as [Hp Hr].
    split; [|done]. constructor; [|done]. apply file_lt_total; [|done]. intros E. by apply (Hn g ltac:(by left)).
Qed.

Lemma merged_order added : forall base, in_order base -> in_order added -> numbers_apart base added -> in_order (merged base added).
Proof.
  induction added as [|f added IH]; intros base Hb Ha Hn; cbn [merged]; [done|].
  destruct (split_at f base) as [pre rest] eqn:E. pose proof (split_at_app _ _ _ _ E) as Eb.
  destruct (split_at_order f base pre rest Hb) as [Hp Hr]; [intros g Hg; apply Hn; [done|by left]|done|]. subst base.
  inversion Ha as [|?? Ha' Hf]; subst. apply StronglySorted_app in Hb as (Hpr & Hsp & Hsr).
  assert (Hm : forall x, x ∈ merged rest added -> x ∈ rest \/ x ∈ added) by (intros x; rewrite merged_Permutation; apply elem_of_app).
  rewrite Forall_forall in Hp, Hr, Hf. apply StronglySorted_app_2; [|done|].
  - intros x y Hx [->|[Hy|Hy]%Hm]%elem_of_cons; [by apply Hp|by apply Hpr|]. etrans; [by apply Hp|by apply Hf].
  - constructor.
    + apply IH; [done|done|]. intros x y Hx Hy. apply Hn; [apply elem_of_app; by right|by right].
    + apply Forall_forall. intros x [Hx|Hx]%Hm; [by apply Hr|by apply Hf].
Qed.

(** ** SaveTo *)

Definition kept del files : list FileMetaData := filter (fun f => f_number f ∉ del) files.

Lemma MaybeAddFile_ok level del f files :
  Forall file_keys_ok (files ++ [f]) -> (0 < level -> files_disjoint (files ++ kept del [f])) ->
  MaybeAddFile icmp level del f files = Ok (files ++ kept del [f]).
Proof.
  intros Hf Hd. unfold MaybeAddFile. unfold kept in *. rewrite filter_cons in *. case_bool_decide as Hdel.
  { rewrite decide_False by naive_solver. by rewrite filter_nil, app_nil_r. }
  rewrite decide_True, filter_nil in * by done. apply Forall_app in Hf as [Hf (Vf & _)%Forall_cons].
  destruct (last files) as [l|] eqn:El; [|done]. destruct (Z.ltb_spec 0 level) as [Hl|]; [|done].
  apply last_Some in El as [files0 ->]. apply Forall_app in Hf as [_ (Vl & _)%Forall_cons].
  rewrite Compare_keys_ok by (apply Vl || apply Vf). cbn [mbind outcome_bind]. rewrite bind_assert; [done|].
  apply Z.ltb_lt. eapply (Hd Hl (length files0) (S (length files0))); [| |lia].
  - rewrite lookup_app_l by (rewrite length_app; cbn; lia). by apply list_lookup_middle.
  - rewrite <- app_assoc. cbn [app]. rewrite cons_middle, app_assoc. apply list_lookup_middle. rewrite length_app. cbn. lia.
Qed.

Lemma disjoint_prefix l k : files_disjoint (l ++ k) -> files_disjoint l.
Proof. intros Hd i j f g Hi Hj. by apply (Hd i j f g); apply lookup_app_l_Some. Qed.

Lemma maybe_add_all_ok level del fs : forall files,
  Forall file_keys_ok (files ++ fs) -> (0 < level -> files_disjoint (files ++ kept del fs)) ->
  maybe_add_all icmp level del fs files = Ok (files ++ kept del fs).
Proof.
  induction fs as [|f fs IH]; intros files Hf Hd; cbn [maybe_add_all]; [by rewrite app_nil_r|].
  assert (E : kept del (f :: fs) = kept del [f] ++ kept del fs) by apply (filter_app _ [f]). rewrite E, app_assoc in *.
  rewrite MaybeAddFile_ok; [|rewrite cons_middle, app_assoc in Hf; by apply Forall_app in Hf as [Hf _]|intros Hl; eapply disjoint_prefix, Hd, Hl].
  cbn [mbind outcome_bind]. apply IH; [|done]. apply Forall_app in Hf as [Hf [Vf Hfs]%Forall_cons]. apply Forall_app. split; [|done].
  apply Forall_app. split; [done|]. apply Forall_forall. intros x [_ ->%list_elem_of_singleton]%list_elem_of_filter. done.
Qed.

Lemma save_loop_ok level del added : forall base files,
  Forall file_keys_ok (files ++ base ++ added) -> (0 < level -> files_disjoint (files ++ kept del (merged base added))) ->
  save_loop icmp level del base added files = Ok (files ++ kept del (merged base added)).
Proof.
  induction added as [|f added IH]; intros base files Hf Hd; cbn [save_loop merged] in *.
  { rewrite app_nil_r in Hf. by apply maybe_add_all_ok. }
  apply Forall_app in Hf as [Hf [Hb [Vf Ha]%Forall_cons]%Forall_app]. rewrite upper_bound_ok by done. cbn [mbind outcome_bind].
  destruct (split_at f base) as [pre rest] eqn:E. apply split_at_app in E as ->. apply Forall_app in Hb as [Hp Hr].
  assert (Ek : kept del (pre ++ f :: merged rest added) = kept del pre ++ kept del [f] ++ kept del (merged rest added)).
  { unfold kept. rewrite filter_app. f_equal. apply (filter_app _ [f]). }
  rewrite Ek in *. rewrite !app_assoc in *.
  rewrite maybe_add_all_ok; [|by apply Forall_app|intros Hl; do 2 eapply disjoint_prefix; by apply Hd]. cbn [mbind outcome_bind].
  assert (Hk : forall l, Forall file_keys_ok l -> Forall file_keys_ok (kept del l)).
  { intros l Hl. apply Forall_forall. intros x [_ Hx]%list_elem_of_filter. rewrite Forall_forall in Hl. by apply Hl. }
  rewrite MaybeAddFile_ok; [| |intros Hl; eapply disjoint_prefix, Hd, Hl].
  2: { rewrite !Forall_app. split; [split; [done|by apply Hk]|]. by constructor. }
  cbn [mbind outcome_bind]. apply IH; [|done]. rewrite !Forall_app. split_and!; try done; [by apply Hk|]. apply Hk. by constructor.
Qed.

Lemma check_overlap_ok files : Forall file_keys_ok files -> files_disjoint files -> check_overlap icmp files = Ok ().
Proof.
  induction 1 as [|f files Vf Hf IH]; [done|]. intros Hd. cbn [check_overlap]. destruct Hf as [|g files Vg Hf]; [done|].
  rewrite Compare_keys_ok by (apply Vf || apply Vg). cbn [mbind outcome_bind].
  rewrite (proj2 (Z.leb_gt _ _)); [|by apply (Hd 0%nat 1%nat f g); (done || lia)]. apply IH.
  intros i j x y Hi Hj Hij. apply (Hd (S i) (S j) x y); (done || lia).
Qed.

(** ** An edit on the levels of a builder *)

Definition at_level {A} (ps : list (Z * A)) (n : nat) : list A := (filter (fun p => p.1 = Z.of_nat n) ps).*2.

Lemma at_level_cons {A} (level : Z) (x : A) ps n :
  at_level ((level, x) :: ps) n = (if decide (level = Z.of_nat n) then [x] else []) ++ at_level ps n.
Proof. unfold at_level. rewrite filter_cons. cbn [fst]. by case_decide. Qed.

Lemma on_level_ok level change b l l' :
  level_ok level -> levels_ b !! Z.to_nat level = Some l -> change l = Ok l' ->
  on_level level change b = Ok (mkBuilder (base_ b) (<[Z.to_nat level := l']> (levels_ b))).
Proof.
  intros Hl Hb Hc. unfold on_level. rewrite nthZ_lookup by (unfold level_ok in Hl; lia). rewrite Hb. cbn [in_bounds mbind outcome_bind].
  by rewrite Hc.
Qed.

Definition seven {A} (l : list A) : Prop := length l = Z.to_nat kNumLevels.

Lemma seven_lookup {A} (ls : list A) level : seven ls -> level_ok level -> is_Some (ls !! Z.to_nat level).
Proof. unfold seven, level_ok. intros Hs Hl. apply lookup_lt_is_Some_2. lia. Qed.

Lemma apply_deletions_ok ds : forall b,
  seven (levels_ b) -> Forall (fun d => level_ok d.1) ds ->
  exists b', apply_deletions ds b = Ok b' /\ base_ b' = base_ b /\ seven (levels_ b') /\
    forall n l, levels_ b !! n = Some l ->
      levels_ b' !! n = Some (mkLevelState (deleted_numbers l ∪ list_to_set (at_level ds n)) (added_files l)).
Proof.
  induction ds as [|[level number] ds IH]; intros b Hs Hd; cbn [apply_deletions].
  { exists b. split_and!; [done..|]. intros n l ->. cbn. rewrite union_empty_r_L. by destruct l. }
  apply Forall_cons in Hd as [Hl Hd]. cbn [fst] in Hl. destruct (seven_lookup _ _ Hs Hl) as [l0 E0].
  erewrite (on_level_ok level _ b l0); [|exact Hl|exact E0|reflexivity]. cbn [mbind outcome_bind]. set (b1 := mkBuilder _ _).
  destruct (IH b1) as (b' & -> & Eb & Hs' & Hls); [unfold seven, b1; cbn; by rewrite length_insert|done|].
  exists b'. split_and!; [done..|]. intros n l En. rewrite at_level_cons. case_decide as Hn.
  - subst level. rewrite Nat2Z.id in *. simplify_eq. rewrite (Hls n (mkLevelState ({[number]} ∪ deleted_numbers l0) (added_files l0))).
    + cbn. do 2 f_equal. set_solver.
    + unfold b1. cbn. rewrite Nat2Z.id. apply list_lookup_insert_eq. by eapply lookup_lt_Some.
  - apply Hls. unfold b1. cbn. rewrite list_lookup_insert_ne; [done|]. unfold level_ok in Hl. lia.
Qed.

Lemma applied_number f : f_number (applied f) = f_number f.
Proof. done. Qed.
Lemma applied_numbers fs : f_number <$> (applied <$> fs) = f_number <$> fs.
Proof. rewrite <- list_fmap_compose. by apply list_fmap_ext. Qed.

(** The files that were added, and those to add, have different numbers. *)
Definition level_added_ok (l : LevelState) (fs : list FileMetaData) : Prop :=
  in_order (added_files l) /\ Forall file_keys_ok (added_files l) /\ NoDup ((f_number <$> added_files l) ++ (f_number <$> fs)).

Lemma apply_additions_ok (fs : list (Z * FileMetaData)) : forall b,
  seven (levels_ b) -> Forall (fun p => level_ok p.1 /\ file_keys_ok p.2) fs ->
  (forall n l, levels_ b !! n = Some l -> level_added_ok l (at_level fs n)) ->
  exists b', apply_additions icmp fs b = Ok b' /\ base_ b' = base_ b /\ seven (levels_ b') /\
    forall n l, levels_ b !! n = Some l -> exists l', levels_ b' !! n = Some l' /\
      deleted_numbers l' = deleted_numbers l ∖ list_to_set (f_number <$> at_level fs n) /\
      in_order (added_files l') /\ added_files l' ≡ₚ added_files l ++ (applied <$> at_level fs n).
Proof.
  induction fs as [|[level f] fs IH]; intros b Hs Hd Hok; cbn [apply_additions].
  { exists b. split_and!; [done..|]. intros n l E. exists l. cbn. rewrite difference_empty_L, app_nil_r. by destruct (Hok n l E) as [? _]. }
  apply Forall_cons in Hd as [[Hl Vf] Hd]. cbn [fst snd] in Hl, Vf. destruct (seven_lookup _ _ Hs Hl) as [l0 E0].
  destruct (Hok _ _ E0) as (Ho & Vl & Hnd). rewrite at_level_cons, decide_True in Hnd by (unfold level_ok in Hl; lia).
  cbn [app] in Hnd. rewrite fmap_cons in Hnd. pose proof Hnd as Hnd'. rewrite cons_middle, app_assoc in Hnd'.
  apply NoDup_app in Hnd as (Hnd0 & Hnf & _).
  destruct (FileSet_insert_ok (applied f) (added_files l0)) as (added & Ei & Hoa & HP); [exact Vf|done|done|intros Hin; apply (Hnf _ Hin); by left|].
  erewrite (on_level_ok level _ b l0); [|exact Hl|exact E0|by rewrite Ei].
  cbn [mbind outcome_bind]. set (b1 := mkBuilder _ _).
  destruct (IH b1) as (b' & -> & Eb & Hs' & Hls); [unfold seven, b1; cbn; by rewrite length_insert|done| |].
  { intros n l En. unfold b1 in En. cbn in En. destruct (decide (n = Z.to_nat level)) as [->|Hne].
    - rewrite list_lookup_insert_eq in En by (by eapply lookup_lt_Some). injection En as <-. split; [done|]. cbn [added_files]. split.
      + rewrite HP. by constructor.
      + rewrite HP, fmap_cons, applied_number. by rewrite <- Permutation_cons_append in Hnd'.
    - rewrite list_lookup_insert_ne in En by done. destruct (Hok n l En) as (H1' & H2' & H3'). split_and!; [done..|].
      rewrite at_level_cons, decide_False in H3' by (unfold level_ok in Hl; lia). done. }
  exists b'. split_and!; [done..|]. intros n l En. rewrite at_level_cons. case_decide as Hn.
  - subst level. rewrite Nat2Z.id in *. simplify_eq. destruct (Hls n (mkLevelState (deleted_numbers l0 ∖ {[f_number (applied f)]}) added)) as (l' & El & Ed & Hol & HPl).
    + unfold b1. cbn. rewrite Nat2Z.id. apply list_lookup_insert_eq. by eapply lookup_lt_Some.
    + exists l'. split; [done|]. split; [|split; [done|]].
      * rewrite Ed. cbn. rewrite difference_difference_l_L. done.
      * rewrite HPl. cbn [added_files app]. rewrite HP, fmap_cons. cbn [app]. apply Permutation_middle.
  - apply Hls. unfold b1. cbn. rewrite list_lookup_insert_ne; [done|]. unfold level_ok in Hl. lia.
Qed.

(** What an edit is for the builder: levels that are there, keys that are
    keys. *)
Record edit_applies (e : VersionEdit) : Prop := {
  ea_pointers : Forall (fun p => level_ok p.1 /\ ikey_ok p.2) (compact_pointers_ e);
  ea_deleted : Forall (fun d => level_ok d.1) (deleted_files_ e);
  ea_new : Forall (fun p => level_ok p.1 /\ file_keys_ok p.2) (new_files_ e)
}.

Definition pointers_after (e : VersionEdit) (ps : list bytes) : list bytes :=
  foldl (fun ps p => <[Z.to_nat p.1 := p.2]> ps) ps (compact_pointers_ e).

Lemma apply_pointers_to_ok cps : forall ps,
  seven ps -> Forall (fun p => level_ok p.1 /\ ikey_ok p.2) cps ->
  apply_pointers_to cps ps = Ok (foldl (fun ps p => <[Z.to_nat p.1 := p.2]> ps) ps cps).
Proof.
  induction cps as [|[level key] cps IH]; intros ps Hs Hc; cbn [apply_pointers_to foldl]; [done|].
  apply Forall_cons in Hc as [[Hl Hk] Hc]. cbn [fst snd] in *. destruct (seven_lookup _ _ Hs Hl) as [p Ep].
  rewrite nthZ_lookup by (unfold level_ok in Hl; lia). rewrite Ep. cbn [in_bounds mbind outcome_bind].
  rewrite Encode_ok by done. cbn [mbind outcome_bind]. apply IH; [unfold seven; by rewrite length_insert|done].
Qed.

Lemma pointers_after_seven e ps : seven ps -> seven (pointers_after e ps).
Proof.
  unfold pointers_after, seven. intros Hs. revert ps Hs. induction (compact_pointers_ e) as [|p l IH]; intros ps Hs; cbn; [done|].
  apply IH. by rewrite length_insert.
Qed.

(** A level before and after an edit. *)
Definition level_step (e : VersionEdit) (n : nat) (l l' : LevelState) : Prop :=
  deleted_numbers l' = (deleted_numbers l ∪ list_to_set (at_level (deleted_files_ e) n)) ∖ list_to_set (f_number <$> at_level (new_files_ e) n) /\
  in_order (added_files l') /\ added_files l' ≡ₚ added_files l ++ (applied <$> at_level (new_files_ e) n).

Lemma Builder_Apply_ok e b ps :
  seven (levels_ b) -> seven ps -> edit_applies e ->
  (forall n l, levels_ b !! n = Some l -> level_added_ok l (at_level (new_files_ e) n)) ->
  exists b', Builder_Apply icmp e b ps = Ok (b', pointers_after e ps) /\ base_ b' = base_ b /\ seven (levels_ b') /\
    forall n l, levels_ b !! n = Some l -> exists l', levels_ b' !! n = Some l' /\ level_step e n l l'.
Proof.
  intros Hs Hp [Hcp Hdf Hnf] Hok. unfold Builder_Apply. rewrite apply_pointers_to_ok by done. cbn [mbind outcome_bind].
  destruct (apply_deletions_ok _ b Hs Hdf) as (b1 & -> & Eb1 & Hs1 & Hl1). cbn [mbind outcome_bind].
  assert (Hback : forall n l1, levels_ b1 !! n = Some l1 -> exists l, levels_ b !! n = Some l /\
    l1 = mkLevelState (deleted_numbers l ∪ list_to_set (at_level (deleted_files_ e) n)) (added_files l)).
  { intros n l1 E1. destruct (lookup_lt_is_Some_2 (levels_ b) n) as [l El].
    - apply lookup_lt_Some in E1. unfold seven in *. lia.
    - exists l. split; [done|]. rewrite (Hl1 n l El) in E1. by injection E1. }
  destruct (apply_additions_ok (new_files_ e) b1 Hs1 Hnf) as (b2 & -> & Eb2 & Hs2 & Hl2).
  { intros n l1 (l & El & ->)%Hback. exact (Hok n l El). }
  cbn [mbind outcome_bind]. exists b2. split_and!; [done|congruence|done|].
  intros n l El. destruct (Hl2 n _ (Hl1 n l El)) as (l' & El' & Hd & Ho & HP). by exists l'.
Qed.

(** ** The files after an edit *)

Definition files_after (e : VersionEdit) (n : nat) files : list FileMetaData :=
  filter (fun f => f_number f ∉ at_level (deleted_files_ e) n) files ++ (applied <$> at_level (new_files_ e) n).

Lemma filter_all {A} (P : A -> Prop) `{forall x, Decision (P x)} (l : list A) : (forall x, x ∈ l -> P x) -> filter P l = l.
Proof.
  induction l as [|x l IH]; intros HP; [done|]. rewrite filter_cons_True by (apply HP; by left). f_equal. apply IH. intros y Hy. apply HP. by right.
Qed.

Lemma filter_same {A} (P Q : A -> Prop) `{forall x, Decision (P x)} `{forall x, Decision (Q x)} (l : list A) :
  (forall x, x ∈ l -> P x <-> Q x) -> filter P l = filter Q l.
Proof.
  induction l as [|x l IH]; intros HPQ; [done|]. rewrite !filter_cons, IH by (intros y Hy; apply HPQ; by right).
  destruct (HPQ x ltac:(by left)). repeat case_decide; naive_solver.
Qed.

Lemma kept_step e n l l' base :
  level_step e n l l' ->
  (forall f, f ∈ base ++ added_files l -> f_number f ∉ (f_number <$> at_level (new_files_ e) n)) ->
  kept (deleted_numbers l') (base ++ added_files l') ≡ₚ files_after e n (kept (deleted_numbers l) (base ++ added_files l)).
Proof.
  intros (Ed & _ & HP) Hfresh. unfold kept, files_after. rewrite HP, app_assoc, filter_app, list_filter_filter.
  f_equiv.
  - apply reflexive_eq. apply filter_same. intros f Hf. specialize (Hfresh f Hf). rewrite Ed. set_solver.
  - apply reflexive_eq. apply filter_all. intros f Hf. assert (f_number f ∈ f_number <$> at_level (new_files_ e) n).
    { rewrite <- applied_numbers. apply list_elem_of_fmap. by exists f. }
    rewrite Ed. set_solver.
Qed.

(** ** The version a builder makes *)

(** Files in no order that do not overlap. *)
Definition apart files : Prop :=
  forall f g, f ∈ files -> g ∈ files -> f <> g ->
    iorder (f_largest f) (f_smallest g) < 0 \/ iorder (f_largest g) (f_smallest f) < 0.

#[export] Instance apart_Proper : Proper ((≡ₚ) ==> iff) apart.
Proof.
  intros l l' HP. split; intros Ha f g Hf Hg; apply Ha; by rewrite ?HP in * || by rewrite <- ?HP in *.
Qed.

Lemma apart_disjoint files : in_order files -> Forall file_keys_ok files -> apart files -> files_disjoint files.
Proof.
  intros Ho Hk Ha i j f g Hi Hj Hij. pose proof (StronglySorted_lookup _ _ _ _ _ _ Ho Hi Hj Hij) as Hfg.
  destruct (Ha f g) as [Hlt|Hgf]; [by eapply list_elem_of_lookup_2|by eapply list_elem_of_lookup_2|by intros ->; eapply file_lt_irrefl|done|].
  exfalso. destruct (Forall_lookup_1 _ _ _ _ Hk Hj) as (_ & _ & Hg).
  pose proof (cmp_le_lt_trans (cmp := iorder) _ _ _ Hg Hgf) as Hlt. apply (cmp_lt_gt (cmp := iorder)) in Hlt.
  destruct Hfg as [Hfg|[Hfg _]]; lia.
Qed.

(** What a builder must have at a level to save it. *)
Record level_saves (n : nat) (base : list FileMetaData) (l : LevelState) : Prop := {
  sv_base : in_order base /\ Forall file_keys_ok base;
  sv_added : in_order (added_files l) /\ Forall file_keys_ok (added_files l);
  sv_numbers : numbers_apart base (added_files l);
  sv_apart : (0 < n)%nat -> apart (kept (deleted_numbers l) (base ++ added_files l))
}.

Definition level_saved (base : list FileMetaData) (l : LevelState) : list FileMetaData :=
  kept (deleted_numbers l) (merged base (added_files l)).

Lemma kept_sublist del files f : f ∈ kept del files -> f ∈ files.
Proof. by intros [_ Hf]%list_elem_of_filter. Qed.

Lemma kept_order del files : in_order files -> in_order (kept del files).
Proof.
  intros Ho. unfold kept. induction Ho as [|f files Ho IH Hf]; [constructor|]. rewrite filter_cons. case_decide; [|done].
  constructor; [done|]. apply Forall_forall. intros g Hg%kept_sublist. rewrite Forall_forall in Hf. by apply Hf.
Qed.

Lemma level_saved_ok n base l :
  level_saves n base l ->
  level_saved base l ≡ₚ kept (deleted_numbers l) (base ++ added_files l) /\ in_order (level_saved base l) /\
  Forall file_keys_ok (level_saved base l) /\ ((0 < n)%nat -> files_disjoint (level_saved base l)).
Proof.
  intros [[Hb Vb] [Ha Va] Hn Hd]. assert (HP : level_saved base l ≡ₚ kept (deleted_numbers l) (base ++ added_files l)).
  { unfold level_saved, kept. by rewrite merged_Permutation. }
  assert (Ho : in_order (level_saved base l)) by (apply kept_order; by apply merged_order).
  assert (Hk : Forall file_keys_ok (level_saved base l)).
  { apply Forall_forall. intros f. rewrite HP. intros [Hf|Hf]%kept_sublist%elem_of_app;
      [rewrite Forall_forall in Vb; by apply Vb|rewrite Forall_forall in Va; by apply Va]. }
  split_and!; [done..|]. intros Hpos. apply apart_disjoint; [done|done|]. rewrite HP. by apply Hd.
Qed.

Lemma save_levels_ok ls : forall n bases,
  length ls = length bases ->
  (forall i l base, ls !! i = Some l -> bases !! i = Some base -> level_saves (n + i) base l) ->
  save_levels icmp (Z.of_nat n) ls bases = Ok (zip_with level_saved bases ls).
Proof.
  induction ls as [|l ls IH]; intros n [|base bases] Hlen Hs; try done. cbn [save_levels zip_with].
  pose proof (Hs 0%nat l base eq_refl eq_refl) as Hl. rewrite Nat.add_0_r in Hl.
  destruct (level_saved_ok n base l Hl) as (_ & _ & Hk & Hd). destruct Hl as [[Hb Vb] [Ha Va] _ _].
  rewrite (save_loop_ok (Z.of_nat n) (deleted_numbers l) (added_files l) base []);
    [|by rewrite !Forall_app|intros Hpos; apply Hd; lia]. cbn [app mbind outcome_bind].
  assert (Hc : (if 0 <? Z.of_nat n then check_overlap icmp (kept (deleted_numbers l) (merged base (added_files l))) else Ok ()) = Ok ()).
  { destruct (Z.ltb_spec 0 (Z.of_nat n)); [|done]. apply check_overlap_ok; [done|]. apply Hd. lia. }
  rewrite Hc. cbn [mbind outcome_bind]. replace (Z.of_nat n + 1) with (Z.of_nat (S n)) by lia.
  rewrite (IH (S n) bases); [done|by injection Hlen|]. intros i l' base' Hi Hi'.
  replace (S n + i)%nat with (n + S i)%nat by lia. by apply Hs.
Qed.

Lemma SaveTo_ok b :
  length (levels_ b) = length (files_ (base_ b)) ->
  (forall n l base, levels_ b !! n = Some l -> files_ (base_ b) !! n = Some base -> level_saves n base l) ->
  SaveTo icmp b = Ok (mkVersion (zip_with level_saved (files_ (base_ b)) (levels_ b))).
Proof. intros Hl Hs. unfold SaveTo. by rewrite (save_levels_ok _ 0). Qed.

(** ** Versions *)

(** A file of a version: with keys, and as an edit has it. *)
Record file_whole (f : FileMetaData) : Prop := {
  fw_keys : file_keys_ok f;
  fw_applied : f = applied f;
  fw_number : number_ok (f_number f);
  fw_size : number_ok (f_file_size f);
  fw_smallest : ikey_ok (f_smallest f);
  fw_largest : ikey_ok (f_largest f)
}.

Record level_wf (n : nat) (files : list FileMetaData) : Prop := {
  lw_order : in_order files;
  lw_numbers : NoDup (f_number <$> files);
  lw_files : Forall file_whole files;
  lw_disjoint : (0 < n)%nat -> files_disjoint files
}.

Definition levels_wf (levels : list (list FileMetaData)) : Prop :=
  seven levels /\ forall n files, levels !! n = Some files -> level_wf n files.

Lemma whole_keys files : Forall file_whole files -> Forall file_keys_ok files.
Proof. intros Hf. eapply Forall_impl; [exact Hf|]. intros f. apply fw_keys. Qed.

(** ** Building *)

Definition added_by (es : list VersionEdit) (n : nat) : list FileMetaData :=
  e ← es; applied <$> at_level (new_files_ e) n.

(** After edits, the builder has what makes the levels. *)
Record built (base : Version) (es : list VersionEdit) (b : Builder) (levels : list (list FileMetaData)) : Prop := {
  bu_base : base_ b = base;
  bu_seven : seven (levels_ b);
  bu_levels n l files : levels_ b !! n = Some l -> files_ base !! n = Some files ->
    in_order (added_files l) /\ Forall file_keys_ok (added_files l) /\ added_files l ≡ₚ added_by es n /\
    NoDup (f_number <$> (files ++ added_files l)) /\
    exists files', levels !! n = Some files' /\ files' ≡ₚ kept (deleted_numbers l) (files ++ added_files l)
}.

(** The numbers of the files an edit adds to a level were not there. *)
Definition numbers_fresh (base : Version) (es : list VersionEdit) (e : VersionEdit) : Prop :=
  forall n files, files_ base !! n = Some files ->
    NoDup ((f_number <$> (files ++ added_by es n)) ++ (f_number <$> at_level (new_files_ e) n)).

Definition levels_after (e : VersionEdit) (levels levels' : list (list FileMetaData)) : Prop :=
  forall n files, levels !! n = Some files -> exists files', levels' !! n = Some files' /\ files' ≡ₚ files_after e n files.

Lemma built_step (base : Version) es b levels levels' e ps :
  levels_wf (files_ base) -> built base es b levels -> seven ps -> edit_applies e -> numbers_fresh base es e -> levels_after e levels levels' ->
  exists b', Builder_Apply icmp e b ps = Ok (b', pointers_after e ps) /\ built base (es ++ [e]) b' levels'.
Proof.
  intros [Hs7 Hwf] [Eb Hs Hl] Hp He Hfresh Hafter.
  assert (Hboth : forall n l, levels_ b !! n = Some l -> exists files, files_ base !! n = Some files).
  { intros n l Hn%lookup_lt_Some. apply lookup_lt_is_Some_2. unfold seven in *. lia. }
  destruct (Builder_Apply_ok e b ps Hs Hp He) as (b' & -> & Eb' & Hs' & Hl').
  { intros n l En. destruct (Hboth n l En) as [files Ef]. destruct (Hl n l files En Ef) as (Ho & Vl & HP & _ & _).
    split; [done|]. split; [done|]. specialize (Hfresh n files Ef). rewrite fmap_app, <- app_assoc in Hfresh.
    apply NoDup_app in Hfresh as (_ & _ & Hfresh). by rewrite HP. }
  exists b'. split; [done|]. split; [by rewrite Eb'|done|]. intros n l' files En' Ef.
  destruct (lookup_lt_is_Some_2 (levels_ b) n) as [l En]; [apply lookup_lt_Some in En'; unfold seven in *; lia|].
  destruct (Hl n l files En Ef) as (Ho & Vl & HP & Hnd & files0 & E0 & HP0). destruct (Hl' n l En) as (l1 & En1 & Hstep). simplify_eq.
  pose proof Hstep as (_ & Ho' & HP'). specialize (Hfresh n files Ef).
  split; [done|]. split.
  { rewrite HP'. apply Forall_app. split; [done|]. apply Forall_fmap, Forall_forall. intros f Hf.
    destruct He as [_ _ Hnew]. apply list_elem_of_fmap in Hf as (p & -> & [_ Hin]%list_elem_of_filter).
    rewrite Forall_forall in Hnew. by destruct (Hnew _ Hin) as [_ ?]. }
  split; [by rewrite HP', HP; unfold added_by; rewrite bind_app; cbn; rewrite app_nil_r|]. split.
  { rewrite HP', HP, app_assoc, fmap_app, applied_numbers. done. }
  destruct (Hafter n files0 E0) as (files' & E' & HPf). exists files'. split; [done|].
  rewrite HPf. symmetry. rewrite kept_step; [|done|].
  - unfold files_after. by rewrite HP0.
  - intros f Hf Hin. apply NoDup_app in Hfresh as (_ & Hd & _). apply (Hd (f_number f)); [|done].
    rewrite <- HP. apply list_elem_of_fmap. by exists f.
Qed.

Lemma built_new (base : Version) : levels_wf (files_ base) -> built base [] (Builder_new base) (files_ base).
Proof.
  intros [Hs Hwf]. split; [done|done|]. intros n l files En Ef. cbn in En.
  assert (l = mkLevelState ∅ []) as -> by (by apply lookup_replicate in En as [-> _]).
  cbn. split_and!; [constructor|constructor|done| |].
  - rewrite app_nil_r. apply (Hwf n files Ef).
  - exists files. split; [done|]. rewrite app_nil_r. unfold kept. rewrite filter_all; [done|]. set_solver.
Qed.

(** The version of a builder that has what makes the levels. *)
Lemma built_saves (base : Version) es b levels :
  levels_wf (files_ base) -> built base es b levels -> seven levels ->
  (forall n files, levels !! n = Some files -> (0 < n)%nat -> apart files) ->
  exists levels', SaveTo icmp b = Ok (mkVersion levels') /\ seven levels' /\
    forall n files, levels !! n = Some files -> exists files', levels' !! n = Some files' /\
      files' ≡ₚ files /\ in_order files' /\ ((0 < n)%nat -> files_disjoint files').
Proof.
  intros [Hs Hwf] [Eb Hsb Hl] H7 Ha.
  assert (Hsaves : forall n l files, levels_ b !! n = Some l -> files_ (base_ b) !! n = Some files -> level_saves n files l).
  { intros n l files En Ef. rewrite Eb in Ef. destruct (Hl n l files En Ef) as (Ho & Vl & HP & Hnd & files' & E' & HP').
    destruct (Hwf n files Ef) as [Hfo _ Hfw _]. split; [split; [done|by apply whole_keys]|done| |].
    - intros f g Hf Hg E. rewrite fmap_app in Hnd. apply NoDup_app in Hnd as (_ & Hd & _). apply (Hd (f_number f)).
      + apply list_elem_of_fmap. by exists f.
      + rewrite E. apply list_elem_of_fmap. by exists g.
    - intros Hpos. rewrite <- HP'. by apply (Ha n). }
  assert (Hlen : length (levels_ b) = length (files_ (base_ b))) by (rewrite Eb; unfold seven in *; lia).
  eexists. split; [by apply SaveTo_ok|]. split.
  { unfold seven in *. rewrite length_zip_with, Eb. lia. }
  intros n files En. destruct (lookup_lt_is_Some_2 (levels_ b) n) as [l El]; [apply lookup_lt_Some in En; unfold seven in *; lia|].
  destruct (lookup_lt_is_Some_2 (files_ (base_ b)) n) as [bs Ebs]; [apply lookup_lt_Some in El; lia|].
  exists (level_saved bs l). rewrite lookup_zip_with, Ebs, El. split; [done|].
  destruct (level_saved_ok n bs l (Hsaves n l bs El Ebs)) as (HP & Ho & _ & Hd). rewrite Eb in Ebs.
  destruct (Hl n l bs El Ebs) as (_ & _ & _ & _ & files' & E' & HP'). simplify_eq. split; [by rewrite HP, HP'|done].
Qed.

(** It is the one version with these files. *)
Lemma built_version (base : Version) es b v :
  levels_wf (files_ base) -> built base es b (files_ v) -> levels_wf (files_ v) -> SaveTo icmp b = Ok v.
Proof.
  intros Hbase Hb [Hs Hwf]. destruct (built_saves base es b (files_ v) Hbase Hb Hs) as (levels' & -> & Hs' & Hl').
  { intros n files En Hpos f g Hf Hg Hne. destruct (Hwf n files En) as [Ho _ Hfw Hd].
    apply list_elem_of_lookup_1 in Hf as [i Hi]. apply list_elem_of_lookup_1 in Hg as [j Hj].
    destruct (decide (i < j)%nat); [left; by eapply Hd|]. right. eapply (Hd Hpos j i); [done..|].
    assert (i <> j) by (intros ->; simplify_eq). lia. }
  destruct v as [levels]. cbn in *. do 2 f_equal. apply list_eq_same_length with (n := Z.to_nat kNumLevels); [done|done|].
  intros i x y Hi Ex Ey. destruct (Hl' i y Ey) as (files' & E' & HP & Ho & _). simplify_eq.
  destruct (Hwf i y Ey) as [Hoy _ _ _]. by apply in_order_unique.
Qed.

(** ** Edits of a manifest *)

Definition name : bytes := comparator_Name (user_comparator icmp).

Record edit_good (e : VersionEdit) : Prop := {
  eg_ok : edit_ok e;
  eg_wf : edit_wf e;
  eg_files : Forall (fun p => file_keys_ok p.2) (new_files_ e);
  eg_name : has_comparator_ e = true -> comparator_ e = name
}.

Definition edit_bytes (e : VersionEdit) : bytes := concat (field_bytes <$> fields e).

Lemma edit_encodes e : edit_good e -> VersionEdit_EncodeTo e [] = Ok (edit_bytes e).
Proof. intros [Hok _ _ _]. by rewrite VersionEdit_EncodeTo_ok. Qed.

Lemma edit_decodes e : edit_good e -> VersionEdit_DecodeFrom (edit_bytes e) VersionEdit_new = Ok (Status_ok, e).
Proof.
  intros [Hok Hwf _ _]. destruct (VersionEdit_round_trip e VersionEdit_new [] Hok Hwf) as (b & Eb & Ed).
  rewrite VersionEdit_EncodeTo_ok in Eb by done. cbn [app] in Eb. assert (b = edit_bytes e) as -> by (by injection Eb).
  rewrite Ed. by destruct e.
Qed.

Lemma good_applies e : edit_good e -> edit_applies e.
Proof.
  intros [Hok _ Hf _]. unfold edit_ok, fields in Hok. rewrite !Forall_app, !Forall_fmap in Hok.
  destruct Hok as (_ & _ & _ & _ & _ & Hcp & Hdf & Hnf). split.
  - exact Hcp.
  - eapply Forall_impl; [exact Hdf|]. by intros p [Hl _].
  - rewrite Forall_forall in Hf, Hnf |- *. intros p Hp. split; [by destruct (Hnf p Hp) as [Hl _]|by apply Hf].
Qed.

(** ** Reading the edits again *)

Definition recovering : Recovering :=
  mkRecovering None None None None (Builder_new Version_new) (replicate (Z.to_nat kNumLevels) []).

Fixpoint replay (x : Recovering) (es : list VersionEdit) (x' : Recovering) : Prop :=
  match es with
  | [] => x' = x
  | e :: es => exists x1, recover_edit icmp Status_ok e x = Ok (Status_ok, x1) /\ replay x1 es x'
  end.

Lemma replay_snoc x es e x1 x2 :
  replay x es x1 -> recover_edit icmp Status_ok e x1 = Ok (Status_ok, x2) -> replay x (es ++ [e]) x2.
Proof.
  revert x. induction es as [|e0 es IH]; intros x Hr E; cbn [replay app] in *; [subst x1; by exists x2|].
  destruct Hr as (x' & E' & Hr). exists x'. split; [done|]. by apply IH.
Qed.

(** What the numbers of an edit do to those of the loop. *)
Definition numbers_after (e : VersionEdit) (x x' : Recovering) : Prop :=
  rv_log_number x' = set_if (has_log_number_ e) (log_number_ e) (rv_log_number x) /\
  rv_prev_log_number x' = set_if (has_prev_log_number_ e) (ve_prev_log_number e) (rv_prev_log_number x) /\
  rv_next_file x' = set_if (has_next_file_number_ e) (ve_next_file_number e) (rv_next_file x) /\
  rv_last_sequence x' = set_if (has_last_sequence_ e) (ve_last_sequence e) (rv_last_sequence x).

Lemma recover_edit_ok e x b ps :
  edit_good e -> Builder_Apply icmp e (rv_builder x) (rv_pointers x) = Ok (b, ps) ->
  exists x', recover_edit icmp Status_ok e x = Ok (Status_ok, x') /\ rv_builder x' = b /\ rv_pointers x' = ps /\ numbers_after e x x'.
Proof.
  intros He Eb. unfold recover_edit. fold name.
  assert (Hs : (ok Status_ok && has_comparator_ e && negb (bool_decide (comparator_ e = name))) = false).
  { destruct (has_comparator_ e) eqn:Hc; [|done]. rewrite bool_decide_eq_true_2; [done|]. by apply (eg_name _ He). }
  rewrite Hs. cbn [ok]. rewrite Eb. cbn [mbind outcome_bind]. eexists. split; [done|]. done.
Qed.

(** ** What the records of a manifest make *)

Definition recorded (es : list VersionEdit) (levels : list (list FileMetaData)) (ps : list bytes) : Prop :=
  Forall edit_good es /\ seven ps /\
  exists x, replay recovering es x /\ built Version_new es (rv_builder x) levels /\ rv_pointers x = ps /\
    forall e, last es = Some e -> exists x0, numbers_after e x0 x.

Lemma levels_wf_new : levels_wf (files_ Version_new).
Proof.
  split; [done|]. intros n files Hn. cbn in Hn. apply (list_elem_of_lookup_2 _ n) in Hn.
  assert (files = []) as -> by (repeat (apply elem_of_cons in Hn as [->|Hn]; [done|]); by apply elem_of_nil in Hn).
  split; [constructor|constructor|constructor|]. by intros _ i j f g.
Qed.

Lemma recorded_new : recorded [] (files_ Version_new) (replicate (Z.to_nat kNumLevels) []).
Proof.
  split; [constructor|]. split; [done|]. exists recovering. split; [done|]. split; [apply built_new, levels_wf_new|]. done.
Qed.

Definition fresh_in (es : list VersionEdit) (e : VersionEdit) : Prop :=
  forall n, NoDup ((f_number <$> added_by es n) ++ (f_number <$> at_level (new_files_ e) n)).

Lemma Version_new_level n files : files_ Version_new !! n = Some files -> files = [].
Proof. intros Hn. by apply lookup_replicate in Hn as [-> _]. Qed.

Lemma recorded_step es levels ps e levels' :
  recorded es levels ps -> edit_good e -> fresh_in es e -> levels_after e levels levels' ->
  recorded (es ++ [e]) levels' (pointers_after e ps).
Proof.
  intros (Hes & Hps & x & Hr & Hb & Ep & _) He Hf Ha.
  destruct (built_step Version_new es (rv_builder x) levels levels' e ps levels_wf_new Hb Hps (good_applies e He)) as (b' & Eb & Hb'); [|done|].
  { intros n files ->%Version_new_level. apply Hf. }
  rewrite <- Ep in Eb. destruct (recover_edit_ok e x _ _ He Eb) as (x' & Ex & Eb' & Ep' & Hn).
  split; [apply Forall_app; split; [done|by constructor]|]. split; [by apply pointers_after_seven|].
  exists x'. split; [by eapply replay_snoc|]. split; [by rewrite Eb'|]. split; [by rewrite Ep', Ep|].
  intros e'. rewrite last_snoc. intros [= <-]. by exists x.
Qed.

(** The files of the levels are among those the edits added. *)
Lemma recorded_added es levels ps n files f :
  recorded es levels ps -> seven levels -> levels !! n = Some files -> f ∈ files -> f ∈ added_by es n.
Proof.
  intros (_ & _ & x & _ & [_ Hs Hl] & _) H7 En Hf. pose proof (lookup_lt_Some _ _ _ En) as Hn.
  destruct (lookup_lt_is_Some_2 (levels_ (rv_builder x)) n) as [l El]; [unfold seven in *; lia|].
  destruct (lookup_lt_is_Some_2 (files_ Version_new) n) as [bs Ebs]; [unfold seven in H7; rewrite H7 in Hn; exact Hn|].
  destruct (Hl n l bs El Ebs) as (_ & _ & HP & _ & files' & E' & HP'). simplify_eq. rewrite HP' in Hf. apply kept_sublist in Hf.
  apply Version_new_level in Ebs as ->. cbn [app] in Hf. by rewrite HP in Hf.
Qed.

(** The numbers an edit adds to the levels of a version are new. *)
Definition fresh_for (levels : list (list FileMetaData)) (e : VersionEdit) : Prop :=
  forall n files, levels !! n = Some files -> NoDup ((f_number <$> files) ++ (f_number <$> at_level (new_files_ e) n)).

Lemma recorded_fresh es levels ps e : recorded es levels ps -> levels_wf levels -> fresh_in es e -> fresh_for levels e.
Proof.
  intros Hr [Hs Hwf] Hf n files En. specialize (Hf n). apply NoDup_app in Hf as (_ & Hd & Hnew). apply NoDup_app.
  split; [apply (Hwf n files En)|]. split; [|done]. intros k Hk. apply list_elem_of_fmap in Hk as (f & -> & Hf). apply Hd.
  apply list_elem_of_fmap. exists f. split; [done|]. by eapply recorded_added.
Qed.

(** The files of a level do not overlap after an edit. *)
Definition edit_apart (levels : list (list FileMetaData)) (e : VersionEdit) : Prop :=
  forall n files, levels !! n = Some files -> (0 < n)%nat -> apart (files_after e n files).

Lemma new_file_whole e n f : edit_good e -> f ∈ applied <$> at_level (new_files_ e) n -> file_whole f.
Proof.
  intros He (g & -> & (p & -> & [_ Hp]%list_elem_of_filter)%list_elem_of_fmap)%list_elem_of_fmap. destruct He as [Hok _ Hk _].
  rewrite Forall_forall in Hk. specialize (Hk p Hp). unfold edit_ok, fields in Hok. rewrite !Forall_app, !Forall_fmap in Hok.
  destruct Hok as (_ & _ & _ & _ & _ & _ & _ & Hnf). rewrite Forall_forall in Hnf.
  destruct (Hnf p Hp) as (_ & Hn & Hsz & Hs & Hl & _). by split.
Qed.

Lemma edit_version v e ps :
  levels_wf (files_ v) -> seven ps -> edit_good e -> fresh_for (files_ v) e -> edit_apart (files_ v) e ->
  exists b v', Builder_Apply icmp e (Builder_new v) ps = Ok (b, pointers_after e ps) /\ SaveTo icmp b = Ok v' /\
    levels_wf (files_ v') /\ levels_after e (files_ v) (files_ v').
Proof.
  intros Hwf Hps He Hf Ha. set (levels := imap (files_after e) (files_ v)).
  assert (Hafter : levels_after e (files_ v) levels).
  { intros n files En. exists (files_after e n files). split; [|done]. unfold levels. by rewrite list_lookup_imap, En. }
  destruct (built_step v [] (Builder_new v) (files_ v) levels e ps Hwf (built_new v Hwf) Hps (good_applies e He)) as (b & Eb & Hb); [|done|].
  { intros n files En. cbn. rewrite app_nil_r. by apply Hf. }
  assert (Hback : forall n fs, levels !! n = Some fs -> exists files, files_ v !! n = Some files /\ fs = files_after e n files).
  { intros n fs. unfold levels. rewrite list_lookup_imap. destruct (files_ v !! n) as [files|]; [|done]. intros [= <-]. by exists files. }
  destruct (built_saves v ([] ++ [e]) b levels Hwf Hb) as (levels' & Es & Hs' & Hl').
  { unfold levels, seven. rewrite length_imap. apply Hwf. }
  { intros n fs (files & En & ->)%Hback Hpos. by apply Ha. }
  exists b, (mkVersion levels'). split; [done|]. split; [done|]. cbn [files_]. split.
  - split; [done|]. intros n files' En'. destruct (lookup_lt_is_Some_2 (files_ v) n) as [files En].
    { apply lookup_lt_Some in En'. destruct Hwf as [Hs _]. unfold seven in *. lia. }
    destruct (Hafter n files En) as (fs & El & HPl). destruct (Hl' n fs El) as (files1 & E1 & HP & Ho & Hd). simplify_eq.
    destruct Hwf as [_ Hwf]. destruct (Hwf n files En) as [_ Hnd Hfw _]. split; [done| |  |done].
    + rewrite HP, HPl. unfold files_after. rewrite fmap_app, applied_numbers. specialize (Hf n files En).
      apply NoDup_app in Hf as (_ & Hdis & Hnew). apply NoDup_app. split_and!; [| |done].
      * eapply sublist_NoDup; [exact Hnd|]. apply fmap_sublist, sublist_filter.
      * intros k (f & -> & [_ Hfi]%list_elem_of_filter)%list_elem_of_fmap. apply Hdis. apply list_elem_of_fmap. by exists f.
    + apply Forall_forall. intros f. rewrite HP, HPl. intros [[_ Hfi]%list_elem_of_filter|Hfi]%elem_of_app.
      * rewrite Forall_forall in Hfw. by apply Hfw.
      * by eapply new_file_whole.
  - intros n files En. destruct (Hafter n files En) as (fs & El & HPl). destruct (Hl' n fs El) as (files1 & E1 & HP & _).
    exists files1. split; [done|]. by rewrite HP, HPl.
Qed.

(** ** The snapshot *)

Definition as_new (f : FileMetaData) : FileMetaData := new_file (f_number f) (f_file_size f) (f_smallest f) (f_largest f).

Lemma applied_as_new files : Forall file_whole files -> applied <$> (as_new <$> files) = files.
Proof.
  intros Hf. rewrite <- list_fmap_compose. rewrite <- (list_fmap_id files) at 2. apply list_fmap_ext. intros i f Hi.
  destruct (Forall_lookup_1 _ _ _ _ Hf Hi) as [_ Ea _ _ _ _]. rewrite Ea at 2. done.
Qed.

Lemma add_files_ok level files e :
  foldl (fun e f => AddFile level (f_number f) (f_file_size f) (f_smallest f) (f_largest f) e) e files =
  with_lists (compact_pointers_ e) (deleted_files_ e) (new_files_ e ++ ((fun f => (level, as_new f)) <$> files)) e.
Proof.
  revert e. induction files as [|f files IH]; intros e; cbn [foldl fmap list_fmap]; [rewrite app_nil_r; by destruct e|].
  rewrite IH. unfold AddFile, add_new_file, with_lists. cbn. by rewrite <- app_assoc.
Qed.

Fixpoint numbered {A} (level : Z) (levels : list (list A)) : list (Z * A) :=
  match levels with [] => [] | xs :: levels' => (pair level <$> xs) ++ numbered (level + 1) levels' end.

Lemma snapshot_files_ok levels : forall level e,
  snapshot_files level levels e =
  with_lists (compact_pointers_ e) (deleted_files_ e) (new_files_ e ++ numbered level (fmap (M := list) as_new <$> levels)) e.
Proof.
  induction levels as [|files levels IH]; intros level e; cbn [snapshot_files fmap list_fmap numbered]; [rewrite app_nil_r; by destruct e|].
  rewrite add_files_ok, IH. unfold with_lists. cbn. rewrite <- app_assoc. by rewrite <- list_fmap_compose.
Qed.

Definition pointer_list (p : bytes) : list bytes := if lengthZ p =? 0 then [] else [p].

Lemma snapshot_pointers_ok ps : forall level e,
  snapshot_pointers level ps e =
  with_lists (compact_pointers_ e ++ numbered level (pointer_list <$> ps)) (deleted_files_ e) (new_files_ e) e.
Proof.
  induction ps as [|p ps IH]; intros level e; cbn [snapshot_pointers fmap list_fmap numbered]; [rewrite app_nil_r; by destruct e|].
  rewrite IH. unfold pointer_list at 2. destruct (lengthZ p =? 0); [done|]. unfold with_lists, SetCompactPointer. cbn. by rewrite <- app_assoc.
Qed.

Lemma at_level_app {A} (l l' : list (Z * A)) n : at_level (l ++ l') n = at_level l n ++ at_level l' n.
Proof. unfold at_level. by rewrite filter_app, fmap_app. Qed.

Lemma at_level_pair {A} level (xs : list A) n : at_level (pair level <$> xs) n = if decide (level = Z.of_nat n) then xs else [].
Proof.
  induction xs as [|x xs IH]; cbn [fmap list_fmap]; [by case_decide|]. rewrite at_level_cons, IH. by case_decide.
Qed.

Lemma numbered_low {A} (levels : list (list A)) level n : (n < level)%nat -> at_level (numbered (Z.of_nat level) levels) n = [].
Proof.
  revert level. induction levels as [|xs levels IH]; intros level Hn; cbn [numbered]; [done|].
  rewrite at_level_app, at_level_pair, decide_False by lia. replace (Z.of_nat level + 1) with (Z.of_nat (S level)) by lia.
  rewrite IH by lia. done.
Qed.

Lemma numbered_at {A} (levels : list (list A)) level n :
  at_level (numbered (Z.of_nat level) levels) (level + n) = default [] (levels !! n).
Proof.
  revert level n. induction levels as [|xs levels IH]; intros level n; cbn [numbered]; [done|].
  rewrite at_level_app, at_level_pair. replace (Z.of_nat level + 1) with (Z.of_nat (S level)) by lia. destruct n as [|n].
  - rewrite decide_True by lia. rewrite Nat.add_0_r, numbered_low by lia. by rewrite app_nil_r.
  - rewrite decide_False by lia. replace (level + S n)%nat with (S level + n)%nat by lia. by rewrite IH.
Qed.

Lemma numbered_in {A} (levels : list (list A)) level p :
  p ∈ numbered (Z.of_nat level) levels -> exists n xs, levels !! n = Some xs /\ p.1 = Z.of_nat (level + n) /\ p.2 ∈ xs.
Proof.
  revert level. induction levels as [|xs levels IH]; intros level; cbn [numbered]; [by intros ?%elem_of_nil|].
  intros [(x & -> & Hx)%list_elem_of_fmap|Hp]%elem_of_app.
  - exists 0%nat, xs. split; [done|]. cbn. split; [lia|done].
  - replace (Z.of_nat level + 1) with (Z.of_nat (S level)) in Hp by lia. destruct (IH _ Hp) as (n & xs' & En & E & Hin).
    exists (S n), xs'. split; [done|]. split; [rewrite E; lia|done].
Qed.

(** The pointers are put where they were. *)
Lemma pointers_numbered ps : forall pre,
  foldl (fun ps p => <[Z.to_nat p.1 := p.2]> ps) (pre ++ replicate (length ps) [])
    (numbered (Z.of_nat (length pre)) (pointer_list <$> ps)) = pre ++ ps.
Proof.
  induction ps as [|p ps IH]; intros pre; cbn [fmap list_fmap numbered length replicate]; [done|].
  rewrite foldl_app. assert (E : foldl (fun ps p => <[Z.to_nat p.1:=p.2]> ps) (pre ++ [] :: replicate (length ps) [])
      (pair (Z.of_nat (length pre)) <$> pointer_list p) = (pre ++ [p]) ++ replicate (length ps) []).
  { unfold pointer_list. destruct (Z.eqb_spec (lengthZ p) 0) as [Ep|Ep]; cbn [fmap list_fmap foldl fst snd].
    - destruct p; [by rewrite <- app_assoc|]. cbn [lengthZ] in Ep. pose proof (lengthZ_nonneg p). lia.
    - rewrite Nat2Z.id, <- app_assoc. cbn [app]. rewrite <- (Nat.add_0_r (length pre)), insert_app_r. by rewrite app_nil_r || done. }
  rewrite E. replace (Z.of_nat (length pre) + 1) with (Z.of_nat (length (pre ++ [p]))) by (rewrite length_app; cbn; lia).
  rewrite IH. by rewrite <- app_assoc.
Qed.
End builder.
