(* ===== verification/ManifestSpec.v ===== *)
(** * LevelDB: the manifest (lib/leveldb/db/version_set.cc)

    [LogAndApply] makes the version an edit leads to and writes the edit, after
    a snapshot in a new manifest; [Recover] makes from the manifest the version
    and the numbers that were there. *)

From S2P Require Import Prelude.
From S2P Require Import Bytes.
From S2P Require Import Coding.
From S2P Require Import Comparator.
From S2P Require Import DbFormat.
From S2P Require Import Filename.
From S2P Require Import VersionEdit.
From S2P Require Import Log.
From S2P Require Import LogSpec.
From S2P Require Import Iterator.
From S2P Require Import Format.
From S2P Require Import Env.
From S2P Require Import Version.
From S2P Require Import VersionSet.
From S2P Require Import VersionSpec.
From S2P Require Import VersionSetSpec.
From stdpp Require Import base tactics numbers list sorting gmap strings.
From Stdlib Require Import Ascii ZArith Lia.

Open Scope Z_scope.

#[local] Notation level_ok := VersionEdit.level_ok.

Section manifest.
Context {platform : Platform} {C : Type} `{Comparator C} (c : C) `{!ComparatorLaws C c}.
Context {E F G R : Type} `{ReliableEnv E F G R}.
Context (addr : bytes -> Z) (dbname : bytes).
Notation icmp := (mkInternalKeyComparator c).
Notation edit_good := (edit_good c).
Notation recorded := (recorded c).
Notation levels_wf := (levels_wf c).
Notation edit_apart := (edit_apart c).
Context (Hname : lengthZ (name c) < 2 ^ 32).
Implicit Types vs : VersionSet F.
Implicit Types edit : VersionEdit.
Implicit Types es : list VersionEdit.

(** ** The snapshot *)

Definition pointer_ok (p : bytes) : Prop := p = [] \/ ikey_ok p.

Lemma snapshot_edit_ok vs :
  snapshot_edit icmp vs = mkEdit (name c) 0 0 0 0 true false false false false
    (numbered 0 (pointer_list <$> compact_pointer_ vs)) [] (numbered 0 (fmap (M := list) as_new <$> files_ (current_ vs))).
Proof. unfold snapshot_edit. by rewrite snapshot_pointers_ok, snapshot_files_ok. Qed.

Lemma snapshot_level vs n : at_level (new_files_ (snapshot_edit icmp vs)) n = as_new <$> default [] (files_ (current_ vs) !! n).
Proof.
  rewrite snapshot_edit_ok. cbn [new_files_]. pose proof (numbered_at (fmap (M := list) as_new <$> files_ (current_ vs)) 0 n) as En.
  cbn [Nat.add] in En. change (Z.of_nat 0) with 0 in En. rewrite En, list_lookup_fmap. by destruct (files_ (current_ vs) !! n).
Qed.

Lemma numbered_level {A} (levels : list (list A)) p : seven levels -> p ∈ numbered 0 levels -> level_ok p.1.
Proof.
  intros Hs Hp. destruct (numbered_in levels 0 p Hp) as (n & xs & En%lookup_lt_Some & -> & _). unfold seven, level_ok in *. lia.
Qed.

Lemma snapshot_good vs :
  levels_wf (files_ (current_ vs)) -> seven (compact_pointer_ vs) -> Forall pointer_ok (compact_pointer_ vs) ->
  edit_good (snapshot_edit icmp vs).
Proof.
  intros [Hs Hwf] Hp Hok. assert (Hnew : forall p, p ∈ numbered 0 (fmap (M := list) as_new <$> files_ (current_ vs)) ->
    level_ok p.1 /\ exists f, file_whole c f /\ p.2 = as_new f).
  { intros p Hin. split; [eapply numbered_level; [|exact Hin]; unfold seven; by rewrite length_fmap|].
    destruct (numbered_in _ 0 p Hin) as (n & xs & En & _ & Hx). rewrite list_lookup_fmap in En.
    destruct (files_ (current_ vs) !! n) as [files|] eqn:Ef; [|done]. injection En as <-.
    apply list_elem_of_fmap in Hx as (f & -> & Hf). exists f. split; [|done]. destruct (Hwf n files Ef) as [_ _ Hw _].
    rewrite Forall_forall in Hw. by apply Hw. }
  rewrite snapshot_edit_ok. split; cbn.
  - unfold edit_ok, fields. cbn. constructor; [done|]. apply Forall_app. rewrite !Forall_fmap. split; apply Forall_forall.
    + intros p Hin. cbn. split; [eapply numbered_level; [|exact Hin]; unfold seven; by rewrite length_fmap|].
      destruct (numbered_in _ 0 p Hin) as (n & xs & En & _ & Hx). rewrite list_lookup_fmap in En.
      destruct (compact_pointer_ vs !! n) as [q|] eqn:Eq; [|done]. injection En as <-. unfold pointer_list in Hx.
      destruct (Z.eqb_spec (lengthZ q) 0); [by apply elem_of_nil in Hx|]. apply list_elem_of_singleton in Hx as ->.
      destruct (Forall_lookup_1 _ _ _ _ Hok Eq) as [->|]; done.
    + intros p Hin. destruct (Hnew p Hin) as [Hl (f & [_ _ Hn Hz Hs1 Hl1] & Ef)]. cbn. by rewrite Ef.
  - split; try done. constructor.
  - apply Forall_forall. intros p Hin. destruct (Hnew p Hin) as [_ (f & [Hk _ _ _ _ _] & ->)]. exact Hk.
  - done.
Qed.

Lemma snapshot_recorded vs :
  levels_wf (files_ (current_ vs)) -> seven (compact_pointer_ vs) -> Forall pointer_ok (compact_pointer_ vs) ->
  recorded [snapshot_edit icmp vs] (files_ (current_ vs)) (compact_pointer_ vs).
Proof.
  intros Hwf Hp Hok. pose proof Hwf as [Hs Hl].
  assert (Ep : pointers_after (snapshot_edit icmp vs) (replicate (Z.to_nat kNumLevels) []) = compact_pointer_ vs).
  { unfold pointers_after. rewrite snapshot_edit_ok. cbn [compact_pointers_]. unfold seven in Hp. rewrite <- Hp.
    apply (pointers_numbered (compact_pointer_ vs) []). }
  rewrite <- Ep. apply (recorded_step c [] (files_ Version_new)); [apply recorded_new|by apply snapshot_good| |].
  - intros n. cbn. rewrite snapshot_level. destruct (files_ (current_ vs) !! n) as [files|] eqn:Ef; [|constructor]. cbn [default].
    replace (f_number <$> (as_new <$> files)) with (f_number <$> files); [apply (Hl n files Ef)|].
    rewrite <- list_fmap_compose. by apply list_fmap_ext.
  - intros n fs En. assert (Hn : (n < length (files_ (current_ vs)))%nat).
    { unfold seven in Hs. rewrite Hs. by apply lookup_lt_Some in En. }
    destruct (lookup_lt_is_Some_2 _ _ Hn) as [files Ef]. exists files. split; [done|]. apply Version_new_level in En as ->.
    unfold files_after. rewrite filter_nil, snapshot_level, Ef. cbn [default app]. rewrite (applied_as_new c); [done|apply (Hl n files Ef)].
Qed.

(** ** What [LogAndApply] adds to an edit *)

Definition completed vs edit : VersionEdit :=
  mkEdit (comparator_ edit) (if has_log_number_ edit then log_number_ edit else vs_log_number vs)
    (if has_prev_log_number_ edit then ve_prev_log_number edit else vs_prev_log_number vs)
    (vs_next_file_number vs) (vs_last_sequence vs) (has_comparator_ edit) true true true true
    (compact_pointers_ edit) (deleted_files_ edit) (new_files_ edit).

(** The log of an edit is one of this set. *)
Definition log_number_fits vs edit : Prop :=
  has_log_number_ edit = true -> vs_log_number vs <= log_number_ edit < vs_next_file_number vs.

Lemma complete_edit_ok vs edit : log_number_fits vs edit -> complete_edit vs edit = Ok (completed vs edit).
Proof.
  unfold log_number_fits, complete_edit. destruct edit as [cmp lg pl nf ls hc hl hp hn hs cp df nfs]. cbn.
  destruct hl; cbn.
  - intros Hl. specialize (Hl eq_refl). rewrite !bind_assert by lia. cbn. by destruct hp.
  - intros _. by destruct hp.
Qed.

Record numbers_ok vs : Prop := {
  nk_next : number_ok (vs_next_file_number vs);
  nk_last : number_ok (vs_last_sequence vs);
  nk_log : number_ok (vs_log_number vs);
  nk_prev : number_ok (vs_prev_log_number vs)
}.

Lemma completed_good vs edit : numbers_ok vs -> edit_good edit -> edit_good (completed vs edit).
Proof.
  intros [H1' H2' H3' H4'] [Hok Hwf Hf Hn]. unfold edit_ok, fields in Hok. rewrite !Forall_app in Hok.
  destruct Hok as (Hc & Hl & Hp & _ & _ & Hcp & Hdf & Hnf). split; [| |done|done].
  - unfold edit_ok, fields. rewrite !Forall_app. cbn. split_and!; try done; (constructor; [|constructor]); cbn; try done.
    + destruct (has_log_number_ edit) eqn:Eh; [exact (optional_ok _ _ Hl eq_refl)|done].
    + destruct (has_prev_log_number_ edit) eqn:Eh; [exact (optional_ok _ _ Hp eq_refl)|done].
  - destruct Hwf. by split.
Qed.

(** ** The set of versions and its manifest *)

(** [es]: the edits that are in the manifest, none before there is one. *)
Record set_ok vs es : Prop := {
  so_levels : levels_wf (files_ (current_ vs));
  so_pointers : seven (compact_pointer_ vs) /\ Forall pointer_ok (compact_pointer_ vs);
  so_numbers : numbers_ok vs;
  so_manifest : 0 < manifest_file_number_ vs;
  so_log : match descriptor_log_ vs with
           | Some log => log_holds log (edit_bytes <$> es) /\ recorded es (files_ (current_ vs)) (compact_pointer_ vs)
           | None => es = []
           end
}.

(** ** Pointers *)

Lemma pointers_after_ok edit ps : edit_good edit -> Forall pointer_ok ps -> Forall pointer_ok (pointers_after edit ps).
Proof.
  intros Hg. pose proof (ea_pointers _ _ (good_applies c edit Hg)) as Hc. unfold pointers_after. revert ps.
  induction Hc as [|[level key] l [_ Hk] Hc IH]; intros ps Hp; cbn [foldl]; [done|]. apply IH. cbn [fst snd] in *.
  apply Forall_insert; [done|by right].
Qed.

Lemma put_length (l : list (Z * bytes)) (ps : list bytes) :
  length (foldl (fun ps p => <[Z.to_nat p.1 := p.2]> ps) ps l) = length ps.
Proof. revert ps. induction l as [|p l IH]; intros ps; cbn [foldl]; [done|]. by rewrite IH, length_insert. Qed.

(** The last pointer of a level counts. *)
Lemma pointers_same (l : list (Z * bytes)) (ps ps' : list bytes) i :
  length ps = length ps' -> (i ∈ (fun p => Z.to_nat p.1) <$> l) \/ ps !! i = ps' !! i ->
  foldl (fun ps p => <[Z.to_nat p.1 := p.2]> ps) ps l !! i = foldl (fun ps p => <[Z.to_nat p.1 := p.2]> ps) ps' l !! i.
Proof.
  intros Hlen. induction l as [|p l IH] using rev_ind; intros Hi; [by destruct Hi as [?%elem_of_nil|]|].
  rewrite !foldl_app. cbn [foldl]. destruct (decide (i = Z.to_nat p.1)) as [->|Hne].
  - destruct (decide (Z.to_nat p.1 < length ps)%nat).
    + rewrite !list_lookup_insert_eq by (rewrite put_length; lia). done.
    + rewrite !lookup_ge_None_2 by (rewrite length_insert, put_length; lia). done.
  - rewrite !list_lookup_insert_ne by done. apply IH. destruct Hi as [Hi|Hi]; [|by right]. left.
    rewrite fmap_app in Hi. apply elem_of_app in Hi as [Hi|Hi]; [done|]. by apply list_elem_of_singleton in Hi.
Qed.

Lemma pointers_twice edit ps : pointers_after edit (pointers_after edit ps) = pointers_after edit ps.
Proof.
  unfold pointers_after. set (l := compact_pointers_ edit). apply list_eq. intros i.
  destruct (decide (i ∈ (fun p => Z.to_nat p.1) <$> l)) as [Hi|Hi].
  - apply pointers_same; [apply put_length|by left].
  - assert (Hno : forall k : list bytes, foldl (fun ps p => <[Z.to_nat p.1 := p.2]> ps) k l !! i = k !! i).
    { clearbody l. clear -Hi. induction l as [|p l IH]; intros k; cbn [foldl]; [done|].
      rewrite fmap_cons in Hi. apply not_elem_of_cons in Hi as [Hne Hi]. rewrite IH by done. by apply list_lookup_insert_ne. }
    by rewrite !Hno.
Qed.

(** ** The set of versions and its manifest, after [LogAndApply] *)

Definition with_pointers (ps : list bytes) vs : VersionSet F :=
  mkVersionSet (vs_next_file_number vs) (manifest_file_number_ vs) (vs_last_sequence vs) (vs_log_number vs)
    (vs_prev_log_number vs) (descriptor_log_ vs) (current_ vs) ps.

(** The edits before that of [LogAndApply]: the pointers of a snapshot are
    those after the edit. *)
Definition edits_before vs edit es : list VersionEdit :=
  match descriptor_log_ vs with
  | Some _ => es
  | None => [snapshot_edit icmp (with_pointers (pointers_after edit (compact_pointer_ vs)) vs)]
  end.

Lemma set_recorded vs edit es :
  set_ok vs es -> edit_good edit ->
  exists ps, recorded (edits_before vs edit es) (files_ (current_ vs)) ps /\ pointers_after edit ps = pointers_after edit (compact_pointer_ vs).
Proof.
  intros [Hl [Hp Hpo] _ _ Hlog] Hg. unfold edits_before. destruct (descriptor_log_ vs); [by eexists; split; [apply Hlog|]|].
  exists (pointers_after edit (compact_pointer_ vs)). split; [|apply pointers_twice].
  apply (snapshot_recorded (with_pointers (pointers_after edit (compact_pointer_ vs)) vs));
    [done|by apply pointers_after_seven|by apply pointers_after_ok].
Qed.

Definition manifest_path vs : bytes := dbname ++ str "/" ++ manifest_name (manifest_file_number_ vs).

Lemma write_edit_ok edit log rs :
  edit_good edit -> log_holds log rs ->
  exists log', write_edit addr edit log = Ok (true, log') /\ log_holds log' (rs ++ [edit_bytes edit]).
Proof.
  intros Hg Hl. unfold write_edit. rewrite (edit_encodes c) by done. cbn [mbind outcome_bind].
  destruct (AddRecord_holds kLittleEndian addr log rs (edit_bytes edit) Hl) as (log1 & b & off & -> & Hl1 & _ & _). cbn [mbind outcome_bind].
  destruct (env_Sync_ok (dest_ log1)) as (f & -> & Hf). eexists. split; [done|]. destruct Hl1 as [[Hb Hc] Hlay].
  split; [by split|]. cbn. by rewrite Hf.
Qed.

(** A manifest to write to: the one there is, or a new one with a snapshot. *)
Lemma open_descriptor_ok vs edit es e :
  set_ok vs es -> edit_good edit ->
  exists log e', let nm := match descriptor_log_ vs with Some _ => None | None => Some (dbname ++ str "/MANIFEST-" ++ pad6 (manifest_file_number_ vs)) end in
    open_descriptor icmp addr dbname (with_pointers (pointers_after edit (compact_pointer_ vs)) vs) e = Ok (true, Some log, nm, e') /\
    log_holds log (edit_bytes <$> edits_before vs edit es) /\ (descriptor_log_ vs <> None -> e' = e).
Proof.
  intros [Hl [Hp Hpo] _ Hm Hlog] Hg. unfold open_descriptor, edits_before. cbn [with_pointers descriptor_log_ manifest_file_number_].
  destruct (descriptor_log_ vs) as [log|] eqn:Ed.
  - exists log, e. split; [done|]. split; [apply Hlog|done].
  - unfold DescriptorFileName. rewrite bind_assert by (by apply Z.ltb_lt). cbn [mbind outcome_bind].
    destruct (NewWritableFile_ok e (dbname ++ str "/MANIFEST-" ++ pad6 (manifest_file_number_ vs))) as (f & e1 & Enew & Hf & He1). rewrite Enew.
    set (vs1 := with_pointers _ vs). assert (Hs : edit_good (snapshot_edit icmp vs1)).
    { apply snapshot_good; [done|by apply pointers_after_seven|by apply pointers_after_ok]. }
    unfold WriteSnapshot. rewrite (edit_encodes c) by done. cbn [mbind outcome_bind].
    destruct (AddRecord_holds kLittleEndian addr (Writer_new addr f) [] (edit_bytes (snapshot_edit icmp vs1)) (log_holds_new addr f Hf))
      as (log & b & off & -> & Hl1 & _ & _). cbn [mbind outcome_bind]. exists log, e1. split; [done|]. split; [done|]. done.
Qed.

(** The edit is applied and written. *)
Record applied_to vs es edit (e : E) vs' (e' : E) (log : Writer F) : Prop := {
  at_set : set_ok vs' (edits_before vs edit es ++ [completed vs edit]);
  at_log : descriptor_log_ vs' = Some log;
  at_levels : levels_after edit (files_ (current_ vs)) (files_ (current_ vs'));
  at_pointers : compact_pointer_ vs' = pointers_after edit (compact_pointer_ vs);
  at_numbers : vs_log_number vs' = log_number_ (completed vs edit) /\ vs_prev_log_number vs' = ve_prev_log_number (completed vs edit) /\
    vs_next_file_number vs' = vs_next_file_number vs /\ vs_last_sequence vs' = vs_last_sequence vs /\
    manifest_file_number_ vs' = manifest_file_number_ vs;
  at_current : match descriptor_log_ vs with
    | Some _ => e' = e
    | None => file_of e' (CurrentFileName dbname) = Some (manifest_name (manifest_file_number_ vs) ++ [chr 10])
    end
}.

Lemma LogAndApply_ok edit vs es e :
  set_ok vs es -> edit_good edit -> log_number_fits vs edit -> fresh_in (edits_before vs edit es) edit -> edit_apart (files_ (current_ vs)) edit ->
  exists vs' e' log, LogAndApply icmp addr dbname edit vs e = Ok (true, completed vs edit, vs', e') /\ applied_to vs es edit e vs' e' log.
Proof.
  intros Hok Hg Hfit Hfresh Hap. destruct (set_recorded vs edit es Hok Hg) as (ps & Hrec & Eps). pose proof Hok as [Hl [Hp Hpo] Hn Hm Hlog].
  unfold LogAndApply. rewrite complete_edit_ok by done. cbn [mbind outcome_bind]. set (edit' := completed vs edit).
  assert (Hg' : edit_good edit') by by apply completed_good.
  destruct (edit_version c (current_ vs) edit' (compact_pointer_ vs) Hl Hp Hg') as (b & v & -> & Es & Hlv & Hafter);
    [by eapply (recorded_fresh c (edits_before vs edit es))|exact Hap|]. cbn [mbind outcome_bind]. rewrite Es. cbn [mbind outcome_bind].
  change (mkVersionSet (vs_next_file_number vs) (manifest_file_number_ vs) (vs_last_sequence vs) (vs_log_number vs)
    (vs_prev_log_number vs) (descriptor_log_ vs) (current_ vs) (pointers_after edit' (compact_pointer_ vs))) with (with_pointers (pointers_after edit (compact_pointer_ vs)) vs).
  destruct (open_descriptor_ok vs edit es e Hok Hg) as (log & e1 & -> & Hlog1 & He1). cbn [mbind outcome_bind].
  destruct (write_edit_ok edit' log _ Hg' Hlog1) as (log' & -> & Hlog2). cbn [mbind outcome_bind andb].
  assert (Hrec' : recorded (edits_before vs edit es ++ [edit']) (files_ v) (pointers_after edit (compact_pointer_ vs))).
  { rewrite <- Eps. by apply (recorded_step c _ (files_ (current_ vs)) ps edit'). }
  assert (Hset : forall nlog, set_ok (mkVersionSet (vs_next_file_number vs) (manifest_file_number_ vs) (vs_last_sequence vs)
      (log_number_ edit') (ve_prev_log_number edit') (Some nlog) v (pointers_after edit (compact_pointer_ vs))) (edits_before vs edit es ++ [edit']) <->
      log_holds nlog (edit_bytes <$> (edits_before vs edit es ++ [edit']))).
  { intros nlog. split; [by intros [_ _ _ _ [? _]]|]. intros Hh. split; cbn; [done| | |done|done].
    - split; [by apply pointers_after_seven|by apply pointers_after_ok].
    - destruct Hn as [Hn1 Hn2 Hn3 Hn4]. destruct Hg' as [Hok' _ _ _]. unfold edit_ok, fields in Hok'. rewrite !Forall_app in Hok'.
      destruct Hok' as (_ & Hf1 & Hf2 & _). split; [done|done|exact (optional_ok _ _ Hf1 eq_refl)|exact (optional_ok _ _ Hf2 eq_refl)]. }
  assert (Hh : log_holds log' (edit_bytes <$> (edits_before vs edit es ++ [edit']))) by by rewrite fmap_app.
  destruct (descriptor_log_ vs) as [log0|] eqn:Ed.
  - rewrite bool_decide_eq_false_2 by (by intros [? ?]). cbn [mbind outcome_bind]. do 3 eexists. split; [done|].
    split; cbn; try done; [by apply Hset|rewrite Ed; by apply He1].
  - rewrite bool_decide_eq_true_2 by by eexists. destruct (SetCurrentFile_ok e1 dbname (manifest_file_number_ vs) Hm) as (e2 & Ecur & Hcur & _).
    cbn [with_pointers manifest_file_number_]. rewrite Ecur. cbn [mbind outcome_bind]. do 3 eexists. split; [done|].
    split; cbn; try done; [by apply Hset|by rewrite Ed].
Qed.

(** ** Recovery *)

Lemma length_concat_in {A} (x : list A) (ls : list (list A)) : x ∈ ls -> (length x <= length (concat ls))%nat.
Proof.
  induction ls as [|l ls IH]; [by intros ?%elem_of_nil|]. cbn [concat]. rewrite length_app.
  intros [->|Hx]%elem_of_cons; [lia|]. specialize (IH Hx). lia.
Qed.

Lemma recover_edits_ok es : forall off bs off1 fuel rfuel (r : Reader G) x x',
  log_layout off (edit_bytes <$> es) bs off1 -> Forall edit_good es -> replay c x es x' ->
  at_ off bs r -> 0 <= last_record_offset_ r -> (length es < fuel)%nat ->
  (forall q, q ∈ edit_bytes <$> es -> (length q + 2 < rfuel)%nat) -> (0 < rfuel)%nat ->
  recover_edits icmp addr fuel rfuel r Status_ok x = Ok (Status_ok, x').
Proof.
  assert (Hreport : forall r r1 : Reader G, dropped r1 = dropped r -> report_to Status_ok (dropped r) (dropped r1) = Status_ok).
  { intros r r1 ->. unfold report_to. by rewrite drop_all. }
  induction es as [|edit es IH]; intros off bs off1 [|fuel] rfuel r x x' Hlay Hg Hr Hat Hlast Hf Hrf Hpos; cbn [length] in Hf; try lia;
    cbn [recover_edits fmap list_fmap] in *; inversion Hlay as [|? q bq off' rs bs' ? Hfr Hlay']; subst.
  - destruct (read_last kLittleEndian addr _ _ _ Hat Hlast Hpos) as (r' & -> & Hd). cbn [mbind outcome_bind].
    rewrite Hreport by done. cbn in Hr. by subst x'.
  - destruct (read_next kLittleEndian addr _ _ _ _ bs' rfuel r Hfr Hat Hlast) as (r1 & -> & Hat1 & Hd & Hlast1); [apply Hrf; by left|].
    cbn [mbind outcome_bind]. rewrite Hreport by done. cbn [ok]. apply Forall_cons in Hg as [He Hg].
    rewrite (edit_decodes c) by done. cbn [mbind outcome_bind]. cbn [replay] in Hr. destruct Hr as (x1 & -> & Hr). cbn [mbind outcome_bind].
    eapply (IH off' bs'); try done; [lia|]. intros q Hq. apply Hrf. by right.
Qed.

(** The edit has all numbers. *)
Definition complete edit : Prop :=
  has_log_number_ edit = true /\ has_prev_log_number_ edit = true /\ has_next_file_number_ edit = true /\ has_last_sequence_ edit = true.

Lemma Recover_ok es last_edit levels ps n bs off e fuel rfuel :
  recorded es levels ps -> levels_wf levels -> last es = Some last_edit -> complete last_edit ->
  log_layout 0 (edit_bytes <$> es) bs off ->
  file_of e (CurrentFileName dbname) = Some (manifest_name n ++ [chr 10]) ->
  file_of e (dbname ++ str "/" ++ manifest_name n) = Some bs ->
  (length es < fuel)%nat -> (length (manifest_name n) + 1 < fuel)%nat ->
  (forall q, q ∈ edit_bytes <$> es -> (length q + 2 < rfuel)%nat) -> (0 < rfuel)%nat ->
  Recover icmp addr dbname fuel rfuel e VersionSet_new =
    Ok (Status_ok, mkVersionSet (F := F) (u64 (ve_next_file_number last_edit + 1)) (ve_next_file_number last_edit) (ve_last_sequence last_edit)
      (log_number_ last_edit) (ve_prev_log_number last_edit) None (mkVersion levels) ps).
Proof.
  intros (Hg & Hps & x & Hr & Hb & Ep & Hlast) Hwf Hle (Hc1 & Hc2 & Hc3 & Hc4) Hlay Hcur Hman Hf1 Hf2 Hrf Hpos. unfold Recover.
  rewrite (ReadFileToString_ok e _ _ fuel Hcur) by (rewrite length_app; cbn [length]; lia). cbn [mbind outcome_bind negb].
  rewrite last_snoc, bool_decide_eq_true_2 by done.
  assert (Hl : lengthZ (manifest_name n ++ [chr 10]) = lengthZ (manifest_name n) + 1) by by rewrite lengthZ_app.
  pose proof (lengthZ_nonneg (manifest_name n)). rewrite Hl, (proj2 (Z.eqb_neq _ 0)) by lia. cbn [orb negb].
  replace (lengthZ (manifest_name n) + 1 - 1) with (lengthZ (manifest_name n)) by lia. rewrite takeZ_app_exact by done.
  destruct (NewSequentialFile_ok e _ _ Hman) as (g & -> & Hrem). cbn [VersionSet_new current_ compact_pointer_].
  apply layout_block_start in Hlay as (off' & Hlay & _).
  change (mkRecovering None None None None (Builder_new Version_new) (replicate (Z.to_nat kNumLevels) [])) with recovering.
  rewrite (recover_edits_ok es _ bs _ fuel rfuel (Reader_new g true true 0) _ x Hlay Hg Hr);
    [|rewrite <- Hrem; apply Reader_new_at|done..].
  cbn [mbind outcome_bind]. destruct (Hlast last_edit Hle) as (x0 & N1 & N2 & N3 & N4). unfold recovered_numbers. cbn [ok].
  rewrite N1, N2, N3, N4, Hc1, Hc2, Hc3, Hc4. cbn [set_if number_or_0 ok].
  rewrite (built_version c Version_new es (rv_builder x) (mkVersion levels)); [|apply levels_wf_new|done|done].
  cbn [mbind outcome_bind descriptor_log_]. by rewrite Ep.
Qed.
End manifest.
