(* ===== verification/OverlapSpec.v ===== *)
(** * LevelDB: the files of a level that overlap a range
      ([Version::GetOverlappingInputs])

    At level 0 a file that is found widens the range and the search starts
    again; [overlap_loop_ok] shows that this ends, and what it ends with. *)

From S2P Require Import Prelude.
From S2P Require Import Bytes.
From S2P Require Import Comparator.
From S2P Require Import DbFormat.
From S2P Require Import VersionEdit.
From S2P Require Import MemTableSpec.
From S2P Require Import Version.
From S2P Require Import VersionSpec.
From stdpp Require Import base tactics numbers list strings.
From Stdlib Require Import Ascii ZArith Lia.

Open Scope Z_scope.

Lemma filter_length_le {A} (p q : A -> bool) l : (forall x, p x = true -> q x = true) -> (length (List.filter p l) <= length (List.filter q l))%nat.
Proof.
  intros Hpq. induction l as [|x l IH]; [done|]. cbn [List.filter]. destruct (p x) eqn:Ep; [rewrite (Hpq x Ep); cbn; lia|].
  destruct (q x); cbn; lia.
Qed.

Lemma filter_length_lt {A} (p q : A -> bool) l y :
  (forall x, p x = true -> q x = true) -> y ∈ l -> q y = true -> p y = false -> (length (List.filter p l) < length (List.filter q l))%nat.
Proof.
  intros Hpq Hy Hq Hp. induction l as [|x l IH]; [by apply elem_of_nil in Hy|]. cbn [List.filter].
  apply elem_of_cons in Hy as [->|Hy].
  - rewrite Hp, Hq. cbn. pose proof (filter_length_le p q l Hpq). lia.
  - specialize (IH Hy). destruct (p x) eqn:Ep; [rewrite (Hpq x Ep); cbn; lia|]. destruct (q x); cbn; lia.
Qed.

Section spec.
Context {platform : Platform} {C : Type} `{Comparator C} (c : C) `{!ComparatorLaws C c}.
Notation icmp := (mkInternalKeyComparator c).
Notation uorder := (key_order (c := c)).
Notation file_keys_ok := (file_keys_ok c).
Notation bound_valid := (bound_valid c).
Implicit Types f : FileMetaData.
Implicit Types files : list FileMetaData.
Implicit Types b e : option bytes.

(** A file and a range: wholly before it, wholly behind it, beginning before
    it, ending behind it. *)
Definition is_before f b : bool := match b with Some u => uorder (user_part (f_largest f)) u <? 0 | None => false end.
Definition is_after f e : bool := match e with Some u => 0 <? uorder (user_part (f_smallest f)) u | None => false end.
Definition is_below f b : bool := match b with Some u => uorder (user_part (f_smallest f)) u <? 0 | None => false end.
Definition is_above f e : bool := match e with Some u => 0 <? uorder (user_part (f_largest f)) u | None => false end.
Definition overlap_b b e f : bool := negb (is_before f b) && negb (is_after f e).

Lemma compare_bound u k (p : Z -> bool) : bound_valid u -> key_valid (c := c) k ->
  (match u with Some x => r ← Compare c k x; Ok (p r) | None => Ok false end) =
    Ok (match u with Some x => p (uorder k x) | None => false end).
Proof. intros Hu Hk. destruct u as [x|]; [|done]. by rewrite Compare_valid by (done || by apply Hu). Qed.

Lemma overlap_step fuel level all f rest b e inputs :
  file_keys_ok f -> bound_valid b -> bound_valid e ->
  overlap_loop icmp (S fuel) level all (f :: rest) b e inputs =
    if overlap_b b e f then
      if level =? 0 then
        if is_below f b then overlap_loop icmp fuel level all all (Some (user_part (f_smallest f))) e []
        else if is_above f e then overlap_loop icmp fuel level all all b (Some (user_part (f_largest f))) []
        else overlap_loop icmp fuel level all rest b e (inputs ++ [f])
      else overlap_loop icmp fuel level all rest b e (inputs ++ [f])
    else overlap_loop icmp fuel level all rest b e inputs.
Proof.
  intros ([Hs Vs] & [Hl Vl] & _) Hb He. cbn [overlap_loop]. rewrite !ExtractUserKey_ok by done. cbn [mbind outcome_bind user_comparator].
  rewrite (compare_bound b (user_part (f_largest f)) (fun r => r <? 0)) by done. cbn [mbind outcome_bind].
  unfold overlap_b. fold (is_before f b). destruct (is_before f b); [done|].
  rewrite (compare_bound e (user_part (f_smallest f)) (fun r => 0 <? r)) by done. cbn [mbind outcome_bind].
  fold (is_after f e). destruct (is_after f e); [done|]. cbn [negb andb]. destruct (level =? 0); [|done].
  rewrite (compare_bound b (user_part (f_smallest f)) (fun r => r <? 0)) by done. cbn [mbind outcome_bind].
  fold (is_below f b). destruct (is_below f b); [done|].
  rewrite (compare_bound e (user_part (f_largest f)) (fun r => 0 <? r)) by done. cbn [mbind outcome_bind].
  fold (is_above f e). by destruct (is_above f e).
Qed.

(** Bounds of a range that includes another. *)
Definition lower b' b : Prop := match b', b with Some u', Some u => uorder u' u <= 0 | None, None => True | _, _ => False end.
Definition higher e' e : Prop := match e', e with Some u', Some u => uorder u u' <= 0 | None, None => True | _, _ => False end.

Lemma lower_refl b : lower b b.
Proof. destruct b; [|done]. cbn. by rewrite cmp_refl. Qed.
Lemma higher_refl e : higher e e.
Proof. destruct e; [|done]. cbn. by rewrite cmp_refl. Qed.
Lemma lower_trans b1 b2 b3 : lower b1 b2 -> lower b2 b3 -> lower b1 b3.
Proof. destruct b1, b2, b3; cbn; try done. by apply (cmp_trans (cmp := uorder)). Qed.
Lemma higher_trans b1 b2 b3 : higher b1 b2 -> higher b2 b3 -> higher b1 b3.
Proof. destruct b1, b2, b3; cbn; try done. intros H1 H2. by eapply (cmp_trans (cmp := uorder)). Qed.

(** How often the range can still be widened. *)
Definition widenings all b e : nat := length (List.filter (fun f => is_below f b) all) + length (List.filter (fun f => is_above f e) all).

Lemma below_widens all f b e : f ∈ all -> is_below f b = true ->
  (widenings all (Some (user_part (f_smallest f))) e < widenings all b e)%nat /\ lower (Some (user_part (f_smallest f))) b.
Proof.
  intros Hf Hb. unfold widenings, is_below in *. destruct b as [u|]; [|done]. apply Z.ltb_lt in Hb. split; [|cbn; lia].
  apply Nat.add_lt_mono_r. apply filter_length_lt with f; [|done|by apply Z.ltb_lt|by rewrite cmp_refl].
  intros x. rewrite !Z.ltb_lt. intros Hx. by eapply (cmp_lt_trans (cmp := uorder)).
Qed.

Lemma above_widens all f b e : f ∈ all -> is_above f e = true ->
  (widenings all b (Some (user_part (f_largest f))) < widenings all b e)%nat /\ higher (Some (user_part (f_largest f))) e.
Proof.
  intros Hf He. unfold widenings, is_above in *. destruct e as [u|]; [|done]. apply Z.ltb_lt in He. split; [|cbn; apply cmp_le_ge; lia].
  apply Nat.add_lt_mono_l. apply filter_length_lt with f; [|done|by apply Z.ltb_lt|by rewrite cmp_refl].
  intros x. rewrite !Z.ltb_lt. intros Hx. apply cmp_lt_gt in He, Hx. apply cmp_lt_gt. by eapply (cmp_lt_trans (cmp := uorder)).
Qed.

(** What is found, for a range that includes the one asked for: the files that
    overlap it, and at level 0 none of them goes beyond it. *)
Definition overlap_result (level : Z) all b e b' e' (inputs : list FileMetaData) : Prop :=
  lower b' b /\ higher e' e /\ inputs = List.filter (overlap_b b' e') all /\
  if level =? 0 then Forall (fun f => is_below f b' = false /\ is_above f e' = false) inputs else b' = b /\ e' = e.

Lemma overlap_loop_ok level all fuel : forall done_ rest b e inputs,
  Forall file_keys_ok all -> bound_valid b -> bound_valid e -> all = done_ ++ rest -> inputs = List.filter (overlap_b b e) done_ ->
  (level = 0 -> Forall (fun f => is_below f b = false /\ is_above f e = false) inputs) ->
  (widenings all b e * S (length all) + length rest < fuel)%nat ->
  exists inputs' b' e', overlap_loop icmp fuel level all rest b e inputs = Ok inputs' /\ overlap_result level all b e b' e' inputs'.
Proof.
  induction fuel as [|fuel IH]; intros done_ rest b e inputs Hk Hb He Hall Hin Hclosed Hfuel; [lia|].
  destruct rest as [|f rest].
  { rewrite app_nil_r in Hall. subst done_. exists inputs, b, e. split; [done|]. split; [apply lower_refl|]. split; [apply higher_refl|]. split; [done|].
    destruct (Z.eqb_spec level 0); [by apply Hclosed|done]. }
  assert (Hf : f ∈ all) by (rewrite Hall; apply elem_of_app; right; by left).
  assert (Hfk : file_keys_ok f) by (rewrite Forall_forall in Hk; by apply Hk).
  assert (Hnext : all = (done_ ++ [f]) ++ rest) by (by rewrite <- app_assoc).
  cbn [length] in Hfuel. rewrite overlap_step by done. destruct (overlap_b b e f) eqn:Eo.
  - assert (Hpush : inputs ++ [f] = List.filter (overlap_b b e) (done_ ++ [f])) by (rewrite List.filter_app, <- Hin; cbn; by rewrite Eo).
    destruct (Z.eqb_spec level 0) as [El|El]; [|apply (IH (done_ ++ [f])); try done; lia].
    destruct (is_below f b) eqn:Eb.
    { destruct (below_widens all f b e Hf Eb) as [Hw Hlo]. destruct (IH [] all (Some (user_part (f_smallest f))) e []) as (i & b' & e' & Ei & Hl & Hh & Hr);
        [done|by intros u [= <-]; apply Hfk|done|done|done|done|nia|]. exists i, b', e'. subst level. split; [done|]. split; [by eapply lower_trans|done]. }
    destruct (is_above f e) eqn:Ea.
    { destruct (above_widens all f b e Hf Ea) as [Hw Hhi]. destruct (IH [] all b (Some (user_part (f_largest f))) []) as (i & b' & e' & Ei & Hl & Hh & Hr);
        [done|done|by intros u [= <-]; apply Hfk|done|done|done|nia|]. exists i, b', e'. subst level. split; [done|]. split; [done|]. split; [by eapply higher_trans|exact Hr]. }
    apply (IH (done_ ++ [f])); try done; [|lia]. intros _. apply Forall_app. split; [by apply Hclosed|]. by constructor.
  - apply (IH (done_ ++ [f])); try done; [|lia]. rewrite List.filter_app, <- Hin. cbn. by rewrite Eo, app_nil_r.
Qed.

Lemma widenings_bound all b e : (widenings all b e <= 2 * length all)%nat.
Proof. unfold widenings. pose proof (List.filter_length_le (fun f => is_below f b) all). pose proof (List.filter_length_le (fun f => is_above f e) all). lia. Qed.

(** The user key of a bound. *)
Definition user_bound (k : option bytes) : option bytes := user_part <$> k.

Lemma GetOverlappingInputs_ok v level files (begin_key end_key : option bytes) :
  0 <= level < kNumLevels -> nthZ (files_ v) level = Some files -> Forall file_keys_ok files ->
  (forall k, begin_key = Some k -> internal_valid c k) -> (forall k, end_key = Some k -> internal_valid c k) ->
  exists inputs b' e', GetOverlappingInputs icmp v level begin_key end_key = Ok inputs /\
    overlap_result level files (user_bound begin_key) (user_bound end_key) b' e' inputs.
Proof.
  intros Hlev Hfiles Hk Hb He. unfold GetOverlappingInputs, level_files. rewrite !bind_assert by (apply Z.leb_le || apply Z.ltb_lt; lia).
  assert (Hbound : forall k, (forall x, k = Some x -> internal_valid c x) ->
    (match k with Some k => u ← ExtractUserKey k; Ok (Some u) | None => Ok None end) = Ok (user_bound k) /\ bound_valid (user_bound k)).
  { intros [k|] Hv; [|by split]. destruct (Hv k eq_refl) as [H8 Vk]. rewrite ExtractUserKey_ok by done. split; [done|]. by intros u [= <-]. }
  destruct (Hbound begin_key Hb) as [-> Vb]. destruct (Hbound end_key He) as [-> Ve]. cbn [mbind outcome_bind].
  rewrite Hfiles. cbn [in_bounds mbind outcome_bind]. apply (overlap_loop_ok level files _ []); try done.
  unfold overlap_fuel. pose proof (widenings_bound files (user_bound begin_key) (user_bound end_key)). nia.
Qed.

(** ** The level of a new table ([Version::PickLevelForMemTableOutput]) *)

(** Every level has its files, with bounds, and only the first may have files
    that overlap. *)
Definition levels_bounded v : Prop :=
  forall level, 0 <= level < kNumLevels -> exists files, nthZ (files_ v) level = Some files /\
    Forall (file_bounds_ok c) files /\ lengthZ files < 2 ^ 31 /\ (0 < level -> files_disjoint c files).

Definition level_free v lo hi (level : Z) : Prop :=
  forall files, nthZ (files_ v) level = Some files -> ~ Exists (fun f => file_overlaps c f (Some lo) (Some hi)) files.

Lemma OverlapInLevel_ok v level lo hi : levels_bounded v -> 0 <= level < kNumLevels -> bound_valid lo -> bound_valid hi ->
  exists (b : bool) files, nthZ (files_ v) level = Some files /\ OverlapInLevel icmp v level lo hi = Ok b /\
    (b = true <-> Exists (fun f => file_overlaps c f lo hi) files).
Proof.
  intros Hv Hl Hlo Hhi. destruct (Hv level Hl) as (files & E & Hf & Hsz & Hd).
  destruct (SomeFileOverlapsRange_ok c (0 <? level) files lo hi Hf Hsz) as (b & Eb & Hb); [|done..|].
  { intros Hlt%Z.ltb_lt. by apply Hd. }
  exists b, files. split; [done|]. split; [|done]. unfold OverlapInLevel, level_files. by rewrite E.
Qed.

Lemma level_free_test v level lo hi : levels_bounded v -> 0 <= level < kNumLevels -> key_valid (c := c) lo -> key_valid (c := c) hi ->
  exists b : bool, OverlapInLevel icmp v level (Some lo) (Some hi) = Ok b /\ (b = false <-> level_free v lo hi level).
Proof.
  intros Hv Hl Hlo Hhi. destruct (OverlapInLevel_ok v level (Some lo) (Some hi) Hv Hl) as (b & files & E & Eb & Hb);
    [by intros u [= <-]|by intros u [= <-]|].
  exists b. split; [done|]. unfold level_free. rewrite E. split.
  - intros -> files' [= <-] Hx%Hb. done.
  - intros Hn. destruct b; [|done]. exfalso. by apply (Hn files eq_refl), Hb.
Qed.

Lemma pick_loop_ok v lo hi start limit fuel : forall level,
  levels_bounded v -> key_valid (c := c) lo -> key_valid (c := c) hi -> internal_valid c start -> internal_valid c limit ->
  0 <= level <= kMaxMemCompactLevel -> (Z.to_nat (kMaxMemCompactLevel - level) < fuel)%nat -> level_free v lo hi level ->
  exists level', pick_loop icmp fuel v lo hi start limit level = Ok level' /\ level <= level' <= kMaxMemCompactLevel /\
    forall l, level <= l <= level' -> level_free v lo hi l.
Proof.
  unfold kMaxMemCompactLevel. induction fuel as [|fuel IH]; intros level Hv Hlo Hhi Hs Hl Hlev Hfuel Hfree; [lia|]. cbn [pick_loop].
  assert (Hstop : exists level', Ok level = Ok level' /\ level <= level' <= 2 /\ forall l, level <= l <= level' -> level_free v lo hi l).
  { exists level. split; [done|]. split; [lia|]. intros l Hll. by assert (l = level) as -> by lia. }
  unfold kMaxMemCompactLevel. destruct (Z.ltb_spec level 2); [|done].
  destruct (level_free_test v (level + 1) lo hi Hv ltac:(unfold kNumLevels; lia) Hlo Hhi) as (b & -> & Hb). cbn [mbind outcome_bind].
  destruct b; [done|]. unfold kNumLevels. rewrite (proj2 (Z.ltb_lt (level + 2) 7)) by lia.
  destruct (Hv (level + 2) ltac:(unfold kNumLevels; lia)) as (files & E & Hf & _).
  destruct (GetOverlappingInputs_ok v (level + 2) files (Some start) (Some limit)) as (inputs & ? & ? & -> & _);
    [unfold kNumLevels; lia|done|by eapply Forall_impl; [exact Hf|intros f []]|by intros k [= <-]|by intros k [= <-]|].
  cbn [mbind outcome_bind]. destruct (kMaxGrandParentOverlapBytes <? TotalFileSize inputs); [done|].
  destruct (IH (level + 1)) as (level' & -> & Hl' & Hf'); [done..|lia|lia|by apply Hb|].
  exists level'. split; [done|]. split; [lia|]. intros l Hll. destruct (decide (l = level)) as [->|]; [done|]. apply Hf'. lia.
Qed.

Lemma PickLevel_ok v lo hi :
  levels_bounded v -> key_valid (c := c) lo -> key_valid (c := c) hi ->
  exists level, PickLevelForMemTableOutput icmp v lo hi = Ok level /\ 0 <= level <= kMaxMemCompactLevel /\
    (0 < level -> forall l, 0 <= l <= level -> level_free v lo hi l).
Proof.
  intros Hv Hlo Hhi. unfold PickLevelForMemTableOutput.
  destruct (level_free_test v 0 lo hi Hv ltac:(by split) Hlo Hhi) as (b & -> & Hb). cbn [mbind outcome_bind].
  destruct b; [exists 0; by split_and!|]. rewrite !AppendInternalKey_ok by (apply max_sequence_ok || done). cbn [mbind outcome_bind app].
  destruct (pick_loop_ok v lo hi (internal_key lo kMaxSequenceNumber kValueTypeForSeek) (internal_key hi 0 kTypeDeletion) 3 0 Hv Hlo Hhi)
    as (level & -> & Hl & Hf);
    [by apply internal_key_valid|by apply (internal_key_valid c hi 0 kTypeDeletion)|done|unfold kMaxMemCompactLevel; lia|by apply Hb|].
  exists level. split; [done|]; split; [exact Hl|]; by intros _.
Qed.
End spec.
