(* ===== verification/DbImpl.v ===== *)
(** * LevelDB: the write path and recovery (lib/leveldb/db/db_impl.cc)

    Writers queue up; the one at the front makes room, logs the batches of a
    group of writers as one record and puts them in the memory table.  [Get]
    looks in the tables in memory, then in the files of the current version,
    which are a parameter.  What the background thread does while the mutex is
    released is a list of its steps. *)

From S2P Require Import Prelude.
From S2P Require Import Bytes.
From S2P Require Import Coding.
From S2P Require Import Comparator.
From S2P Require Import DbFormat.
From S2P Require Import Arena.
From S2P Require Import Log.
From S2P Require Import WriteBatch.
From S2P Require Import MemTable.
From stdpp Require Import base tactics numbers list strings.
From Stdlib Require Import Ascii ZArith Lia.

Open Scope Z_scope.

(** [WritableFile::Sync] and the opening of a log file. *)
Class LogFiles (F : Type) := {
  Sync : F -> bool * F;
  NewLogFile : Z -> option F
}.

(** A writer in the queue; a batch of NULL asks for a compaction. *)
Record BatchWriter : Type := mkBatchWriter { bw_batch : option WriteBatch; bw_sync : bool }.

(** The fields of [DBImpl] and of its [VersionSet] the write path uses. *)
Record DBImpl (F : Type) : Type := mkDBImpl
  { db_mem : MemTable; db_imm : option MemTable; db_log : Writer F; logfile_number_ : Z;
    tmp_batch_ : WriteBatch; bg_error_ : Status;
    last_sequence_ : Z; next_file_number_ : Z; prev_log_number_ : Z }.
Arguments mkDBImpl {F} _ _ _ _ _ _ _ _ _.
Arguments db_mem {F} _.
Arguments db_imm {F} _.
Arguments db_log {F} _.
Arguments logfile_number_ {F} _.
Arguments tmp_batch_ {F} _.
Arguments bg_error_ {F} _.
Arguments last_sequence_ {F} _.
Arguments next_file_number_ {F} _.
Arguments prev_log_number_ {F} _.

Definition kL0_SlowdownWritesTrigger : Z := 8.
Definition kL0_StopWritesTrigger : Z := 12.

Section DBImpl.
Context {platform : Platform} {C : Type} `{Comparator C} (icmp : InternalKeyComparator C).
Context (base : nat -> Z) (addr : bytes -> Z).
Context {F : Type} `{WritableFile F} `{LogFiles F}.
Implicit Types db : DBImpl F.

Definition with_mem (m : MemTable) db : DBImpl F :=
  mkDBImpl m (db_imm db) (db_log db) (logfile_number_ db) (tmp_batch_ db) (bg_error_ db)
    (last_sequence_ db) (next_file_number_ db) (prev_log_number_ db).
Definition with_log (l : Writer F) db : DBImpl F :=
  mkDBImpl (db_mem db) (db_imm db) l (logfile_number_ db) (tmp_batch_ db) (bg_error_ db)
    (last_sequence_ db) (next_file_number_ db) (prev_log_number_ db).
Definition with_tmp (b : WriteBatch) db : DBImpl F :=
  mkDBImpl (db_mem db) (db_imm db) (db_log db) (logfile_number_ db) b (bg_error_ db)
    (last_sequence_ db) (next_file_number_ db) (prev_log_number_ db).
Definition with_files (n : Z) db : DBImpl F :=
  mkDBImpl (db_mem db) (db_imm db) (db_log db) (logfile_number_ db) (tmp_batch_ db) (bg_error_ db)
    (last_sequence_ db) n (prev_log_number_ db).

Definition SetLastSequence (s : Z) db : outcome (DBImpl F) :=
  _ ← assert_ (last_sequence_ db <=? s);
  Ok (mkDBImpl (db_mem db) (db_imm db) (db_log db) (logfile_number_ db) (tmp_batch_ db) (bg_error_ db)
        s (next_file_number_ db) (prev_log_number_ db)).

(** The first error stays. *)
Definition RecordBackgroundError (s : Status) db : DBImpl F :=
  if decide (bg_error_ db = Status_ok) then
    mkDBImpl (db_mem db) (db_imm db) (db_log db) (logfile_number_ db) (tmp_batch_ db) s
      (last_sequence_ db) (next_file_number_ db) (prev_log_number_ db)
  else db.

Definition NewFileNumber db : Z * DBImpl F :=
  (next_file_number_ db, with_files (u64 (next_file_number_ db + 1)) db).

Definition ReuseFileNumber (n : Z) db : DBImpl F :=
  if next_file_number_ db =? u64 (n + 1) then with_files n db else db.

(** ** Groups of writers *)

Definition ByteSize (b : WriteBatch) : Z := lengthZ (rep_ b).

(** [result]: the temporary batch once it is used, [None] while the result is
    the batch of the first writer; [last]: the writers of the group so far. *)
Fixpoint group_loop (tmp fb : WriteBatch) (first_sync : bool) (max_size size : Z)
    (result : option WriteBatch) (last : nat) (writers : list BatchWriter) :
    outcome (option WriteBatch * nat) :=
  match writers with
  | [] => Ok (result, last)
  | w :: writers' =>
      if bw_sync w && negb first_sync then Ok (result, last)
      else
        match bw_batch w with
        | None => group_loop tmp fb first_sync max_size size result (S last) writers'
        | Some b =>
            let size1 := u64 (size + ByteSize b) in
            if max_size <? size1 then Ok (result, last)
            else
              r ← match result with
                  | Some r => Ok r
                  | None =>
                      n ← Count kLittleEndian tmp;
                      _ ← assert_ (n =? 0);
                      batch_append kLittleEndian tmp fb
                  end;
              r1 ← batch_append kLittleEndian r b;
              group_loop tmp fb first_sync max_size size1 (Some r1) (S last) writers'
        end
  end.

(** The temporary batch if it is the result, and how many writers it serves. *)
Definition BuildBatchGroup (writers : list BatchWriter) db : outcome (WriteBatch * option WriteBatch * nat) :=
  match writers with
  | [] => Throw assertion_failed
  | first :: writers' =>
      match bw_batch first with
      | None => Throw assertion_failed
      | Some fb =>
          let size := ByteSize fb in
          let max_size := if size <=? Z.shiftl 128 10 then u64 (size + Z.shiftl 128 10) else Z.shiftl 1 20 in
          '(r, n) ← group_loop (tmp_batch_ db) fb (bw_sync first) max_size size None 1 writers';
          Ok (default fb r, r, n)
      end
  end.

(** ** MakeRoomForWrite *)

Record Options : Type := mkOptions { write_buffer_size : Z; paranoid_checks : bool }.

(** What a look at the state says: be done, sleep, wait, or take a new memory
    table. *)
Inductive room : Type := Room_done (s : Status) | Room_sleep | Room_wait | Room_switch.

Definition look_for_room (o : Options) (capacity level0 : Z) (allow_delay force : bool) db : room :=
  if decide (bg_error_ db <> Status_ok) then Room_done (bg_error_ db)
  else if allow_delay && (kL0_SlowdownWritesTrigger <=? level0) then Room_sleep
  else if negb force && (ApproximateMemoryUsage (db_mem db) capacity <=? write_buffer_size o)
  then Room_done Status_ok
  else if bool_decide (is_Some (db_imm db)) then Room_wait
  else if kL0_StopWritesTrigger <=? level0 then Room_wait
  else Room_switch.

(** A new log file and a new memory table; [None] when the file cannot be
    made. *)
Definition switch_memtable db : outcome (option (DBImpl F)) :=
  _ ← assert_ (prev_log_number_ db =? 0);
  let '(new_log_number, db1) := NewFileNumber db in
  match NewLogFile new_log_number with
  | None => Ok None
  | Some lfile =>
      m ← MemTable_new base;
      Ok (Some (mkDBImpl (Ref m) (Some (db_mem db1)) (Writer_new addr lfile) new_log_number
                  (tmp_batch_ db1) (bg_error_ db1) (last_sequence_ db1) (next_file_number_ db1) (prev_log_number_ db1)))
  end.

(** What the background thread may do in between: change the tables of level 0,
    write out the immutable table, fail. *)
Record background : Type := mkBackground { bk_level0 : Z; bk_flush : bool; bk_error : option Status }.

Definition run_background (k : background) db : DBImpl F :=
  let db1 := mkDBImpl (db_mem db) (if bk_flush k then None else db_imm db) (db_log db) (logfile_number_ db)
               (tmp_batch_ db) (bg_error_ db) (last_sequence_ db) (next_file_number_ db) (prev_log_number_ db) in
  match bk_error k with Some s => RecordBackgroundError s db1 | None => db1 end.

(** [bg]: a step for every time the mutex is released; a wait that nothing ends
    uses them up. *)
Fixpoint make_room_loop (o : Options) (capacity : Z) (fuel : nat) (level0 : Z) (bg : list background)
    (allow_delay force : bool) db : outcome (Status * DBImpl F) :=
  match fuel with
  | O => NoFuel
  | S fuel' =>
      match look_for_room o capacity level0 allow_delay force db with
      | Room_done s => Ok (s, db)
      | Room_sleep =>
          match bg with
          | [] => NoFuel
          | k :: bg' => make_room_loop o capacity fuel' (bk_level0 k) bg' false force (run_background k db)
          end
      | Room_wait =>
          match bg with
          | [] => NoFuel
          | k :: bg' => make_room_loop o capacity fuel' (bk_level0 k) bg' allow_delay force (run_background k db)
          end
      | Room_switch =>
          r ← switch_memtable db;
          match r with
          | None => let '(n, db1) := NewFileNumber db in Ok (env_error, ReuseFileNumber n db1)
          | Some db1 => make_room_loop o capacity fuel' level0 bg allow_delay false db1
          end
      end
  end.

Definition MakeRoomForWrite (o : Options) (capacity : Z) (fuel : nat) (level0 : Z) (bg : list background)
    (force : bool) db : outcome (Status * DBImpl F) :=
  make_room_loop o capacity fuel level0 bg (negb force) force db.

(** ** Write

    What the writer at the front of the queue does when it has made room with
    [status]; the number of writers that are done with the status it gives. *)
Definition Write_front (status : Status) (writers : list BatchWriter) db :
    outcome (Status * nat * DBImpl F) :=
  match writers with
  | [] => Throw assertion_failed
  | w :: _ =>
      if decide (status = Status_ok /\ is_Some (bw_batch w)) then
        '(updates, used, n) ← BuildBatchGroup writers db;
        let last_sequence := last_sequence_ db in
        updates ← SetSequence kLittleEndian updates (u64 (last_sequence + 1));
        count ← Count kLittleEndian updates;
        let last_sequence := u64 (last_sequence + count) in
        '(ok, log) ← AddRecord kLittleEndian addr (rep_ updates) (db_log db);
        let '(status, sync_error, log) :=
          if (ok : bool) then
            if bw_sync w then
              let '(ok1, f) := Sync (dest_ log) in
              let log1 := mkWriter f (block_offset_ log) (type_crc_ log) in
              if (ok1 : bool) then (Status_ok, false, log1) else (env_error, true, log1)
            else (Status_ok, false, log)
          else (env_error, false, log) in
        '(status, mem) ←
          (if decide (status = Status_ok) then
             '(st, m) ← InsertInto icmp base updates (db_mem db);
             Ok (match st with None => Status_ok | Some msg => Corruption msg end, m)
           else Ok (status, db_mem db));
        let db1 := with_mem mem (with_log log db) in
        let db2 := if (sync_error : bool) then RecordBackgroundError status db1 else db1 in
        let db3 := match (used : option WriteBatch) with Some _ => with_tmp Clear db2 | None => db2 end in
        db4 ← SetLastSequence last_sequence db3;
        Ok (status, n, db4)
      else Ok (status, 1%nat, db)
  end.

Definition DB_Put (key value : bytes) : outcome WriteBatch := WriteBatch.Put kLittleEndian WriteBatch_new key value.
Definition DB_Delete (key : bytes) : outcome WriteBatch := WriteBatch.Delete kLittleEndian WriteBatch_new key.

(** ** Get

    [current_Get]: the files of the current version; [None] for NotFound. *)
Definition DBImpl_Get (current_Get : LookupKey -> outcome (option bytes)) (snapshot : option Z)
    (key : bytes) db : outcome (option bytes) :=
  let snapshot := default (last_sequence_ db) snapshot in
  lkey ← LookupKey_new key snapshot;
  r ← MemTable_Get icmp (db_mem db) lkey;
  match r with
  | Value_of v => Ok (Some v)
  | Not_found => Ok None
  | Missing =>
      r ← match db_imm db with Some imm => MemTable_Get icmp imm lkey | None => Ok Missing end;
      match r with
      | Value_of v => Ok (Some v)
      | Not_found => Ok None
      | Missing => current_Get lkey
      end
  end.
End DBImpl.

(** ** Recovery *)

Section recover.
Context {platform : Platform} {C : Type} `{Comparator C} (icmp : InternalKeyComparator C).
Context (base : nat -> Z) (addr : bytes -> Z) {G : Type} `{SequentialFile G}.

Definition MaybeIgnoreError (o : Options) (s : Status) : Status :=
  if paranoid_checks o then s else Status_ok.

(** The status the reporter set: the first corruption, if it has a status to
    set. *)
Definition reported (o : Options) (status : Status) (before after : list (Z * bytes)) : Status :=
  if paranoid_checks o then
    match status, drop (length before) after with
    | Status_ok, (_, msg) :: _ => Corruption msg
    | _, _ => status
    end
  else status.

(** [WriteLevel0Table] gives a status; [tables] are those it was given, in
    order.  [capacity]: of the vector of blocks of the arena of a table.
    [fuel]: records; [rfuel]: fragments of a record. *)
Context (WriteLevel0Table : MemTable -> Status) (capacity : MemTable -> Z).

Record recovery : Type := mkRecovery
  { rc_status : Status; rc_mem : option MemTable; rc_max_sequence : Z; rc_tables : list MemTable }.

Fixpoint recover_loop (o : Options) (fuel rfuel : nat) (r : Reader G) (s : recovery) : outcome recovery :=
  match fuel with
  | O => NoFuel
  | S fuel' =>
      '(record, r1) ← ReadRecord kLittleEndian addr rfuel r;
      let status := reported o (rc_status s) (dropped r) (dropped r1) in
      match (record : option bytes) with
      | None => Ok (mkRecovery status (rc_mem s) (rc_max_sequence s) (rc_tables s))
      | Some record =>
          if decide (status <> Status_ok) then
            Ok (mkRecovery status (rc_mem s) (rc_max_sequence s) (rc_tables s))
          else if lengthZ record <? 12 then
            let status := if paranoid_checks o then Corruption (str "log record too small") else status in
            recover_loop o fuel' rfuel r1 (mkRecovery status (rc_mem s) (rc_max_sequence s) (rc_tables s))
          else
            batch ← SetContents record;
            mem ← match rc_mem s with Some m => Ok m | None => m ← MemTable_new base; Ok (Ref m) end;
            '(st, mem) ← InsertInto icmp base batch mem;
            let status := MaybeIgnoreError o (match st with None => Status_ok | Some msg => Corruption msg end) in
            if decide (status <> Status_ok) then
              Ok (mkRecovery status (Some mem) (rc_max_sequence s) (rc_tables s))
            else
              seq ← Sequence kLittleEndian batch;
              count ← Count kLittleEndian batch;
              let last_seq := u64 (seq + count - 1) in
              let max_sequence := if rc_max_sequence s <? last_seq then last_seq else rc_max_sequence s in
              if write_buffer_size o <? ApproximateMemoryUsage mem (capacity mem) then
                let status := WriteLevel0Table mem in
                if decide (status <> Status_ok) then
                  Ok (mkRecovery status (Some mem) max_sequence (rc_tables s ++ [mem]))
                else
                  _ ← Unref mem;
                  recover_loop o fuel' rfuel r1 (mkRecovery status None max_sequence (rc_tables s ++ [mem]))
              else recover_loop o fuel' rfuel r1 (mkRecovery status (Some mem) max_sequence (rc_tables s))
      end
  end.

(** The status, the greatest sequence number and the tables written;
    [None]: the file cannot be opened. *)
Definition RecoverLogFile (o : Options) (fuel rfuel : nat) (file : option G) (max_sequence : Z) :
    outcome (Status * Z * list MemTable) :=
  match file with
  | None => Ok (MaybeIgnoreError o env_error, max_sequence, [])
  | Some g =>
      s ← recover_loop o fuel rfuel (Reader_new g true true 0) (mkRecovery Status_ok None max_sequence []);
      match rc_mem s with
      | Some mem =>
          let '(status, tables) :=
            if decide (rc_status s = Status_ok) then (WriteLevel0Table mem, rc_tables s ++ [mem])
            else (rc_status s, rc_tables s) in
          _ ← Unref mem;
          Ok (status, rc_max_sequence s, tables)
      | None => Ok (rc_status s, rc_max_sequence s, rc_tables s)
      end
  end.
End recover.
