(* ===== verification/DbImplSpec.v ===== *)
(** * LevelDB: the write path keeps a history

    [db_ok] splits the history of a database in the part in the files, the part
    in the immutable table and the part in the memory table.  A group of writes
    appends to the last, and as one record to the log; [Get] answers for the
    whole history; recovery of a log rebuilds what was acknowledged. *)

From S2P Require Import Prelude.
From S2P Require Import Bytes.
From S2P Require Import Coding.
From S2P Require Import Comparator.
From S2P Require Import DbFormat.
From S2P Require Import Log.
From S2P Require Import LogSpec.
From S2P Require Import WriteBatch.
From S2P Require Import Arena.
From S2P Require Import MemTable.
From S2P Require Import MemTableSpec.
From S2P Require Import DbImpl.
From stdpp Require Import base tactics numbers list gmap strings.
From Stdlib Require Import Ascii ZArith Lia.

Open Scope Z_scope.

(** ** Contents of histories *)

Lemma contents_of_app us vs u :
  contents_of (us ++ vs) !! u = match contents_of vs !! u with Some r => Some r | None => contents_of us !! u end.
Proof.
  unfold contents_of. rewrite foldl_app. generalize (foldl apply_one ∅ us) as d. intros d.
  induction vs as [|x vs IH] using rev_ind; [cbn; by rewrite lookup_empty|].
  rewrite !foldl_app. cbn [foldl]. unfold apply_one at 1 3.
  destruct x as [key value|key]; (destruct (decide (key = u)) as [->|];
    [by rewrite !lookup_insert_eq|by rewrite !lookup_insert_ne]).
Qed.

Lemma result_in_app us vs u :
  result_in (contents_of (us ++ vs)) u =
    match result_in (contents_of vs) u with Missing => result_in (contents_of us) u | r => r end.
Proof.
  unfold result_in. rewrite contents_of_app. by destruct (contents_of vs !! u) as [[v|]|].
Qed.

(** What a client sees. *)
Definition visible (us : list update) (u : bytes) : option bytes := mjoin (contents_of us !! u).

Lemma visible_result us u :
  visible us u = match result_in (contents_of us) u with Value_of v => Some v | _ => None end.
Proof. unfold visible, result_in. by destruct (contents_of us !! u) as [[v|]|]. Qed.

(** ** The log of a database *)

Class ReliableLog (F : Type) `{ReliableWritable F} `{LogFiles F} := {
  Sync_ok d : exists d', Sync d = (true, d') /\ contents d' = contents d;
  NewLogFile_ok n f : NewLogFile n = Some f -> contents f = []
}.


(** The records of groups of updates. *)
Fixpoint group_records (s : Z) (groups : list (list update)) : list bytes :=
  match groups with [] => [] | us :: gs => batch_bytes s us :: group_records (s + lengthZ us) gs end.

Lemma group_records_snoc s gs us :
  group_records s (gs ++ [us]) = group_records s gs ++ [batch_bytes (s + lengthZ (concat gs)) us].
Proof.
  revert s. induction gs as [|g gs IH]; intros s; cbn [group_records app concat lengthZ]; [by rewrite Z.add_0_r|].
  rewrite IH, lengthZ_app. by rewrite Z.add_assoc.
Qed.

(** ** Batches *)

Lemma Count_updates le s us : lengthZ us < 2 ^ 31 -> Count le (mkWriteBatch (batch_bytes s us)) = Ok (lengthZ us).
Proof. intros Hn. pose proof (lengthZ_nonneg us). by apply Count_batch. Qed.

Lemma SetSequence_updates le s s' us :
  SetSequence le (mkWriteBatch (batch_bytes s us)) s' = Ok (mkWriteBatch (batch_bytes s' us)).
Proof. apply SetSequence_batch. Qed.

Lemma Sequence_updates le s us : 0 <= s < 2 ^ 64 -> Sequence le (mkWriteBatch (batch_bytes s us)) = Ok s.
Proof. apply Sequence_batch. Qed.

Lemma batch_append_ok le s us s' vs :
  lengthZ us + lengthZ vs < 2 ^ 31 ->
  batch_append le (mkWriteBatch (batch_bytes s us)) (mkWriteBatch (batch_bytes s' vs)) =
    Ok (mkWriteBatch (batch_bytes s (us ++ vs))).
Proof.
  intros Hn. pose proof (lengthZ_nonneg us). pose proof (lengthZ_nonneg vs). unfold batch_append, batch_bytes.
  rewrite !Count_batch by lia. cbn [mbind outcome_bind]. unfold int_add.
  rewrite bind_require by (apply andb_true_iff; split; [apply Z.leb_le|apply Z.ltb_lt]; lia).
  cbn [mbind outcome_bind]. rewrite SetCount_batch by lia. cbn [mbind outcome_bind rep_].
  pose proof (lengthZ_nonneg (vs ≫= update_bytes)).
  rewrite (proj2 (Z.leb_le _ _)).
  2: { rewrite !lengthZ_app, !le_bytes_lengthZ. unfold kHeader. lia. }
  rewrite (app_assoc (le_bytes 8 s') (le_bytes 4 _)), dropZ_app_exact by done.
  by rewrite lengthZ_app, bind_app, <- !app_assoc.
Qed.

Section groups.
Context {platform : Platform}.

(** A queue of writers with the updates of their batches. *)
Definition is_writer (w : BatchWriter) (us : list update) : Prop :=
  match bw_batch w with
  | Some b => exists s, b = mkWriteBatch (batch_bytes s us)
  | None => us = []
  end.

Lemma group_loop_ok tmp_s fb sync max size queue upd acc result n :
  Forall2 is_writer queue upd -> lengthZ acc + lengthZ (concat upd) < 2 ^ 31 ->
  (exists s, default fb result = mkWriteBatch (batch_bytes s acc)) ->
  exists m r s, (m <= length queue)%nat /\
    group_loop (mkWriteBatch (batch_bytes tmp_s [])) fb sync max size result n queue = Ok (r, (n + m)%nat) /\
    default fb r = mkWriteBatch (batch_bytes s (acc ++ concat (take m upd))).
Proof.
  intros Hq. revert acc size result n. induction Hq as [|w us queue upd Hw Hq IH]; intros acc size result n Hlen [s Hs].
  { exists 0%nat, result, s. cbn. rewrite Nat.add_0_r, app_nil_r. split_and!; (done || lia). }
  assert (Hstop : exists m r s, (m <= length (w :: queue))%nat /\ Ok (result, n) = Ok (r, (n + m)%nat) /\
    default fb r = mkWriteBatch (batch_bytes s (acc ++ concat (take m (us :: upd))))).
  { exists 0%nat, result, s. cbn. rewrite Nat.add_0_r, app_nil_r. split_and!; (done || lia). }
  cbn [concat] in Hlen. rewrite lengthZ_app in Hlen. pose proof (lengthZ_nonneg (concat upd)).
  pose proof (lengthZ_nonneg acc). pose proof (lengthZ_nonneg us).
  cbn [group_loop]. destruct (bw_sync w && negb sync); [done|].
  unfold is_writer in Hw. destruct (bw_batch w) as [b|].
  - destruct Hw as [s' ->]. destruct (max <? _); [done|].
    set (r0 := match result with Some r => Ok r | None => _ end).
    assert (Hr0 : exists s0, r0 = Ok (mkWriteBatch (batch_bytes s0 acc))).
    { unfold r0. destruct result as [r|]; unfold default, id in Hs; [rewrite Hs; eauto|].
      rewrite Count_updates by done. cbn [mbind outcome_bind lengthZ].
      rewrite bind_assert by done. rewrite Hs, batch_append_ok by (cbn; lia). eauto. }
    destruct Hr0 as [s0 ->]. cbn [mbind outcome_bind]. rewrite batch_append_ok by lia. cbn [mbind outcome_bind].
    destruct (IH (acc ++ us) (u64 (size + ByteSize (mkWriteBatch (batch_bytes s' us))))
      (Some (mkWriteBatch (batch_bytes s0 (acc ++ us)))) (S n)) as (m & r & s1 & Hm & E & Hr).
    { rewrite lengthZ_app. lia. } { exists s0. done. }
    exists (S m), r, s1. split; [cbn; lia|]. rewrite E. split; [do 2 f_equal; lia|].
    cbn [take concat]. by rewrite app_assoc.
  - subst us. destruct (IH acc size result (S n)) as (m & r & s1 & Hm & E & Hr); [lia|by exists s|].
    exists (S m), r, s1. split; [cbn; lia|]. rewrite E. split; [do 2 f_equal; lia|done].
Qed.

Lemma BuildBatchGroup_ok {F : Type} (db : DBImpl F) first queue us upd tmp_s :
  tmp_batch_ db = mkWriteBatch (batch_bytes tmp_s []) ->
  is_writer first us -> is_Some (bw_batch first) -> Forall2 is_writer queue upd ->
  lengthZ us + lengthZ (concat upd) < 2 ^ 31 ->
  exists m r s, (m <= length queue)%nat /\
    BuildBatchGroup (first :: queue) db = Ok (mkWriteBatch (batch_bytes s (us ++ concat (take m upd))), r, S m).
Proof.
  intros Ht Hf [fb Hb] Hq Hlen. unfold BuildBatchGroup, is_writer in *. rewrite Hb, Ht in *.
  destruct (group_loop_ok tmp_s fb (bw_sync first)
    (if ByteSize fb <=? Z.shiftl 128 10 then u64 (ByteSize fb + Z.shiftl 128 10) else Z.shiftl 1 20)
    (ByteSize fb) queue upd us None 1 Hq Hlen Hf) as (m & r & s & Hm & E & Hr).
  exists m, r, s. split; [done|]. rewrite E. cbn [mbind outcome_bind]. by rewrite Hr.
Qed.
End groups.

(** ** The database *)

Section db.
Context {platform : Platform} {C : Type} `{Comparator C} (c : C) `{!ComparatorLaws C c}.
Context (order_eq : forall a b, key_valid (c := c) a -> key_valid (c := c) b -> key_order (c := c) a b = 0 -> a = b).
Context (base : nat -> Z) (Hbase : forall b, base b mod 8 = 0) (addr : bytes -> Z).
Notation icmp := (mkInternalKeyComparator c).

(** [old] is in the files, [mid] in the immutable table, [new] in the memory
    table. *)
Record db_ok {F : Type} (db : DBImpl F) (old mid new : list update) : Prop := {
  dk_mem : mem_repr c (db_mem db) (writes_of (1 + lengthZ (old ++ mid)) new);
  dk_imm : match db_imm db with
           | Some m => mem_repr c m (writes_of (1 + lengthZ old) mid)
           | None => mid = []
           end;
  dk_last : last_sequence_ db = lengthZ (old ++ mid ++ new);
  dk_bound : lengthZ (old ++ mid ++ new) < 2 ^ 56;
  dk_valid : Forall (update_valid c) (old ++ mid ++ new)
}.

(** [Get] answers for the history, up to the snapshot. *)
Lemma DBImpl_Get_ok {F : Type} (db : DBImpl F) old mid new current_Get snapshot u :
  db_ok db old mid new -> key_valid (c := c) u -> lengthZ u + 8 < 2 ^ 32 ->
  (forall s, snapshot = Some s -> 0 <= s <= last_sequence_ db) ->
  (let s := default (last_sequence_ db) snapshot in
   forall k, LookupKey_new u s = Ok k -> current_Get k = Ok (visible (takeZ s old) u)) ->
  DBImpl_Get icmp current_Get snapshot u db =
    Ok (visible (takeZ (default (last_sequence_ db) snapshot) (old ++ mid ++ new)) u).
Proof.
  intros Hdb Hu Hlu Hsnap Hcur. unfold DBImpl_Get. set (s := default (last_sequence_ db) snapshot).
  pose proof (dk_last _ _ _ _ Hdb) as Hlast. pose proof (dk_bound _ _ _ _ Hdb) as Hbound.
  pose proof (lengthZ_nonneg (old ++ mid ++ new)).
  assert (Hs : sequence_ok s).
  { unfold s, sequence_ok. destruct snapshot as [s0|]; cbn; [specialize (Hsnap s0 eq_refl)|]; lia. }
  destruct (LookupKey_new_ok u s Hs Hlu) as (k & Ek & _). rewrite Ek. cbn [mbind outcome_bind].
  pose proof (dk_valid _ _ _ _ Hdb) as Hv. apply Forall_app in Hv as [Hvo Hv]. apply Forall_app in Hv as [Hvm Hvn].
  pose proof (MemTable_Get_history c order_eq (db_mem db) _ new u s k (dk_mem _ _ _ _ Hdb) Hs Hu Hlu Hvn Ek) as ->.
  cbn [mbind outcome_bind].
  assert (Himm : match db_imm db with Some m => MemTable_Get icmp m k | None => Ok Missing end =
    Ok (result_in (contents_of (takeZ (s + 1 - (1 + lengthZ old)) mid)) u)).
  { pose proof (dk_imm _ _ _ _ Hdb) as Hi. destruct (db_imm db) as [m|].
    - by apply (MemTable_Get_history c order_eq m _ mid u s k Hi Hs Hu Hlu Hvm Ek).
    - rewrite Hi. unfold result_in, contents_of. cbn. by rewrite lookup_empty. }
  rewrite Himm, (Hcur k Ek).
  rewrite (visible_result (takeZ s (old ++ _))), !takeZ_app, !result_in_app, <- Z.sub_add_distr, <- lengthZ_app.
  replace (s + 1 - (1 + lengthZ (old ++ mid))) with (s - lengthZ (old ++ mid)) by lia.
  replace (s + 1 - (1 + lengthZ old)) with (s - lengthZ old) by lia.
  destruct (result_in (contents_of (takeZ (s - lengthZ (old ++ mid)) new)) u); [done..|].
  cbn [mbind outcome_bind]. destruct (result_in (contents_of (takeZ (s - lengthZ old) mid)) u); [done..|].
  f_equal. apply visible_result.
Qed.

Section write.
Context {F : Type} `{ReliableLog F}.

(** The front of the queue writes the batches of the first writers, in their
    order, in the log and in the memory table. *)
Lemma Write_front_ok (db : DBImpl F) old mid new rs tmp_s first queue us upd :
  db_ok db old mid new -> log_holds (db_log db) rs ->
  tmp_batch_ db = mkWriteBatch (batch_bytes tmp_s []) ->
  is_writer first us -> is_Some (bw_batch first) -> Forall2 is_writer queue upd ->
  Forall (update_valid c) (us ++ concat upd) ->
  lengthZ us + lengthZ (concat upd) < 2 ^ 31 ->
  lengthZ (old ++ mid ++ new) + lengthZ us + lengthZ (concat upd) < 2 ^ 56 ->
  exists m db', let added := us ++ concat (take m upd) in
    (m <= length queue)%nat /\
    Write_front icmp base addr Status_ok (first :: queue) db = Ok (Status_ok, S m, db') /\
    db_ok db' old mid (new ++ added) /\
    log_holds (db_log db') (rs ++ [batch_bytes (1 + last_sequence_ db) added]) /\
    (exists s, tmp_batch_ db' = mkWriteBatch (batch_bytes s [])) /\
    (exists b off, frags (block_offset_ (db_log db)) true (batch_bytes (1 + last_sequence_ db) added) b off /\
       contents (dest_ (db_log db')) = contents (dest_ (db_log db)) ++ b).
Proof.
  intros Hdb Hlog Ht Hf Hsome Hq Hval Hn31 Hn56.
  destruct (BuildBatchGroup_ok db first queue us upd tmp_s Ht Hf Hsome Hq Hn31) as (m & r & s & Hm & E).
  exists m. set (added := us ++ concat (take m upd)) in *.
  assert (Hadded : exists rest, us ++ concat upd = added ++ rest).
  { exists (concat (drop m upd)). unfold added. by rewrite <- app_assoc, <- concat_app, take_drop. }
  destruct Hadded as [rest Erest]. rewrite Erest in Hval. apply Forall_app in Hval as [Hval _].
  assert (Hlen : lengthZ us + lengthZ (concat upd) = lengthZ added + lengthZ rest).
  { by rewrite <- !lengthZ_app, Erest. }
  pose proof (lengthZ_nonneg rest). pose proof (lengthZ_nonneg added).
  pose proof (lengthZ_nonneg (old ++ mid ++ new)).
  pose proof (dk_last _ _ _ _ Hdb) as Hlast.
  unfold Write_front. rewrite decide_True by done. rewrite E. cbn [mbind outcome_bind].
  rewrite Hlast, (u64_small (lengthZ (old ++ mid ++ new) + 1)), (Z.add_comm _ 1) by lia.
  rewrite SetSequence_updates. cbn [mbind outcome_bind]. rewrite Count_updates by lia. cbn [mbind outcome_bind rep_].
  rewrite u64_small by lia.
  set (first_seq := 1 + lengthZ (old ++ mid ++ new)).
  destruct (AddRecord_holds kLittleEndian addr (db_log db) rs (batch_bytes first_seq added) Hlog)
    as (log & b & off & -> & Hlog' & Hfr & Hc). cbn [mbind outcome_bind].
  set (synced := if bw_sync first then _ else (Status_ok, false, log)).
  assert (Hsync : exists log1, synced = (Status_ok, false, log1) /\ log_holds log1 (rs ++ [batch_bytes first_seq added]) /\
    contents (dest_ log1) = contents (dest_ log)).
  { unfold synced. destruct (bw_sync first); [|by exists log].
    destruct (Sync_ok (dest_ log)) as (d & -> & Hd). eexists. split; [done|].
    destruct Hlog' as [[Hb Hcrc] Hl]. split; [|done]. split; [by split|]. cbn. by rewrite Hd. }
  destruct Hsync as (log1 & -> & Hlog1 & Hc1).
  assert (Hseq : lengthZ (old ++ mid ++ new) = lengthZ (old ++ mid) + lengthZ new).
  { rewrite <- lengthZ_app. f_equal. apply app_assoc. }
  destruct (InsertInto_ok c base Hbase added (db_mem db) _ first_seq (dk_mem _ _ _ _ Hdb)) as (mem & Ei & Hmem & _);
    [|unfold first_seq; lia|unfold first_seq; lia|lia|done|].
  { apply Forall_forall. intros w Hw. apply writes_of_seq in Hw. unfold first_seq. lia. }
  rewrite decide_True by done. rewrite Ei. cbn [mbind outcome_bind].
  set (db1 := match r with Some _ => _ | None => _ end).
  assert (Hdb1 : db_mem db1 = mem /\ db_imm db1 = db_imm db /\ db_log db1 = log1 /\
    last_sequence_ db1 = lengthZ (old ++ mid ++ new) /\ exists s, tmp_batch_ db1 = mkWriteBatch (batch_bytes s [])).
  { unfold db1. destruct r; cbn; split_and!; try done; [by exists 0|by exists tmp_s]. }
  destruct Hdb1 as (E1 & E2 & E3 & E4 & E5). clearbody db1. unfold SetLastSequence.
  rewrite E4, bind_assert by (apply Z.leb_le; lia). cbn [mbind outcome_bind].
  assert (Eall : old ++ mid ++ new ++ added = (old ++ mid ++ new) ++ added) by by rewrite <- !app_assoc.
  eexists. split; [done|]. split; [done|]. cbn [db_log tmp_batch_]. rewrite E3. split_and!; try done.
  - split; cbn [db_mem db_imm last_sequence_].
    + rewrite E1, writes_of_app. replace (1 + lengthZ (old ++ mid) + lengthZ new) with first_seq by (unfold first_seq; lia). done.
    + rewrite E2. apply (dk_imm _ _ _ _ Hdb).
    + by rewrite Eall, (lengthZ_app (old ++ mid ++ new)).
    + rewrite Eall, (lengthZ_app (old ++ mid ++ new)). lia.
    + rewrite Eall. apply Forall_app. split; [apply (dk_valid _ _ _ _ Hdb)|done].
  - exists b, off. split; [done|]. by rewrite Hc1.
Qed.
End write.

(** ** Making room *)

Section room.
Context {F : Type} `{ReliableLog F}.

Lemma same_tables (db db' : DBImpl F) old mid new :
  db_mem db' = db_mem db -> db_imm db' = db_imm db -> last_sequence_ db' = last_sequence_ db ->
  db_ok db old mid new -> db_ok db' old mid new.
Proof. intros E1 E2 E3 [H1' H2' H3' H4' H5']. split; rewrite ?E1, ?E2, ?E3; done. Qed.

(** The immutable table is in the files when it was written out. *)
Lemma run_background_ok k (db : DBImpl F) old mid new :
  db_ok db old mid new -> exists old' mid', old' ++ mid' = old ++ mid /\ db_ok (run_background k db) old' mid' new.
Proof.
  intros Hdb. assert (Hf : exists old' mid', old' ++ mid' = old ++ mid /\
    db_ok (mkDBImpl (db_mem db) (if bk_flush k then None else db_imm db) (db_log db) (logfile_number_ db)
      (tmp_batch_ db) (bg_error_ db) (last_sequence_ db) (next_file_number_ db) (prev_log_number_ db)) old' mid' new).
  { destruct (bk_flush k); [exists (old ++ mid), []|exists old, mid].
    - rewrite app_nil_r. split; [done|]. destruct Hdb as [H1' H2' H3' H4' H5'].
      split; cbn [db_mem db_imm last_sequence_]; rewrite ?app_nil_r, <- ?app_assoc in *; cbn [app]; done.
    - split; [done|]. by eapply same_tables; [..|exact Hdb]. }
  destruct Hf as (old' & mid' & E & Hok). exists old', mid'. split; [done|]. unfold run_background.
  destruct (bk_error k); [|done]. unfold RecordBackgroundError. case_decide; [|done].
  by eapply same_tables; [..|exact Hok].
Qed.

Lemma switch_memtable_ok (db db' : DBImpl F) old new :
  db_ok db old [] new -> switch_memtable base addr db = Ok (Some db') ->
  db_ok db' old new [] /\ log_holds (db_log db') [].
Proof.
  intros [H1' H2' H3' H4' H5']. unfold switch_memtable. intros (u & _ & Hs)%bind_Ok. cbn [NewFileNumber] in Hs.
  destruct (NewLogFile (next_file_number_ db)) as [f|] eqn:Ef; [|done].
  destruct (MemTable_new_ok c base Hbase) as (m & Em & Hm & _). rewrite Em in Hs. cbn [mbind outcome_bind] in Hs.
  injection Hs as <-. split; [|apply log_holds_new; by eapply NewLogFile_ok].
  rewrite app_nil_r in H1'. cbn [app] in *.
  split; cbn [db_mem db_imm last_sequence_ with_files]; rewrite ?app_nil_r; try done.
Qed.

(** Whatever the background thread does, nothing of the history is lost, and
    the log is the old one or an empty one. *)
Lemma make_room_ok o capacity fuel : forall level0 bg allow_delay force (db db' : DBImpl F) old mid new s rs,
  db_ok db old mid new -> log_holds (db_log db) rs ->
  make_room_loop base addr o capacity fuel level0 bg allow_delay force db = Ok (s, db') ->
  exists old' mid' new', old' ++ mid' ++ new' = old ++ mid ++ new /\ db_ok db' old' mid' new' /\
    ((log_holds (db_log db') rs /\ new' = new) \/ (log_holds (db_log db') [] /\ new' = [])).
Proof.
  induction fuel as [|fuel IH]; intros level0 bg allow_delay force db db' old mid new s rs Hdb Hlog; [done|].
  cbn [make_room_loop].
  assert (Hstep : forall k bg' d, make_room_loop base addr o capacity fuel (bk_level0 k) bg' d force (run_background k db) = Ok (s, db') ->
    exists old' mid' new', old' ++ mid' ++ new' = old ++ mid ++ new /\ db_ok db' old' mid' new' /\
    ((log_holds (db_log db') rs /\ new' = new) \/ (log_holds (db_log db') [] /\ new' = []))).
  { intros k bg' d Hr. destruct (run_background_ok k db old mid new Hdb) as (old1 & mid1 & E & Hdb1).
    assert (Hlog' : log_holds (db_log (run_background k db)) rs).
    { unfold run_background, RecordBackgroundError. destruct (bk_error k); [case_decide|]; done. }
    destruct (IH _ _ _ _ _ _ _ _ _ _ _ Hdb1 Hlog' Hr) as (old' & mid' & new' & E' & Hok & Hl).
    exists old', mid', new'. split; [|done]. by rewrite E', !app_assoc, E. }
  destruct (look_for_room o capacity level0 allow_delay force db) eqn:Elook.
  - intros [= <- <-]. exists old, mid, new. split_and!; try done. by left.
  - destruct bg; [done|]. apply Hstep.
  - destruct bg; [done|]. apply Hstep.
  - assert (Hmid : mid = []).
    { unfold look_for_room in Elook. pose proof (dk_imm _ _ _ _ Hdb) as Hi.
      destruct (db_imm db); [|done]. rewrite bool_decide_eq_true_2 in Elook by done. by repeat case_match. }
    subst mid. intros (r & Hr & Hrest)%bind_Ok. destruct r as [db1|].
    + destruct (switch_memtable_ok _ _ _ _ Hdb Hr) as [Hdb1 Hlog1].
      destruct (IH _ _ _ _ _ _ _ _ _ _ _ Hdb1 Hlog1 Hrest) as (old' & mid' & new' & E' & Hok & Hl).
      exists old', mid', new'. rewrite app_nil_r in E'. split; [done|]. split; [done|]. right. by destruct Hl as [[? ->]|[? ->]].
    + cbn in Hrest. injection Hrest as <- <-. exists old, [], new. split; [done|].
      unfold ReuseFileNumber, with_files. cbn. case_match; (split; [by eapply same_tables; [..|exact Hdb]|by left]).
Qed.
End room.

(** ** Recovery *)

(** Tables that hold the parts of a history, in order. *)
Fixpoint tables_hold (s : Z) (ms : list MemTable) (us : list update) : Prop :=
  match ms with
  | [] => us = []
  | m :: ms' => exists us1 us2, us = us1 ++ us2 /\ mem_repr c m (writes_of s us1) /\
                  tables_hold (s + lengthZ us1) ms' us2
  end.

Lemma tables_hold_snoc s ms us m vs :
  tables_hold s ms us -> mem_repr c m (writes_of (s + lengthZ us) vs) -> tables_hold s (ms ++ [m]) (us ++ vs).
Proof.
  revert s us. induction ms as [|m0 ms IH]; intros s us; cbn [tables_hold app].
  - intros ->. cbn [lengthZ app]. rewrite Z.add_0_r. intros Hm. exists vs, []. by rewrite app_nil_r.
  - intros (us1 & us2 & -> & Hm0 & Hms) Hm. exists us1, (us2 ++ vs). split; [by rewrite app_assoc|].
    split; [done|]. apply IH; [done|]. by rewrite <- Z.add_assoc, <- lengthZ_app.
Qed.

Section recover.
Context {G : Type} `{SequentialFile G} (level0 : MemTable -> Status) (capacity : MemTable -> Z) (o : Options).
Context (Hlevel0 : forall m, level0 m = Status_ok) (Hparanoid : paranoid_checks o = false).

(** Tables written and a table that is being filled. *)
Definition recovering (s0 : Z) (us : list update) (r : recovery) : Prop :=
  rc_status r = Status_ok /\ exists h1 h2, us = h1 ++ h2 /\ tables_hold s0 (rc_tables r) h1 /\
    match rc_mem r with
    | Some m => mem_repr c m (writes_of (s0 + lengthZ h1) h2) /\ refs_ m = 1
    | None => h2 = []
    end.

Lemma recover_mem s0 us r :
  recovering s0 us r ->
  exists h1 h2 m, us = h1 ++ h2 /\ tables_hold s0 (rc_tables r) h1 /\
    match rc_mem r with Some m => Ok m | None => m ← MemTable_new base; Ok (Ref m) end = Ok m /\
    mem_repr c m (writes_of (s0 + lengthZ h1) h2) /\ refs_ m = 1.
Proof.
  intros (_ & h1 & h2 & -> & Ht & Hm). destruct (rc_mem r) as [m|].
  - exists h1, h2, m. by destruct Hm.
  - subst h2. destruct (MemTable_new_ok c base Hbase) as (m & -> & Hrep & Hrefs). cbn [mbind outcome_bind].
    exists h1, [], (Ref m). split; [done|]. split; [done|]. split; [done|]. cbn. split; [|lia].
    destruct Hrep as (l & rs & ? & ? & ?). by exists l, rs.
Qed.

Lemma batch_bytes_long s us : (lengthZ (batch_bytes s us) <? 12) = false.
Proof.
  apply Z.ltb_ge. unfold batch_bytes. rewrite !lengthZ_app, !le_bytes_lengthZ.
  pose proof (lengthZ_nonneg (us ≫= update_bytes)). lia.
Qed.

Lemma reported_lenient status a b : reported o status a b = status.
Proof. unfold reported. by rewrite Hparanoid. Qed.

Lemma Unref_last m : refs_ m = 1 -> Unref m = Ok None.
Proof. intros E. unfold Unref. by rewrite E. Qed.

Lemma read_all_nil n rfuel (r r' : Reader G) :
  read_all kLittleEndian addr n rfuel r = Ok ([], r') -> ReadRecord kLittleEndian addr rfuel r = Ok (None, r').
Proof.
  destruct n as [|n]; [done|]. cbn [read_all]. intros ([o1 r1] & -> & Hr)%bind_Ok.
  destruct o1; [|by inv_ok; simplify_eq]. apply bind_Ok in Hr as ([ps r2] & _ & Hr). done.
Qed.

Lemma read_all_cons n rfuel (r r' : Reader G) p ps :
  read_all kLittleEndian addr n rfuel r = Ok (p :: ps, r') ->
  exists r1 n', ReadRecord kLittleEndian addr rfuel r = Ok (Some p, r1) /\
    read_all kLittleEndian addr n' rfuel r1 = Ok (ps, r').
Proof.
  destruct n as [|n]; [done|]. cbn [read_all]. intros ([o1 r1] & -> & Hr)%bind_Ok.
  destruct o1; [|done]. apply bind_Ok in Hr as ([qs r2] & Hq & Hr). exists r1, n. by simplify_eq.
Qed.

Lemma recover_loop_ok gs : forall s0 us n rfuel r r' st fuel,
  recovering s0 us st -> 1 <= s0 ->
  read_all kLittleEndian addr n rfuel r = Ok (group_records (s0 + lengthZ us) gs, r') ->
  (length gs < fuel)%nat ->
  Forall (update_valid c) (concat gs) -> Forall (fun us => lengthZ us < 2 ^ 31) gs ->
  s0 + lengthZ us + lengthZ (concat gs) <= 2 ^ 56 ->
  exists st', recover_loop icmp base addr level0 capacity o fuel rfuel r st = Ok st' /\
    recovering s0 (us ++ concat gs) st' /\
    rc_max_sequence st' = match gs with [] => rc_max_sequence st
                          | _ => Z.max (rc_max_sequence st) (s0 + lengthZ us + lengthZ (concat gs) - 1) end.
Proof.
  induction gs as [|g gs IH]; intros s0 us n rfuel r r' st fuel Hst Hs0 Hread Hfuel Hval Hsz Hmax;
    (destruct fuel as [|fuel]; [cbn in Hfuel; lia|]); cbn [recover_loop group_records] in *.
  - rewrite (read_all_nil _ _ _ _ Hread). cbn [mbind outcome_bind]. rewrite reported_lenient, (proj1 Hst).
    eexists. split; [done|]. cbn [rc_max_sequence concat]. rewrite app_nil_r.
    split; [|done]. destruct Hst as (_ & h1 & h2 & ? & ? & ?). split; [done|]. by exists h1, h2.
  - destruct (read_all_cons _ _ _ _ _ _ Hread) as (r1 & n' & -> & Hread').
    cbn [mbind outcome_bind]. rewrite reported_lenient, (proj1 Hst).
    cbn [concat] in *. apply Forall_app in Hval as [Hvg Hval].
    apply Forall_cons in Hsz as [Hg Hsz]. rewrite lengthZ_app in Hmax |- *.
    pose proof (lengthZ_nonneg us). pose proof (lengthZ_nonneg g). pose proof (lengthZ_nonneg (concat gs)).
    rewrite decide_False by (intros Hne; by apply Hne). rewrite batch_bytes_long. unfold SetContents.
    pose proof (batch_bytes_long (s0 + lengthZ us) g) as Hlong. apply Z.ltb_ge in Hlong.
    rewrite (proj2 (Z.leb_le _ _)) by exact Hlong. cbn [mbind outcome_bind].
    destruct (recover_mem s0 us st Hst) as (h1 & h2 & m & -> & Ht & -> & Hm & Hrefs). cbn [mbind outcome_bind].
    rewrite lengthZ_app in *. pose proof (lengthZ_nonneg h1). pose proof (lengthZ_nonneg h2).
    destruct (InsertInto_ok c base Hbase g m _ (s0 + (lengthZ h1 + lengthZ h2)) Hm) as (m' & -> & Hm' & Hr');
      [|lia|lia|done|done|].
    { apply Forall_forall. intros w Hw. apply writes_of_seq in Hw. lia. }
    cbn [mbind outcome_bind]. unfold MaybeIgnoreError. rewrite Hparanoid.
    rewrite decide_False by (intros Hne; by apply Hne).
    rewrite Sequence_updates, Count_updates by (done || lia).
    cbn [mbind outcome_bind]. rewrite u64_small by lia.
    set (mx := if rc_max_sequence st <? _ then _ else _).
    assert (Hmx : mx = Z.max (rc_max_sequence st) (s0 + (lengthZ h1 + lengthZ h2) + lengthZ g - 1)).
    { unfold mx. destruct (Z.ltb_spec (rc_max_sequence st) (s0 + (lengthZ h1 + lengthZ h2) + lengthZ g - 1)); lia. }
    clearbody mx. rewrite Z.add_assoc, <- writes_of_app in Hm'.
    assert (Hgoal : forall st1, recovering s0 ((h1 ++ h2) ++ g) st1 -> rc_max_sequence st1 = mx ->
      exists st', recover_loop icmp base addr level0 capacity o fuel rfuel r1 st1 = Ok st' /\
        recovering s0 ((h1 ++ h2) ++ g ++ concat gs) st' /\
        rc_max_sequence st' = Z.max (rc_max_sequence st)
          (s0 + (lengthZ h1 + lengthZ h2) + (lengthZ g + lengthZ (concat gs)) - 1)).
    { intros st1 Hst1 Hm1. rewrite <- Z.add_assoc, <- !lengthZ_app in Hread'.
      destruct (IH s0 ((h1 ++ h2) ++ g) n' rfuel r1 r' st1 fuel Hst1 Hs0 Hread') as (st' & E & Hrec & Hmxs);
        [cbn in Hfuel; lia|done|done|rewrite !lengthZ_app; lia|].
      exists st'. split; [done|]. rewrite <- app_assoc in Hrec. split; [done|]. rewrite Hmxs, Hm1, Hmx, !lengthZ_app.
      destruct gs; [cbn; lia|]. pose proof (lengthZ_nonneg (concat gs)). lia. }
    destruct (write_buffer_size o <? _).
    + rewrite Hlevel0, decide_False by (intros Hne; by apply Hne).
      rewrite Unref_last by congruence. cbn [mbind outcome_bind].
      apply Hgoal; [|done]. split; [done|]. exists (h1 ++ h2 ++ g), []. rewrite app_nil_r, app_assoc.
      split; [done|]. split; [|done]. rewrite <- app_assoc. by apply tables_hold_snoc.
    + apply Hgoal; [|done]. split; [done|]. exists h1, (h2 ++ g). rewrite app_assoc.
      split; [done|]. split; [done|]. split; [done|congruence].
Qed.

(** A log is recovered into tables that hold its updates. *)
Lemma RecoverLogFile_ok gs s0 n rfuel g r' fuel mx :
  1 <= s0 ->
  read_all kLittleEndian addr n rfuel (Reader_new g true true 0) = Ok (group_records s0 gs, r') ->
  (length gs < fuel)%nat ->
  Forall (update_valid c) (concat gs) -> Forall (fun us => lengthZ us < 2 ^ 31) gs ->
  s0 + lengthZ (concat gs) <= 2 ^ 56 ->
  exists ms, RecoverLogFile icmp base addr level0 capacity o fuel rfuel (Some g) mx =
      Ok (Status_ok, match gs with [] => mx | _ => Z.max mx (s0 + lengthZ (concat gs) - 1) end, ms) /\
    tables_hold s0 ms (concat gs).
Proof.
  intros Hs0 Hread Hfuel Hval Hsz Hmax.
  destruct (recover_loop_ok gs s0 [] n rfuel (Reader_new g true true 0) r' (mkRecovery Status_ok None mx []) fuel)
    as (st & E & (Hstat & h1 & h2 & Eh & Ht & Hm) & Hmxs); try done.
  - split; [done|]. by exists [], [].
  - cbn [lengthZ]. by rewrite Z.add_0_r.
  - cbn [lengthZ]. by rewrite Z.add_0_r.
  - cbn [lengthZ rc_max_sequence app] in *. rewrite Z.add_0_r in Hmxs.
    unfold RecoverLogFile. rewrite E. cbn [mbind outcome_bind]. rewrite Hstat, Hmxs, Eh.
    destruct (rc_mem st) as [m|].
    + destruct Hm as [Hm Hrefs]. rewrite decide_True, Hlevel0, Unref_last by done. cbn [mbind outcome_bind].
      eexists. split; [done|]. by apply tables_hold_snoc.
    + subst h2. rewrite app_nil_r. eauto.
Qed.
End recover.
End db.

(** * LevelDB: runs of a database

    The steps of an open database - a group of writers, making room, the
    background thread - and the invariant of its runs: the history is what was
    acknowledged, and the log holds the part of it that is in the memory
    table. *)

Section run.
Context {platform : Platform} {C : Type} `{Comparator C} (c : C) `{!ComparatorLaws C c}.
Context (base : nat -> Z) (Hbase : forall b, base b mod 8 = 0) (addr : bytes -> Z).
Context {F : Type} `{ReliableLog F} (o : Options) (capacity : Z).
Notation icmp := (mkInternalKeyComparator c).
Implicit Types db : DBImpl F.

(** An open database and the updates that were acknowledged. *)
Definition db_state : Type := DBImpl F * list update.

(** The writers of a queue have the updates [upds] in their batches; the one at
    the front has a batch, and writes with [n] of them acknowledged. *)
Record group_write db (h : list update) (ws : list BatchWriter) (upds : list (list update)) (n : nat) (db' : DBImpl F) : Prop := {
  gw_writers : Forall2 is_writer ws upds;
  gw_front : exists w ws', ws = w :: ws' /\ is_Some (bw_batch w);
  gw_valid : Forall (update_valid c) (concat upds);
  gw_count : lengthZ (concat upds) < 2 ^ 31;
  gw_bound : lengthZ h + lengthZ (concat upds) < 2 ^ 56;
  gw_write : Write_front icmp base addr Status_ok ws db = Ok (Status_ok, n, db')
}.

Inductive db_step : db_state -> db_state -> Prop :=
  | step_write db h ws upds n db' :
      group_write db h ws upds n db' -> db_step (db, h) (db', h ++ concat (take n upds))
  | step_room fuel level0 bg force db h s db' :
      MakeRoomForWrite base addr o capacity fuel level0 bg force db = Ok (s, db') ->
      db_step (db, h) (db', h)
  | step_background k db h : db_step (db, h) (run_background k db, h).

Definition db_run : db_state -> db_state -> Prop := rtc db_step.

(** A database that was opened on files with the history [h]. *)
Record opened (db : DBImpl F) (h : list update) : Prop := {
  op_mem : exists m, MemTable_new base = Ok m /\ db_mem db = Ref m;
  op_imm : db_imm db = None;
  op_log : exists d, contents d = [] /\ db_log db = Writer_new addr d;
  op_tmp : tmp_batch_ db = mkWriteBatch (batch_bytes 0 []);
  op_last : last_sequence_ db = lengthZ h;
  op_bound : lengthZ h < 2 ^ 56;
  op_valid : Forall (update_valid c) h
}.

(** The history [filed ++ mid ++ concat gs]; the log holds the groups [gs]. *)
Record db_inv (db : DBImpl F) (h filed mid : list update) (gs : list (list update)) : Prop := {
  di_history : h = filed ++ mid ++ concat gs;
  di_ok : db_ok c db filed mid (concat gs);
  di_log : log_holds (db_log db) (group_records (1 + lengthZ (filed ++ mid)) gs);
  di_tmp : exists s, tmp_batch_ db = mkWriteBatch (batch_bytes s []);
  di_sizes : Forall (fun us => lengthZ us < 2 ^ 31) gs
}.

Lemma mem_repr_Ref m ws : mem_repr c m ws -> mem_repr c (Ref m) ws.
Proof. done. Qed.

Lemma opened_inv db h : opened db h -> db_inv db h h [] [].
Proof.
  intros [(m & Em & Hm) Himm (d & Hd & Hl) Ht Hlast Hb Hv]. cbn.
  destruct (MemTable_new_ok c base Hbase) as (m' & Em' & Hrep & _).
  assert (m' = m) as -> by congruence.
  split; cbn [concat group_records]; rewrite ?app_nil_r; [done| | |by exists 0|by constructor].
  - split; rewrite ?app_nil_r; rewrite ?Hm, ?Himm; done.
  - rewrite Hl. by apply log_holds_new.
Qed.

(** What a group of writers does to the invariant. *)
Lemma write_inv db h filed mid gs ws upds n db' :
  db_inv db h filed mid gs -> group_write db h ws upds n db' ->
  let added := concat (take n upds) in
  (1 <= n <= length ws)%nat /\ db_inv db' (h ++ added) filed mid (gs ++ [added]) /\
  exists b off, frags (block_offset_ (db_log db)) true (batch_bytes (1 + lengthZ h) added) b off /\
    contents (dest_ (db_log db')) = contents (dest_ (db_log db)) ++ b.
Proof.
  intros [Hh Hok Hlog [s Ht] Hsz] [Hq (first & queue & -> & Hsome) Hval H31 H56 Hw]. subst h.
  apply Forall2_cons_inv_l in Hq as (us & upd & Hf & Hq & ->). cbn [concat] in *. rewrite (lengthZ_app us) in H31, H56.
  destruct (Write_front_ok c base Hbase addr db filed mid (concat gs) _ s first queue us upd Hok Hlog Ht Hf Hsome Hq Hval H31)
    as (m & db1 & Hm & E & Hok' & Hlog' & Ht' & Hfr); [lia|].
  rewrite E in Hw. injection Hw as <- <-. cbn [take concat length]. cbv zeta. set (added := us ++ concat (take m upd)) in *.
  rewrite (dk_last _ _ _ _ _ Hok) in Hlog', Hfr.
  split; [lia|]. split; [|done]. split; [by rewrite concat_app; cbn; rewrite app_nil_r, <- !app_assoc|..].
  - by rewrite concat_app; cbn; rewrite app_nil_r.
  - rewrite group_records_snoc. rewrite <- Z.add_assoc, <- lengthZ_app, <- app_assoc. done.
  - done.
  - apply Forall_app. split; [done|]. apply Forall_singleton.
    assert (E2 : us ++ concat upd = added ++ concat (drop m upd)).
    { unfold added. by rewrite <- app_assoc, <- concat_app, take_drop. }
    pose proof (lengthZ_nonneg (concat (drop m upd))). apply (f_equal lengthZ) in E2. rewrite !lengthZ_app in E2. lia.
Qed.

Lemma background_log k db : db_log (run_background k db) = db_log db /\ tmp_batch_ (run_background k db) = tmp_batch_ db.
Proof. unfold run_background, RecordBackgroundError. destruct (bk_error k); [case_decide|]; done. Qed.

Lemma background_inv k db h filed mid gs :
  db_inv db h filed mid gs -> exists filed' mid', db_inv (run_background k db) h filed' mid' gs.
Proof.
  intros [Hh Hok Hlog Ht Hsz]. destruct (run_background_ok c k db filed mid _ Hok) as (filed' & mid' & E & Hok').
  exists filed', mid'. destruct (background_log k db) as [E1 E2].
  split; rewrite ?E1, ?E2, ?E; try done. by rewrite Hh, !app_assoc, E.
Qed.

Lemma make_room_tmp fuel : forall level0 bg allow_delay force db s db',
  make_room_loop base addr o capacity fuel level0 bg allow_delay force db = Ok (s, db') -> tmp_batch_ db' = tmp_batch_ db.
Proof.
  induction fuel as [|fuel IH]; intros level0 bg allow_delay force db s db'; [done|]. cbn [make_room_loop].
  destruct (look_for_room _ _ _ _ _ db); [by intros [= _ <-]|..].
  1,2: destruct bg as [|k bg]; [done|]; intros Hr%IH; by rewrite Hr, (proj2 (background_log k db)).
  intros (r & Hs & Hr)%bind_Ok. destruct r as [db1|].
  - apply IH in Hr. rewrite Hr. unfold switch_memtable in Hs. apply bind_Ok in Hs as (? & _ & Hs).
    cbn [NewFileNumber] in Hs. destruct (NewLogFile _); [|done]. apply bind_Ok in Hs as (m & _ & Hs). by simplify_eq.
  - cbn in Hr. simplify_eq. unfold ReuseFileNumber. by case_match.
Qed.

Lemma room_inv fuel level0 bg force db h s db' filed mid gs :
  db_inv db h filed mid gs -> MakeRoomForWrite base addr o capacity fuel level0 bg force db = Ok (s, db') ->
  exists filed' mid' gs', db_inv db' h filed' mid' gs'.
Proof.
  intros [Hh Hok Hlog Ht Hsz] Hr. pose proof (make_room_tmp _ _ _ _ _ _ _ _ Hr) as Etmp.
  destruct (make_room_ok c base Hbase addr o capacity fuel _ _ _ _ _ _ _ _ _ _ _ Hok Hlog Hr)
    as (filed' & mid' & new' & E & Hok' & [[Hl ->]|[Hl ->]]); exists filed', mid'.
  - rewrite !app_assoc in E. apply app_inv_tail in E. exists gs.
    split; rewrite ?Etmp, ?E; [by rewrite app_assoc, E, <- app_assoc|done..].
  - exists []. split; rewrite ?Etmp; cbn [concat group_records]; [by rewrite E|done..|by constructor].
Qed.

Lemma run_inv s s' filed mid gs :
  db_run s s' -> db_inv (fst s) (snd s) filed mid gs ->
  exists filed' mid' gs', db_inv (fst s') (snd s') filed' mid' gs'.
Proof.
  intros Hr. revert filed mid gs. induction Hr as [s|s1 s2 s3 Hstep _ IH]; intros filed mid gs Hinv; [by exists filed, mid, gs|].
  destruct Hstep; cbn [fst snd] in *.
  - eapply write_inv in Hinv as (_ & Hinv & _); [|done]. by eapply IH.
  - eapply room_inv in Hinv as (? & ? & ? & Hinv); [|done]. by eapply IH.
  - eapply background_inv in Hinv as (? & ? & Hinv). by eapply IH.
Qed.

(** ** Recovery of the log *)

Context {G : Type} `{ReliableSequential G} (level0 : MemTable -> Status) (capacities : MemTable -> Z).
Context (Hlevel0 : forall m, level0 m = Status_ok) (Hparanoid : paranoid_checks o = false).

Lemma group_records_length s gs : length (group_records s gs) = length gs.
Proof. revert s. induction gs as [|us gs IH]; intros s; cbn; [done|]. by rewrite IH. Qed.

(** A record is no longer than its layout. *)
Lemma frags_length off begin p b off' : frags off begin p b off' -> (length p + 7 <= length b)%nat.
Proof.
  assert (Hp : forall t q, length (physical t q) = (7 + length q)%nat).
  { intros t q. apply Nat2Z.inj. rewrite <- lengthZ_length. unfold physical. rewrite framed_length, lengthZ_length.
    unfold kHeaderSize. lia. }
  induction 1; rewrite ?length_app, ?Hp in *; [lia..|].
  pose proof (f_equal length (takeZ_dropZ avail p)) as E. rewrite length_app in E. lia.
Qed.

Lemma layout_length off rs bs off' :
  log_layout off rs bs off' -> (length rs <= length bs)%nat /\ forall q, q ∈ rs -> (length q <= length bs)%nat.
Proof.
  induction 1 as [|off q bq off' rs bs off'' Hq _ [IHn IH]]; [split; [done|by intros q Hq%elem_of_nil]|].
  apply frags_length in Hq. cbn [length]. rewrite length_app. split; [lia|].
  intros q' [->|Hq']%elem_of_cons; [lia|]. specialize (IH q' Hq'). lia.
Qed.

(** The log is recovered into tables that hold its groups. *)
Lemma recover_layout s0 gs bs off (g : G) mx fuel rfuel :
  1 <= s0 -> log_layout 0 (group_records s0 gs) bs off -> remaining g = bs ->
  (length gs < fuel)%nat -> (forall q, q ∈ group_records s0 gs -> (length q + 2 < rfuel)%nat) -> (0 < rfuel)%nat ->
  Forall (update_valid c) (concat gs) -> Forall (fun us => lengthZ us < 2 ^ 31) gs -> s0 + lengthZ (concat gs) <= 2 ^ 56 ->
  exists mx' ms, RecoverLogFile icmp base addr level0 capacities o fuel rfuel (Some g) mx = Ok (Status_ok, mx', ms) /\
    tables_hold c s0 ms (concat gs).
Proof.
  intros Hs0 Hl Hg Hfuel Hrf Hpos Hval Hsz Hmax. apply layout_block_start in Hl as (off' & Hl & _).
  destruct (read_all_layout kLittleEndian addr _ _ _ _ rfuel (Reader_new g true true 0) Hl) as (r' & E & _).
  - rewrite <- Hg. apply Reader_new_at.
  - done.
  - done.
  - done.
  - rewrite group_records_length in E.
    destruct (RecoverLogFile_ok c base Hbase addr level0 capacities o Hlevel0 Hparanoid gs s0 _ rfuel g r' fuel mx Hs0 E Hfuel Hval Hsz Hmax)
      as (ms & Er & Ht). eauto.
Qed.

(** A log cut in the record of its last group: the groups before it. *)
Lemma recover_cut s0 gs us bs off b off2 n (g : G) mx fuel rfuel :
  1 <= s0 -> log_layout 0 (group_records s0 gs) bs off -> frags off true (batch_bytes (s0 + lengthZ (concat gs)) us) b off2 ->
  lengthZ bs <= n < lengthZ (bs ++ b) -> remaining g = takeZ n (bs ++ b) ->
  (length gs < fuel)%nat -> (forall q, q ∈ group_records s0 (gs ++ [us]) -> (length q + 2 < rfuel)%nat) ->
  Forall (update_valid c) (concat gs) -> Forall (fun us => lengthZ us < 2 ^ 31) gs -> s0 + lengthZ (concat gs) <= 2 ^ 56 ->
  exists mx' ms, RecoverLogFile icmp base addr level0 capacities o fuel rfuel (Some g) mx = Ok (Status_ok, mx', ms) /\
    tables_hold c s0 ms (concat gs).
Proof.
  intros Hs0 Hl Hf Hn Hg Hfuel Hrf Hval Hsz Hmax. apply layout_block_start in Hl as (off' & Hl & Hf').
  rewrite group_records_snoc in Hrf. rewrite lengthZ_app in Hn. rewrite takeZ_app, takeZ_ge in Hg by lia.
  destruct (read_all_cut kLittleEndian addr _ _ _ _ _ _ _ (n - lengthZ bs) rfuel (Reader_new g true true 0) Hl (Hf' _ _ _ Hf))
    as (r' & E).
  - lia.
  - rewrite <- Hg. apply Reader_new_at.
  - done.
  - intros q Hq. apply Hrf. rewrite elem_of_app, elem_of_cons in *. rewrite elem_of_nil. tauto.
  - rewrite group_records_length in E.
    destruct (RecoverLogFile_ok c base Hbase addr level0 capacities o Hlevel0 Hparanoid gs s0 _ rfuel g r' fuel mx Hs0 E Hfuel Hval Hsz Hmax)
      as (ms & Er & Ht). eauto.
Qed.
End run.
