(* ===== verification/LevelTheorems.v ===== *)
(** * LevelDB: the properties

    Encodings, checksums and the log, with concrete files. *)

From S2P Require Import Prelude.
From S2P Require Import Bytes.
From S2P Require Import Coding.
From S2P Require Import Crc32c.
From S2P Require Import Log.
From S2P Require Import LogSpec.
From S2P Require Import WriteBatch.
From stdpp Require Import base tactics numbers list sets strings.
From Stdlib Require Import Ascii ZArith Lia.

Open Scope Z_scope.

(** ** Files in memory *)

Record memory_file : Type := in_memory { in_file : bytes }.

#[export] Instance memory_writable : WritableFile memory_file := {
  Append d b := (true, in_memory (in_file d ++ b));
  Flush d := (true, d)
}.
#[export, refine] Instance memory_reliable_writable : ReliableWritable memory_file := {
  contents := in_file
}.
Proof. all: eauto. Defined.

#[export] Instance memory_sequential : SequentialFile memory_file := {
  Read g n := (true, takeZ n (in_file g), in_memory (dropZ n (in_file g)));
  Skip g n := (true, in_memory (dropZ n (in_file g)))
}.
#[export, refine] Instance memory_reliable_sequential : ReliableSequential memory_file := {
  remaining := in_file
}.
Proof. eauto. Defined.

(** ** The log *)

(** Whatever records are added to an empty log, a reader of the file, on a
    machine of any byte order and with or without checksums, returns them in
    order, then the end, and reports nothing. *)
Theorem log_round_trip (le le' : bool) (addr addr' : bytes -> Z) {F G : Type}
    `{ReliableWritable F} `{ReliableSequential G} (rs : list bytes) (d : F) :
  contents d = [] ->
  exists w, add_all le addr rs (Writer_new addr d) = Ok (true, w) /\
    forall (g : G) reporter checksum fuel,
      remaining g = contents (dest_ w) ->
      (0 < fuel)%nat -> (forall q, q ∈ rs -> (length q + 2 < fuel)%nat) ->
      exists r, read_all le' addr' (S (length rs)) fuel (Reader_new g reporter checksum 0) = Ok (rs, r) /\
        dropped r = [].
Proof.
  intros Hd. destruct (add_all_spec le addr rs _ (Writer_new_ok addr d)) as (b & off & w & E & Hl & Hw & _).
  exists w. split; [done|]. intros g reporter checksum fuel Hg Hpos Hfuel.
  cbn [dest_ Writer_new] in Hw. rewrite Hd in Hw. rewrite Hw in Hg. cbn [app] in Hg.
  apply layout_block_start in Hl as (off' & Hl & _).
  eapply (read_all_layout le' addr'); [exact Hl|rewrite <- Hg; apply Reader_new_at|done..].
Qed.

Definition memory_log (rs : list bytes) : outcome (bool * Writer memory_file) :=
  add_all true (fun _ => 0) rs (Writer_new (fun _ => 0) (in_memory [])).

Lemma log_round_trip_witness :
  exists w, memory_log [str "foo"; []; str "bar"] = Ok (true, w) /\
    exists r, read_all false (fun _ => 3) 4 6 (Reader_new (dest_ w) true true 0) =
      Ok ([str "foo"; []; str "bar"], r) /\ dropped r = [].
Proof.
  destruct (log_round_trip true false (fun _ => 0) (fun _ => 3) (F := memory_file) (G := memory_file)
    [str "foo"; []; str "bar"] (in_memory [])) as (w & E & Hread); [reflexivity|].
  exists w. split; [exact E|]. apply (Hread (dest_ w) true true 6%nat); [done|lia|].
  intros q Hq. rewrite !elem_of_cons in Hq. destruct Hq as [-> |[-> |[-> |Hq]]]; [cbn; lia..|].
  by apply elem_of_nil in Hq.
Defined.

(** C23: when the file of a log was cut anywhere in its last record, as a crash
    does, the records before are read and nothing else. *)
Theorem log_survives_a_crash (le le' : bool) (addr addr' : bytes -> Z) {F G : Type}
    `{ReliableWritable F} `{ReliableSequential G} (rs : list bytes) (p : bytes) (d : F) :
  contents d = [] ->
  exists w1 w2, add_all le addr rs (Writer_new addr d) = Ok (true, w1) /\
    AddRecord le addr p w1 = Ok (true, w2) /\
    forall (g : G) n reporter checksum fuel,
      lengthZ (contents (dest_ w1)) <= n < lengthZ (contents (dest_ w2)) ->
      remaining g = takeZ n (contents (dest_ w2)) ->
      (forall q, q ∈ p :: rs -> (length q + 2 < fuel)%nat) ->
      exists r, read_all le' addr' (S (length rs)) fuel (Reader_new g reporter checksum 0) = Ok (rs, r).
Proof. apply log_cut. Qed.

Lemma log_survives_a_crash_witness :
  exists w1 w2, memory_log [str "foo"; []] = Ok (true, w1) /\
    AddRecord true (fun _ => 0) (str "bar") w1 = Ok (true, w2) /\
    lengthZ (contents (dest_ w1)) = 17 /\
    exists r, read_all true (fun _ => 0) 3 6 (Reader_new (in_memory (takeZ 20 (contents (dest_ w2)))) true true 0) =
      Ok ([str "foo"; []], r).
Proof.
  destruct (log_survives_a_crash true true (fun _ => 0) (fun _ => 0) (F := memory_file) (G := memory_file)
    [str "foo"; []] (str "bar") (in_memory [])) as (w1 & w2 & E1 & E2 & Hread); [reflexivity|].
  exists w1, w2. split; [exact E1|]. split; [exact E2|].
  assert (H1 : w1 = match memory_log [str "foo"; []] with Ok (_, w) => w | _ => w1 end).
  { unfold memory_log. by rewrite E1. }
  assert (H2 : w2 = match AddRecord true (fun _ => 0) (str "bar") w1 with Ok (_, w) => w | _ => w2 end).
  { by rewrite E2. }
  vm_compute in H1. rewrite H1 in H2. vm_compute in H2. clear E1 E2. subst w1 w2.
  split; [reflexivity|]. apply (Hread _ 20); [split; vm_compute; [discriminate|reflexivity]|reflexivity|].
  intros q Hq. rewrite !elem_of_cons in Hq. destruct Hq as [-> |[-> |[-> |Hq]]]; [cbn; lia..|].
  by apply elem_of_nil in Hq.
Defined.

(** With checksums, a physical record of which one byte of the data was
    changed is not returned: the rest of the block is dropped and reported. *)
Theorem changed_byte_is_dropped (le : bool) (addr : bytes -> Z) {G : Type} `{SequentialFile G}
    (t : RecordType) (p q rest : bytes) (x y : byte) (r : Reader G) :
  x <> y -> t <> kZeroType -> lengthZ (p ++ x :: q) < 65536 ->
  buffer_ r = framed (Mask (crc32c 0 (chr (type_value t) :: p ++ x :: q))) t (p ++ y :: q) ++ rest ->
  initial_offset_ r = 0 -> checksum_ r = true ->
  ReadPhysicalRecord le addr r =
    Ok (kBadRecord, None,
      ReportCorruption (lengthZ (buffer_ r)) (str "checksum mismatch") (with_buffer [] r)).
Proof.
  intros Hxy Ht Hlen Hb Hi Hc. eapply read_physical_changed; try done.
  rewrite lengthZ_app in *. exact Hlen.
Qed.

Lemma changed_byte_is_dropped_witness :
  let r := mkReader (in_memory []) true true
    (framed (Mask (crc32c 0 (chr 1 :: str "foo"))) kFullType (str "fou")) true 0 10 0 [] in
  ReadPhysicalRecord true (fun _ => 0) r =
    Ok (kBadRecord, None, ReportCorruption 10 (str "checksum mismatch") (with_buffer [] r)).
Proof.
  intros r. apply (changed_byte_is_dropped true (fun _ => 0) kFullType (str "fo") [] []
    (Ascii.ascii_of_nat 111) (Ascii.ascii_of_nat 117) r); try done.
Defined.

(** ** Recovery *)

(** The strings of batches of updates. *)
Fixpoint batch_strings (le : bool) (batches : list (list update)) : outcome (list bytes) :=
  match batches with
  | [] => Ok []
  | us :: batches' =>
      b ← apply_updates le WriteBatch_new us;
      rest ← batch_strings le batches';
      Ok (rep_ b :: rest)
  end.

(** The records of a log are applied as batches, up to one that is corrupt. *)
Fixpoint replay (le : bool) {H} `{Handler H} (records : list bytes) (h : H) : outcome H :=
  match records with
  | [] => Ok h
  | contents :: records' =>
      b ← SetContents contents;
      '(st, h1) ← Iterate le b h;
      match st with None => replay le records' h1 | Some _ => Ok h1 end
  end.

Lemma batch_strings_bytes le batches :
  Forall (fun us => lengthZ us < 2 ^ 31) batches ->
  batch_strings le batches = Ok (batch_bytes 0 <$> batches).
Proof.
  induction 1 as [|us batches Hn Hall IH]; cbn [batch_strings fmap list_fmap]; [done|].
  rewrite new_batch, apply_updates_batch by (cbn; lia). cbn [mbind outcome_bind]. by rewrite IH.
Qed.

Lemma replay_bytes le {H} `{Handler H} batches (h : H) :
  Forall (fun us => lengthZ us < 2 ^ 31 /\ Forall update_fits us) batches ->
  replay le (batch_bytes 0 <$> batches) h = Ok (foldl handle h (concat batches)).
Proof.
  intros Hall. revert h. induction Hall as [|us batches [Hn Hfit] Hall IH]; intros h; [done|].
  cbn [replay fmap list_fmap concat]. unfold SetContents.
  assert (Hlen : kHeader <= lengthZ (batch_bytes 0 us)).
  { unfold batch_bytes. rewrite !lengthZ_app, !le_bytes_lengthZ.
    pose proof (lengthZ_nonneg (us ≫= update_bytes)). unfold kHeader. lia. }
  rewrite (proj2 (Z.leb_le _ _) Hlen). cbn [mbind outcome_bind]. rewrite Iterate_batch by done.
  cbn [mbind outcome_bind]. by rewrite IH, foldl_app.
Qed.

(** C24: batches of updates are written to a log, one record each, and a crash
    cuts the file in the record after them: reading the log and iterating over
    its records applies exactly the updates of the batches, in order. *)
Theorem recovery_applies_the_batches (le le' : bool) (addr addr' : bytes -> Z) {F G H : Type}
    `{ReliableWritable F} `{ReliableSequential G} `{Handler H}
    (batches : list (list update)) (p : bytes) (d : F) (h : H) :
  contents d = [] ->
  Forall (fun us => lengthZ us < 2 ^ 31 /\ Forall update_fits us) batches ->
  exists rs w1 w2, batch_strings le batches = Ok rs /\
    add_all le addr rs (Writer_new addr d) = Ok (true, w1) /\
    AddRecord le addr p w1 = Ok (true, w2) /\
    forall (g : G) n reporter checksum fuel,
      lengthZ (contents (dest_ w1)) <= n < lengthZ (contents (dest_ w2)) ->
      remaining g = takeZ n (contents (dest_ w2)) ->
      (forall q, q ∈ p :: rs -> (length q + 2 < fuel)%nat) ->
      ('(records, _) ← read_all le' addr' (S (length rs)) fuel (Reader_new g reporter checksum 0);
       replay le' records h) = Ok (foldl handle h (concat batches)).
Proof.
  intros Hd Hall. exists (batch_bytes 0 <$> batches).
  destruct (log_cut le le' addr addr' (G := G) (batch_bytes 0 <$> batches) p d Hd)
    as (w1 & w2 & E1 & E2 & Hread).
  exists w1, w2. split; [apply batch_strings_bytes; eapply Forall_impl; [exact Hall|by intros us [? _]]|].
  split; [done|]. split; [done|]. intros g n reporter checksum fuel Hn Hg Hfuel.
  destruct (Hread g n reporter checksum fuel Hn Hg Hfuel) as (r & ->). cbn [mbind outcome_bind].
  by apply replay_bytes.
Qed.

#[export] Instance updates_handler : Handler (list update) := {
  handler_Put h key value := h ++ [UPut key value];
  handler_Delete h key := h ++ [UDelete key]
}.

Lemma recovery_applies_the_batches_witness :
  exists w1 w2,
    add_all true (fun _ => 0) [batch_bytes 0 [UPut (str "k") (str "v"); UDelete (str "j")]]
      (Writer_new (fun _ => 0) (in_memory [])) = Ok (true, w1) /\
    AddRecord true (fun _ => 0) (str "bar") w1 = Ok (true, w2) /\
    ('(records, _) ← read_all true (fun _ => 0) 2 30
       (Reader_new (in_memory (takeZ 30 (contents (dest_ w2)))) true true 0);
     replay true records ([] : list update)) = Ok [UPut (str "k") (str "v"); UDelete (str "j")].
Proof.
  destruct (recovery_applies_the_batches true true (fun _ => 0) (fun _ => 0) (F := memory_file)
    (G := memory_file) [[UPut (str "k") (str "v"); UDelete (str "j")]] (str "bar") (in_memory []) ([] : list update))
    as (rs & w1 & w2 & Ers & E1 & E2 & Hread); [reflexivity|repeat constructor|].
  vm_compute in Ers. injection Ers as <-.
  exists w1, w2. split; [exact E1|]. split; [exact E2|].
  assert (H1 : w1 = match memory_log [batch_bytes 0 [UPut (str "k") (str "v"); UDelete (str "j")]] with Ok (_, w) => w | _ => w1 end).
  { unfold memory_log. change (batch_bytes 0 _) with (ltac:(let t := eval vm_compute in (batch_bytes 0 [UPut (str "k") (str "v"); UDelete (str "j")]) in exact t)). by rewrite E1. }
  assert (H2 : w2 = match AddRecord true (fun _ => 0) (str "bar") w1 with Ok (_, w) => w | _ => w2 end).
  { by rewrite E2. }
  vm_compute in H1. rewrite H1 in H2. vm_compute in H2. clear E1 E2. subst w1 w2.
  apply (Hread _ 30); [split; vm_compute; [discriminate|reflexivity]|reflexivity|].
  intros q Hq. rewrite !elem_of_cons in Hq. destruct Hq as [-> |[-> |Hq]]; [cbn; lia..|].
  by apply elem_of_nil in Hq.
Defined.

(** ** Checksums *)

(** [Extend], which walks to an aligned address, then takes words through
    four tables, is the CRC-32C taken bit by bit, wherever the buffer is; it
    can be continued, and masking loses nothing. *)
Theorem Extend_is_crc32c (pval pval' crc : Z) (p q : bytes) :
  0 <= crc < 2 ^ 32 ->
  Extend pval crc p = crc32c crc p /\
  0 <= Extend pval crc p < 2 ^ 32 /\
  Extend pval' (Extend pval crc p) q = crc32c crc (p ++ q) /\
  Unmask (Mask (Extend pval crc p)) = Extend pval crc p.
Proof.
  intros Hc. pose proof (crc32c_range crc p Hc). rewrite (Extend_crc32c pval crc p Hc).
  rewrite Extend_crc32c, crc32c_app, Unmask_Mask by done. done.
Qed.

(** The first of the standard test values of CRC-32C (RFC 3720). *)
Lemma Extend_is_crc32c_witness :
  Extend 1 0 (replicate 32 NUL) = 0x8a9136aa /\
  Extend 3 (Extend 1 0 (replicate 12 NUL)) (replicate 20 NUL) = 0x8a9136aa.
Proof.
  destruct (Extend_is_crc32c 1 0 0 (replicate 32 NUL) []) as [-> _]; [lia|].
  destruct (Extend_is_crc32c 1 3 0 (replicate 12 NUL) (replicate 20 NUL)) as (_ & _ & -> & _); [lia|].
  by vm_compute.
Defined.

(** ** Encodings *)

(** The variable-width encodings of 32 and 64 bits and the prefixed slice
    are read back, whatever follows; an encoding has the announced length. *)
Theorem coding_round_trip (v : Z) (s l : bytes) :
  0 <= v < 2 ^ 64 -> lengthZ s < 2 ^ 32 ->
  (v < 2 ^ 32 -> GetVarint32 (PutVarint32 [] v ++ l) = Some (v, l)) /\
  (exists b, PutVarint64 [] v = Ok b /\ GetVarint64 (b ++ l) = Some (v, l) /\
     VarintLength v = Ok (lengthZ b)) /\
  GetLengthPrefixedSlice (PutLengthPrefixedSlice [] s ++ l) = (Some s, l) /\
  GetLengthPrefixedSlicePtr (PutLengthPrefixedSlice [] s ++ l) = Some (s, l).
Proof.
  intros Hv Hs. split; [intros; apply GetVarint32_Put; lia|]. split; [|by apply GetLengthPrefixedSlice_Put].
  destruct (GetVarint64_Put v l Hv) as (b & E & Hget). exists b. unfold PutVarint64. rewrite E.
  split; [done|]. split; [done|]. by apply VarintLength_Encode.
Qed.

Lemma coding_round_trip_witness :
  GetVarint32 (PutVarint32 [] 300 ++ str "x") = Some (300, str "x") /\
  GetLengthPrefixedSlice (PutLengthPrefixedSlice [] (str "foo") ++ str "x") = (Some (str "foo"), str "x").
Proof.
  destruct (coding_round_trip 300 (str "foo") (str "x")) as (H32 & _ & Hs & _); [lia|done|].
  split; [by apply H32|exact Hs].
Defined.
