(* ===== verification/DbTheorems.v ===== *)
(** * LevelDB: the properties of the tables in memory and of the write path *)

From S2P Require Import Prelude.
From S2P Require Import Bytes.
From S2P Require Import Coding.
From S2P Require Import Comparator.
From S2P Require Import DbFormat.
From S2P Require Import Arena.
From S2P Require Import SkipList.
From S2P Require Import SkipListSpec.
From S2P Require Import Log.
From S2P Require Import LogSpec.
From S2P Require Import WriteBatch.
From S2P Require Import MemTable.
From S2P Require Import MemTableSpec.
From S2P Require Import DbImpl.
From S2P Require Import DbImplSpec.
From S2P Require Import LevelTheorems.
From stdpp Require Import base tactics numbers list gmap sorting strings.
From Stdlib Require Import Ascii ZArith Lia.

Open Scope Z_scope.

(** ** The skip list sorts *)

Section sorts.
Context {Key : Type} (valid : Key -> Prop) (order : Key -> Key -> Z) `{!ThreeWay order}.
Context (compare_ : Key -> Key -> outcome Z).
Context (compare_valid : forall k l, valid k -> valid l -> compare_ k l = Ok (order k l)).
Context (base : nat -> Z) (Hbase : forall b, base b mod 8 = 0).

Fixpoint insert_all (ks : list Key) (sl : SkipList Key) (a : Arena) : outcome (SkipList Key * Arena) :=
  match ks with
  | [] => Ok (sl, a)
  | k :: ks' => '(sl, a) ← SkipList.Insert compare_ base sl k a; insert_all ks' sl a
  end.

(** [for (iter.SeekToFirst(); iter.Valid(); iter.Next())]. *)
Fixpoint walk (sl : SkipList Key) (fuel : nat) (it : option nat) : outcome (list Key) :=
  match fuel with
  | O => NoFuel
  | S fuel' =>
      if bool_decide (is_Some it) then
        k ← Iterator_key sl it;
        it' ← Iterator_Next sl it;
        ks ← walk sl fuel' it';
        Ok (k :: ks)
      else Ok []
  end.

Definition sorted_list (ks : list Key) : outcome (list Key) :=
  match ks with
  | [] => Ok []
  | any :: _ =>
      '(sl, a) ← SkipList_new base any Arena_new;
      '(sl, _) ← insert_all ks sl a;
      it ← Iterator_SeekToFirst sl;
      walk sl (S (length ks)) it
  end.

Lemma sorted_place ks target :
  sorted_keys order ks -> exists k1 k2, ks = k1 ++ k2 /\ splits order target k1 k2.
Proof.
  intros Hs. induction Hs as [|k ks Hs (k1 & k2 & -> & H1 & H2) Hk]; [by exists [], []; repeat split; intros ? ?%elem_of_nil|].
  destruct (Z.lt_ge_cases (order k target) 0) as [Hlt|Hge].
  - exists (k :: k1), k2. split; [done|]. split; [|done]. intros l [->|Hl]%elem_of_cons; auto.
  - exists [], (k :: k1 ++ k2). split; [done|]. split; [by intros ? ?%elem_of_nil|].
    intros l [->|Hl]%elem_of_cons; [done|]. apply cmp_le_ge. apply cmp_le_ge in Hge.
    pose proof (proj1 (Forall_forall _ _) Hk l Hl) as Hkl. apply Z.lt_le_incl. by eapply cmp_le_lt_trans.
Qed.

Lemma insert_all_ok ks : forall sl a rs ls,
  sl_repr valid order sl ls -> arena_ok a rs -> Forall valid ks ->
  ForallOrdPairs (fun k l => order k l <> 0) ks -> (forall k l, k ∈ ks -> l ∈ ls -> order k l <> 0) ->
  exists sl' a' ls', insert_all ks sl a = Ok (sl', a') /\ sl_repr valid order sl' ls' /\ ls' ≡ₚ ks ++ ls.
Proof.
  induction ks as [|k ks IH]; intros sl a rs ls Hsl Ha Hv Hd Hne; [by exists sl, a, ls|].
  apply Forall_cons in Hv as [Hk Hv]. inversion_clear Hd as [|? ? Hkd Hd'].
  pose proof Hsl as [ids Hok]. destruct (sorted_place ls k (so_sorted _ _ _ _ _ Hok)) as (k1 & k2 & -> & H1 & H2).
  destruct (Insert_ok valid order compare_ compare_valid base Hbase sl k1 k2 k a rs Hsl Hk H1) as (sl1 & a1 & r & E & Hsl1 & Ha1);
    [|done|].
  { intros l Hl. specialize (H2 l Hl). apply cmp_lt_gt. specialize (Hne k l ltac:(left) ltac:(apply elem_of_app; auto)).
    destruct (Z.eq_dec (order l k) 0) as [E0|]; [|lia]. by apply (cmp_eq_sym l k) in E0. }
  cbn [insert_all]. rewrite E. cbn [mbind outcome_bind].
  destruct (IH sl1 a1 _ _ Hsl1 Ha1 Hv Hd') as (sl' & a' & ls' & -> & Hr & Hp).
  - intros k' l Hk' Hl. rewrite elem_of_app, elem_of_cons in Hl. destruct Hl as [Hl|[->|Hl]].
    + apply Hne; [by right|apply elem_of_app; auto].
    + intros E0. apply (proj1 (Forall_forall _ _) Hkd k' Hk'). by apply cmp_eq_sym.
    + apply Hne; [by right|apply elem_of_app; auto].
  - exists sl', a', ls'. split_and!; [done..|]. rewrite Hp. by rewrite <- !Permutation_middle.
Qed.

Lemma walk_sorted sl ks it n fuel :
  iter_at valid order sl ks it n -> (length ks < n + fuel)%nat -> walk sl fuel it = Ok (drop n ks).
Proof.
  revert it n. induction fuel as [|fuel IH]; intros it n Hit Hf; [destruct Hit as (? & ? & ? & ?); lia|].
  cbn [walk]. pose proof (iter_at_valid valid order _ _ _ _ Hit) as Hv. destruct (decide (n < length ks)%nat) as [Hn|Hn].
  - rewrite bool_decide_eq_true_2 by by apply Hv.
    destruct (lookup_lt_is_Some_2 ks n Hn) as [k Hk]. rewrite (Iterator_key_ok valid order _ _ _ _ k Hit Hk).
    cbn [mbind outcome_bind]. destruct (Iterator_Next_ok valid order _ _ _ _ Hit Hn) as (it' & -> & Hit').
    cbn [mbind outcome_bind]. rewrite (IH _ _ Hit') by lia. cbn [mbind outcome_bind].
    symmetry. f_equal. by apply drop_S.
  - rewrite bool_decide_eq_false_2 by (intros ?%Hv; lia). by rewrite drop_ge by lia.
Qed.

(** C15: keys inserted in a skip list in any order, whatever heights the
    generator gives the nodes, are visited by an iterator in ascending order,
    each once. *)
Theorem skiplist_sorts (ks : list Key) :
  Forall valid ks -> ForallOrdPairs (fun k l => order k l <> 0) ks ->
  exists sorted, sorted_list ks = Ok sorted /\ sorted ≡ₚ ks /\ StronglySorted (fun k l => order k l < 0) sorted.
Proof.
  intros Hv Hd. unfold sorted_list. destruct ks as [|any ks0] eqn:Eks; [by exists []; repeat constructor|].
  rewrite <- Eks in *.
  destruct (SkipList_new_ok valid order base Hbase any Arena_new [] Arena_new_ok) as (sl & a & r & -> & Hsl & Ha).
  cbn [mbind outcome_bind].
  destruct (insert_all_ok ks sl a _ [] Hsl Ha Hv Hd) as (sl' & a' & ls & -> & Hr & Hp); [by intros ? ? ? ?%elem_of_nil|].
  cbn [mbind outcome_bind]. destruct (Iterator_SeekToFirst_ok valid order _ _ Hr) as (it & -> & Hit). cbn [mbind outcome_bind].
  rewrite app_nil_r in Hp. exists ls. split; [|split; [done|]].
  - rewrite (walk_sorted _ _ _ _ _ Hit); [done|]. rewrite Hp. lia.
  - destruct Hr as [ids Hok]. apply (so_sorted _ _ _ _ _ Hok).
Qed.
End sorts.

Lemma skiplist_sorts_witness :
  exists sorted, sorted_list (fun k l => Ok (k - l)) (fun _ => 0) [30; 10; 50; 20; 40] = Ok sorted /\
    sorted ≡ₚ [30; 10; 50; 20; 40] /\ StronglySorted (fun k l => k - l < 0) sorted.
Proof.
  assert (Ht : ThreeWay (fun k l : Z => k - l)) by (split; intros; lia).
  apply (skiplist_sorts (fun _ => True) (fun k l => k - l)); [done|done| |].
  - by repeat constructor.
  - repeat constructor; lia.
Defined.

Example skiplist_sorts_five : sorted_list (fun k l => Ok (k - l)) (fun _ => 0) [30; 10; 50; 20; 40] = Ok [10; 20; 30; 40; 50].
Proof. vm_compute. reflexivity. Qed.

(** ** The memory table *)

Section memtable.
Context {platform : Platform} {C : Type} `{Comparator C} (c : C) `{!ComparatorLaws C c}.
Context (base : nat -> Z) (Hbase : forall b, base b mod 8 = 0).

(** Batches with the sequence numbers from [s] on. *)
Fixpoint insert_batches (s : Z) (gs : list (list update)) (m : MemTable) : outcome MemTable :=
  match gs with
  | [] => Ok m
  | us :: gs' =>
      '(_, m) ← InsertInto (mkInternalKeyComparator c) base (mkWriteBatch (batch_bytes s us)) m;
      insert_batches (s + lengthZ us) gs' m
  end.

Lemma insert_batches_ok gs : forall s m ws,
  mem_repr c m ws -> Forall (fun w => w_seq w < s) ws -> 0 <= s -> s + lengthZ (concat gs) <= 2 ^ 56 ->
  Forall (update_valid c) (concat gs) -> Forall (fun us => lengthZ us < 2 ^ 31) gs ->
  exists m', insert_batches s gs m = Ok m' /\ mem_repr c m' (ws ++ writes_of s (concat gs)).
Proof.
  induction gs as [|us gs IH]; intros s m ws Hm Hw Hs Hmax Hv Hsz; cbn [insert_batches concat] in *.
  { exists m. by rewrite app_nil_r. }
  apply Forall_app in Hv as [Hvu Hv]. apply Forall_cons in Hsz as [Hus Hsz]. rewrite lengthZ_app in Hmax.
  pose proof (lengthZ_nonneg us). pose proof (lengthZ_nonneg (concat gs)).
  destruct (InsertInto_ok c base Hbase us m ws s Hm Hw Hs ltac:(lia) Hus Hvu) as (m1 & -> & Hm1 & _).
  cbn [mbind outcome_bind].
  destruct (IH (s + lengthZ us) m1 _ Hm1) as (m' & -> & Hm'); [|lia..|done|done|].
  - apply Forall_app. split; [eapply Forall_impl; [exact Hw|]; intros w; cbn; lia|].
    apply Forall_forall. intros w Hin. apply writes_of_seq in Hin. lia.
  - exists m'. by rewrite writes_of_app, app_assoc.
Qed.

(** C14: a memory table that was given batches of updates answers, for every key
    and every snapshot, what a map answers after the updates up to the
    snapshot: the value, a deletion, or that it has nothing for the key. *)
Theorem memtable_is_a_versioned_map s0 gs u s :
  (forall a b, key_valid (c := c) a -> key_valid (c := c) b -> key_order (c := c) a b = 0 -> a = b) ->
  0 <= s0 -> s0 + lengthZ (concat gs) <= 2 ^ 56 ->
  Forall (update_valid c) (concat gs) -> Forall (fun us => lengthZ us < 2 ^ 31) gs ->
  key_valid (c := c) u -> lengthZ u + 8 < 2 ^ 32 -> sequence_ok s ->
  exists m, (m ← MemTable_new base; insert_batches s0 gs m) = Ok m /\
    (key ← LookupKey_new u s; MemTable_Get (mkInternalKeyComparator c) m key) =
      Ok (result_in (contents_of (takeZ (s + 1 - s0) (concat gs))) u).
Proof.
  intros Heq Hs0 Hmax Hv Hsz Hu Hl Hs. destruct (LookupKey_new_ok u s Hs Hl) as (key & Ek & _).
  destruct (MemTable_new_ok c base Hbase) as (m & -> & Hm & _). cbn [mbind outcome_bind].
  destruct (insert_batches_ok gs s0 m [] Hm) as (m' & E & Hm'); [constructor|done..|].
  exists m'. split; [done|]. rewrite Ek. by eapply MemTable_Get_history.
Qed.
End memtable.

#[local] Instance x86 : Platform := true.

Lemma bytewise_order_eq (a b : bytes) :
  key_valid (c := BytewiseComparator) a -> key_valid (c := BytewiseComparator) b ->
  key_order (c := BytewiseComparator) a b = 0 -> a = b.
Proof. intros _ _. apply lex_eq. Qed.

Lemma memtable_is_a_versioned_map_witness :
  exists m, (m ← MemTable_new (fun _ => 0);
      insert_batches BytewiseComparator (fun _ => 0) 1
        [[UPut (str "k") (str "1"); UPut (str "l") (str "2")]; [UDelete (str "k")]; [UPut (str "k") (str "3")]] m) = Ok m /\
    (key ← LookupKey_new (str "k") 2; MemTable_Get (mkInternalKeyComparator BytewiseComparator) m key) =
      Ok (Value_of (str "1")).
Proof.
  apply (memtable_is_a_versioned_map BytewiseComparator (fun _ => 0) (fun _ => eq_refl) 1
    [[UPut (str "k") (str "1"); UPut (str "l") (str "2")]; [UDelete (str "k")]; [UPut (str "k") (str "3")]] (str "k") 2);
    [exact bytewise_order_eq|done|done|..|done|done|by split].
  - cbn [concat app]. repeat constructor; done.
  - repeat constructor; done.
Defined.

(** ** The write path *)

#[export] Instance memory_log_files : LogFiles memory_file := {
  Sync f := (true, f);
  NewLogFile _ := Some (in_memory [])
}.
#[export, refine] Instance memory_reliable_log : ReliableLog memory_file := {}.
Proof. all: [> eauto | by intros n f [= <-] ]. Defined.

Section write_path.
Context {platform : Platform} (base : nat -> Z) (Hbase : forall b, base b mod 8 = 0) (addr : bytes -> Z).
Context {F : Type} `{ReliableLog F} (o : Options) (capacity : Z).
Notation c := BytewiseComparator.
Notation icmp := (mkInternalKeyComparator c).
Implicit Types db : DBImpl F.

(** C13: the writer at the front of the queue writes the batches of itself and
    of writers that follow it, in the order of the queue, as one record of the
    log and with consecutive sequence numbers in the memory table; that never
    fails, and the writers it wakes are exactly those whose batches it wrote. *)
Theorem group_commit db0 h0 db h ws upds :
  opened c base addr db0 h0 -> db_run c base addr o capacity (db0, h0) (db, h) ->
  Forall2 is_writer ws upds -> (exists w ws', ws = w :: ws' /\ is_Some (bw_batch w)) ->
  Forall (update_valid c) (concat upds) -> lengthZ (concat upds) < 2 ^ 31 -> lengthZ h + lengthZ (concat upds) < 2 ^ 56 ->
  exists n db', let added := concat (take n upds) in
    Write_front icmp base addr Status_ok ws db = Ok (Status_ok, n, db') /\ (1 <= n <= length ws)%nat /\
    last_sequence_ db' = lengthZ (h ++ added) /\
    exists rs, log_holds (db_log db) rs /\ log_holds (db_log db') (rs ++ [batch_bytes (1 + lengthZ h) added]) /\
      exists s ws0, mem_repr c (db_mem db) (writes_of s ws0) /\ mem_repr c (db_mem db') (writes_of s (ws0 ++ added)).
Proof.
  intros Hop Hrun Hq Hfront Hval H31 H56.
  apply (opened_inv c base Hbase) in Hop.
  destruct (run_inv c base Hbase addr o capacity (db0, h0) (db, h) _ _ _ Hrun Hop) as (filed & mid & gs & Hinv). cbn [fst snd] in Hinv.
  pose proof Hinv as [Hh Hok Hlog [s Ht] _].
  pose proof Hq as Hq0. pose proof Hfront as (first & queue & -> & Hsome).
  apply Forall2_cons_inv_l in Hq0 as (us & upd & Hf & Hq' & ->).
  cbn [concat] in *. rewrite (lengthZ_app us) in H31, H56. rewrite Hh in H56.
  destruct (Write_front_ok c base Hbase addr db filed mid (concat gs) _ s first queue us upd Hok Hlog Ht Hf Hsome Hq' Hval H31)
    as (m & db' & Hm & E & Hok' & Hlog' & _); [lia|].
  rewrite (dk_last _ _ _ _ _ Hok), <- Hh in Hlog'.
  exists (S m), db'. cbn [take concat length]. split; [done|]. split; [lia|]. split.
  - by rewrite (dk_last _ _ _ _ _ Hok'), Hh, <- !app_assoc.
  - eexists. split; [done|]. split; [done|]. do 2 eexists. split; [apply Hok|apply Hok'].
Qed.


End write_path.

(** *** A database in memory *)

Definition put_batch (kvs : list (bytes * bytes)) : list update := (fun kv => UPut kv.1 kv.2) <$> kvs.

Definition fresh_db : outcome (DBImpl memory_file) :=
  m ← MemTable_new (fun _ => 0);
  Ok (mkDBImpl (Ref m) None (Writer_new (fun _ => 0) (in_memory [])) 3 WriteBatch_new Status_ok 0 4 0).

Definition two_writers : list BatchWriter :=
  [mkBatchWriter (Some (mkWriteBatch (batch_bytes 0 [UPut (str "k") (str "1")]))) true;
   mkBatchWriter (Some (mkWriteBatch (batch_bytes 0 [UDelete (str "k"); UPut (str "l") (str "2")]))) false].
Definition two_updates : list (list update) :=
  [[UPut (str "k") (str "1")]; [UDelete (str "k"); UPut (str "l") (str "2")]].

Definition Write_two (db : DBImpl memory_file) : outcome (Status * nat * DBImpl memory_file) :=
  Write_front (mkInternalKeyComparator BytewiseComparator) (fun _ => 0) (fun _ => 0) Status_ok two_writers db.

Definition two_written : outcome (DBImpl memory_file) :=
  db ← fresh_db; '(_, _, db) ← Write_two db; Ok db.

(** Definitions of closed databases by evaluation. *)
Definition db_empty : DBImpl memory_file :=
  Eval vm_compute in match fresh_db with Ok db => db | _ => mkDBImpl (mkMemTable 0 Arena_new (mkSkipList [] 0 (Random_new 0))) None
    (Writer_new (fun _ => 0) (in_memory [])) 3 WriteBatch_new Status_ok 0 4 0 end.
Definition db_two : DBImpl memory_file :=
  Eval vm_compute in match two_written with Ok db => db | _ => db_empty end.

Lemma db_empty_opened : opened BytewiseComparator (fun _ => 0) (fun _ => 0) db_empty [].
Proof.
  split; [|done| |vm_compute; reflexivity|done|done|constructor].
  - eexists. split; [vm_compute; reflexivity|reflexivity].
  - exists (in_memory []). split; [done|]. vm_compute. reflexivity.
Qed.

Lemma db_two_written :
  group_write BytewiseComparator (fun _ => 0) (fun _ => 0) db_empty [] two_writers two_updates 2 db_two.
Proof.
  split; [|eauto|repeat constructor; done|done|done|vm_compute; reflexivity].
  repeat constructor; unfold is_writer; cbn [bw_batch]; eauto.
Qed.


Lemma group_commit_witness :
  exists n db', Write_two db_empty = Ok (Status_ok, n, db') /\ (1 <= n <= 2)%nat /\
    last_sequence_ db' = lengthZ (concat (take n two_updates)).
Proof.
  pose proof db_two_written as [Hq Hf Hv _ _ _].
  destruct (group_commit (fun _ => 0) (fun _ => eq_refl) (fun _ => 0) (mkOptions 4194304 false) 0 db_empty [] db_empty []
    two_writers two_updates db_empty_opened (rtc_refl _ _) Hq Hf Hv) as (n & db' & E & Hn & Hs & _); [done|done|].
  exists n, db'. split; [exact E|]. split; [exact Hn|exact Hs].
Defined.


