(* ===== verification/TableTheorems.v ===== *)
(** * LevelDB: the properties of blocks, filters and tables *)

From S2P Require Import Prelude.
From S2P Require Import Bytes.
From S2P Require Import Coding.
From S2P Require Import Comparator.
From S2P Require Import DbFormat.
From S2P Require Import Crc32c.
From S2P Require Import Log.
From S2P Require Import LogSpec.
From S2P Require Import Iterator.
From S2P Require Import Block.
From S2P Require Import BlockSpec.
From S2P Require Import BlockIter.
From S2P Require Import Format.
From S2P Require Import Bloom.
From S2P Require Import FilterBlock.
From S2P Require Import Table.
From S2P Require Import TableSpec.
From S2P Require Import TableGet.
From S2P Require Import LevelTheorems.
From stdpp Require Import base tactics numbers list gmap sorting strings.
From Stdlib Require Import Ascii ZArith Lia.

Open Scope Z_scope.

#[local] Instance x86_64 : Platform := true.

(** Files in memory, no compression library, and a cache that keeps all. *)
#[export] Instance memory_random : RandomAccessFile memory_file := fun f off n => (true, takeZ n (dropZ off (in_file f)), true).
#[export, refine] Instance memory_reliable_random : ReliableRandom memory_file := { file_bytes := in_file }.
Proof. intros f off n _ _ _. by exists true. Defined.

#[export] Instance no_snappy : Snappy := { Snappy_Compress _ := None; Snappy_GetUncompressedLength _ := None; Snappy_Uncompress _ := None }.
#[export] Instance no_snappy_laws : SnappyLaws.
Proof. by intros raw c. Qed.

Record memory_cache : Type := mkMemoryCache { mc_blocks : gmap bytes Block; mc_id : Z }.
#[export] Instance memory_BlockCache : BlockCache memory_cache := {
  cache_Lookup k key := (mc_blocks k !! key, k);
  cache_Insert k key b := mkMemoryCache (<[key := b]> (mc_blocks k)) (mc_id k);
  cache_NewId k := (mc_id k + 1, mkMemoryCache (mc_blocks k) (mc_id k + 1))
}.
#[export, refine] Instance memory_BlockCache_laws : BlockCacheLaws memory_cache := { cached k key := mc_blocks k !! key }.
Proof.
  - intros k key. by exists k.
  - intros k key b key' b'. cbn. rewrite lookup_insert_Some. intros [[<- <-]|[_ Hl]]; [by left|by right].
Defined.

(** ** Blocks *)

Section block.
Context {platform : Platform} {C : Type} `{Comparator C} (c : C) `{!ComparatorLaws C c} (interval : Z).

(** C21: entries in ascending order added to a block builder give a block of
    which an iterator visits them in order, from the last to the first in the
    opposite order, and finds for any key the first entry that is not before
    it, or that there is none. *)
Theorem block_round_trip (es : list (bytes * bytes)) :
  1 <= interval -> ascending c es -> Forall (fun e => key_valid (c := c) e.1) es -> entries_size es < 2 ^ 31 ->
  exists raw b i, block_of_entries c interval es = Ok raw /\ Block_new raw = Ok b /\ Block_NewIterator b = Ok i /\
    (forall fuel, (length es < fuel)%nat ->
       forwards (H := block_Iterator c) fuel i = Ok es /\ backwards (H := block_Iterator c) fuel i = Ok (rev es)) /\
    forall k, key_valid (c := c) k -> exists n i', first_from c es k n /\ bi_Seek c k i = Ok i' /\
      bi_Valid i' = bool_decide (is_Some (es !! n)) /\
      forall e, es !! n = Some e -> it_entry (H := block_Iterator c) i' = Ok e.
Proof.
  intros Hi Ha Hv Hs. destruct (block_of_entries_ok c interval Hi es Ha Hv Hs) as (bes & idx & E & Hb & Ees).
  destruct (Block_NewIterator_at c bes idx Hb) as (En & i & Ei & Hat). rewrite Ees in Hat.
  exists (block_data bes idx), (block_of bes idx), i. split; [done|]. split; [done|]. split; [done|]. split.
  - intros fuel Hf. split; [by eapply (forwards_ok c)|by eapply (backwards_ok c)].
  - intros k Hk. destruct (first_from_exists c es k) as [n Hn].
    destruct (it_Seek_at c i es _ k n Hat Hk Hn) as (i' & Es & Hat'). exists n, i'. split; [done|]. split; [exact Es|].
    split; [exact (it_Valid_at c i' es n Hat')|]. intros e He. by eapply (it_entry_at c).
Qed.
End block.

Definition five_entries : list (bytes * bytes) :=
  [(str "apple", str "1"); (str "apply", str "2"); (str "banana", str "3"); (str "band", str "4"); (str "bandana", str "5")].

Lemma five_entries_ascending : ascending BytewiseComparator five_entries.
Proof.
  intros i j e e' Hi Hj Hij. do 5 (destruct i as [|i]; [do 5 (destruct j as [|j]; [try lia; injection Hi as <-; injection Hj as <-; by vm_compute|]); done|]). done.
Qed.

Lemma five_entries_valid : Forall (fun e : bytes * bytes => key_valid (c := BytewiseComparator) e.1) five_entries.
Proof. by repeat constructor. Qed.

Lemma block_round_trip_witness :
  exists raw b i, block_of_entries BytewiseComparator 2 five_entries = Ok raw /\ Block_new raw = Ok b /\ Block_NewIterator b = Ok i /\
    forwards (H := block_Iterator BytewiseComparator) 6 i = Ok five_entries /\
    exists n i', first_from BytewiseComparator five_entries (str "bana") n /\ bi_Seek BytewiseComparator (str "bana") i = Ok i'.
Proof.
  destruct (block_round_trip BytewiseComparator 2 five_entries) as (raw & b & i & E1 & E2 & E3 & Hf & Hs);
    [done|exact five_entries_ascending|exact five_entries_valid|done|].
  exists raw, b, i. split; [exact E1|]. split; [exact E2|]. split; [exact E3|]. split; [apply Hf; cbn; lia|].
  destruct (Hs (str "bana")) as (n & i' & Hn & Hi' & _); [done|]. by exists n, i'.
Defined.

(** The keys share prefixes, with a restart point at every other entry. *)
Example block_restarts :
  (raw ← block_of_entries BytewiseComparator 2 five_entries; Ok (lengthZ raw)) = Ok (lengthZ (str "apple1y2banana3d4bandana5") + 15 + 16).
Proof. vm_compute. reflexivity. Qed.

(** ** Filters *)

(** C37: a bloom filter made for some keys denies none of them, whatever the
    number of bits per key. *)
Theorem bloom_denies_no_key {platform : Platform} (bits_per_key : Z) (keys : list bytes) (dst : bytes) :
  0 <= bits_per_key < 2 ^ 31 -> lengthZ keys < 2 ^ 31 ->
  exists filter, BloomFilterPolicy_CreateFilter (BloomFilterPolicy_new bits_per_key) keys dst = Ok (dst ++ filter) /\
    forall key, key ∈ keys -> BloomFilterPolicy_KeyMayMatch key filter = Ok true.
Proof. intros Hb Hn. by apply bloom_ok; [apply BloomFilterPolicy_new_ok|]. Qed.

Lemma bloom_denies_no_key_witness :
  exists filter, BloomFilterPolicy_CreateFilter (BloomFilterPolicy_new 10) [str "hello"; str "world"] [] = Ok filter /\
    BloomFilterPolicy_KeyMayMatch (str "world") filter = Ok true.
Proof.
  destruct (bloom_denies_no_key 10 [str "hello"; str "world"] []) as (f & E & Hf); [done|done|].
  exists f. split; [exact E|]. apply Hf. right. by left.
Defined.

(** C36: in the filter block of a table, built with any policy that keeps its
    promise, no key of a data block is denied at the offset of that block. *)
Theorem filter_block_denies_no_key {platform : Platform} {P : Type} `{FilterPolicyLaws P policy} (blocks : list (Z * list bytes)) :
  Forall (fun x => 0 <= x.1 /\ Forall (filter_key (p := policy)) x.2) blocks -> StronglySorted Z.le blocks.*1 ->
  lengthZ (concat blocks.*2) < 2 ^ 31 ->
  exists raw, build_filter (policy := policy) blocks = Ok raw /\
    (lengthZ raw < 2 ^ 32 -> exists r, FilterBlockReader_new raw = Ok r /\
       forall off keys key, (off, keys) ∈ blocks -> key ∈ keys -> FilterBlockReader_KeyMayMatch policy r off key = Ok true).
Proof. apply build_filter_ok. Qed.

Definition two_blocks : list (Z * list bytes) := [(0, [str "foo"; str "bar"]); (3000, [str "box"])].

#[local] Instance bloom10_laws : FilterPolicyLaws BloomFilterPolicy (BloomFilterPolicy_new 10).
Proof. by apply bloom_laws. Defined.

Lemma filter_block_denies_no_key_witness :
  exists raw, build_filter (policy := BloomFilterPolicy_new 10) two_blocks = Ok raw /\
    (lengthZ raw < 2 ^ 32 -> exists r, FilterBlockReader_new raw = Ok r /\
       FilterBlockReader_KeyMayMatch (BloomFilterPolicy_new 10) r 3000 (str "box") = Ok true).
Proof.
  destruct (filter_block_denies_no_key (policy := BloomFilterPolicy_new 10) two_blocks) as (raw & E & Hraw).
  - repeat constructor; done.
  - repeat constructor; done.
  - done.
  - exists raw. split; [exact E|]. intros Hl. destruct (Hraw Hl) as (r & Er & Hr). exists r. split; [exact Er|].
    apply (Hr 3000 [str "box"]); [right; left|left].
Defined.

(** ** Blocks of a file *)

Section file.
Context {platform : Platform} `{SnappyLaws} (addr : bytes -> Z) {R : Type} `{ReliableRandom R}.

(** C35: with checksums, a block of a table of which one byte was changed is not
    returned. *)
Theorem changed_block_is_rejected (file : R) (before p : bytes) (x y : byte) (q after : bytes) (t : CompressionType) :
  x <> y -> lengthZ (p ++ x :: q) < 2 ^ 63 ->
  file_bytes file = before ++ (p ++ y :: q ++ [chr (compression_value t)]) ++
    le_bytes 4 (Mask (crc32c 0 (p ++ x :: q ++ [chr (compression_value t)]))) ++ after ->
  ReadBlock addr file true (mkBlockHandle (lengthZ before) (lengthZ (p ++ x :: q))) =
    Ok (Corruption (str "block checksum mismatch"), BlockContents_new).
Proof.
  intros Hxy Hlen Hf. eapply ReadBlock_changed; [exact Hxy|done|reflexivity|]. eapply reads_at; [exact Hf|]. by rewrite <- !app_assoc.
Qed.
End file.

Lemma changed_block_is_rejected_witness :
  ReadBlock (fun _ => 0) (in_memory (str "data" ++ chr 0 :: le_bytes 4 (Mask (crc32c 0 (str "date" ++ [chr 0]))))) true
    (mkBlockHandle 0 4) = Ok (Corruption (str "block checksum mismatch"), BlockContents_new).
Proof.
  apply (changed_block_is_rejected (fun _ => 0)
    (in_memory (str "data" ++ chr 0 :: le_bytes 4 (Mask (crc32c 0 (str "date" ++ [chr 0]))))) [] (str "dat") (chr 101) (chr 97) [] [] kNoCompression); done.
Defined.

(** ** Tables *)

Section table.
Context {platform : Platform} {C : Type} `{Comparator C} (c : C) `{!ComparatorLaws C c}.
Context {P : Type} `{FilterPolicy P} `{SnappyLaws} (addr : bytes -> Z).
Context (block_size interval : Z) (compression : CompressionType).
Context {F : Type} `{ReliableWritable F} {R : Type} `{ReliableRandom R} {K : Type} `{BlockCacheLaws K}.

(** Lookups one after the other; the entry the table calls back with. *)
Fixpoint get_all (verify fill : bool) (t : Table R) (ks : list bytes) (cache : option K) :
    outcome (list (Status * option (bytes * bytes)) * option K) :=
  match ks with
  | [] => Ok ([], cache)
  | k :: ks' =>
      '(s, r, cache) ← InternalGet c (P := P) None addr verify fill t k None (fun _ key value => Ok (Some (key, value))) cache;
      '(rs, cache) ← get_all verify fill t ks' cache;
      Ok ((s, r) :: rs, cache)
  end.



End table.

Definition no_policy : option BloomFilterPolicy := None.


(** A concrete table, with several blocks. *)
Example table_of_five :
  (r ← build_table BytewiseComparator (P := BloomFilterPolicy) (fun _ => 0) 20 2 kNoCompression (in_memory []) five_entries;
   '(s, t, cache) ← Table_Open (P := BloomFilterPolicy) None (fun _ => 0) (tb_file r) (tb_offset r) (Some (mkMemoryCache ∅ 0));
   t ← in_bounds t;
   '(rs, _) ← get_all BytewiseComparator (P := BloomFilterPolicy) (fun _ => 0) true true t [str "band"; str "apply"; str "c"] cache;
   Ok rs) = Ok [(Status_ok, Some (str "band", str "4")); (Status_ok, Some (str "apply", str "2")); (Status_ok, None)].
Proof. vm_compute. reflexivity. Qed.
