(* ===== verification/LevelVersions.v ===== *)
(** * LevelDB: the properties of file names, version edits and versions *)

From S2P Require Import Prelude.
From S2P Require Import Bytes.
From S2P Require Import Coding.
From S2P Require Import Comparator.
From S2P Require Import DbFormat.
From S2P Require Import Filename.
From S2P Require Import VersionEdit.
From S2P Require Import WriteBatch.
From S2P Require Import Iterator.
From S2P Require Import MemTable.
From S2P Require Import MemTableSpec.
From S2P Require Import TableGet.
From S2P Require Import VersionSpec.
From S2P Require Import Version.
From S2P Require Import OverlapSpec.
From stdpp Require Import base tactics numbers list gmap sorting strings.
From Stdlib Require Import Ascii ZArith Lia.

Open Scope Z_scope.

#[local] Instance x86_64 : Platform := true.
Notation bw := BytewiseComparator.
Notation ibw := (mkInternalKeyComparator BytewiseComparator).

(** ** File names *)

(** The names the database gives its files say what they are: the parser
    gives back the type and the number of every file that has one, for every
    number of 64 bits, and knows the others. *)
Theorem file_names_are_parsed dbname n :
  0 < n < 2 ^ 64 ->
  Forall (fun '(file_name, t) =>
      exists file, file_name dbname n = Ok (dbname ++ str "/" ++ file) /\ ParseFileName file = Ok (Some (n, t)))
    [(LogFileName, kLogFile); (SSTTableFileName, kTableFile); (TableFileName, kTableFile);
     (DescriptorFileName, kDescriptorFile); (TempFileName, kTempFile)] /\
  Forall (fun '(file_name, t) =>
      exists file, file_name dbname = dbname ++ str "/" ++ file /\ ParseFileName file = Ok (Some (0, t)))
    [(CurrentFileName, kCurrentFile); (LockFileName, kDBLockFile); (InfoLogFileName, kInfoLogFile); (OldInfoLogFileName, kInfoLogFile)].
Proof.
  intros Hn. assert (Hpos : (0 <? n) = true) by (apply Z.ltb_lt; lia). split.
  - unfold LogFileName, SSTTableFileName, TableFileName, DescriptorFileName, TempFileName. rewrite !Forall_cons, Forall_nil.
    split_and!; [..|done]; rewrite bind_assert by done; (eexists; split; [reflexivity|]);
      [eapply ParseFileName_numbered; [lia|set_solver]..| |].
    + apply (ParseFileName_manifest n). lia.
    + eapply ParseFileName_numbered; [lia|set_solver].
  - repeat constructor; eexists; (split; [reflexivity|by vm_compute]).
Qed.

Lemma file_names_are_parsed_witness :
  Forall (fun '(file_name, t) =>
      exists file, file_name (str "db") 7 = Ok (str "db" ++ str "/" ++ file) /\ ParseFileName file = Ok (Some (7, t)))
    [(LogFileName, kLogFile); (SSTTableFileName, kTableFile); (TableFileName, kTableFile);
     (DescriptorFileName, kDescriptorFile); (TempFileName, kTempFile)].
Proof. apply (file_names_are_parsed (str "db") 7). lia. Defined.

(** ** Version edits *)

(** C38: a version edit written to the manifest and read back is the edit it
    was, the compaction pointers of the edit it is read into excepted, which
    are kept. *)
Theorem version_edit_round_trip e e0 dst :
  edit_ok e -> edit_wf e ->
  exists b, VersionEdit_EncodeTo e dst = Ok (dst ++ b) /\
    VersionEdit_DecodeFrom b e0 =
      Ok (Status_ok, with_lists (compact_pointers_ e0 ++ compact_pointers_ e) (deleted_files_ e) (new_files_ e) e).
Proof. apply VersionEdit_round_trip. Qed.

Definition some_edit : VersionEdit :=
  AddFile 1 17 2048 (internal_key (str "a") 3 kTypeValue) (internal_key (str "q") 9 kTypeDeletion)
    (DeleteFile 0 12 (DeleteFile 0 5 (SetCompactPointer 1 (internal_key (str "m") 4 kTypeValue)
      (edit_SetLastSequence 9 (SetNextFile 18 (SetLogNumber 16 (SetComparatorName (str "c") VersionEdit_new))))))).

Lemma version_edit_round_trip_witness :
  exists b, VersionEdit_EncodeTo some_edit [] = Ok b /\ VersionEdit_DecodeFrom b VersionEdit_new = Ok (Status_ok, some_edit).
Proof.
  destruct (version_edit_round_trip some_edit VersionEdit_new []) as (b & E & D).
  - unfold edit_ok. repeat constructor; by vm_compute.
  - split; try done. by repeat constructor.
  - exists b. by split.
Defined.

(** ** Reading a version *)

(** Tables in memory, by their number. *)
Definition memory_tables : Type := gmap Z (list (bytes * bytes)).

Definition first_at_least (es : list (bytes * bytes)) (k : bytes) : option (bytes * bytes) :=
  snd <$> list_find (fun e => 0 <= key_order (c := ibw) e.1 k) es.

#[export] Instance memory_Tables : Tables memory_tables := {
  Tables_Get A t number size k arg saver :=
    match t !! number with
    | Some es =>
        arg ← match first_at_least es k with Some (key, value) => saver arg key value | None => Ok arg end;
        Ok (Status_ok, arg, t)
    | None => Ok (NotFound [], arg, t)
    end
}.

Lemma first_at_least_found es k : found ibw es k (first_at_least es k).
Proof.
  unfold first_at_least, found. destruct (list_find _ es) as [[n e]|] eqn:E; cbn [fmap option_fmap option_map snd].
  - apply list_find_Some in E as (Hn & Hge & Hlt). exists n. split; [|done]. split; [apply lookup_lt_Some in Hn; lia|]. split.
    + intros i e' Hi Hin. specialize (Hlt i e' Hi Hin). cbn in Hlt |- *. lia.
    + intros e' He'. by simplify_eq.
  - left. split; [done|]. split; [|intros e He; by rewrite (lookup_ge_None_2 es) in He].
    apply list_find_None in E. rewrite Forall_forall in E. intros i e Hi _. apply list_elem_of_lookup_2, E in Hi. cbn in Hi |- *. lia.
Qed.

#[export, refine] Instance memory_TablesLaws : TablesLaws bw memory_tables := { table_has t number _ es := t !! number = Some es }.
Proof.
  intros A t number size es k arg saver He _. exists (first_at_least es k), t. split; [apply first_at_least_found|]. split; [done|].
  cbn. by rewrite He.
Defined.

Section versions.
Context {platform : Platform} {C : Type} `{Comparator C} (c : C) `{!ComparatorLaws C c}.
Context {T : Type} `{!Tables T} `{!TablesLaws c T} (W : FileMetaData -> list write).
Notation icmp := (mkInternalKeyComparator c).

(** C16: [Version::Get] searches the files that may have the key, newest first
    at level 0 and one file of each level below it, and answers what all the
    writes of the version answer: the newest one that the snapshot shows, as a
    value or as nothing when it is a deletion or when there is none. *)
Theorem version_get_is_correct (v : Version) (t : T) u s :
  version_ok c W t v -> sequence_ok s -> key_valid (c := c) u -> lengthZ u + 8 < 2 ^ 32 ->
  exists key a stats t', LookupKey_new u s = Ok key /\
    Version_Get icmp v t key = Ok (get_result a, stats, t') /\
    answers c (version_writes W v) u s a /\ version_ok c W t' v.
Proof.
  intros Hv Hs Hu Hl. destruct (LookupKey_new_ok u s Hs Hl) as (key & E & _).
  destruct (Version_Get_ok c W v t u s key Hv Hs Hu Hl E) as (a & stats & t' & EG & Ha & Hv'). by exists key, a, stats, t'.
Qed.

(** C39: the files of a level that overlap a range are found, at level 0 for a
    range that grows with each file found until no file goes beyond it; the
    search always ends, and its test for a single overlap agrees. *)
Theorem overlapping_inputs_are_found v level files begin_key end_key :
  0 <= level < kNumLevels -> nthZ (files_ v) level = Some files -> Forall (file_bounds_ok c) files -> lengthZ files < 2 ^ 31 ->
  (0 < level -> files_disjoint c files) ->
  (forall k, begin_key = Some k -> internal_valid c k) -> (forall k, end_key = Some k -> internal_valid c k) ->
  exists inputs lo hi, GetOverlappingInputs icmp v level begin_key end_key = Ok inputs /\
    overlap_result c level files (user_bound begin_key) (user_bound end_key) lo hi inputs /\
    exists b, OverlapInLevel icmp v level (user_bound begin_key) (user_bound end_key) = Ok b /\
      (b = true <-> Exists (fun f => file_overlaps c f (user_bound begin_key) (user_bound end_key)) files).
Proof.
  intros Hlev Hfiles Hf Hsz Hd Hb He.
  destruct (GetOverlappingInputs_ok c v level files begin_key end_key Hlev Hfiles) as (inputs & lo & hi & E & Hr); [|done..|].
  { eapply Forall_impl; [exact Hf|]. by intros f []. }
  exists inputs, lo, hi. split; [done|]. split; [done|]. unfold OverlapInLevel, level_files. rewrite Hfiles. cbn [in_bounds mbind outcome_bind].
  apply SomeFileOverlapsRange_ok; [done|done| |..].
  - intros Hl%Z.ltb_lt. by apply Hd.
  - intros u Hu. destruct begin_key as [k|]; [|done]. injection Hu as <-. by apply Hb.
  - intros u Hu. destruct end_key as [k|]; [|done]. injection Hu as <-. by apply He.
Qed.

(** C40: a table written from a memory table goes to level 0 when it overlaps a
    file there, and otherwise to a level such that no file of that level or of
    one in front of it overlaps it: the search, which takes the levels in
    order, still finds newer writes first.  The level is at most 2. *)
Theorem memtable_output_level v lo hi :
  levels_bounded c v -> key_valid (c := c) lo -> key_valid (c := c) hi ->
  exists level, PickLevelForMemTableOutput icmp v lo hi = Ok level /\ 0 <= level <= kMaxMemCompactLevel /\
    (0 < level -> forall l, 0 <= l <= level -> level_free c v lo hi l).
Proof. apply PickLevel_ok. Qed.
End versions.

(** *** A version of three files *)

Definition w_at (seq : Z) (t : ValueType) (k v : string) : write := mkWrite seq t (str k) (str v).

(** Two files of level 0 that overlap, the second newer, and one of level 1. *)
Definition old_writes : list write := [w_at 1 kTypeValue "a" "1"; w_at 2 kTypeValue "m" "2"; w_at 3 kTypeValue "z" "3"].
Definition mid_writes : list write := [w_at 4 kTypeValue "c" "4"; w_at 6 kTypeDeletion "m" ""; w_at 5 kTypeValue "m" "5"].
Definition new_writes : list write := [w_at 7 kTypeValue "k" "7"; w_at 8 kTypeValue "p" "8"].

Definition file_of (number : Z) (ws : list write) : FileMetaData :=
  new_file number 100 (default [] (w_internal <$> head ws)) (default [] (w_internal <$> last ws)).

Definition writes_of_file (f : FileMetaData) : list write :=
  if f_number f =? 3 then old_writes else if f_number f =? 4 then mid_writes else new_writes.

Definition three_files : Version :=
  mkVersion [[file_of 4 mid_writes; file_of 5 new_writes]; [file_of 3 old_writes]; []; []; []; []; []].
Definition three_tables : memory_tables := {[3 := w_kv <$> old_writes; 4 := w_kv <$> mid_writes; 5 := w_kv <$> new_writes]}.

Ltac in_cases H := cbn in H; repeat (let E := fresh in apply elem_of_cons in H as [E|H]; [simplify_eq|]); [..|by apply elem_of_nil in H].

Lemma three_fits ws : ws ∈ [old_writes; mid_writes; new_writes] -> Forall (write_fits bw) ws.
Proof. intros Hw. in_cases Hw; repeat constructor; by vm_compute. Qed.

Lemma sorted_ascending es : StronglySorted (fun e e' => key_order (c := ibw) e.1 e'.1 < 0) es -> ascending ibw es.
Proof. intros Hs i j e e' Hi Hj Hij. exact (StronglySorted_lookup _ es i j e e' Hs Hi Hj Hij). Qed.

Lemma file_of_ok number ws :
  (number, ws) ∈ [(3, old_writes); (4, mid_writes); (5, new_writes)] -> file_ok bw writes_of_file three_tables (file_of number ws).
Proof.
  intros Hn. assert (Hws : ws ∈ [old_writes; mid_writes; new_writes]) by (in_cases Hn; set_solver).
  assert (Hw : writes_of_file (file_of number ws) = ws) by by in_cases Hn.
  in_cases Hn; (eapply file_ok_of; rewrite ?Hw; [done|by apply three_fits| |done..]); apply sorted_ascending;
    repeat (apply SSorted_cons || apply SSorted_nil || apply Forall_cons || split || apply Forall_nil).
Qed.

Lemma three_files_ok : version_ok bw writes_of_file three_tables three_files.
Proof.
  unfold version_ok, three_files. cbn [files_ levels_ok concat app].
  assert (Hnil : forall l, level_ok bw writes_of_file (Z.pos l) []) by (intros l; split; [by intros i j e e' He|done]).
  assert (Hnew : forall ws, newer bw ws (writes_in writes_of_file [])) by by intros ws w w' _ ?%elem_of_nil.
  split_and!; try done; try (apply Forall_forall; intros f Hf; in_cases Hf; apply file_of_ok; set_solver).
  - unfold level_ok, level0_ok. cbn [Z.eqb]. split; [repeat constructor; set_solver|]. intros f g Hf Hg Hlt. in_cases Hf; in_cases Hg; try done.
    intros w w' Hw Hw' Ek. by in_cases Hw; in_cases Hw'.
  - intros w w' Hw Hw' Ek. by in_cases Hw; in_cases Hw'.
  - split; [|done]. apply sorted_ascending. repeat (apply SSorted_cons || apply SSorted_nil || apply Forall_cons || split || apply Forall_nil).
Qed.

(** The deletion of [m] hides the two older values from a late snapshot, and
    an early one sees the value of level 1. *)
Lemma version_get_is_correct_witness :
  exists a b stats1 stats2 t1 t2,
    (key ← LookupKey_new (str "m") 8; Version_Get ibw three_files three_tables key) = Ok (get_result a, stats1, t1) /\
    answers bw (version_writes writes_of_file three_files) (str "m") 8 a /\
    (key ← LookupKey_new (str "m") 2; Version_Get ibw three_files three_tables key) = Ok (get_result b, stats2, t2) /\
    answers bw (version_writes writes_of_file three_files) (str "m") 2 b.
Proof.
  destruct (version_get_is_correct bw writes_of_file three_files three_tables (str "m") 8 three_files_ok)
    as (k1 & a & s1 & t1 & -> & E1 & Ha & _); [by split|done|done|].
  destruct (version_get_is_correct bw writes_of_file three_files three_tables (str "m") 2 three_files_ok)
    as (k2 & b & s2 & t2 & -> & E2 & Hb & _); [by split|done|done|].
  by exists a, b, s1, s2, t1, t2.
Defined.

Example deleted_then_found :
  (key ← LookupKey_new (str "m") 8; '(r, _, _) ← Version_Get ibw three_files three_tables key; Ok r) = Ok (NotFound [], None) /\
  (key ← LookupKey_new (str "m") 2; '(r, _, _) ← Version_Get ibw three_files three_tables key; Ok r) = Ok (Status_ok, Some (str "2")).
Proof. split; vm_compute; reflexivity. Qed.

Lemma three_files_bounded : levels_bounded bw three_files.
Proof.
  intros l [H0 H7]. assert (Hl : l ∈ [0; 1; 2; 3; 4; 5; 6]) by (unfold kNumLevels in H7; rewrite !elem_of_cons; lia).
  assert (Hf : forall n ws, (n, ws) ∈ [(3, old_writes); (4, mid_writes); (5, new_writes)] -> file_bounds_ok bw (file_of n ws)).
  { intros n ws Hn. by eapply file_ok_bounds, file_of_ok. }
  in_cases Hl; (eexists; split; [reflexivity|]; split; [apply Forall_forall; intros f Hin; in_cases Hin; apply Hf; set_solver|]; split; [done|]); try done;
    intros _ [|i] [|j] f g Hi Hj Hij; (done || lia).
Qed.

Lemma overlapping_inputs_are_found_witness :
  exists inputs lo hi,
    GetOverlappingInputs ibw three_files 0 (Some (internal_key (str "n") 9 kTypeValue)) (Some (internal_key (str "o") 9 kTypeValue)) = Ok inputs /\
    overlap_result bw 0 [file_of 4 mid_writes; file_of 5 new_writes] (Some (str "n")) (Some (str "o")) lo hi inputs.
Proof.
  destruct (three_files_bounded 0 ltac:(by split)) as (files & [= <-] & Hf & Hsz & Hd).
  destruct (overlapping_inputs_are_found bw three_files 0 _ (Some (internal_key (str "n") 9 kTypeValue)) (Some (internal_key (str "o") 9 kTypeValue))
    ltac:(by split) eq_refl Hf Hsz Hd) as (inputs & lo & hi & E & Hr & _);
    [by intros k [= <-]; apply internal_key_valid|by intros k [= <-]; apply internal_key_valid|].
  by exists inputs, lo, hi.
Defined.

(** A range that touches only the second file brings in the first. *)
Example range_grows :
  GetOverlappingInputs ibw three_files 0 (Some (internal_key (str "n") 9 kTypeValue)) (Some (internal_key (str "o") 9 kTypeValue)) =
    Ok [file_of 4 mid_writes; file_of 5 new_writes].
Proof. vm_compute. reflexivity. Qed.

Lemma memtable_output_level_witness :
  exists level, PickLevelForMemTableOutput ibw three_files (str "zz") (str "zzz") = Ok level /\ 0 <= level <= 2.
Proof.
  destruct (memtable_output_level bw three_files (str "zz") (str "zzz") three_files_bounded) as (level & E & Hl & _); [done|done|].
  by exists level.
Defined.
