(* ===== verification/ManifestTheorems.v ===== *)
(** * LevelDB: the properties of the set of versions and its manifest *)

From S2P Require Import Prelude.
From S2P Require Import Bytes.
From S2P Require Import Coding.
From S2P Require Import Comparator.
From S2P Require Import DbFormat.
From S2P Require Import Filename.
From S2P Require Import VersionEdit.
From S2P Require Import Log.
From S2P Require Import LogSpec.
From S2P Require Import Iterator.
From S2P Require Import Format.
From S2P Require Import Env.
From S2P Require Import Version.
From S2P Require Import VersionSet.
From S2P Require Import VersionSpec.
From S2P Require Import VersionSetSpec.
From S2P Require Import ManifestSpec.
From S2P Require Import LevelTheorems.
From S2P Require Import TableTheorems.
From stdpp Require Import base tactics numbers list sorting gmap strings.
From Stdlib Require Import Ascii ZArith Lia.

Open Scope Z_scope.

#[local] Instance x86_64 : Platform := true.
#[local] Notation bw := BytewiseComparator.
#[local] Notation ibw := (mkInternalKeyComparator BytewiseComparator).

(** ** An environment in memory *)

Definition memory_env : Type := bytes -> option bytes.
Definition put_file (e : memory_env) (n : bytes) (d : option bytes) : memory_env :=
  fun m => if bool_decide (m = n) then d else e m.

#[export] Instance memory_Env : Env memory_env memory_file memory_file memory_file := {
  env_NewWritableFile e n := (Some (in_memory []), put_file e n (Some []));
  env_Sync f := (true, f);
  env_Close e n f := (true, put_file e n (Some (in_file f)));
  env_Drop e n f := e;
  env_NewSequentialFile e n := in_memory <$> e n;
  env_NewRandomAccessFile e n := in_memory <$> e n;
  env_RenameFile e n n' := match e n with Some d => (true, put_file (put_file e n None) n' (Some d)) | None => (false, e) end;
  env_DeleteFile e n := (true, put_file e n None);
  env_FileExists e n := bool_decide (is_Some (e n))
}.

#[export, refine] Instance memory_ReliableEnv : ReliableEnv memory_env memory_file memory_file memory_file := { file_of e n := e n }.
Proof.
  - intros e n. by do 2 eexists.
  - intros f. by exists f.
  - intros e n f. by eexists.
  - intros e n d E. cbn. rewrite E. by eexists.
  - intros e n d E. cbn. rewrite E. by eexists.
  - intros e n n' d E. cbn. rewrite E. eexists. split; [done|]. intros m. unfold put_file. by repeat case_bool_decide.
  - intros e n. by do 2 eexists.
  - done.
Defined.

(** ** The set of versions *)

(** C17: in an environment that does not fail, [LogAndApply] installs the
    version an edit leads to: every level has the files it had without those
    the edit deletes and with those it adds, in the order of their keys, and
    keeps its invariant; the manifest, a new one with a snapshot if there was
    none, has the edit and makes the version again; CURRENT names it. *)
Theorem LogAndApply_installs {platform : Platform} {C : Type} `{Comparator C} (c : C) `{!ComparatorLaws C c}
    {E F G R : Type} `{ReliableEnv E F G R} (addr : bytes -> Z) (dbname : bytes) (vs : VersionSet F) es edit (e : E) :
  lengthZ (name c) < 2 ^ 32 -> set_ok c vs es -> edit_good c edit -> log_number_fits vs edit ->
  fresh_in (edits_before c vs edit es) edit -> edit_apart c (files_ (current_ vs)) edit ->
  exists vs' e' log,
    LogAndApply (mkInternalKeyComparator c) addr dbname edit vs e = Ok (true, completed vs edit, vs', e') /\
    applied_to c dbname vs es edit e vs' e' log.
Proof. intros Hn. by apply LogAndApply_ok. Qed.

Definition ikey (u : string) (s : Z) : bytes := internal_key (str u) s kTypeValue.

(** A table of level 1 and one of level 2. *)
Definition edit_two : VersionEdit :=
  AddFile 2 4 300 (ikey "d" 5) (ikey "k" 2) (AddFile 1 3 100 (ikey "a" 9) (ikey "f" 8) (SetLogNumber 2 VersionEdit_new)).
Definition set_two : VersionSet memory_file :=
  mkVersionSet 5 2 9 0 0 None Version_new (replicate (Z.to_nat kNumLevels) []).

Lemma set_two_ok : set_ok bw set_two [].
Proof.
  split; cbn; [apply levels_wf_new| |by split; cbn; unfold number_ok|done|done].
  split; [done|]. repeat (constructor; [by left|]). constructor.
Qed.

Lemma ikey_valid u s : lengthZ (str u) < 2 ^ 31 -> internal_valid bw (ikey u s).
Proof. exact (internal_key_valid bw (str u) s kTypeValue). Qed.

Lemma edit_two_good : edit_good bw edit_two.
Proof.
  split.
  - change (Forall field_ok [FLogNumber 2; FNew 1 (new_file 3 100 (ikey "a" 9) (ikey "f" 8)); FNew 2 (new_file 4 300 (ikey "d" 5) (ikey "k" 2))]).
    rewrite !Forall_cons, Forall_nil. cbn [field_ok new_file f_number f_file_size f_smallest f_largest].
    unfold number_ok, VersionEdit.level_ok, kNumLevels, ikey_ok. split_and!; try lia; try done; vm_compute; reflexivity.
  - split; try done. constructor.
  - change (Forall (fun p => file_keys_ok bw p.2) [(1, new_file 3 100 (ikey "a" 9) (ikey "f" 8)); (2, new_file 4 300 (ikey "d" 5) (ikey "k" 2))]).
    rewrite !Forall_cons, Forall_nil.
    split_and!; try done; (split; [by apply ikey_valid|split; [by apply ikey_valid|by vm_compute]]).
  - done.
Qed.

Lemma edit_two_level n :
  at_level (new_files_ edit_two) n = (if decide (1 = Z.of_nat n) then [new_file 3 100 (ikey "a" 9) (ikey "f" 8)] else []) ++
    (if decide (2 = Z.of_nat n) then [new_file 4 300 (ikey "d" 5) (ikey "k" 2)] else []).
Proof.
  change (new_files_ edit_two) with [(1, new_file 3 100 (ikey "a" 9) (ikey "f" 8)); (2, new_file 4 300 (ikey "d" 5) (ikey "k" 2))].
  rewrite !at_level_cons. by rewrite app_nil_r.
Qed.

Lemma edit_two_fits : log_number_fits set_two edit_two.
Proof. by split. Qed.

Lemma edit_two_fresh : fresh_in (edits_before bw set_two edit_two []) edit_two.
Proof.
  intros n. assert (E' : added_by (edits_before bw set_two edit_two []) n = []).
  { unfold added_by, edits_before. cbn [set_two descriptor_log_]. cbn [mbind list_bind app]. rewrite snapshot_level, app_nil_r.
    cbn [current_ with_pointers set_two]. by destruct (files_ Version_new !! _) as [files|] eqn:Ef; [apply Version_new_level in Ef as ->|]. }
  rewrite E', edit_two_level. cbn [fmap list_fmap app]. do 2 case_decide; try lia; cbn; repeat constructor; set_solver.
Qed.

Lemma edit_two_apart : edit_apart bw (files_ (current_ set_two)) edit_two.
Proof.
  intros n files ->%Version_new_level _. unfold files_after. rewrite filter_nil. cbn [app].
  assert (Hl : (length (at_level (new_files_ edit_two) n) <= 1)%nat).
  { rewrite edit_two_level. do 2 case_decide; cbn; lia. }
  intros f g Hf Hg. destruct (at_level (new_files_ edit_two) n) as [|x [|y l]]; [by apply elem_of_nil in Hf| |cbn in Hl; lia].
  apply list_elem_of_singleton in Hf as ->. by apply list_elem_of_singleton in Hg as ->.
Qed.

Lemma LogAndApply_installs_witness :
  exists vs' e' log, LogAndApply ibw (fun _ => 0) (str "db") edit_two set_two (fun _ => None : option bytes) = Ok (true, completed set_two edit_two, vs', e') /\
    applied_to bw (str "db") set_two [] edit_two (fun _ => None) vs' e' log.
Proof.
  apply (LogAndApply_installs (E := memory_env) bw (fun _ => 0) (str "db") set_two [] edit_two);
    [done|exact set_two_ok|exact edit_two_good|exact edit_two_fits|exact edit_two_fresh|exact edit_two_apart].
Defined.

(** C18: what is in the manifest when [LogAndApply] returned is enough to have
    the same again: [Recover], by a process that has the files the manifest and
    CURRENT name and enough fuel, succeeds with the same files at all levels,
    the same log numbers, sequence and pointers, and with the next file number
    as the number of its new manifest. *)
Theorem Recover_after_LogAndApply {platform : Platform} {C : Type} `{Comparator C} (c : C) `{!ComparatorLaws C c}
    {E F G R : Type} `{ReliableEnv E F G R} (addr : bytes -> Z) (dbname : bytes) (vs : VersionSet F) es edit (e : E) :
  lengthZ (name c) < 2 ^ 32 -> set_ok c vs es -> edit_good c edit -> log_number_fits vs edit ->
  fresh_in (edits_before c vs edit es) edit -> edit_apart c (files_ (current_ vs)) edit ->
  exists vs' e' log edit' enough,
    LogAndApply (mkInternalKeyComparator c) addr dbname edit vs e = Ok (true, edit', vs', e') /\ descriptor_log_ vs' = Some log /\
    forall e2 addr' fuel rfuel,
      file_of e2 (CurrentFileName dbname) = Some (manifest_name (manifest_file_number_ vs) ++ [chr 10]) ->
      file_of e2 (manifest_path dbname vs) = Some (contents (dest_ log)) -> (enough <= fuel)%nat -> (enough <= rfuel)%nat ->
      Recover (mkInternalKeyComparator c) addr' dbname fuel rfuel e2 VersionSet_new =
        Ok (Status_ok, mkVersionSet (F := F) (u64 (vs_next_file_number vs + 1)) (vs_next_file_number vs) (vs_last_sequence vs')
              (vs_log_number vs') (vs_prev_log_number vs') None (current_ vs') (compact_pointer_ vs')).
Proof.
  intros Hname Hok Hg Hfit Hfresh Hap. destruct (LogAndApply_ok c addr dbname Hname edit vs es e Hok Hg Hfit Hfresh Hap) as (vs' & e' & log & Ela & [Hs Hd _ _ (N1 & N2 & _ & N4 & _) _]).
  set (es' := edits_before c vs edit es ++ [completed vs edit]) in *.
  exists vs', e', log, (completed vs edit), (S (length es' + length (manifest_name (manifest_file_number_ vs)) + 2 + length (concat (edit_bytes <$> es'))))%nat.
  split; [done|]. split; [done|]. intros e2 addr' fuel rfuel Hcur Hman Hfuel Hrfuel. destruct Hs as [Hl _ _ _ Hlog]. rewrite Hd in Hlog.
  destruct Hlog as [[_ Hlay] Hrec]. assert (El : last es' = Some (completed vs edit)) by apply last_snoc.
  rewrite (Recover_ok c addr' dbname es' (completed vs edit) (files_ (current_ vs')) (compact_pointer_ vs') (manifest_file_number_ vs)
    (contents (dest_ log)) (block_offset_ log) e2 fuel rfuel Hrec Hl El); try done; try lia.
  - cbn [ve_next_file_number ve_last_sequence completed]. rewrite N1, N2, N4. by destruct (current_ vs').
  - intros q Hq. pose proof (length_concat_in _ _ Hq). lia.
Qed.

Lemma Recover_after_LogAndApply_witness :
  exists vs' e' log edit' enough,
    LogAndApply ibw (fun _ => 0) (str "db") edit_two set_two (fun _ => None : option bytes) = Ok (true, edit', vs', e') /\ descriptor_log_ vs' = Some log /\
    Recover ibw (fun _ => 0) (str "db") enough enough
      (put_file (put_file (fun _ => None) (CurrentFileName (str "db")) (Some (manifest_name 2 ++ [chr 10])))
         (manifest_path (str "db") set_two) (Some (contents (dest_ log)))) VersionSet_new =
      Ok (Status_ok, mkVersionSet (F := memory_file) 6 5 (vs_last_sequence vs') (vs_log_number vs') (vs_prev_log_number vs') None
            (current_ vs') (compact_pointer_ vs')).
Proof.
  destruct (Recover_after_LogAndApply (E := memory_env) bw (fun _ => 0) (str "db") set_two [] edit_two (fun _ => None)) as
    (vs' & e' & log & edit' & enough & Ela & El & Hrec);
    [done|exact set_two_ok|exact edit_two_good|exact edit_two_fits|exact edit_two_fresh|exact edit_two_apart|].
  exists vs', e', log, edit', enough. split; [exact Ela|]. split; [exact El|]. apply Hrec; cbn [file_of memory_ReliableEnv]; unfold put_file; [|by rewrite bool_decide_eq_true_2|lia|lia].
  rewrite bool_decide_eq_false_2, bool_decide_eq_true_2; [done|done|by vm_compute].
Defined.

(** C19: when [LogAndApply] fails, whatever the environment did, the set has the
    version, the log numbers, the sequence and the file numbers it had; it has
    a manifest to write to exactly if it had one before, and a new manifest was
    deleted. *)
Theorem LogAndApply_failure {platform : Platform} {C : Type} `{Comparator C} (icmp : InternalKeyComparator C)
    {E F G R : Type} `{Env E F G R} `{WritableFile F} `{SequentialFile G} (addr : bytes -> Z) (dbname : bytes) edit (vs : VersionSet F) (e : E) edit' vs' e' :
  LogAndApply icmp addr dbname edit vs e = Ok (false, edit', vs', e') ->
  current_ vs' = current_ vs /\ vs_log_number vs' = vs_log_number vs /\ vs_prev_log_number vs' = vs_prev_log_number vs /\
  vs_last_sequence vs' = vs_last_sequence vs /\ vs_next_file_number vs' = vs_next_file_number vs /\
  manifest_file_number_ vs' = manifest_file_number_ vs /\
  match descriptor_log_ vs with
  | Some _ => is_Some (descriptor_log_ vs')
  | None => descriptor_log_ vs' = None /\ exists e1 path, DescriptorFileName dbname (manifest_file_number_ vs) = Ok path /\ (env_DeleteFile e1 path).2 = e'
  end.
Proof.
  unfold LogAndApply. intros (edit1 & E1 & ([b ps] & E2 & (v & E3 & Hrest)%bind_Ok)%bind_Ok)%bind_Ok.
  set (vs1 := mkVersionSet _ _ _ _ _ _ _ _) in Hrest. apply bind_Ok in Hrest as ([[[s desc] nm] e1] & E4 & Hrest).
  assert (Hnm : match descriptor_log_ vs with
    | Some _ => nm = None /\ is_Some desc
    | None => exists path, nm = Some path /\ DescriptorFileName dbname (manifest_file_number_ vs) = Ok path end).
  { unfold open_descriptor, vs1 in E4. cbn in E4. destruct (descriptor_log_ vs) as [log|]; [injection E4 as <- <- <- <-; by split; [|eexists]|].
    apply bind_Ok in E4 as (path & -> & E4). destruct (env_NewWritableFile e path) as [[file|] e2].
    - apply bind_Ok in E4 as ([s' log] & _ & E4). injection E4 as <- <- <- <-. exists path. by split.
    - injection E4 as <- <- <- <-. exists path. by split. }
  apply bind_Ok in Hrest as ([s1 desc1] & E5 & Hrest). apply bind_Ok in Hrest as ([s2 e2] & E6 & Hrest).
  assert (Hdesc : is_Some desc -> is_Some desc1).
  { intros [log ->]. destruct s; [apply bind_Ok in E5 as ([s' log'] & _ & E5)|]; injection E5 as <- <-; by eexists. }
  destruct s2; [done|]. destruct nm as [path|].
  - destruct (env_DeleteFile _ path) as [sd e3] eqn:Edel in Hrest. injection Hrest as <- <- <-. cbn. split_and!; try done.
    destruct (descriptor_log_ vs) as [log|]; [by destruct Hnm|]. destruct Hnm as (path' & [= <-] & Epath). split; [done|].
    do 2 eexists. split; [exact Epath|]. by rewrite Edel.
  - injection Hrest as <- <- <-. cbn. split_and!; try done. destruct (descriptor_log_ vs) as [log|]; [|by destruct Hnm as (? & ? & ?)].
    apply Hdesc. by destruct Hnm.
Qed.

(** An environment that makes no files. *)
#[local] Instance read_only : Env unit memory_file memory_file memory_file := {
  env_NewWritableFile e n := (None, e); env_Sync f := (true, f); env_Close e n f := (true, e); env_Drop e n f := e;
  env_NewSequentialFile e n := None; env_NewRandomAccessFile e n := None; env_RenameFile e n n' := (false, e);
  env_DeleteFile e n := (false, e); env_FileExists e n := false
}.

Lemma LogAndApply_failure_witness :
  exists edit' vs' e', LogAndApply (E := unit) ibw (fun _ => 0) (str "db") edit_two set_two tt = Ok (false, edit', vs', e') /\
    current_ vs' = current_ set_two /\ descriptor_log_ vs' = None.
Proof.
  eexists _, _, _. split; [vm_compute; reflexivity|].
  edestruct (LogAndApply_failure (E := unit) ibw (fun _ => 0) (str "db") edit_two set_two tt) as (Hc & _ & _ & _ & _ & _ & Hd & _); [vm_compute; reflexivity|].
  split; [exact Hc|exact Hd].
Defined.
